(** * Curcuma: conformer scanner and MD integrator, checked against their specification

    A shallow embedding of the parts of
    - [src/tools/geometry.h]          (translation and distance),
    - [src/capabilities/rmsd.h]       (assignment cost kernel, the objective
      of the rotation search),
    - [src/capabilities/confscan.cpp] (conformer scanner passes, rule cache),
    - [src/capabilities/simplemd.cpp] (Verlet / RATTLE integrators, kinetic
      energy, confining walls, RMSD metadynamics)
    that the specification makes statements about.

    Conventions of the embedding.
    - A C++ [double] is a value of an abstract arithmetic [D] (class
      [Arith]).  Two instances are given: exact rationals [Q], used for
      algebraic statements, and IEEE binary64 ([PrimFloat.float]), used where
      NaN matters and for evaluating the code on concrete inputs.
    - A C++ [int] is a [Z]; signed overflow is undefined behaviour in C++ and
      is not modelled.
    - Flat Eigen / std::vector buffers ([data()[3 * i + k]]) are lists read
      with a default of zero outside their bounds.
    - Calls into code that is not part of the sources (libm, the RMSD driver,
      the energy backend, the thread pool) are parameters of the sections that
      use them. *)

From Stdlib Require Import String ZArith QArith Qabs Lqa List Bool Lia.
From Stdlib Require Import Sorted Permutation Uint63 PrimFloat.
Import ListNotations.

Set Implicit Arguments.

(* ===================================================================== *)
(** ** Arithmetic of [double]                                             *)
(* ===================================================================== *)

Declare Scope D_scope.
Delimit Scope D_scope with D.

Class Arith (D : Type) : Type := {
  lit    : Q -> D;            (* a literal, or an int converted to double *)
  dadd   : D -> D -> D;
  dsub   : D -> D -> D;
  dmul   : D -> D -> D;
  ddiv   : D -> D -> D;
  dltb   : D -> D -> bool;    (* a < b  *)
  dleb   : D -> D -> bool;    (* a <= b *)
  deqb   : D -> D -> bool;    (* a == b *)
  dopp   : D -> D;            (* unary minus *)
  dabs   : D -> D;            (* std::abs *)
  dbl_max : D;                (* std::numeric_limits<double>::max() *)
  disnan : D -> bool;         (* std::isnan *)
  disinf : D -> bool          (* std::isinf *)
}.

Infix "+" := dadd : D_scope.
Infix "-" := dsub : D_scope.
Infix "*" := dmul : D_scope.
Infix "/" := ddiv : D_scope.
Infix "<?" := dltb : D_scope.
Infix "<=?" := dleb : D_scope.
Notation "a >? b" := (dltb b a) (at level 70) : D_scope.
Notation "a >=? b" := (dleb b a) (at level 70) : D_scope.
Infix "=?" := deqb : D_scope.
Notation "- a" := (dopp a) : D_scope.

(** [int] to [double] conversion. *)
Definition of_int {D} `{Arith D} (z : Z) : D := lit (inject_Z z).

(** *** Exact rationals *)

Definition Qltb (a b : Q) : bool :=
  match a ?= b with Lt => true | _ => false end.

#[export] Instance Q_Arith : Arith Q := {|
  lit := fun q => q;
  dadd := Qplus; dsub := Qminus; dmul := Qmult; ddiv := Qdiv;
  dltb := Qltb; dleb := Qle_bool; deqb := Qeq_bool;
  dopp := Qopp;
  dabs := Qabs;
  dbl_max := inject_Z (2 ^ 1024 - 2 ^ 971);
  disnan := fun _ => false;
  disinf := fun _ => false
|}.

(** *** IEEE binary64 *)

Definition float_of_Z (z : Z) : float :=
  match z with
  | Z0 => PrimFloat.zero
  | Zpos p => PrimFloat.of_uint63 (Uint63.of_Z (Zpos p))
  | Zneg p => PrimFloat.opp (PrimFloat.of_uint63 (Uint63.of_Z (Zpos p)))
  end.

(** A decimal literal [n/d] is the correctly rounded quotient of two exactly
    representable integers. *)
Definition float_of_Q (q : Q) : float :=
  PrimFloat.div (float_of_Z (Qnum q)) (float_of_Z (Zpos (Qden q))).

#[export] Instance float_Arith : Arith float := {|
  lit := float_of_Q;
  dadd := PrimFloat.add; dsub := PrimFloat.sub;
  dmul := PrimFloat.mul; ddiv := PrimFloat.div;
  dltb := PrimFloat.ltb; dleb := PrimFloat.leb; deqb := PrimFloat.eqb;
  dopp := PrimFloat.opp;
  dabs := PrimFloat.abs;
  dbl_max := 0x1.fffffffffffffp+1023%float;
  disnan := PrimFloat.is_nan;
  disinf := PrimFloat.is_infinity
|}.

(* ===================================================================== *)
(** ** rmsd.h: the assignment cost kernel                                 *)
(* ===================================================================== *)

Module RMSDDriver.
Section Cost.
Context {D : Type} `{Arith D}.
Local Open Scope D_scope.

(** [static inline double Cost(double distance, double norm, int costmatrix)] *)
Definition Cost (distance norm : D) (costmatrix : Z) : D :=
  if (costmatrix =? 1)%Z then distance * distance
  else if (costmatrix =? 2)%Z then distance
  else if (costmatrix =? 3)%Z then distance + norm
  else if (costmatrix =? 4)%Z then distance * distance + norm * norm
  else if (costmatrix =? 5)%Z then distance * norm
  else if (costmatrix =? 6)%Z then distance * distance * norm * norm
  else distance * distance.

End Cost.
End RMSDDriver.

(* ===================================================================== *)
(** ** geometry.h: translation and distance                               *)
(* ===================================================================== *)

Module GeometryTools.
Section GeometryTools.
Context {D : Type} `{Arith D}.
Local Open Scope D_scope.

(** Not part of the sources: libm's [sqrt]. *)
Variable sqrt : D -> D.

(** [Position]: a row of three coordinates; [Geometry]: one row per atom. *)
Definition Position : Type := (D * D * D)%type.
Definition Geometry : Type := list Position.

Definition px (a : Position) : D := fst (fst a).
Definition py (a : Position) : D := snd (fst a).
Definition pz (a : Position) : D := snd a.

(** [a + b] and [a - b] on rows *)
Definition padd (a b : Position) : Position :=
  (px a + px b, py a + py b, pz a + pz b).

Definition psub (a b : Position) : Position :=
  (px a - px b, py a - py b, pz a - pz b).

(** [Geometry TranslateMolecule(const Molecule&, const Position& start,
    const Position& destination)]; [geom] is [molecule.getGeometry()]. *)
Definition TranslateMolecule (geom : Geometry) (start destination : Position)
  : Geometry :=
  let direction := psub destination start in
  map (fun row => padd row direction) geom.

(** [double Distance(const Position& a, const Position& b)] *)
Definition Distance (a b : Position) : D :=
  sqrt ((px a - px b) * (px a - px b)
        + (py a - py b) * (py a - py b)
        + (pz a - pz b) * (pz a - pz b)).

End GeometryTools.
End GeometryTools.

(* ===================================================================== *)
(** ** Shared helpers: flat buffers, counted loops, fallible loops        *)
(* ===================================================================== *)

Section Buffers.
Context {D : Type} `{Arith D}.

(** [v.data()[i]] *)
Definition rd (v : list D) (i : nat) : D := nth i v (lit 0).

(** [v.data()[i] = x]; a write outside the buffer is undefined behaviour in
    C++ and leaves the model unchanged. *)
Fixpoint wr (v : list D) (i : nat) (x : D) : list D :=
  match v, i with
  | [], _ => []
  | _ :: t, O => x :: t
  | h :: t, S j => h :: wr t j x
  end.

End Buffers.

(** [for (int i = 0; i < n; ++i) body] *)
Definition for_range {S : Type} (n : nat) (body : nat -> S -> S) (s : S) : S :=
  fold_left (fun acc i => body i acc) (seq 0 n) s.

(** Same buffer operations on [std::vector<int>]. *)
Definition rdZ (v : list Z) (i : nat) : Z := nth i v 0%Z.

Fixpoint wrZ (v : list Z) (i : nat) (x : Z) : list Z :=
  match v, i with
  | [], _ => []
  | _ :: t, O => x :: t
  | h :: t, S j => h :: wrZ t j x
  end.

(** Result of code that can call [exit(0)] or loop: the value, the process
    exit, or the model running out of fuel. *)
Inductive res (A : Type) : Type :=
| Ok (a : A)
| Exited
| NoFuel.
Arguments Ok {A} a.
Arguments Exited {A}.
Arguments NoFuel {A}.

Definition rbind {A B : Type} (m : res A) (k : A -> res B) : res B :=
  match m with
  | Ok a => k a
  | Exited => Exited
  | NoFuel => NoFuel
  end.

Notation "x <- m ;; k" := (rbind m (fun x => k))
  (at level 61, m at next level, right associativity).

(** [for (auto x : l) body], with a fallible body. *)
Fixpoint for_each {X S : Type} (l : list X) (body : X -> S -> res S) (s : S) : res S :=
  match l with
  | [] => Ok s
  | x :: t => s' <- body x s ;; for_each t body s'
  end.

(** [while (cond) body]: the body reports whether it left through [break].
    The second component of the result counts the iterations entered. *)
Fixpoint while_loop {S : Type} (fuel : nat) (cond : S -> bool)
    (body : S -> res (S * bool)) (s : S) (n : nat) : res (S * nat) :=
  match fuel with
  | O => NoFuel
  | Datatypes.S f =>
      if cond s then
        match body s with
        | Ok (s', brk) =>
            if brk then Ok (s', Datatypes.S n)
            else while_loop f cond body s' (Datatypes.S n)
        | Exited => Exited
        | NoFuel => NoFuel
        end
      else Ok (s, n)
  end.

(** The run of a model with fuel comes to the result [r], which is not the
    fuel running out, at every amount of fuel from some amount on. *)
Definition settles {A : Type} (run : nat -> res A) (r : res A) : Prop :=
  r <> NoFuel /\ exists fuel0 : nat, forall fuel : nat, (fuel0 <= fuel)%nat -> run fuel = r.

(** A run gives, with more fuel, the result it gave, unless the fuel had
    run out. *)
Definition fuel_mono {A : Type} (run : nat -> res A) : Prop :=
  forall (f f' : nat) (r : res A),
    run f = r -> r <> NoFuel -> (f <= f')%nat -> run f' = r.

(* ===================================================================== *)
(** ** rmsd.h: the objective handed to the L-BFGS solver                  *)
(* ===================================================================== *)

Module LBFGSRotation.
Section LBFGSRotation.
Context {D : Type} `{Arith D}.
Local Open Scope D_scope.

(** Not part of the sources: the cost of the assignment for the three
    rotation angles, [RMSDDriver::MakeCostMatrix(m_reference, m_target * n,
    ...).first] with [n] the rotation by the angles. *)
Variable objective : list D -> D.

(** [double dx = 1e-5;] *)
Definition dx : D := lit (1 # 100000).

(** The body of the loop over the three angles: [tmp] and [grad]. *)
Definition probe (i : nat) (a : list D * list D) : list D * list D :=
  let tmp := wr (fst a) i (rd (fst a) i + dx) in
  let p := objective tmp in
  let tmp := wr tmp i (rd tmp i - lit 2 * dx) in
  let m := objective tmp in
  (tmp, wr (snd a) i ((p - m) / (lit 2 * dx))).

(** [double operator()(const Eigen::VectorXd& x, Eigen::VectorXd& grad)]:
    the value returned and [grad]. *)
Definition call (x grad : list D) : D * list D :=
  (objective x, snd (for_range 3 probe (x, grad))).

(** *** Vocabulary *)

(** The central difference quotient of the objective along angle [i]. *)
Definition central_difference (i : nat) (x : list D) : D :=
  (objective (wr x i (rd x i + dx)) - objective (wr x i (rd x i - dx)))
  / (lit 2 * dx).

End LBFGSRotation.
End LBFGSRotation.

(* ===================================================================== *)
(** ** simplemd.cpp: BiasThread                                           *)
(* ===================================================================== *)

Module BiasThread.
Section BiasThread.
Context {D : Type} `{Arith D}.
Local Open Scope D_scope.

(** An N x 3 matrix, element [(i, k)] stored at [3 * i + k]. *)
Definition Geometry : Type := list D.

(** Not part of the sources: libm's [exp], the constant [kb_Eh] of global.h
    and the RMSD driver ([BestFitRMSD] and [Gradient] for a reference and a
    target geometry). *)
Variable exp : D -> D.
Variable kb_Eh : D.
Variable BestFitRMSD : Geometry -> Geometry -> D.
Variable DriverGradient : Geometry -> Geometry -> list D.

Record BiasStructure : Type := {
  geometry : Geometry;
  rmsd_reference : D;
  energy : D;
  factor : D;
  counter : Z;
  time : D;
  index : Z
}.

Record t : Type := {
  m_reference : Geometry;
  m_atoms : Z;
  m_biased_structures : list BiasStructure;
  m_k : D;
  m_alpha : D;
  m_dT : D;
  m_DT : D;
  m_rmsd_econv : D;
  m_wtmtd : bool;
  m_currentStep : D;
  m_current_bias : D;
  m_counter : Z;
  m_gradient : list D;
  m_rmsd_reference : D;
  return_value : Z
}.

(** The accumulators of [execute]. *)
Record Acc : Type := {
  a_structures : list BiasStructure;   (* the structures already updated *)
  a_current_bias : D;
  a_counter : Z;
  a_gradient : list D;
  a_rmsd_reference : D
}.

Definition mat_axpy (g m : list D) (c : D) : list D :=
  map (fun p => fst p + snd p * c) (combine g m).

(** The body of the loop of [execute] for structure number [i]. *)
Definition execute_body (th : t) (i : nat) (s : BiasStructure) (a : Acc) : Acc :=
  let rmsd := BestFitRMSD (m_reference th) (geometry s) in
  let expr := exp (- rmsd * rmsd * m_alpha th) in
  let bias_energy := expr * m_dT th in
  let factor0 := factor s in
  let factor1 :=
    if negb (m_wtmtd th) then of_int (counter s)
    else factor0 + exp (- (energy s) / kb_Eh / m_DT th) in
  let rmsd_ref := if Nat.eqb i 0 then rmsd else a_rmsd_reference a in
  let hit := expr * m_rmsd_econv th
             >? of_int (1 * Z.of_nat (length (m_biased_structures th))) in
  let counter1 := if hit then (counter s + 1)%Z else counter s in
  let energy1 := if hit then energy s + bias_energy else energy s in
  let bias_energy1 := bias_energy * (factor1 * m_k th) in
  let dEdR := lit (-2) * m_alpha th * m_k th / of_int (m_atoms th)
              * exp (- rmsd * rmsd * m_alpha th) * factor1 * m_dT th in
  {| a_structures := a_structures a ++
       [{| geometry := geometry s; rmsd_reference := rmsd_reference s;
           energy := energy1; factor := factor1; counter := counter1;
           time := time s; index := index s |}];
     a_current_bias := a_current_bias a + bias_energy1;
     a_counter := (a_counter a + counter1)%Z;
     a_gradient := mat_axpy (a_gradient a)
                     (DriverGradient (m_reference th) (geometry s)) dEdR;
     a_rmsd_reference := rmsd_ref |}.

Fixpoint execute_loop (th : t) (i : nat) (l : list BiasStructure) (a : Acc) : Acc :=
  match l with
  | [] => a
  | s :: rest => execute_loop th (S i) rest (execute_body th i s a)
  end.

(** [int BiasThread::execute()] (the COLVAR file output is left out). *)
Definition execute (th : t) : t :=
  match m_biased_structures th with
  | [] =>
      {| m_reference := m_reference th; m_atoms := m_atoms th;
         m_biased_structures := m_biased_structures th;
         m_k := m_k th; m_alpha := m_alpha th; m_dT := m_dT th; m_DT := m_DT th;
         m_rmsd_econv := m_rmsd_econv th; m_wtmtd := m_wtmtd th;
         m_currentStep := m_currentStep th;
         m_current_bias := m_current_bias th; m_counter := m_counter th;
         m_gradient := m_gradient th; m_rmsd_reference := m_rmsd_reference th;
         return_value := 0 |}
  | _ :: _ =>
      let a := execute_loop th 0 (m_biased_structures th)
                 {| a_structures := []; a_current_bias := lit 0; a_counter := 0;
                    a_gradient := repeat (lit 0) (length (m_reference th));
                    a_rmsd_reference := m_rmsd_reference th |} in
      {| m_reference := m_reference th; m_atoms := m_atoms th;
         m_biased_structures := a_structures a;
         m_k := m_k th; m_alpha := m_alpha th; m_dT := m_dT th; m_DT := m_DT th;
         m_rmsd_econv := m_rmsd_econv th; m_wtmtd := m_wtmtd th;
         m_currentStep := m_currentStep th;
         m_current_bias := a_current_bias a; m_counter := a_counter a;
         m_gradient := a_gradient a; m_rmsd_reference := a_rmsd_reference a;
         return_value := 1 |}
  end.

(** [setCurrentGeometry(geometry, currentStep)] *)
Definition setCurrentGeometry (g : Geometry) (step : D) (th : t) : t :=
  {| m_reference := g; m_atoms := m_atoms th;
     m_biased_structures := m_biased_structures th;
     m_k := m_k th; m_alpha := m_alpha th; m_dT := m_dT th; m_DT := m_DT th;
     m_rmsd_econv := m_rmsd_econv th; m_wtmtd := m_wtmtd th;
     m_currentStep := step;
     m_current_bias := m_current_bias th; m_counter := m_counter th;
     m_gradient := m_gradient th; m_rmsd_reference := m_rmsd_reference th;
     return_value := return_value th |}.

(** Modelled from the spec: [BiasThread::addGeometry(geometry, rmsd_reference,
    time, index)] is defined in simplemd.h, which is not among the sources.
    It appends a bias structure holding the geometry snapshot, the reference
    RMSD at deposition, the deposition time step and the global structure
    index; the initial visit counter, deposited energy and well-tempering
    accumulator are the parameters [counter0], [energy0] and [factor0]. *)
Variable counter0 : Z.
Variable energy0 : D.
Variable factor0 : D.

Definition addGeometry (g : Geometry) (rmsd_ref time0 : D) (idx : Z) (th : t) : t :=
  {| m_reference := m_reference th; m_atoms := m_atoms th;
     m_biased_structures := m_biased_structures th ++
       [{| geometry := g; rmsd_reference := rmsd_ref; energy := energy0;
           factor := factor0; counter := counter0; time := time0; index := idx |}];
     m_k := m_k th; m_alpha := m_alpha th; m_dT := m_dT th; m_DT := m_DT th;
     m_rmsd_econv := m_rmsd_econv th; m_wtmtd := m_wtmtd th;
     m_currentStep := m_currentStep th;
     m_current_bias := m_current_bias th; m_counter := m_counter th;
     m_gradient := m_gradient th; m_rmsd_reference := m_rmsd_reference th;
     return_value := return_value th |}.

(** *** Vocabulary for statements about the bias *)

(** The visit counter and the RMSD of each of the structures [l], seen from
    the worker [th]. *)
Definition terms_of (th : t) (l : list BiasStructure) : list (D * D) :=
  map (fun s => (of_int (counter s),
                 BestFitRMSD (m_reference th) (geometry s))) l.

(** The sum of the visit counters of the structures [l]. *)
Definition visits (l : list BiasStructure) : Z :=
  fold_right (fun s n => (counter s + n)%Z) 0%Z l.

(** The structure [s'] is [s] after the worker [th] has been over it: the
    same snapshot, either not visited or visited once more. *)
Definition revisited (th : t) (s s' : BiasStructure) : Prop :=
  let rmsd := BestFitRMSD (m_reference th) (geometry s) in
  geometry s' = geometry s /\ rmsd_reference s' = rmsd_reference s
  /\ time s' = time s /\ index s' = index s
  /\ ((counter s' = counter s /\ energy s' = energy s)
      \/ (counter s' = (counter s + 1)%Z
          /\ energy s' = energy s + exp (- rmsd * rmsd * m_alpha th) * m_dT th)).

End BiasThread.

Arguments BiasStructure : clear implicits.
Arguments t : clear implicits.
Arguments Acc : clear implicits.

End BiasThread.

(* ===================================================================== *)
(** ** simplemd.cpp: SimpleMD                                             *)
(* ===================================================================== *)

Module SimpleMD.
Section SimpleMD.
Context {D : Type} `{Arith D}.
Local Open Scope D_scope.

Definition Geometry : Type := list D.
Definition BT : Type := BiasThread.t D.

(** State of the thermostat that is private to it (Nose-Hoover chain
    variables, random engines). *)
Variable Th : Type.

(** Set once by the constructor and by [Initialise]. *)
Record Config : Type := {
  m_natoms : nat;
  m_eigen_masses : list D;       (* 3 * m_natoms entries *)
  m_eigen_inv_masses : list D;   (* 3 * m_natoms entries *)
  m_dT : D;
  m_dt2 : D;
  m_T0 : D;
  m_rmsd_mtd : bool;
  m_mtd_steps : Z;
  m_threads : Z;
  m_rmsd_econv : D;
  m_rmsd_fix_structure : bool;
  m_rmsd_indicies : list nat;
  m_rattle_maxiter : Z;
  m_rattle_max : D;
  m_rattle_min : D;
  m_rattle_tol_12 : D;
  m_rattle_tol_13 : D;
  m_bond_constrained : list ((nat * nat) * D);
  m_bond_13_constrained : list ((nat * nat) * D);
  m_wall_temp : D;
  m_wall_beta : D;
  m_wall_spheric_radius : D;
  m_wall_x_min : D;
  m_wall_x_max : D;
  m_wall_y_min : D;
  m_wall_y_max : D;
  m_wall_z_min : D;
  m_wall_z_max : D
}.

(** What the integrators read and write. *)
Record State : Type := {
  m_eigen_geometry : list D;   (* flat N x 3 positions *)
  m_eigen_velocities : list D;   (* flat N x 3 velocities *)
  m_eigen_gradient : list D;   (* flat N x 3 gradient *)
  m_T : D;
  m_Ekin : D;
  m_Epot : D;
  m_dof : Z;
  m_unstable : bool;
  m_virial_correction : D;
  m_wall_violation_count : Z;
  m_bias_threads : list BT;
  m_bias_structure_count : Z;
  m_bias_energy : D;
  m_colvar_incr : Z;
  m_rmsd_mtd_molecule : Geometry;   (* geometry of m_rmsd_mtd_molecule *)
  m_step : Z;   (* the member read by Verlet and Rattle *)
  m_currentStep : D;
  m_interface_error : bool;   (* m_interface->Error() *)
  m_interface_nan : bool;   (* m_interface->HasNan() *)
  m_thermostat_state : Th   (* chain variables, random engines *)
}.

(** Assignments to one member. *)
Definition set_m_eigen_geometry (x : list D) (s : State) : State :=
  {| m_eigen_geometry := x; m_eigen_velocities := m_eigen_velocities s;
     m_eigen_gradient := m_eigen_gradient s; m_T := m_T s; m_Ekin := m_Ekin s;
     m_Epot := m_Epot s; m_dof := m_dof s; m_unstable := m_unstable s;
     m_virial_correction := m_virial_correction s; m_wall_violation_count :=
     m_wall_violation_count s; m_bias_threads := m_bias_threads s;
     m_bias_structure_count := m_bias_structure_count s; m_bias_energy :=
     m_bias_energy s; m_colvar_incr := m_colvar_incr s; m_rmsd_mtd_molecule :=
     m_rmsd_mtd_molecule s; m_step := m_step s; m_currentStep := m_currentStep
     s; m_interface_error := m_interface_error s; m_interface_nan :=
     m_interface_nan s; m_thermostat_state := m_thermostat_state s |}.

Definition set_m_eigen_velocities (x : list D) (s : State) : State :=
  {| m_eigen_geometry := m_eigen_geometry s; m_eigen_velocities := x;
     m_eigen_gradient := m_eigen_gradient s; m_T := m_T s; m_Ekin := m_Ekin s;
     m_Epot := m_Epot s; m_dof := m_dof s; m_unstable := m_unstable s;
     m_virial_correction := m_virial_correction s; m_wall_violation_count :=
     m_wall_violation_count s; m_bias_threads := m_bias_threads s;
     m_bias_structure_count := m_bias_structure_count s; m_bias_energy :=
     m_bias_energy s; m_colvar_incr := m_colvar_incr s; m_rmsd_mtd_molecule :=
     m_rmsd_mtd_molecule s; m_step := m_step s; m_currentStep := m_currentStep
     s; m_interface_error := m_interface_error s; m_interface_nan :=
     m_interface_nan s; m_thermostat_state := m_thermostat_state s |}.

Definition set_m_eigen_gradient (x : list D) (s : State) : State :=
  {| m_eigen_geometry := m_eigen_geometry s; m_eigen_velocities :=
     m_eigen_velocities s; m_eigen_gradient := x; m_T := m_T s; m_Ekin :=
     m_Ekin s; m_Epot := m_Epot s; m_dof := m_dof s; m_unstable := m_unstable
     s; m_virial_correction := m_virial_correction s; m_wall_violation_count
     := m_wall_violation_count s; m_bias_threads := m_bias_threads s;
     m_bias_structure_count := m_bias_structure_count s; m_bias_energy :=
     m_bias_energy s; m_colvar_incr := m_colvar_incr s; m_rmsd_mtd_molecule :=
     m_rmsd_mtd_molecule s; m_step := m_step s; m_currentStep := m_currentStep
     s; m_interface_error := m_interface_error s; m_interface_nan :=
     m_interface_nan s; m_thermostat_state := m_thermostat_state s |}.

Definition set_m_T (x : D) (s : State) : State :=
  {| m_eigen_geometry := m_eigen_geometry s; m_eigen_velocities :=
     m_eigen_velocities s; m_eigen_gradient := m_eigen_gradient s; m_T := x;
     m_Ekin := m_Ekin s; m_Epot := m_Epot s; m_dof := m_dof s; m_unstable :=
     m_unstable s; m_virial_correction := m_virial_correction s;
     m_wall_violation_count := m_wall_violation_count s; m_bias_threads :=
     m_bias_threads s; m_bias_structure_count := m_bias_structure_count s;
     m_bias_energy := m_bias_energy s; m_colvar_incr := m_colvar_incr s;
     m_rmsd_mtd_molecule := m_rmsd_mtd_molecule s; m_step := m_step s;
     m_currentStep := m_currentStep s; m_interface_error := m_interface_error
     s; m_interface_nan := m_interface_nan s; m_thermostat_state :=
     m_thermostat_state s |}.

Definition set_m_Ekin (x : D) (s : State) : State :=
  {| m_eigen_geometry := m_eigen_geometry s; m_eigen_velocities :=
     m_eigen_velocities s; m_eigen_gradient := m_eigen_gradient s; m_T := m_T
     s; m_Ekin := x; m_Epot := m_Epot s; m_dof := m_dof s; m_unstable :=
     m_unstable s; m_virial_correction := m_virial_correction s;
     m_wall_violation_count := m_wall_violation_count s; m_bias_threads :=
     m_bias_threads s; m_bias_structure_count := m_bias_structure_count s;
     m_bias_energy := m_bias_energy s; m_colvar_incr := m_colvar_incr s;
     m_rmsd_mtd_molecule := m_rmsd_mtd_molecule s; m_step := m_step s;
     m_currentStep := m_currentStep s; m_interface_error := m_interface_error
     s; m_interface_nan := m_interface_nan s; m_thermostat_state :=
     m_thermostat_state s |}.

Definition set_m_Epot (x : D) (s : State) : State :=
  {| m_eigen_geometry := m_eigen_geometry s; m_eigen_velocities :=
     m_eigen_velocities s; m_eigen_gradient := m_eigen_gradient s; m_T := m_T
     s; m_Ekin := m_Ekin s; m_Epot := x; m_dof := m_dof s; m_unstable :=
     m_unstable s; m_virial_correction := m_virial_correction s;
     m_wall_violation_count := m_wall_violation_count s; m_bias_threads :=
     m_bias_threads s; m_bias_structure_count := m_bias_structure_count s;
     m_bias_energy := m_bias_energy s; m_colvar_incr := m_colvar_incr s;
     m_rmsd_mtd_molecule := m_rmsd_mtd_molecule s; m_step := m_step s;
     m_currentStep := m_currentStep s; m_interface_error := m_interface_error
     s; m_interface_nan := m_interface_nan s; m_thermostat_state :=
     m_thermostat_state s |}.

Definition set_m_dof (x : Z) (s : State) : State :=
  {| m_eigen_geometry := m_eigen_geometry s; m_eigen_velocities :=
     m_eigen_velocities s; m_eigen_gradient := m_eigen_gradient s; m_T := m_T
     s; m_Ekin := m_Ekin s; m_Epot := m_Epot s; m_dof := x; m_unstable :=
     m_unstable s; m_virial_correction := m_virial_correction s;
     m_wall_violation_count := m_wall_violation_count s; m_bias_threads :=
     m_bias_threads s; m_bias_structure_count := m_bias_structure_count s;
     m_bias_energy := m_bias_energy s; m_colvar_incr := m_colvar_incr s;
     m_rmsd_mtd_molecule := m_rmsd_mtd_molecule s; m_step := m_step s;
     m_currentStep := m_currentStep s; m_interface_error := m_interface_error
     s; m_interface_nan := m_interface_nan s; m_thermostat_state :=
     m_thermostat_state s |}.

Definition set_m_unstable (x : bool) (s : State) : State :=
  {| m_eigen_geometry := m_eigen_geometry s; m_eigen_velocities :=
     m_eigen_velocities s; m_eigen_gradient := m_eigen_gradient s; m_T := m_T
     s; m_Ekin := m_Ekin s; m_Epot := m_Epot s; m_dof := m_dof s; m_unstable
     := x; m_virial_correction := m_virial_correction s;
     m_wall_violation_count := m_wall_violation_count s; m_bias_threads :=
     m_bias_threads s; m_bias_structure_count := m_bias_structure_count s;
     m_bias_energy := m_bias_energy s; m_colvar_incr := m_colvar_incr s;
     m_rmsd_mtd_molecule := m_rmsd_mtd_molecule s; m_step := m_step s;
     m_currentStep := m_currentStep s; m_interface_error := m_interface_error
     s; m_interface_nan := m_interface_nan s; m_thermostat_state :=
     m_thermostat_state s |}.

Definition set_m_virial_correction (x : D) (s : State) : State :=
  {| m_eigen_geometry := m_eigen_geometry s; m_eigen_velocities :=
     m_eigen_velocities s; m_eigen_gradient := m_eigen_gradient s; m_T := m_T
     s; m_Ekin := m_Ekin s; m_Epot := m_Epot s; m_dof := m_dof s; m_unstable
     := m_unstable s; m_virial_correction := x; m_wall_violation_count :=
     m_wall_violation_count s; m_bias_threads := m_bias_threads s;
     m_bias_structure_count := m_bias_structure_count s; m_bias_energy :=
     m_bias_energy s; m_colvar_incr := m_colvar_incr s; m_rmsd_mtd_molecule :=
     m_rmsd_mtd_molecule s; m_step := m_step s; m_currentStep := m_currentStep
     s; m_interface_error := m_interface_error s; m_interface_nan :=
     m_interface_nan s; m_thermostat_state := m_thermostat_state s |}.

Definition set_m_wall_violation_count (x : Z) (s : State) : State :=
  {| m_eigen_geometry := m_eigen_geometry s; m_eigen_velocities :=
     m_eigen_velocities s; m_eigen_gradient := m_eigen_gradient s; m_T := m_T
     s; m_Ekin := m_Ekin s; m_Epot := m_Epot s; m_dof := m_dof s; m_unstable
     := m_unstable s; m_virial_correction := m_virial_correction s;
     m_wall_violation_count := x; m_bias_threads := m_bias_threads s;
     m_bias_structure_count := m_bias_structure_count s; m_bias_energy :=
     m_bias_energy s; m_colvar_incr := m_colvar_incr s; m_rmsd_mtd_molecule :=
     m_rmsd_mtd_molecule s; m_step := m_step s; m_currentStep := m_currentStep
     s; m_interface_error := m_interface_error s; m_interface_nan :=
     m_interface_nan s; m_thermostat_state := m_thermostat_state s |}.

Definition set_m_bias_threads (x : list BT) (s : State) : State :=
  {| m_eigen_geometry := m_eigen_geometry s; m_eigen_velocities :=
     m_eigen_velocities s; m_eigen_gradient := m_eigen_gradient s; m_T := m_T
     s; m_Ekin := m_Ekin s; m_Epot := m_Epot s; m_dof := m_dof s; m_unstable
     := m_unstable s; m_virial_correction := m_virial_correction s;
     m_wall_violation_count := m_wall_violation_count s; m_bias_threads := x;
     m_bias_structure_count := m_bias_structure_count s; m_bias_energy :=
     m_bias_energy s; m_colvar_incr := m_colvar_incr s; m_rmsd_mtd_molecule :=
     m_rmsd_mtd_molecule s; m_step := m_step s; m_currentStep := m_currentStep
     s; m_interface_error := m_interface_error s; m_interface_nan :=
     m_interface_nan s; m_thermostat_state := m_thermostat_state s |}.

Definition set_m_bias_structure_count (x : Z) (s : State) : State :=
  {| m_eigen_geometry := m_eigen_geometry s; m_eigen_velocities :=
     m_eigen_velocities s; m_eigen_gradient := m_eigen_gradient s; m_T := m_T
     s; m_Ekin := m_Ekin s; m_Epot := m_Epot s; m_dof := m_dof s; m_unstable
     := m_unstable s; m_virial_correction := m_virial_correction s;
     m_wall_violation_count := m_wall_violation_count s; m_bias_threads :=
     m_bias_threads s; m_bias_structure_count := x; m_bias_energy :=
     m_bias_energy s; m_colvar_incr := m_colvar_incr s; m_rmsd_mtd_molecule :=
     m_rmsd_mtd_molecule s; m_step := m_step s; m_currentStep := m_currentStep
     s; m_interface_error := m_interface_error s; m_interface_nan :=
     m_interface_nan s; m_thermostat_state := m_thermostat_state s |}.

Definition set_m_bias_energy (x : D) (s : State) : State :=
  {| m_eigen_geometry := m_eigen_geometry s; m_eigen_velocities :=
     m_eigen_velocities s; m_eigen_gradient := m_eigen_gradient s; m_T := m_T
     s; m_Ekin := m_Ekin s; m_Epot := m_Epot s; m_dof := m_dof s; m_unstable
     := m_unstable s; m_virial_correction := m_virial_correction s;
     m_wall_violation_count := m_wall_violation_count s; m_bias_threads :=
     m_bias_threads s; m_bias_structure_count := m_bias_structure_count s;
     m_bias_energy := x; m_colvar_incr := m_colvar_incr s; m_rmsd_mtd_molecule
     := m_rmsd_mtd_molecule s; m_step := m_step s; m_currentStep :=
     m_currentStep s; m_interface_error := m_interface_error s;
     m_interface_nan := m_interface_nan s; m_thermostat_state :=
     m_thermostat_state s |}.

Definition set_m_colvar_incr (x : Z) (s : State) : State :=
  {| m_eigen_geometry := m_eigen_geometry s; m_eigen_velocities :=
     m_eigen_velocities s; m_eigen_gradient := m_eigen_gradient s; m_T := m_T
     s; m_Ekin := m_Ekin s; m_Epot := m_Epot s; m_dof := m_dof s; m_unstable
     := m_unstable s; m_virial_correction := m_virial_correction s;
     m_wall_violation_count := m_wall_violation_count s; m_bias_threads :=
     m_bias_threads s; m_bias_structure_count := m_bias_structure_count s;
     m_bias_energy := m_bias_energy s; m_colvar_incr := x; m_rmsd_mtd_molecule
     := m_rmsd_mtd_molecule s; m_step := m_step s; m_currentStep :=
     m_currentStep s; m_interface_error := m_interface_error s;
     m_interface_nan := m_interface_nan s; m_thermostat_state :=
     m_thermostat_state s |}.

Definition set_m_rmsd_mtd_molecule (x : Geometry) (s : State) : State :=
  {| m_eigen_geometry := m_eigen_geometry s; m_eigen_velocities :=
     m_eigen_velocities s; m_eigen_gradient := m_eigen_gradient s; m_T := m_T
     s; m_Ekin := m_Ekin s; m_Epot := m_Epot s; m_dof := m_dof s; m_unstable
     := m_unstable s; m_virial_correction := m_virial_correction s;
     m_wall_violation_count := m_wall_violation_count s; m_bias_threads :=
     m_bias_threads s; m_bias_structure_count := m_bias_structure_count s;
     m_bias_energy := m_bias_energy s; m_colvar_incr := m_colvar_incr s;
     m_rmsd_mtd_molecule := x; m_step := m_step s; m_currentStep :=
     m_currentStep s; m_interface_error := m_interface_error s;
     m_interface_nan := m_interface_nan s; m_thermostat_state :=
     m_thermostat_state s |}.

Definition set_m_currentStep (x : D) (s : State) : State :=
  {| m_eigen_geometry := m_eigen_geometry s; m_eigen_velocities :=
     m_eigen_velocities s; m_eigen_gradient := m_eigen_gradient s; m_T := m_T
     s; m_Ekin := m_Ekin s; m_Epot := m_Epot s; m_dof := m_dof s; m_unstable
     := m_unstable s; m_virial_correction := m_virial_correction s;
     m_wall_violation_count := m_wall_violation_count s; m_bias_threads :=
     m_bias_threads s; m_bias_structure_count := m_bias_structure_count s;
     m_bias_energy := m_bias_energy s; m_colvar_incr := m_colvar_incr s;
     m_rmsd_mtd_molecule := m_rmsd_mtd_molecule s; m_step := m_step s;
     m_currentStep := x; m_interface_error := m_interface_error s;
     m_interface_nan := m_interface_nan s; m_thermostat_state :=
     m_thermostat_state s |}.

Definition set_m_interface_error (x : bool) (s : State) : State :=
  {| m_eigen_geometry := m_eigen_geometry s; m_eigen_velocities :=
     m_eigen_velocities s; m_eigen_gradient := m_eigen_gradient s; m_T := m_T
     s; m_Ekin := m_Ekin s; m_Epot := m_Epot s; m_dof := m_dof s; m_unstable
     := m_unstable s; m_virial_correction := m_virial_correction s;
     m_wall_violation_count := m_wall_violation_count s; m_bias_threads :=
     m_bias_threads s; m_bias_structure_count := m_bias_structure_count s;
     m_bias_energy := m_bias_energy s; m_colvar_incr := m_colvar_incr s;
     m_rmsd_mtd_molecule := m_rmsd_mtd_molecule s; m_step := m_step s;
     m_currentStep := m_currentStep s; m_interface_error := x; m_interface_nan
     := m_interface_nan s; m_thermostat_state := m_thermostat_state s |}.

Definition set_m_interface_nan (x : bool) (s : State) : State :=
  {| m_eigen_geometry := m_eigen_geometry s; m_eigen_velocities :=
     m_eigen_velocities s; m_eigen_gradient := m_eigen_gradient s; m_T := m_T
     s; m_Ekin := m_Ekin s; m_Epot := m_Epot s; m_dof := m_dof s; m_unstable
     := m_unstable s; m_virial_correction := m_virial_correction s;
     m_wall_violation_count := m_wall_violation_count s; m_bias_threads :=
     m_bias_threads s; m_bias_structure_count := m_bias_structure_count s;
     m_bias_energy := m_bias_energy s; m_colvar_incr := m_colvar_incr s;
     m_rmsd_mtd_molecule := m_rmsd_mtd_molecule s; m_step := m_step s;
     m_currentStep := m_currentStep s; m_interface_error := m_interface_error
     s; m_interface_nan := x; m_thermostat_state := m_thermostat_state s |}.

Definition set_m_thermostat_state (x : Th) (s : State) : State :=
  {| m_eigen_geometry := m_eigen_geometry s; m_eigen_velocities :=
     m_eigen_velocities s; m_eigen_gradient := m_eigen_gradient s; m_T := m_T
     s; m_Ekin := m_Ekin s; m_Epot := m_Epot s; m_dof := m_dof s; m_unstable
     := m_unstable s; m_virial_correction := m_virial_correction s;
     m_wall_violation_count := m_wall_violation_count s; m_bias_threads :=
     m_bias_threads s; m_bias_structure_count := m_bias_structure_count s;
     m_bias_energy := m_bias_energy s; m_colvar_incr := m_colvar_incr s;
     m_rmsd_mtd_molecule := m_rmsd_mtd_molecule s; m_step := m_step s;
     m_currentStep := m_currentStep s; m_interface_error := m_interface_error
     s; m_interface_nan := m_interface_nan s; m_thermostat_state := x |}.

(** What one call of the energy backend leaves behind. *)
Record BackendResult : Type := {
  be_energy : D;
  be_gradient : list D;
  be_error : bool;
  be_nan : bool
}.

(** Not part of the sources: libm, [kb_Eh] (global.h), the RMSD driver, the
    initial fields of a bias structure (simplemd.h), the energy backend, and
    the members that are [std::function]s or are left out of the model
    ([ThermostatFunction], [WallPotential], [RemoveRotations]).  Every
    thermostat of simplemd.cpp rewrites the velocities and its own state
    only, every wall function the gradient and the count of atoms outside
    the wall, and [RemoveRotations] the velocities. *)
Variable exp : D -> D.
Variable log : D -> D.
Variable sqrt : D -> D.
Variable kb_Eh : D.
Variable BestFitRMSD : Geometry -> Geometry -> D.
Variable DriverGradient : Geometry -> Geometry -> list D.
Variable counter0 : Z.
Variable energy0 : D.
Variable factor0 : D.
Variable Backend : Geometry -> BackendResult.
Variable Thermostat : Config -> State -> list D * Th.
Variable WallPotential : Config -> State -> list D * Z.
Variable RemoveRotations : Config -> State -> list D.

Variable cfg : Config.

Definition ThermostatFunction (s : State) : State :=
  let r := Thermostat cfg s in
  set_m_thermostat_state (snd r) (set_m_eigen_velocities (fst r) s).

(** [WallPotential();] *)
Definition apply_WallPotential (s : State) : State :=
  let r := WallPotential cfg s in
  set_m_wall_violation_count (snd r) (set_m_eigen_gradient (fst r) s).

(** [RemoveRotations();] *)
Definition apply_RemoveRotations (s : State) : State :=
  set_m_eigen_velocities (RemoveRotations cfg s) s.

(** [double SimpleMD::FastEnergy()]: stores the gradient, returns the energy. *)
Definition FastEnergy (s : State) : D * State :=
  let r := Backend (m_eigen_geometry s) in
  (be_energy r,
   set_m_interface_nan (be_nan r)
     (set_m_interface_error (be_error r)
        (set_m_eigen_gradient (be_gradient r) s))).

(** [m_Epot = Energy();] *)
Definition assign_Epot (s : State) : State :=
  let r := FastEnergy s in set_m_Epot (fst r) (snd r).

(** The summand of every kinetic-energy loop of simplemd.cpp:
    [m_eigen_masses.data()[i] * (v[3 * i] * v[3 * i] + v[3 * i + 1] * v[3 * i + 1]
       + v[3 * i + 2] * v[3 * i + 2])]. *)
Definition kinetic_term (vel : list D) (i : nat) : D :=
  rd (m_eigen_masses cfg) i
  * (rd vel (3 * i) * rd vel (3 * i)
     + rd vel (3 * i + 1) * rd vel (3 * i + 1)
     + rd vel (3 * i + 2) * rd vel (3 * i + 2)).

(** [2.0 * ekin / (kb_Eh * m_dof)] *)
Definition temperature (ekin : D) (dof : Z) : D :=
  lit 2 * ekin / (kb_Eh * of_int dof).

(** [void SimpleMD::EKin()] *)
Definition EKin (s : State) : State :=
  let ekin := for_range (m_natoms cfg)
                (fun i ekin => ekin + kinetic_term (m_eigen_velocities s) i) (lit 0) in
  let ekin := ekin * lit (1 # 2) in
  set_m_T (temperature ekin (m_dof s)) (set_m_Ekin ekin s).

(** Three consecutive assignments to entries [3 * i + 0 .. 3 * i + 2] of a
    buffer, each reading the buffer as the previous one left it. *)
Definition upd_xyz (v : list D) (i : nat) (f : list D -> nat -> D) : list D :=
  let v0 := wr v (3 * i + 0) (f v (3 * i + 0)%nat) in
  let v1 := wr v0 (3 * i + 1) (f v0 (3 * i + 1)%nat) in
  wr v1 (3 * i + 2) (f v1 (3 * i + 2)%nat).

(** [v[j] -= 0.5 * m_dT * m_eigen_gradient[j] * m_eigen_inv_masses[j]] *)
Definition half_kick (grad : list D) (v : list D) (j : nat) : D :=
  rd v j - lit (1 # 2) * m_dT cfg * rd grad j * rd (m_eigen_inv_masses cfg) j.

(** [x[j] + m_dT * v[j] - 0.5 * m_eigen_gradient[j] * m_eigen_inv_masses[j] * m_dt2] *)
Definition drift (grad vel : list D) (x : list D) (j : nat) : D :=
  rd x j + m_dT cfg * rd vel j
  - lit (1 # 2) * rd grad j * rd (m_eigen_inv_masses cfg) j * m_dt2 cfg.

(** *** [void SimpleMD::Berendson()] *)

(** The velocities [Berendson] leaves; [m_coupling] is the member
    [m_coupling], which only the thermostats read. *)
Definition Berendson (m_coupling : D) (s : State) : list D :=
  let lambda := sqrt (lit 1 + (m_dT cfg / lit 2 * (m_T0 cfg - m_T s))
                              / (m_T s * m_coupling)) in
  for_range (m_natoms cfg)
    (fun i v => upd_xyz v i (fun v j => rd v j * lambda))
    (m_eigen_velocities s).

(** *** RMSD metadynamics: [void SimpleMD::ApplyRMSDMTD()] *)

Definition bt_execute : BT -> BT :=
  BiasThread.execute exp kb_Eh BestFitRMSD DriverGradient.

Definition bt_addGeometry : Geometry -> D -> D -> Z -> BT -> BT :=
  BiasThread.addGeometry counter0 energy0 factor0.

(** [m_bias_threads[i]->f(...)]; no thread at [i] is undefined behaviour in
    C++ and leaves the model unchanged. *)
Fixpoint at_thread (ths : list BT) (i : nat) (f : BT -> BT) : list BT :=
  match ths, i with
  | [], _ => []
  | th :: rest, O => f th :: rest
  | th :: rest, S j => th :: at_thread rest j f
  end.

(** The copy of the selected atoms into [current_geometry]. *)
Definition current_geometry (s : State) : Geometry :=
  for_range (length (m_rmsd_indicies cfg))
    (fun i g =>
       let a := nth i (m_rmsd_indicies cfg) O in
       let g0 := wr g (3 * i + 0) (rd (m_eigen_geometry s) (3 * a + 0)) in
       let g1 := wr g0 (3 * i + 1) (rd (m_eigen_geometry s) (3 * a + 1)) in
       wr g1 (3 * i + 2) (rd (m_eigen_geometry s) (3 * a + 2)))
    (m_rmsd_mtd_molecule s).

(** [m_eigen_gradient.data()[3 * m_rmsd_indicies[j] + k] += thread->Gradient()(j, k)] *)
Definition scatter (grad tg : list D) : list D :=
  for_range (length (m_rmsd_indicies cfg))
    (fun j g =>
       let a := nth j (m_rmsd_indicies cfg) O in
       let g0 := wr g (3 * a + 0) (rd g (3 * a + 0) + rd tg (3 * j + 0)) in
       let g1 := wr g0 (3 * a + 1) (rd g0 (3 * a + 1) + rd tg (3 * j + 1)) in
       wr g1 (3 * a + 2) (rd g1 (3 * a + 2) + rd tg (3 * j + 2)))
    grad.

(** [current_bias], [m_eigen_gradient] and [m_colvar_incr] while the workers
    are read. *)
Record Collect : Type := {
  c_bias : D;
  c_gradient : list D;
  c_incr : Z
}.

Definition collect (th : BT) (c : Collect) : Collect :=
  {| c_bias := c_bias c + BiasThread.m_current_bias th;
     c_gradient := scatter (c_gradient c) (BiasThread.m_gradient th);
     c_incr := (c_incr c + BiasThread.m_counter th)%Z |}.

(** The branch [m_threads == 1 || m_bias_structure_count == 1]: every worker
    is started and read in turn. *)
Fixpoint mtd_sequential (g : Geometry) (step : D) (ths : list BT) (c : Collect)
  : list BT * Collect :=
  match ths with
  | [] => ([], c)
  | th :: rest =>
      let th' := bt_execute (BiasThread.setCurrentGeometry g step th) in
      let r := mtd_sequential g step rest (collect th' c) in
      (th' :: fst r, snd r)
  end.

(** The other branch.  Modelled from the spec (section 5): the pool, which is
    not among the sources, runs one computation of every worker and joins. *)
Fixpoint set_geometries (g : Geometry) (step : D) (i : nat) (limit : option Z)
    (ths : list BT) : list BT :=
  match ths with
  | [] => []
  | th :: rest =>
      (match limit with
       | Some n => if (Z.of_nat i <? n)%Z
                   then BiasThread.setCurrentGeometry g step th else th
       | None => BiasThread.setCurrentGeometry g step th
       end) :: set_geometries g step (S i) limit rest
  end.

Definition collect_returned (ths : list BT) (c : Collect) : Collect :=
  fold_left (fun c th => if (BiasThread.return_value th =? 1)%Z
                         then collect th c else c) ths c.

Definition mtd_pool (g : Geometry) (s : State) (c : Collect) : list BT * Collect :=
  let limit := if (m_bias_structure_count s <? m_threads cfg)%Z
               then Some (m_bias_structure_count s) else None in
  let ths := map bt_execute
               (set_geometries g (m_currentStep s) 0 limit (m_bias_threads s)) in
  (ths, collect_returned ths c).

(** The block [if (m_bias_structure_count == 0)]: the first structure. *)
Definition mtd_seed (g : Geometry) (s : State) : State :=
  if (m_bias_structure_count s =? 0)%Z then
    set_m_bias_structure_count (m_bias_structure_count s + 1)%Z
      (set_m_bias_threads
         (at_thread (m_bias_threads s) 0
            (bt_addGeometry g (lit 0) (m_currentStep s) 0%Z)) s)
  else s.

(** Running the workers; the second component is [current_bias]. *)
Definition mtd_evaluate (g : Geometry) (s : State) : State * D :=
  let c0 := {| c_bias := lit 0; c_gradient := m_eigen_gradient s; c_incr := 0 |} in
  let r := if ((m_threads cfg =? 1) || (m_bias_structure_count s =? 1))%Z
           then mtd_sequential g (m_currentStep s) (m_bias_threads s) c0
           else mtd_pool g s c0 in
  (set_m_colvar_incr (c_incr (snd r))
     (set_m_eigen_gradient (c_gradient (snd r))
        (set_m_bias_threads (fst r) s)),
   c_bias (snd r)).

(** [m_bias_threads[0]->RMSDReference()] *)
Definition first_rmsd_reference (s : State) : D :=
  match m_bias_threads s with
  | th :: _ => BiasThread.m_rmsd_reference th
  | [] => lit 0
  end.

(** The deposition at the end of [ApplyRMSDMTD]. *)
Definition mtd_deposit (g : Geometry) (current_bias : D) (s : State) : State :=
  if (current_bias * m_rmsd_econv cfg <? of_int (m_bias_structure_count s))
     && negb (m_rmsd_fix_structure cfg)
  then
    let thread_index :=
      Z.to_nat (Z.rem (m_bias_structure_count s)
                      (Z.of_nat (length (m_bias_threads s)))) in
    set_m_bias_structure_count (m_bias_structure_count s + 1)%Z
      (set_m_bias_threads
         (at_thread (m_bias_threads s) thread_index
            (bt_addGeometry g (first_rmsd_reference s) (m_currentStep s)
               (m_bias_structure_count s))) s)
  else s.

Definition ApplyRMSDMTD (s : State) : State :=
  let g := current_geometry s in
  let s1 := mtd_seed g (set_m_colvar_incr 0%Z s) in
  let r := mtd_evaluate g s1 in
  let s2 := set_m_rmsd_mtd_molecule g (fst r) in
  let s3 := set_m_bias_energy (m_bias_energy s2 + snd r) s2 in
  mtd_deposit g (snd r) s3.

(** [if (m_rmsd_mtd) { if (m_step % m_mtd_steps == 0) { ApplyRMSDMTD(); } }] *)
Definition mtd_hook (s : State) : State :=
  if m_rmsd_mtd cfg then
    if (Z.rem (m_step s) (m_mtd_steps cfg) =? 0)%Z then ApplyRMSDMTD s else s
  else s.

(** *** [void SimpleMD::Verlet()] *)

(** [m_unstable = T > 10000 * m_T || std::isnan(T)] *)
Definition unstable_test (T : D) (s : State) : bool :=
  (T >? of_int 10000 * m_T s) || disnan T.

(** The statements from the second kinetic-energy sum to the end, shared by
    [Verlet] and [Rattle] up to the final restore of [m_dof]. *)
Definition finish_step (ekin : D) (s : State) : State :=
  let ekin := ekin * lit (1 # 2) in
  let T := temperature ekin (m_dof s) in
  let s := set_m_unstable (unstable_test T s) s in
  set_m_T T s.

(** The first loop of [Verlet]: new positions, half-kicked velocities and
    the sum of the kinetic terms. *)
Definition Verlet_drift (s : State) : list D * list D * D :=
  for_range (m_natoms cfg)
    (fun i (a : list D * list D * D) =>
       let '(x, v, ekin) := a in
       let x' := upd_xyz x i (drift (m_eigen_gradient s) v) in
       let v' := upd_xyz v i (half_kick (m_eigen_gradient s)) in
       (x', v', ekin + kinetic_term v' i))
    (m_eigen_geometry s, m_eigen_velocities s, lit 0).

(** The statements both integrators have between their two halves:
    [ThermostatFunction(); m_Epot = Energy();], the bias, [WallPotential();]. *)
Definition forces (s : State) : State :=
  let s := ThermostatFunction s in
  let s := assign_Epot s in
  let s := mtd_hook s in
  apply_WallPotential s.

(** [Verlet] up to and including [WallPotential()]. *)
Definition Verlet_first (s : State) : State :=
  let '(x, v, ekin) := Verlet_drift s in
  let ekin := ekin * lit (1 # 2) in
  let s := set_m_eigen_velocities v (set_m_eigen_geometry x s) in
  let s := set_m_Ekin ekin (set_m_T (temperature ekin (m_dof s)) s) in
  forces s.

(** The second loop of [Verlet]: the second half kick and the sum of the
    kinetic terms. *)
Definition Verlet_kick (s : State) : list D * D :=
  for_range (m_natoms cfg)
    (fun i (a : list D * D) =>
       let v' := upd_xyz (fst a) i (half_kick (m_eigen_gradient s)) in
       (v', snd a + kinetic_term v' i))
    (m_eigen_velocities s, lit 0).

Definition Verlet (s : State) : State :=
  let s := Verlet_first s in
  let r2 := Verlet_kick s in
  let s := set_m_eigen_velocities (fst r2) s in
  let s := finish_step (snd r2) s in
  let s := set_m_Ekin (snd r2 * lit (1 # 2)) s in
  let s := ThermostatFunction s in
  EKin s.

(** *** Log-Fermi walls *)

(** A value together with the arguments that were passed to [exp] on the way
    to it, in call order. *)
Definition Traced (A : Type) : Type := (A * list D)%type.

Definition tret {A : Type} (a : A) : Traced A := (a, []).

Definition tbind {A B : Type} (m : Traced A) (k : A -> Traced B) : Traced B :=
  let r := k (fst m) in (fst r, snd m ++ snd r).

(** [exp(x)] *)
Definition call_exp (x : D) : Traced D := (exp x, [x]).

Record WallAcc : Type := {
  w_potential : D;
  w_gradient : list D;
  w_counter : Z
}.

(** The body of the loop of [ApplySphericLogFermiWalls] for atom [i]. *)
Definition spheric_atom (geom : list D) (i : nat) (a : WallAcc) : Traced WallAcc :=
  let kbT := m_wall_temp cfg * kb_Eh in
  let x := rd geom (3 * i + 0) in
  let y := rd geom (3 * i + 1) in
  let z := rd geom (3 * i + 2) in
  let distance := sqrt (x * x + y * y + z * z) in
  let beta_arg := m_wall_beta cfg * (distance - m_wall_spheric_radius cfg) in
  tbind
    (if beta_arg >? lit 700 then tret (dbl_max / lit 2)
     else if beta_arg <? lit (-700) then tret (lit 0)
     else call_exp beta_arg)
    (fun exp_expr =>
       let curr_pot := kbT * log (lit 1 + exp_expr) in
       let g :=
         if distance >? lit (1 # 10000000000) then
           let fx := kbT * m_wall_beta cfg * x * exp_expr / (distance * (lit 1 + exp_expr)) in
           let fy := kbT * m_wall_beta cfg * y * exp_expr / (distance * (lit 1 + exp_expr)) in
           let fz := kbT * m_wall_beta cfg * z * exp_expr / (distance * (lit 1 + exp_expr)) in
           let g0 := wr (w_gradient a) (3 * i + 0) (rd (w_gradient a) (3 * i + 0) - fx) in
           let g1 := wr g0 (3 * i + 1) (rd g0 (3 * i + 1) - fy) in
           wr g1 (3 * i + 2) (rd g1 (3 * i + 2) - fz)
         else w_gradient a in
       let c := if distance >? m_wall_spheric_radius cfg
                then (w_counter a + 1)%Z else w_counter a in
       tret {| w_potential := w_potential a + curr_pot;
               w_gradient := g; w_counter := c |}).

(** The body of the loop of [ApplyRectLogFermiWalls] for atom [i]. *)
Definition rect_atom (geom : list D) (i : nat) (a : WallAcc) : Traced WallAcc :=
  let kbT := m_wall_temp cfg * kb_Eh in
  let b := m_wall_beta cfg in
  let x := rd geom (3 * i + 0) in
  let y := rd geom (3 * i + 1) in
  let z := rd geom (3 * i + 2) in
  tbind (call_exp (b * (m_wall_x_min cfg - x))) (fun exp_expr_xl =>
  tbind (call_exp (b * (x - m_wall_x_max cfg))) (fun exp_expr_xu =>
  tbind (call_exp (b * (m_wall_y_min cfg - y))) (fun exp_expr_yl =>
  tbind (call_exp (b * (y - m_wall_y_max cfg))) (fun exp_expr_yu =>
  tbind (call_exp (b * (m_wall_z_min cfg - z))) (fun exp_expr_zl =>
  tbind (call_exp (b * (z - m_wall_z_max cfg))) (fun exp_expr_zu =>
    let curr_pot :=
      kbT * (log (lit 1 + exp_expr_xl) + log (lit 1 + exp_expr_xu)
             + log (lit 1 + exp_expr_yl) + log (lit 1 + exp_expr_yu)
             + log (lit 1 + exp_expr_zl) + log (lit 1 + exp_expr_zu)) in
    let outside :=
      ((x - m_wall_x_min cfg) <? lit 0) || ((m_wall_x_max cfg - x) <? lit 0)
      || ((y - m_wall_y_min cfg) <? lit 0) || ((m_wall_y_max cfg - y) <? lit 0)
      || ((z - m_wall_z_min cfg) <? lit 0) || ((m_wall_z_max cfg - z) <? lit 0) in
    let fx := kbT * b * (exp_expr_xu / (lit 1 + exp_expr_xu)
                         - exp_expr_xl / (lit 1 + exp_expr_xl)) in
    let fy := kbT * b * (exp_expr_yu / (lit 1 + exp_expr_yu)
                         - exp_expr_yl / (lit 1 + exp_expr_yl)) in
    let fz := kbT * b * (exp_expr_zu / (lit 1 + exp_expr_zu)
                         - exp_expr_zl / (lit 1 + exp_expr_zl)) in
    let g0 := wr (w_gradient a) (3 * i + 0) (rd (w_gradient a) (3 * i + 0) + fx) in
    let g1 := wr g0 (3 * i + 1) (rd g0 (3 * i + 1) + fy) in
    let g2 := wr g1 (3 * i + 2) (rd g1 (3 * i + 2) + fz) in
    tret {| w_potential := w_potential a + curr_pot;
            w_gradient := g2;
            w_counter := if outside then (w_counter a + 1)%Z else w_counter a |})))))).

Fixpoint wall_loop (body : nat -> WallAcc -> Traced WallAcc) (atoms : list nat)
    (a : WallAcc) : Traced WallAcc :=
  match atoms with
  | [] => tret a
  | i :: rest => tbind (body i a) (wall_loop body rest)
  end.

Definition apply_walls (body : list D -> nat -> WallAcc -> Traced WallAcc)
    (s : State) : Traced (D * State) :=
  tbind
    (wall_loop (body (m_eigen_geometry s)) (seq 0 (m_natoms cfg))
       {| w_potential := lit 0; w_gradient := m_eigen_gradient s; w_counter := 0 |})
    (fun a =>
       tret (w_potential a,
             set_m_wall_violation_count (w_counter a)
               (set_m_eigen_gradient (w_gradient a) s))).

(** [double SimpleMD::ApplySphericLogFermiWalls()] (the console report, and
    the [sum_grad] that only feeds it, are left out). *)
Definition ApplySphericLogFermiWalls : State -> Traced (D * State) :=
  apply_walls spheric_atom.

(** [double SimpleMD::ApplyRectLogFermiWalls()] (same omissions). *)
Definition ApplyRectLogFermiWalls : State -> Traced (D * State) :=
  apply_walls rect_atom.

(** *** Harmonic walls *)

(** A comparison used as a factor: [true] counts 1 and [false] 0. *)
Definition flag (b : bool) : D := of_int (if b then 1 else 0).

(** The body of the loop of [ApplySphericHarmonicWalls] for atom [i]. *)
Definition spheric_harmonic_atom (geom : list D) (i : nat) (a : WallAcc)
  : Traced WallAcc :=
  let k := m_wall_temp cfg * kb_Eh in
  let x := rd geom (3 * i + 0) in
  let y := rd geom (3 * i + 1) in
  let z := rd geom (3 * i + 2) in
  let distance := sqrt (x * x + y * y + z * z) in
  let radius := m_wall_spheric_radius cfg in
  let curr_pot := lit (1 # 2) * k * (radius - distance) * (radius - distance)
                  * flag (distance >? radius) in
  let diff := k * (radius - distance) * flag (distance >? radius) in
  let dx := diff * x / distance in
  let dy := diff * y / distance in
  let dz := diff * z / distance in
  let g0 := wr (w_gradient a) (3 * i + 0) (rd (w_gradient a) (3 * i + 0) - dx) in
  let g1 := wr g0 (3 * i + 1) (rd g0 (3 * i + 1) - dy) in
  let g2 := wr g1 (3 * i + 2) (rd g1 (3 * i + 2) - dz) in
  tret {| w_potential := w_potential a + curr_pot;
          w_gradient := g2;
          w_counter := if distance >? radius
                       then (w_counter a + 1)%Z else w_counter a |}.

(** [(x - min) * (x - min) * (x < min) + (x - max) * (x - max) * (x > max)] *)
Definition harmonic_V (x lo hi : D) : D :=
  (x - lo) * (x - lo) * flag (x <? lo) + (x - hi) * (x - hi) * flag (x >? hi).

(** [k * ((x - min) * (x < min) - (x - max) * (x > max))] *)
Definition harmonic_d (k x lo hi : D) : D :=
  k * ((x - lo) * flag (x <? lo) - (x - hi) * flag (x >? hi)).

(** The body of the loop of [ApplyRectHarmonicWalls] for atom [i]. *)
Definition rect_harmonic_atom (geom : list D) (i : nat) (a : WallAcc)
  : Traced WallAcc :=
  let k := m_wall_temp cfg * kb_Eh in
  let x := rd geom (3 * i + 0) in
  let y := rd geom (3 * i + 1) in
  let z := rd geom (3 * i + 2) in
  let Vx := harmonic_V x (m_wall_x_min cfg) (m_wall_x_max cfg) in
  let Vy := harmonic_V y (m_wall_y_min cfg) (m_wall_y_max cfg) in
  let Vz := harmonic_V z (m_wall_z_min cfg) (m_wall_z_max cfg) in
  let curr_pot := lit (1 # 2) * k * (Vx + Vy + Vz) in
  let out :=
    ((x - m_wall_x_min cfg) <? lit 0) || ((m_wall_x_max cfg - x) <? lit 0)
    || ((y - m_wall_y_min cfg) <? lit 0) || ((m_wall_y_max cfg - y) <? lit 0)
    || ((z - m_wall_z_min cfg) <? lit 0) || ((m_wall_z_max cfg - z) <? lit 0) in
  let dx := harmonic_d k x (m_wall_x_min cfg) (m_wall_x_max cfg) in
  let dy := harmonic_d k y (m_wall_y_min cfg) (m_wall_y_max cfg) in
  let dz := harmonic_d k z (m_wall_z_min cfg) (m_wall_z_max cfg) in
  let g0 := wr (w_gradient a) (3 * i + 0) (rd (w_gradient a) (3 * i + 0) - dx) in
  let g1 := wr g0 (3 * i + 1) (rd g0 (3 * i + 1) - dy) in
  let g2 := wr g1 (3 * i + 2) (rd g1 (3 * i + 2) - dz) in
  tret {| w_potential := w_potential a + curr_pot;
          w_gradient := g2;
          w_counter := if out then (w_counter a + 1)%Z else w_counter a |}.

(** [double SimpleMD::ApplySphericHarmonicWalls()] and
    [double SimpleMD::ApplyRectHarmonicWalls()] (the console report, and the
    [sum_grad] that only feeds it, are left out). *)
Definition ApplySphericHarmonicWalls : State -> Traced (D * State) :=
  apply_walls spheric_harmonic_atom.

Definition ApplyRectHarmonicWalls : State -> Traced (D * State) :=
  apply_walls rect_harmonic_atom.

(** *** [void SimpleMD::InitialiseWalls()] *)

(** [std::min(a, b)] and [std::max(a, b)] *)
Definition fmin (a b : D) : D := if b <? a then b else a.
Definition fmax (a b : D) : D := if a <? b then b else a.

(** The locals of the loop that measures the molecule. *)
Record Extent : Type := {
  min_x : D; max_x : D;
  min_y : D; max_y : D;
  min_z : D; max_z : D;
  max_distance_from_origin : D
}.

Definition extent_atom (geom : list D) (i : nat) (e : Extent) : Extent :=
  let x := rd geom (3 * i + 0) in
  let y := rd geom (3 * i + 1) in
  let z := rd geom (3 * i + 2) in
  {| min_x := fmin (min_x e) x; max_x := fmax (max_x e) x;
     min_y := fmin (min_y e) y; max_y := fmax (max_y e) y;
     min_z := fmin (min_z e) z; max_z := fmax (max_z e) z;
     max_distance_from_origin :=
       fmax (max_distance_from_origin e) (sqrt (x * x + y * y + z * z)) |}.

Definition molecular_extent (geom : list D) : Extent :=
  for_range (m_natoms cfg) (extent_atom geom)
    {| min_x := lit 10000000000; max_x := lit (-10000000000);
       min_y := lit 10000000000; max_y := lit (-10000000000);
       min_z := lit 10000000000; max_z := lit (-10000000000);
       max_distance_from_origin := lit 0 |}.

(** [(min == 0 && max == 0) || (max <= min)] *)
Definition needs_config (lo hi : D) : bool :=
  ((lo =? lit 0) && (hi =? lit 0)) || (hi <=? lo).

(** [std::max(0.2 * extent, 5.0)] *)
Definition margin (extent : D) : D := fmax (lit (1 # 5) * extent) (lit 5).

(** The walls: the six bounds of the box and the radius of the sphere. *)
Record Walls : Type := {
  x_min : D; x_max : D;
  y_min : D; y_max : D;
  z_min : D; z_max : D;
  spheric_radius : D
}.

(** [InitialiseWalls], from the values read from the controller, which [cfg]
    holds, to the walls that are used; [box] is [m_molecule.GetBox()], which
    is not among the sources.  The second component of the intermediate pairs
    is the local [radius].  Rendering and the printed summary are left
    out. *)
Definition InitialiseWalls (box : list D) (geom : list D) : Walls :=
  let x_needs_config := needs_config (m_wall_x_min cfg) (m_wall_x_max cfg) in
  let y_needs_config := needs_config (m_wall_y_min cfg) (m_wall_y_max cfg) in
  let z_needs_config := needs_config (m_wall_z_min cfg) (m_wall_z_max cfg) in
  let sphere_needs_config := m_wall_spheric_radius cfg =? lit 0 in
  let auto_configured :=
    x_needs_config || y_needs_config || z_needs_config || sphere_needs_config in
  let w0 := {| x_min := m_wall_x_min cfg; x_max := m_wall_x_max cfg;
               y_min := m_wall_y_min cfg; y_max := m_wall_y_max cfg;
               z_min := m_wall_z_min cfg; z_max := m_wall_z_max cfg;
               spheric_radius := m_wall_spheric_radius cfg |} in
  let r1 :=
    if auto_configured then
      let e := molecular_extent geom in
      let margin_x := margin (max_x e - min_x e) in
      let margin_y := margin (max_y e - min_y e) in
      let margin_z := margin (max_z e - min_z e) in
      let margin_sphere := margin (max_distance_from_origin e) in
      ({| x_min := if x_needs_config then min_x e - margin_x else x_min w0;
          x_max := if x_needs_config then max_x e + margin_x else x_max w0;
          y_min := if y_needs_config then min_y e - margin_y else y_min w0;
          y_max := if y_needs_config then max_y e + margin_y else y_max w0;
          z_min := if z_needs_config then min_z e - margin_z else z_min w0;
          z_max := if z_needs_config then max_z e + margin_z else z_max w0;
          spheric_radius := spheric_radius w0 |},
       if sphere_needs_config
       then max_distance_from_origin e + margin_sphere else lit 0)
    else (w0, lit 0) in
  let r2 :=
    if Nat.eqb (m_natoms cfg) 0 && auto_configured then
      let w := fst r1 in
      let radius := snd r1 in
      let xl := if x_needs_config then - rd box 0 * lit (3 # 4) else x_min w in
      let xu := if x_needs_config then lit (-1) * xl else x_max w in
      let radius := if x_needs_config then fmax radius (rd box 0) else radius in
      let yl := if y_needs_config then - rd box 1 * lit (3 # 4) else y_min w in
      let yu := if y_needs_config then lit (-1) * yl else y_max w in
      let radius := if y_needs_config then fmax radius (rd box 1) else radius in
      let zl := if z_needs_config then - rd box 2 * lit (3 # 4) else z_min w in
      let zu := if z_needs_config then lit (-1) * zl else z_max w in
      let radius := if z_needs_config then fmax radius (rd box 2) else radius in
      ({| x_min := xl; x_max := xu; y_min := yl; y_max := yu;
          z_min := zl; z_max := zu; spheric_radius := spheric_radius w |},
       radius + lit 5)
    else r1 in
  let w := fst r2 in
  if sphere_needs_config && (spheric_radius w <? snd r2)
  then {| x_min := x_min w; x_max := x_max w; y_min := y_min w; y_max := y_max w;
          z_min := z_min w; z_max := z_max w; spheric_radius := snd r2 |}
  else w.

(** [cfg] with the walls [w]. *)
Definition with_walls (w : Walls) : Config :=
  {| m_natoms := m_natoms cfg;
     m_eigen_masses := m_eigen_masses cfg;
     m_eigen_inv_masses := m_eigen_inv_masses cfg;
     m_dT := m_dT cfg; m_dt2 := m_dt2 cfg; m_T0 := m_T0 cfg;
     m_rmsd_mtd := m_rmsd_mtd cfg; m_mtd_steps := m_mtd_steps cfg;
     m_threads := m_threads cfg; m_rmsd_econv := m_rmsd_econv cfg;
     m_rmsd_fix_structure := m_rmsd_fix_structure cfg;
     m_rmsd_indicies := m_rmsd_indicies cfg;
     m_rattle_maxiter := m_rattle_maxiter cfg;
     m_rattle_max := m_rattle_max cfg; m_rattle_min := m_rattle_min cfg;
     m_rattle_tol_12 := m_rattle_tol_12 cfg;
     m_rattle_tol_13 := m_rattle_tol_13 cfg;
     m_bond_constrained := m_bond_constrained cfg;
     m_bond_13_constrained := m_bond_13_constrained cfg;
     m_wall_temp := m_wall_temp cfg; m_wall_beta := m_wall_beta cfg;
     m_wall_spheric_radius := spheric_radius w;
     m_wall_x_min := x_min w; m_wall_x_max := x_max w;
     m_wall_y_min := y_min w; m_wall_y_max := y_max w;
     m_wall_z_min := z_min w; m_wall_z_max := z_max w |}.

(** *** [void SimpleMD::Rattle()] *)

(** Squared distance of atoms [i] and [j] in a flat buffer. *)
Definition sqdist (v : list D) (i j : nat) : D :=
  (rd v (3 * i + 0) - rd v (3 * j + 0)) * (rd v (3 * i + 0) - rd v (3 * j + 0))
  + (rd v (3 * i + 1) - rd v (3 * j + 1)) * (rd v (3 * i + 1) - rd v (3 * j + 1))
  + (rd v (3 * i + 2) - rd v (3 * j + 2)) * (rd v (3 * i + 2) - rd v (3 * j + 2)).

(** [if (std::abs(scalarproduct) < m_rattle_min) { if (scalarproduct < 0)
    scalarproduct = -1 * m_rattle_min; else scalarproduct = m_rattle_min; }] *)
Definition clamp_scalarproduct (scalarproduct : D) : D :=
  if dabs scalarproduct <? m_rattle_min cfg then
    if scalarproduct <? lit 0 then lit (-1) * m_rattle_min cfg
    else m_rattle_min cfg
  else scalarproduct.

(** [while (std::abs(lambda) > max) lambda *= scale;] *)
Definition scale_multiplier (fuel : nat) (max scale lambda : D) : res D :=
  r <- while_loop fuel (fun l => dabs l >? max)
         (fun l => Ok (l * scale, false)) lambda O ;;
  Ok (fst r).

(** The locals and scratch members of the position stage. *)
Record Pos : Type := {
  p_velocities : list D;    (* m_eigen_velocities *)
  p_coord : list D;         (* coord *)
  p_rt_geom_1 : list D;     (* m_rt_geom_1 *)
  p_rt_velo : list D;       (* m_rt_velo *)
  p_moved_12 : list Z;
  p_moved_13 : list Z;
  p_move : bool;
  p_local_dof : Z;
  p_iter : D
}.

(** [dst[3 * i + k] = src[3 * i + k] + sign * d_k * lambda * 0.5 * inv * extra] *)
Definition correct3 (dst src : list D) (i : nat) (plus : bool)
    (dx dy dz : D) (c : D -> D) : list D :=
  let op := fun a b => if plus then a + b else a - b in
  let d0 := wr dst (3 * i + 0) (op (rd src (3 * i + 0)) (c dx)) in
  let d1 := wr d0 (3 * i + 1) (op (rd src (3 * i + 1)) (c dy)) in
  wr d1 (3 * i + 2) (op (rd src (3 * i + 2)) (c dz)).

(** One constraint of the position stage; [is13] selects the 1-3 list with
    its tolerance and its [moved_13] counters.  The 1-2 block also exits on a
    NaN multiplier. *)
Definition position_bond (fuel : nat) (geom : list D) (is13 : bool)
    (bond : (nat * nat) * D) (p : Pos) : res Pos :=
  let i := fst (fst bond) in
  let j := snd (fst bond) in
  let distance := snd bond in
  let inv := m_eigen_inv_masses cfg in
  let m_dT_inverse := lit 1 / m_dT cfg in
  let rt := p_rt_geom_1 p in
  let distance_current := sqdist rt i j in
  let tol := if is13 then m_rattle_tol_13 cfg else m_rattle_tol_12 cfg in
  if dabs (distance - distance_current) >? tol then
    let r := distance - distance_current in
    let dx := rd geom (3 * i + 0) - rd geom (3 * j + 0) in
    let dy := rd geom (3 * i + 1) - rd geom (3 * j + 1) in
    let dz := rd geom (3 * i + 2) - rd geom (3 * j + 2) in
    let scalarproduct :=
      dx * (rd rt (3 * i + 0) - rd rt (3 * j + 0))
      + dy * (rd rt (3 * i + 1) - rd rt (3 * j + 1))
      + dz * (rd rt (3 * i + 2) - rd rt (3 * j + 2)) in
    let moved := if is13 then p_moved_13 p else p_moved_12 p in
    let moved := wrZ moved i (rdZ moved i + 1)%Z in
    let moved := wrZ moved j (rdZ moved j + 1)%Z in
    let local_dof := if (rdZ moved i =? 1)%Z
                     then (p_local_dof p + 1)%Z else p_local_dof p in
    let scalarproduct := clamp_scalarproduct scalarproduct in
    let lambda := r / (lit 1 * (rd inv i + rd inv j) * scalarproduct) in
    if disinf lambda then Exited
    else if negb is13 && disnan lambda then Exited
    else
      lambda <- scale_multiplier fuel (m_rattle_max cfg) (lit (1 # 10)) lambda ;;
      let rt := correct3 rt (p_coord p) i true dx dy dz
                  (fun d => d * lambda * lit (1 # 2) * rd inv i) in
      let rt := correct3 rt (p_coord p) j false dx dy dz
                  (fun d => d * lambda * lit (1 # 2) * rd inv j) in
      let rv := correct3 (p_rt_velo p) (p_velocities p) i true dx dy dz
                  (fun d => d * lambda * lit (1 # 2) * rd inv i * m_dT_inverse) in
      let rv := correct3 rv (p_velocities p) j false dx dy dz
                  (fun d => d * lambda * lit (1 # 2) * rd inv j * m_dT_inverse) in
      Ok {| p_velocities := p_velocities p; p_coord := p_coord p;
            p_rt_geom_1 := rt; p_rt_velo := rv;
            p_moved_12 := if is13 then p_moved_12 p else moved;
            p_moved_13 := if is13 then moved else p_moved_13 p;
            p_move := true; p_local_dof := local_dof; p_iter := p_iter p |}
  else Ok p.

(** [dst[3 * i + k] = src[3 * i + k]] for atom [i], and for every atom. *)
Definition copy_atom_of (dst src : list D) (i : nat) : list D :=
  let d0 := wr dst (3 * i + 0) (rd src (3 * i + 0)) in
  let d1 := wr d0 (3 * i + 1) (rd src (3 * i + 1)) in
  wr d1 (3 * i + 2) (rd src (3 * i + 2)).

Definition copy_atoms (dst src : list D) : list D :=
  for_range (m_natoms cfg) (fun i d => copy_atom_of d src i) dst.

(** One pass of the first [while (iter < m_rattle_maxiter)]. *)
Definition position_iteration (fuel : nat) (geom : list D) (p : Pos)
  : res (Pos * bool) :=
  let p := {| p_velocities := p_velocities p; p_coord := p_coord p;
              p_rt_geom_1 := p_rt_geom_1 p; p_rt_velo := p_rt_velo p;
              p_moved_12 := p_moved_12 p; p_moved_13 := p_moved_13 p;
              p_move := p_move p; p_local_dof := p_local_dof p;
              p_iter := p_iter p + lit 1 |} in
  p <- for_each (m_bond_constrained cfg) (position_bond fuel geom false) p ;;
  p <- for_each (m_bond_13_constrained cfg) (position_bond fuel geom true) p ;;
  Ok ({| p_velocities := copy_atoms (p_velocities p) (p_rt_velo p);
         p_coord := copy_atoms (p_coord p) (p_rt_geom_1 p);
         p_rt_geom_1 := p_rt_geom_1 p; p_rt_velo := p_rt_velo p;
         p_moved_12 := p_moved_12 p; p_moved_13 := p_moved_13 p;
         p_move := p_move p; p_local_dof := p_local_dof p;
         p_iter := p_iter p |}, false).

(** The first loop of [Rattle], from the state its prologue built. *)
Definition position_stage (fuel : nat) (geom : list D) (p : Pos) : res (Pos * nat) :=
  while_loop fuel (fun p => p_iter p <? of_int (m_rattle_maxiter cfg))
    (position_iteration fuel geom) p O.

(** The prologue: predicted coordinates and half-kicked velocities. *)
Definition rattle_prologue (s : State) : Pos :=
  let n := m_natoms cfg in
  let r := for_range n
    (fun i (a : list D * list D * list D * list D) =>
       let '(coord, rt, v, rv) := a in
       let coord := upd_xyz coord i
                      (fun _ j => drift (m_eigen_gradient s) v (m_eigen_geometry s) j) in
       let rt := copy_atom_of rt coord i in
       let v := upd_xyz v i (half_kick (m_eigen_gradient s)) in
       let rv := copy_atom_of rv v i in
       (coord, rt, v, rv))
    (repeat (lit 0) (3 * n), repeat (lit 0) (3 * n), m_eigen_velocities s,
     repeat (lit 0) (3 * n)) in
  let '(coord, rt, v, rv) := r in
  {| p_velocities := v; p_coord := coord; p_rt_geom_1 := rt; p_rt_velo := rv;
     p_moved_12 := repeat 0%Z n; p_moved_13 := repeat 0%Z n;
     p_move := false; p_local_dof := 0; p_iter := lit 0 |}.

(** [v[3 * i + k] += d_k * c] or [-=], one entry after the other. *)
Definition upd_xyz_with (v : list D) (i : nat) (plus : bool)
    (dx dy dz : D) (c : D -> D) : list D :=
  let op := fun a b => if plus then a + b else a - b in
  let v0 := wr v (3 * i + 0) (op (rd v (3 * i + 0)) (c dx)) in
  let v1 := wr v0 (3 * i + 1) (op (rd v0 (3 * i + 1)) (c dy)) in
  wr v1 (3 * i + 2) (op (rd v1 (3 * i + 2)) (c dz)).

(** The locals of the velocity stage. *)
Record Vel : Type := {
  v_velocities : list D;    (* m_eigen_velocities *)
  v_moved_12 : list Z;
  v_moved_13 : list Z;
  v_virial : D;             (* m_virial_correction *)
  v_iter : D;
  v_active : Z
}.

(** One constraint of the velocity stage. *)
Definition velocity_bond (fuel : nat) (coord : list D) (is13 : bool)
    (bond : (nat * nat) * D) (v : Vel) : res Vel :=
  let i := fst (fst bond) in
  let j := snd (fst bond) in
  let inv := m_eigen_inv_masses cfg in
  let moved := if is13 then v_moved_13 v else v_moved_12 v in
  if negb (rdZ moved i =? 0)%Z && negb (rdZ moved j =? 0)%Z then
    let moved := wrZ moved i (rdZ moved i - 1)%Z in
    let moved := wrZ moved j (rdZ moved j - 1)%Z in
    let distance_current := sqdist coord i j in
    let dx := rd coord (3 * i + 0) - rd coord (3 * j + 0) in
    let dy := rd coord (3 * i + 1) - rd coord (3 * j + 1) in
    let dz := rd coord (3 * i + 2) - rd coord (3 * j + 2) in
    let vel := v_velocities v in
    let dvx := rd vel (3 * i + 0) - rd vel (3 * j + 0) in
    let dvy := rd vel (3 * i + 1) - rd vel (3 * j + 1) in
    let dvz := rd vel (3 * i + 2) - rd vel (3 * j + 2) in
    let r := dx * dvx + dy * dvy + dz * dvz in
    let mu := lit (-1) * r / ((rd inv i + rd inv j) * distance_current) in
    mu <- scale_multiplier fuel (m_rattle_max cfg) (lit (1 # 10)) mu ;;
    let vel := upd_xyz_with vel i true dx dy dz (fun d => d * mu * rd inv i) in
    let vel := upd_xyz_with vel j false dx dy dz (fun d => d * mu * rd inv j) in
    Ok {| v_velocities := vel;
          v_moved_12 := if is13 then v_moved_12 v else moved;
          v_moved_13 := if is13 then moved else v_moved_13 v;
          v_virial := v_virial v + mu * distance_current;
          v_iter := v_iter v; v_active := 1 |}
  else Ok v.

(** One pass of the second [while (iter < m_rattle_maxiter)]; it ends the
    loop through [break] when no constraint was active. *)
Definition velocity_iteration (fuel : nat) (coord : list D) (v : Vel)
  : res (Vel * bool) :=
  let v := {| v_velocities := v_velocities v; v_moved_12 := v_moved_12 v;
              v_moved_13 := v_moved_13 v; v_virial := v_virial v;
              v_iter := v_iter v + lit 1; v_active := 0 |} in
  v <- for_each (m_bond_constrained cfg) (velocity_bond fuel coord false) v ;;
  v <- for_each (m_bond_13_constrained cfg) (velocity_bond fuel coord true) v ;;
  Ok (v, (v_active v =? 0)%Z).

Definition velocity_stage (fuel : nat) (coord : list D) (v : Vel) : res (Vel * nat) :=
  while_loop fuel (fun v => v_iter v <? of_int (m_rattle_maxiter cfg))
    (velocity_iteration fuel coord) v O.

(** [ekin] summed over the atoms with the velocities [vel]. *)
Definition sum_kinetic (vel : list D) : D :=
  for_range (m_natoms cfg) (fun i ekin => ekin + kinetic_term vel i) (lit 0).

(** [Rattle] from the end of its first loop up to and including the second
    half kick; [p] is what the first loop left. *)
Definition Rattle_middle (p : Pos) (s : State) : State :=
  let s := set_m_eigen_velocities (p_velocities p) s in
  let s := set_m_dof (m_dof s - p_local_dof p)%Z s in
  let s := set_m_eigen_geometry
             (copy_atoms (m_eigen_geometry s) (p_coord p)) s in
  let ekin := sum_kinetic (m_eigen_velocities s) * lit (1 # 2) in
  let s := set_m_Ekin ekin (set_m_T (temperature ekin (m_dof s)) s) in
  let s := forces s in
  set_m_eigen_velocities
    (for_range (m_natoms cfg)
       (fun i v => upd_xyz v i (half_kick (m_eigen_gradient s)))
       (m_eigen_velocities s)) s.

(** [Rattle] after its second loop, which left [v], up to the last sum of
    kinetic terms. *)
Definition Rattle_settle (p : Pos) (v : Vel) (s : State) : State :=
  let s := set_m_virial_correction (v_virial v)
             (set_m_eigen_velocities (v_velocities v) s) in
  if p_move p then apply_RemoveRotations s else s.

(** The rest of [Rattle]; [dof] is the value of [m_dof] saved on entry. *)
Definition Rattle_end (dof : Z) (p : Pos) (v : Vel) (s : State) : State :=
  let s := Rattle_settle p v s in
  let s := finish_step (sum_kinetic (m_eigen_velocities s)) s in
  let s := ThermostatFunction s in
  let s := EKin s in
  set_m_dof dof s.

Definition Rattle (fuel : nat) (s : State) : res State :=
  let dof := m_dof s in
  r <- position_stage fuel (m_eigen_geometry s) (rattle_prologue s) ;;
  let p := fst r in
  let s := Rattle_middle p s in
  r2 <- velocity_stage fuel (p_coord p)
          {| v_velocities := m_eigen_velocities s;
             v_moved_12 := p_moved_12 p; v_moved_13 := p_moved_13 p;
             v_virial := lit 0; v_iter := lit 0; v_active := 0 |} ;;
  Ok (Rattle_end dof p (fst r2) s).

(** Vocabulary for statements about [Rattle]: what its second loop starts
    from, [s] being the state after the second half kick and [p] what the
    first loop left. *)
Definition velocity_start (p : Pos) (s : State) : Vel :=
  {| v_velocities := m_eigen_velocities s;
     v_moved_12 := p_moved_12 p; v_moved_13 := p_moved_13 p;
     v_virial := lit 0; v_iter := lit 0; v_active := 0 |}.

(** *** The MD loop of [void SimpleMD::start()] *)

(** [Integrator], chosen by the constructor from the setting [rattle]. *)
Variable rattle : Z.

Definition Integrator (fuel : nat) (s : State) : res State :=
  if (rattle =? 1)%Z then Rattle fuel s else Ok (Verlet s).

(** How one pass of the loop ends. *)
Inductive Outcome : Type :=
| Continue (s : State)
| AbortedUnstable (dumped : State).   (* unstable_curcuma.json written, return *)

(** One pass of [while (m_currentStep < m_maxtime)]: the integrator, the
    instability test, the step counters.  [m_step] here is the local
    [int m_step = 0] that [start] declares, which hides the member of the same
    name; output, averages, the stop file, COM removal and the rescue logic are
    left out. *)
Definition loop_pass (fuel : nat) (local_m_step : Z) (s : State)
  : res (Outcome * Z) :=
  s <- Integrator fuel s ;;
  if m_unstable s || m_interface_error s || m_interface_nan s
  then Ok (AbortedUnstable s, local_m_step)
  else Ok (Continue (set_m_currentStep (m_currentStep s + m_dT cfg) s),
           (local_m_step + 1)%Z).

(** [passes] passes of the loop, as long as none aborts. *)
Fixpoint md_loop (fuel : nat) (passes : nat) (local_m_step : Z) (s : State)
  : res (Outcome * Z) :=
  match passes with
  | O => Ok (Continue s, local_m_step)
  | S k =>
      r <- loop_pass fuel local_m_step s ;;
      match fst r with
      | Continue s' => md_loop fuel k (snd r) s'
      | AbortedUnstable _ => Ok r
      end
  end.

(** *** Vocabulary for statements about the walls and the step *)

(** The state a pass of the loop ends with. *)
Definition outcome_state (o : Outcome) : State :=
  match o with
  | Continue s => s
  | AbortedUnstable s => s
  end.

(** The member [m_step] and the simulation time are at [s'] what they are at
    [s]. *)
Definition same_clock (s s' : State) : Prop :=
  m_step s' = m_step s /\ m_currentStep s' = m_currentStep s.

(** [t] after [k] times [m_currentStep += m_dT]. *)
Fixpoint advanced (k : nat) (t : D) : D :=
  match k with
  | O => t
  | S k' => advanced k' (t + m_dT cfg)
  end.

(** What the spherical wall guards [exp] with. *)
Definition within_700 (x : D) : Prop :=
  (x >? lit 700) = false /\ (x <? lit (-700)) = false.

(** The members the bias, the backend, the thermostat and the wall leave
    alone. *)
Definition same_thermo (s s' : State) : Prop :=
  m_T s' = m_T s
  /\ m_dof s' = m_dof s
  /\ m_unstable s' = m_unstable s
  /\ m_step s' = m_step s.

(** The bounds of the box along axis [c]: 0 is x, 1 is y, 2 is z. *)
Definition wall_lo (c : nat) : D :=
  match c with
  | O => m_wall_x_min cfg
  | S O => m_wall_y_min cfg
  | _ => m_wall_z_min cfg
  end.

Definition wall_hi (c : nat) : D :=
  match c with
  | O => m_wall_x_max cfg
  | S O => m_wall_y_max cfg
  | _ => m_wall_z_max cfg
  end.

(** How far [x] lies beyond the interval from [lo] to [hi]. *)
Definition beyond (x lo hi : D) : D :=
  (if x <? lo then lo - x else lit 0) + (if x >? hi then x - hi else lit 0).

(** The distance of atom [i] from the origin, as the walls compute it. *)
Definition distance_from_origin (geom : list D) (i : nat) : D :=
  sqrt (rd geom (3 * i + 0) * rd geom (3 * i + 0)
        + rd geom (3 * i + 1) * rd geom (3 * i + 1)
        + rd geom (3 * i + 2) * rd geom (3 * i + 2)).

(** *** Vocabulary for statements about the multipliers *)

(** [lambda] after [k] times [lambda *= scale]. *)
Fixpoint scaled (k : nat) (scale lambda : D) : D :=
  match k with
  | O => lambda
  | S k' => scaled k' scale (lambda * scale)
  end.

(** The pieces of one constraint of the position stage, for the pair
    [bond] and what the stage holds in [p]: the test on the constraint, the
    scalar product and the residual the multiplier is made of, and the
    scratch coordinates and velocities that a multiplier [lambda] gives. *)
Definition position_violated (is13 : bool) (bond : (nat * nat) * D) (p : Pos)
  : bool :=
  let tol := if is13 then m_rattle_tol_13 cfg else m_rattle_tol_12 cfg in
  dabs (snd bond - sqdist (p_rt_geom_1 p) (fst (fst bond)) (snd (fst bond)))
  >? tol.

Definition position_residual (bond : (nat * nat) * D) (p : Pos) : D :=
  snd bond - sqdist (p_rt_geom_1 p) (fst (fst bond)) (snd (fst bond)).

Definition position_scalarproduct (geom : list D) (bond : (nat * nat) * D)
    (p : Pos) : D :=
  let i := fst (fst bond) in
  let j := snd (fst bond) in
  let rt := p_rt_geom_1 p in
  (rd geom (3 * i + 0) - rd geom (3 * j + 0))
  * (rd rt (3 * i + 0) - rd rt (3 * j + 0))
  + (rd geom (3 * i + 1) - rd geom (3 * j + 1))
    * (rd rt (3 * i + 1) - rd rt (3 * j + 1))
  + (rd geom (3 * i + 2) - rd geom (3 * j + 2))
    * (rd rt (3 * i + 2) - rd rt (3 * j + 2)).

Definition position_moved (geom : list D) (bond : (nat * nat) * D) (p : Pos)
    (lambda : D) : list D * list D :=
  let i := fst (fst bond) in
  let j := snd (fst bond) in
  let inv := m_eigen_inv_masses cfg in
  let m_dT_inverse := lit 1 / m_dT cfg in
  let dx := rd geom (3 * i + 0) - rd geom (3 * j + 0) in
  let dy := rd geom (3 * i + 1) - rd geom (3 * j + 1) in
  let dz := rd geom (3 * i + 2) - rd geom (3 * j + 2) in
  (correct3
     (correct3 (p_rt_geom_1 p) (p_coord p) i true dx dy dz
        (fun d => d * lambda * lit (1 # 2) * rd inv i))
     (p_coord p) j false dx dy dz
     (fun d => d * lambda * lit (1 # 2) * rd inv j),
   correct3
     (correct3 (p_rt_velo p) (p_velocities p) i true dx dy dz
        (fun d => d * lambda * lit (1 # 2) * rd inv i * m_dT_inverse))
     (p_velocities p) j false dx dy dz
     (fun d => d * lambda * lit (1 # 2) * rd inv j * m_dT_inverse)).

(** The same for the velocity stage: the test on the counters of the pair,
    the multiplier before it is scaled, and the velocities that a multiplier
    [mu] gives. *)
Definition velocity_active (is13 : bool) (bond : (nat * nat) * D) (v : Vel)
  : bool :=
  let moved := if is13 then v_moved_13 v else v_moved_12 v in
  negb (rdZ moved (fst (fst bond)) =? 0)%Z
  && negb (rdZ moved (snd (fst bond)) =? 0)%Z.

Definition velocity_multiplier (coord : list D) (bond : (nat * nat) * D)
    (v : Vel) : D :=
  let i := fst (fst bond) in
  let j := snd (fst bond) in
  let inv := m_eigen_inv_masses cfg in
  let vel := v_velocities v in
  let r := (rd coord (3 * i + 0) - rd coord (3 * j + 0))
           * (rd vel (3 * i + 0) - rd vel (3 * j + 0))
           + (rd coord (3 * i + 1) - rd coord (3 * j + 1))
             * (rd vel (3 * i + 1) - rd vel (3 * j + 1))
           + (rd coord (3 * i + 2) - rd coord (3 * j + 2))
             * (rd vel (3 * i + 2) - rd vel (3 * j + 2)) in
  lit (-1) * r / ((rd inv i + rd inv j) * sqdist coord i j).

Definition velocity_kicked (coord : list D) (bond : (nat * nat) * D) (v : Vel)
    (mu : D) : list D :=
  let i := fst (fst bond) in
  let j := snd (fst bond) in
  let inv := m_eigen_inv_masses cfg in
  let dx := rd coord (3 * i + 0) - rd coord (3 * j + 0) in
  let dy := rd coord (3 * i + 1) - rd coord (3 * j + 1) in
  let dz := rd coord (3 * i + 2) - rd coord (3 * j + 2) in
  upd_xyz_with
    (upd_xyz_with (v_velocities v) i true dx dy dz (fun d => d * mu * rd inv i))
    j false dx dy dz (fun d => d * mu * rd inv j).

(** *** Vocabulary for statements about the bias structures *)

(** How many structures each worker holds. *)
Definition structure_counts (ths : list BT) : list nat :=
  map (fun th => length (BiasThread.m_biased_structures th)) ths.

(** One more at position [i], when [b] holds. *)
Fixpoint bump_at (l : list nat) (i : nat) : list nat :=
  match l, i with
  | [], _ => []
  | n :: t, O => S n :: t
  | n :: t, S j => n :: bump_at t j
  end.

Definition bump_if (b : bool) (i : nat) (l : list nat) : list nat :=
  if b then bump_at l i else l.

(** The indices of the structures each worker holds, in the order it holds
    them. *)
Definition structure_indices (ths : list BT) : list (list Z) :=
  map (fun th => map BiasThread.index (BiasThread.m_biased_structures th)) ths.

(** Of the indices below [count], those that leave the remainder [j] when
    divided by [n], ascending. *)
Definition dealt (n : nat) (count : Z) (j : nat) : list Z :=
  filter (fun k => (Z.rem k (Z.of_nat n) =? Z.of_nat j)%Z)
    (map Z.of_nat (seq 0 (Z.to_nat count))).

(** The structures are dealt out to the workers in turn. *)
Definition dealt_out (s : State) : Prop :=
  let n := length (m_bias_threads s) in
  structure_indices (m_bias_threads s)
  = map (dealt n (m_bias_structure_count s)) (seq 0 n).

(** What a run that was not aborted leaves: the step counter of the loop,
    the member [m_step], the number of bias structures and the indices of the
    structures each worker holds. *)
Definition bias_book (r : res (Outcome * Z))
  : option (Z * Z * Z * list (list Z)) :=
  match r with
  | Ok (Continue s, local_m_step) =>
      Some (local_m_step, m_step s, m_bias_structure_count s,
            structure_indices (m_bias_threads s))
  | _ => None
  end.

(** The test [Verlet] and [Rattle] make before [ApplyRMSDMTD]:
    [m_rmsd_mtd] and [m_step % m_mtd_steps == 0], on the member [m_step]. *)
Definition bias_due (s : State) : bool :=
  m_rmsd_mtd cfg && (Z.rem (m_step s) (m_mtd_steps cfg) =? 0)%Z.

End SimpleMD.

Arguments Config : clear implicits.
Arguments State : clear implicits.
Arguments BackendResult : clear implicits.
Arguments Collect : clear implicits.
Arguments WallAcc : clear implicits.
Arguments Pos : clear implicits.
Arguments Vel : clear implicits.
Arguments Outcome : clear implicits.
Arguments Extent : clear implicits.
Arguments Walls : clear implicits.

End SimpleMD.

(* ===================================================================== *)
(** ** confscan.cpp: the conformer scanner                                *)
(* ===================================================================== *)

Module ConfScan.
Section ConfScan.
Context {D : Type} `{Arith D}.
Local Open Scope D_scope.

(** Atoms and coordinates of a molecule; only the RMSD driver looks at them. *)
Variable G : Type.

Record Molecule : Type := {
  Name : string;
  Energy : D;
  Ia : D;
  Ib : D;
  Ic : D;
  getPersisentImage : list D;
  AtomCount : Z;
  Body : G
}.

(** A permutation as the driver returns it: [std::vector<int>]. *)
Definition Rule : Type := list Z.

(** Not part of the sources: the RMSD driver (rmsd.cpp), the methods of
    [Molecule] that change or inspect its atoms, and the constant [third]
    of global.h.  The first argument of a driver function is the reference,
    the second the target. *)
Record Driver : Type := {
  BestFitRMSD : Molecule -> Molecule -> D;
  Rules2RMSD : Molecule -> Molecule -> Rule -> D;
  HBondTopoDifference_rules : Molecule -> Molecule -> Rule -> Z;
  ReorderRMSD : Molecule -> Molecule -> D;            (* start(); RMSD() *)
  ReorderRules : Molecule -> Molecule -> Rule;
  HBondTopoDifference : Molecule -> Molecule -> Z;
  NoReorderRMSD : Molecule -> Molecule -> D;          (* driver with "noreorder" *)
  NoReorderHBondTopoDifference : Molecule -> Molecule -> Z;
  MolalignRMSD : Molecule -> Molecule -> D;
  TargetReorderd : Molecule -> Molecule -> Molecule;
  ApplyReorderRule : Molecule -> Rule -> Molecule;
  Check : Molecule -> Z
}.

Variable drv : Driver.
Variable third : D.

(** The settings read by [LoadControlJson]. *)
Record Settings : Type := {
  m_maxrank : Z;
  m_MaxHTopoDiff : Z;
  m_earlybreak : Z;
  m_looseThresh : Z;
  m_tightThresh : Z;
  m_sTI : D;
  m_sTH : D;
  m_sTE : D;
  m_energy_cutoff : D;
  m_domolalign : D;
  m_skip_orders : bool;
  m_restart : bool;
  m_molalign_single : bool;   (* m_RMSDmethod == "molalign" && m_threads == 1 *)
  m_ignoreRotation : bool;
  m_ignoreBarCode : bool
}.

Variable cfg : Settings.

(** [m_result.size() >= m_maxrank]: the type of [m_maxrank], and with it the
    conversion this comparison makes, is declared in confscan.h, which is not
    among the sources, so the comparison is a parameter. *)
Variable rank_reached : Z -> nat -> bool.

(** Molecules live in [m_molecules]; a [Molecule*] is an index into it. *)
Definition Ptr : Type := nat.

(** [ConfScanThread]: the reference is a copy taken when the thread is made;
    the results stay until the next [execute]. *)
Record Thread : Type := {
  t_reference : Molecule;
  t_rmsd_threshold : D;
  t_reuse_only : bool;
  t_reorder_rules : list Rule;
  t_enabled : bool;
  t_keep_molecule : bool;
  t_break_pool : bool;
  t_reorder_worked : bool;
  t_reused_worked : bool;
  t_reorder_rule : Rule;
  t_rmsd : D;
  t_old_rmsd : D
}.

Definition with_results (th : Thread) (keep brk worked reused : bool)
    (rule : Rule) (rmsd old : D) : Thread :=
  {| t_reference := t_reference th; t_rmsd_threshold := t_rmsd_threshold th;
     t_reuse_only := t_reuse_only th; t_reorder_rules := t_reorder_rules th;
     t_enabled := t_enabled th;
     t_keep_molecule := keep; t_break_pool := brk;
     t_reorder_worked := worked; t_reused_worked := reused;
     t_reorder_rule := rule; t_rmsd := rmsd; t_old_rmsd := old |}.

Definition setEnabled (b : bool) (th : Thread) : Thread :=
  {| t_reference := t_reference th; t_rmsd_threshold := t_rmsd_threshold th;
     t_reuse_only := t_reuse_only th; t_reorder_rules := t_reorder_rules th;
     t_enabled := b;
     t_keep_molecule := t_keep_molecule th; t_break_pool := t_break_pool th;
     t_reorder_worked := t_reorder_worked th; t_reused_worked := t_reused_worked th;
     t_reorder_rule := t_reorder_rule th; t_rmsd := t_rmsd th;
     t_old_rmsd := t_old_rmsd th |}.

(** [setReorderRules(m_reorder_rules)] followed by [addReorderRule(rules[j])]
    for every local rule.  Modelled from the spec: [addReorderRule] is
    defined in confscan.h, which is not among the sources; it adds the rule
    behind the ones the thread holds. *)
Definition setRules (cache local : list Rule) (th : Thread) : Thread :=
  {| t_reference := t_reference th; t_rmsd_threshold := t_rmsd_threshold th;
     t_reuse_only := t_reuse_only th; t_reorder_rules := cache ++ local;
     t_enabled := t_enabled th;
     t_keep_molecule := t_keep_molecule th; t_break_pool := t_break_pool th;
     t_reorder_worked := t_reorder_worked th; t_reused_worked := t_reused_worked th;
     t_reorder_rule := t_reorder_rule th; t_rmsd := t_rmsd th;
     t_old_rmsd := t_old_rmsd th |}.

(** [m_MaxHTopoDiff == -1 || difference <= m_MaxHTopoDiff] *)
Definition topo_ok (difference : Z) : bool :=
  (m_MaxHTopoDiff cfg =? -1)%Z || (difference <=? m_MaxHTopoDiff cfg)%Z.

(** The loop of [ConfScanThread::execute] over the cached rules: the first
    rule of the right size that brings the RMSD below the threshold. *)
Fixpoint try_rules (th : Thread) (target : Molecule) (rules : list Rule)
  : option (Rule * D) :=
  match rules with
  | [] => None
  | r :: rest =>
      if negb (Z.of_nat (length r) =? AtomCount (t_reference th))%Z
         || (Z.of_nat (length r) =? 0)%Z
      then try_rules th target rest
      else
        let tmp_rmsd := Rules2RMSD drv (t_reference th) target r in
        if (tmp_rmsd <? t_rmsd_threshold th)
           && topo_ok (HBondTopoDifference_rules drv (t_reference th) target r)
        then Some (r, tmp_rmsd)
        else try_rules th target rest
  end.

(** [int ConfScanThread::execute()] for the target [target]. *)
Definition execute (target : Molecule) (th : Thread) : Thread :=
  let old := BestFitRMSD drv (t_reference th) target in
  if old <? t_rmsd_threshold th then
    with_results th false true false false [] old old
  else
    match try_rules th target (t_reorder_rules th) with
    | Some (r, tmp_rmsd) =>
        with_results th false (Z.land (m_earlybreak cfg) 1 =? 0)%Z false true
          r tmp_rmsd old
    | None =>
        if t_reuse_only th then
          with_results th true false false false [] (t_rmsd th) old
        else
          let rmsd := ReorderRMSD drv (t_reference th) target in
          if (rmsd <=? t_rmsd_threshold th)
             && topo_ok (HBondTopoDifference drv (t_reference th) target)
          then with_results th false (Z.land (m_earlybreak cfg) 2 =? 0)%Z true false
                 (ReorderRules drv (t_reference th) target) rmsd old
          else with_results th true false false false [] rmsd old
    end.

(** What [ConfScanThreadNoReorder::execute] computes for a reference made
    with threshold [thr] and the target [target]. *)
Record NoReorderResult : Type := {
  nr_rmsd : D;
  nr_DI : D;
  nr_DH : D;
  nr_keep_molecule : bool
}.

(** [(a - b).cwiseAbs().sum()] *)
Definition abs_diff_sum (a b : list D) : D :=
  fold_left (fun acc p => acc + dabs (fst p - snd p)) (combine a b) (lit 0).

Definition execute_noreorder (reference : Molecule) (thr : D) (target : Molecule)
  : NoReorderResult :=
  let rmsd := NoReorderRMSD drv reference target in
  let Ia_ := dabs (Ia reference - Ia target) in
  let Ib_ := dabs (Ib reference - Ib target) in
  let Ic_ := dabs (Ic reference - Ic target) in
  {| nr_rmsd := rmsd;
     nr_DI := (Ia_ + Ib_ + Ic_) * third;
     nr_DH := abs_diff_sum (getPersisentImage reference) (getPersisentImage target);
     nr_keep_molecule :=
       negb ((rmsd <=? thr)
             && topo_ok (NoReorderHBondTopoDifference drv reference target)) |}.

(** The members of [ConfScan] the passes read and write. *)
Record Scan : Type := {
  m_molecules : Ptr -> Molecule;   (* the molecules, by pointer *)
  m_ordered_list : list (D * Ptr);   (* energy -> molecule, ascending *)
  m_previously_accepted : list Ptr;
  m_result : list Ptr;
  m_stored_structures : list Ptr;
  m_rejected_structures : list Ptr;
  m_all_structures : list Ptr;
  m_threshold : list Molecule;   (* copies held by the threads *)
  m_reorder_rules : list Rule;   (* the reorder-rule cache *)
  m_exclude_list : list (string * string);
  m_skip : Z;
  m_accepted : Z;
  m_rejected : Z;
  m_duplicated : Z;
  m_rejected_directly : Z;
  m_reordered : Z;
  m_skiped : Z;
  m_rmsd_threshold : D;
  m_rmsd_set : bool;
  m_dTI : D;
  m_dTH : D;
  m_dTE : D;
  m_lowest_energy : D
}.

(** Assignments to one member. *)
Definition set_m_molecules (x : Ptr -> Molecule) (s : Scan) : Scan :=
  {| m_molecules := x; m_ordered_list := m_ordered_list s;
     m_previously_accepted := m_previously_accepted s; m_result := m_result s;
     m_stored_structures := m_stored_structures s; m_rejected_structures :=
     m_rejected_structures s; m_all_structures := m_all_structures s;
     m_threshold := m_threshold s; m_reorder_rules := m_reorder_rules s;
     m_exclude_list := m_exclude_list s; m_skip := m_skip s; m_accepted :=
     m_accepted s; m_rejected := m_rejected s; m_duplicated := m_duplicated s;
     m_rejected_directly := m_rejected_directly s; m_reordered := m_reordered
     s; m_skiped := m_skiped s; m_rmsd_threshold := m_rmsd_threshold s;
     m_rmsd_set := m_rmsd_set s; m_dTI := m_dTI s; m_dTH := m_dTH s; m_dTE :=
     m_dTE s; m_lowest_energy := m_lowest_energy s |}.

Definition set_m_ordered_list (x : list (D * Ptr)) (s : Scan) : Scan :=
  {| m_molecules := m_molecules s; m_ordered_list := x; m_previously_accepted
     := m_previously_accepted s; m_result := m_result s; m_stored_structures
     := m_stored_structures s; m_rejected_structures := m_rejected_structures
     s; m_all_structures := m_all_structures s; m_threshold := m_threshold s;
     m_reorder_rules := m_reorder_rules s; m_exclude_list := m_exclude_list s;
     m_skip := m_skip s; m_accepted := m_accepted s; m_rejected := m_rejected
     s; m_duplicated := m_duplicated s; m_rejected_directly :=
     m_rejected_directly s; m_reordered := m_reordered s; m_skiped := m_skiped
     s; m_rmsd_threshold := m_rmsd_threshold s; m_rmsd_set := m_rmsd_set s;
     m_dTI := m_dTI s; m_dTH := m_dTH s; m_dTE := m_dTE s; m_lowest_energy :=
     m_lowest_energy s |}.

Definition set_m_result (x : list Ptr) (s : Scan) : Scan :=
  {| m_molecules := m_molecules s; m_ordered_list := m_ordered_list s;
     m_previously_accepted := m_previously_accepted s; m_result := x;
     m_stored_structures := m_stored_structures s; m_rejected_structures :=
     m_rejected_structures s; m_all_structures := m_all_structures s;
     m_threshold := m_threshold s; m_reorder_rules := m_reorder_rules s;
     m_exclude_list := m_exclude_list s; m_skip := m_skip s; m_accepted :=
     m_accepted s; m_rejected := m_rejected s; m_duplicated := m_duplicated s;
     m_rejected_directly := m_rejected_directly s; m_reordered := m_reordered
     s; m_skiped := m_skiped s; m_rmsd_threshold := m_rmsd_threshold s;
     m_rmsd_set := m_rmsd_set s; m_dTI := m_dTI s; m_dTH := m_dTH s; m_dTE :=
     m_dTE s; m_lowest_energy := m_lowest_energy s |}.

Definition set_m_stored_structures (x : list Ptr) (s : Scan) : Scan :=
  {| m_molecules := m_molecules s; m_ordered_list := m_ordered_list s;
     m_previously_accepted := m_previously_accepted s; m_result := m_result s;
     m_stored_structures := x; m_rejected_structures := m_rejected_structures
     s; m_all_structures := m_all_structures s; m_threshold := m_threshold s;
     m_reorder_rules := m_reorder_rules s; m_exclude_list := m_exclude_list s;
     m_skip := m_skip s; m_accepted := m_accepted s; m_rejected := m_rejected
     s; m_duplicated := m_duplicated s; m_rejected_directly :=
     m_rejected_directly s; m_reordered := m_reordered s; m_skiped := m_skiped
     s; m_rmsd_threshold := m_rmsd_threshold s; m_rmsd_set := m_rmsd_set s;
     m_dTI := m_dTI s; m_dTH := m_dTH s; m_dTE := m_dTE s; m_lowest_energy :=
     m_lowest_energy s |}.

Definition set_m_rejected_structures (x : list Ptr) (s : Scan) : Scan :=
  {| m_molecules := m_molecules s; m_ordered_list := m_ordered_list s;
     m_previously_accepted := m_previously_accepted s; m_result := m_result s;
     m_stored_structures := m_stored_structures s; m_rejected_structures := x;
     m_all_structures := m_all_structures s; m_threshold := m_threshold s;
     m_reorder_rules := m_reorder_rules s; m_exclude_list := m_exclude_list s;
     m_skip := m_skip s; m_accepted := m_accepted s; m_rejected := m_rejected
     s; m_duplicated := m_duplicated s; m_rejected_directly :=
     m_rejected_directly s; m_reordered := m_reordered s; m_skiped := m_skiped
     s; m_rmsd_threshold := m_rmsd_threshold s; m_rmsd_set := m_rmsd_set s;
     m_dTI := m_dTI s; m_dTH := m_dTH s; m_dTE := m_dTE s; m_lowest_energy :=
     m_lowest_energy s |}.

Definition set_m_all_structures (x : list Ptr) (s : Scan) : Scan :=
  {| m_molecules := m_molecules s; m_ordered_list := m_ordered_list s;
     m_previously_accepted := m_previously_accepted s; m_result := m_result s;
     m_stored_structures := m_stored_structures s; m_rejected_structures :=
     m_rejected_structures s; m_all_structures := x; m_threshold :=
     m_threshold s; m_reorder_rules := m_reorder_rules s; m_exclude_list :=
     m_exclude_list s; m_skip := m_skip s; m_accepted := m_accepted s;
     m_rejected := m_rejected s; m_duplicated := m_duplicated s;
     m_rejected_directly := m_rejected_directly s; m_reordered := m_reordered
     s; m_skiped := m_skiped s; m_rmsd_threshold := m_rmsd_threshold s;
     m_rmsd_set := m_rmsd_set s; m_dTI := m_dTI s; m_dTH := m_dTH s; m_dTE :=
     m_dTE s; m_lowest_energy := m_lowest_energy s |}.

Definition set_m_threshold (x : list Molecule) (s : Scan) : Scan :=
  {| m_molecules := m_molecules s; m_ordered_list := m_ordered_list s;
     m_previously_accepted := m_previously_accepted s; m_result := m_result s;
     m_stored_structures := m_stored_structures s; m_rejected_structures :=
     m_rejected_structures s; m_all_structures := m_all_structures s;
     m_threshold := x; m_reorder_rules := m_reorder_rules s; m_exclude_list :=
     m_exclude_list s; m_skip := m_skip s; m_accepted := m_accepted s;
     m_rejected := m_rejected s; m_duplicated := m_duplicated s;
     m_rejected_directly := m_rejected_directly s; m_reordered := m_reordered
     s; m_skiped := m_skiped s; m_rmsd_threshold := m_rmsd_threshold s;
     m_rmsd_set := m_rmsd_set s; m_dTI := m_dTI s; m_dTH := m_dTH s; m_dTE :=
     m_dTE s; m_lowest_energy := m_lowest_energy s |}.

Definition set_m_reorder_rules (x : list Rule) (s : Scan) : Scan :=
  {| m_molecules := m_molecules s; m_ordered_list := m_ordered_list s;
     m_previously_accepted := m_previously_accepted s; m_result := m_result s;
     m_stored_structures := m_stored_structures s; m_rejected_structures :=
     m_rejected_structures s; m_all_structures := m_all_structures s;
     m_threshold := m_threshold s; m_reorder_rules := x; m_exclude_list :=
     m_exclude_list s; m_skip := m_skip s; m_accepted := m_accepted s;
     m_rejected := m_rejected s; m_duplicated := m_duplicated s;
     m_rejected_directly := m_rejected_directly s; m_reordered := m_reordered
     s; m_skiped := m_skiped s; m_rmsd_threshold := m_rmsd_threshold s;
     m_rmsd_set := m_rmsd_set s; m_dTI := m_dTI s; m_dTH := m_dTH s; m_dTE :=
     m_dTE s; m_lowest_energy := m_lowest_energy s |}.

Definition set_m_exclude_list (x : list (string * string)) (s : Scan) : Scan :=
  {| m_molecules := m_molecules s; m_ordered_list := m_ordered_list s;
     m_previously_accepted := m_previously_accepted s; m_result := m_result s;
     m_stored_structures := m_stored_structures s; m_rejected_structures :=
     m_rejected_structures s; m_all_structures := m_all_structures s;
     m_threshold := m_threshold s; m_reorder_rules := m_reorder_rules s;
     m_exclude_list := x; m_skip := m_skip s; m_accepted := m_accepted s;
     m_rejected := m_rejected s; m_duplicated := m_duplicated s;
     m_rejected_directly := m_rejected_directly s; m_reordered := m_reordered
     s; m_skiped := m_skiped s; m_rmsd_threshold := m_rmsd_threshold s;
     m_rmsd_set := m_rmsd_set s; m_dTI := m_dTI s; m_dTH := m_dTH s; m_dTE :=
     m_dTE s; m_lowest_energy := m_lowest_energy s |}.

Definition set_m_skip (x : Z) (s : Scan) : Scan :=
  {| m_molecules := m_molecules s; m_ordered_list := m_ordered_list s;
     m_previously_accepted := m_previously_accepted s; m_result := m_result s;
     m_stored_structures := m_stored_structures s; m_rejected_structures :=
     m_rejected_structures s; m_all_structures := m_all_structures s;
     m_threshold := m_threshold s; m_reorder_rules := m_reorder_rules s;
     m_exclude_list := m_exclude_list s; m_skip := x; m_accepted := m_accepted
     s; m_rejected := m_rejected s; m_duplicated := m_duplicated s;
     m_rejected_directly := m_rejected_directly s; m_reordered := m_reordered
     s; m_skiped := m_skiped s; m_rmsd_threshold := m_rmsd_threshold s;
     m_rmsd_set := m_rmsd_set s; m_dTI := m_dTI s; m_dTH := m_dTH s; m_dTE :=
     m_dTE s; m_lowest_energy := m_lowest_energy s |}.

Definition set_m_accepted (x : Z) (s : Scan) : Scan :=
  {| m_molecules := m_molecules s; m_ordered_list := m_ordered_list s;
     m_previously_accepted := m_previously_accepted s; m_result := m_result s;
     m_stored_structures := m_stored_structures s; m_rejected_structures :=
     m_rejected_structures s; m_all_structures := m_all_structures s;
     m_threshold := m_threshold s; m_reorder_rules := m_reorder_rules s;
     m_exclude_list := m_exclude_list s; m_skip := m_skip s; m_accepted := x;
     m_rejected := m_rejected s; m_duplicated := m_duplicated s;
     m_rejected_directly := m_rejected_directly s; m_reordered := m_reordered
     s; m_skiped := m_skiped s; m_rmsd_threshold := m_rmsd_threshold s;
     m_rmsd_set := m_rmsd_set s; m_dTI := m_dTI s; m_dTH := m_dTH s; m_dTE :=
     m_dTE s; m_lowest_energy := m_lowest_energy s |}.

Definition set_m_rejected (x : Z) (s : Scan) : Scan :=
  {| m_molecules := m_molecules s; m_ordered_list := m_ordered_list s;
     m_previously_accepted := m_previously_accepted s; m_result := m_result s;
     m_stored_structures := m_stored_structures s; m_rejected_structures :=
     m_rejected_structures s; m_all_structures := m_all_structures s;
     m_threshold := m_threshold s; m_reorder_rules := m_reorder_rules s;
     m_exclude_list := m_exclude_list s; m_skip := m_skip s; m_accepted :=
     m_accepted s; m_rejected := x; m_duplicated := m_duplicated s;
     m_rejected_directly := m_rejected_directly s; m_reordered := m_reordered
     s; m_skiped := m_skiped s; m_rmsd_threshold := m_rmsd_threshold s;
     m_rmsd_set := m_rmsd_set s; m_dTI := m_dTI s; m_dTH := m_dTH s; m_dTE :=
     m_dTE s; m_lowest_energy := m_lowest_energy s |}.

Definition set_m_duplicated (x : Z) (s : Scan) : Scan :=
  {| m_molecules := m_molecules s; m_ordered_list := m_ordered_list s;
     m_previously_accepted := m_previously_accepted s; m_result := m_result s;
     m_stored_structures := m_stored_structures s; m_rejected_structures :=
     m_rejected_structures s; m_all_structures := m_all_structures s;
     m_threshold := m_threshold s; m_reorder_rules := m_reorder_rules s;
     m_exclude_list := m_exclude_list s; m_skip := m_skip s; m_accepted :=
     m_accepted s; m_rejected := m_rejected s; m_duplicated := x;
     m_rejected_directly := m_rejected_directly s; m_reordered := m_reordered
     s; m_skiped := m_skiped s; m_rmsd_threshold := m_rmsd_threshold s;
     m_rmsd_set := m_rmsd_set s; m_dTI := m_dTI s; m_dTH := m_dTH s; m_dTE :=
     m_dTE s; m_lowest_energy := m_lowest_energy s |}.

Definition set_m_rejected_directly (x : Z) (s : Scan) : Scan :=
  {| m_molecules := m_molecules s; m_ordered_list := m_ordered_list s;
     m_previously_accepted := m_previously_accepted s; m_result := m_result s;
     m_stored_structures := m_stored_structures s; m_rejected_structures :=
     m_rejected_structures s; m_all_structures := m_all_structures s;
     m_threshold := m_threshold s; m_reorder_rules := m_reorder_rules s;
     m_exclude_list := m_exclude_list s; m_skip := m_skip s; m_accepted :=
     m_accepted s; m_rejected := m_rejected s; m_duplicated := m_duplicated s;
     m_rejected_directly := x; m_reordered := m_reordered s; m_skiped :=
     m_skiped s; m_rmsd_threshold := m_rmsd_threshold s; m_rmsd_set :=
     m_rmsd_set s; m_dTI := m_dTI s; m_dTH := m_dTH s; m_dTE := m_dTE s;
     m_lowest_energy := m_lowest_energy s |}.

Definition set_m_reordered (x : Z) (s : Scan) : Scan :=
  {| m_molecules := m_molecules s; m_ordered_list := m_ordered_list s;
     m_previously_accepted := m_previously_accepted s; m_result := m_result s;
     m_stored_structures := m_stored_structures s; m_rejected_structures :=
     m_rejected_structures s; m_all_structures := m_all_structures s;
     m_threshold := m_threshold s; m_reorder_rules := m_reorder_rules s;
     m_exclude_list := m_exclude_list s; m_skip := m_skip s; m_accepted :=
     m_accepted s; m_rejected := m_rejected s; m_duplicated := m_duplicated s;
     m_rejected_directly := m_rejected_directly s; m_reordered := x; m_skiped
     := m_skiped s; m_rmsd_threshold := m_rmsd_threshold s; m_rmsd_set :=
     m_rmsd_set s; m_dTI := m_dTI s; m_dTH := m_dTH s; m_dTE := m_dTE s;
     m_lowest_energy := m_lowest_energy s |}.

Definition set_m_skiped (x : Z) (s : Scan) : Scan :=
  {| m_molecules := m_molecules s; m_ordered_list := m_ordered_list s;
     m_previously_accepted := m_previously_accepted s; m_result := m_result s;
     m_stored_structures := m_stored_structures s; m_rejected_structures :=
     m_rejected_structures s; m_all_structures := m_all_structures s;
     m_threshold := m_threshold s; m_reorder_rules := m_reorder_rules s;
     m_exclude_list := m_exclude_list s; m_skip := m_skip s; m_accepted :=
     m_accepted s; m_rejected := m_rejected s; m_duplicated := m_duplicated s;
     m_rejected_directly := m_rejected_directly s; m_reordered := m_reordered
     s; m_skiped := x; m_rmsd_threshold := m_rmsd_threshold s; m_rmsd_set :=
     m_rmsd_set s; m_dTI := m_dTI s; m_dTH := m_dTH s; m_dTE := m_dTE s;
     m_lowest_energy := m_lowest_energy s |}.

Definition set_m_rmsd_threshold (x : D) (s : Scan) : Scan :=
  {| m_molecules := m_molecules s; m_ordered_list := m_ordered_list s;
     m_previously_accepted := m_previously_accepted s; m_result := m_result s;
     m_stored_structures := m_stored_structures s; m_rejected_structures :=
     m_rejected_structures s; m_all_structures := m_all_structures s;
     m_threshold := m_threshold s; m_reorder_rules := m_reorder_rules s;
     m_exclude_list := m_exclude_list s; m_skip := m_skip s; m_accepted :=
     m_accepted s; m_rejected := m_rejected s; m_duplicated := m_duplicated s;
     m_rejected_directly := m_rejected_directly s; m_reordered := m_reordered
     s; m_skiped := m_skiped s; m_rmsd_threshold := x; m_rmsd_set :=
     m_rmsd_set s; m_dTI := m_dTI s; m_dTH := m_dTH s; m_dTE := m_dTE s;
     m_lowest_energy := m_lowest_energy s |}.

Definition set_m_rmsd_set (x : bool) (s : Scan) : Scan :=
  {| m_molecules := m_molecules s; m_ordered_list := m_ordered_list s;
     m_previously_accepted := m_previously_accepted s; m_result := m_result s;
     m_stored_structures := m_stored_structures s; m_rejected_structures :=
     m_rejected_structures s; m_all_structures := m_all_structures s;
     m_threshold := m_threshold s; m_reorder_rules := m_reorder_rules s;
     m_exclude_list := m_exclude_list s; m_skip := m_skip s; m_accepted :=
     m_accepted s; m_rejected := m_rejected s; m_duplicated := m_duplicated s;
     m_rejected_directly := m_rejected_directly s; m_reordered := m_reordered
     s; m_skiped := m_skiped s; m_rmsd_threshold := m_rmsd_threshold s;
     m_rmsd_set := x; m_dTI := m_dTI s; m_dTH := m_dTH s; m_dTE := m_dTE s;
     m_lowest_energy := m_lowest_energy s |}.

Definition set_m_dTI (x : D) (s : Scan) : Scan :=
  {| m_molecules := m_molecules s; m_ordered_list := m_ordered_list s;
     m_previously_accepted := m_previously_accepted s; m_result := m_result s;
     m_stored_structures := m_stored_structures s; m_rejected_structures :=
     m_rejected_structures s; m_all_structures := m_all_structures s;
     m_threshold := m_threshold s; m_reorder_rules := m_reorder_rules s;
     m_exclude_list := m_exclude_list s; m_skip := m_skip s; m_accepted :=
     m_accepted s; m_rejected := m_rejected s; m_duplicated := m_duplicated s;
     m_rejected_directly := m_rejected_directly s; m_reordered := m_reordered
     s; m_skiped := m_skiped s; m_rmsd_threshold := m_rmsd_threshold s;
     m_rmsd_set := m_rmsd_set s; m_dTI := x; m_dTH := m_dTH s; m_dTE := m_dTE
     s; m_lowest_energy := m_lowest_energy s |}.

Definition set_m_dTH (x : D) (s : Scan) : Scan :=
  {| m_molecules := m_molecules s; m_ordered_list := m_ordered_list s;
     m_previously_accepted := m_previously_accepted s; m_result := m_result s;
     m_stored_structures := m_stored_structures s; m_rejected_structures :=
     m_rejected_structures s; m_all_structures := m_all_structures s;
     m_threshold := m_threshold s; m_reorder_rules := m_reorder_rules s;
     m_exclude_list := m_exclude_list s; m_skip := m_skip s; m_accepted :=
     m_accepted s; m_rejected := m_rejected s; m_duplicated := m_duplicated s;
     m_rejected_directly := m_rejected_directly s; m_reordered := m_reordered
     s; m_skiped := m_skiped s; m_rmsd_threshold := m_rmsd_threshold s;
     m_rmsd_set := m_rmsd_set s; m_dTI := m_dTI s; m_dTH := x; m_dTE := m_dTE
     s; m_lowest_energy := m_lowest_energy s |}.

Definition set_m_dTE (x : D) (s : Scan) : Scan :=
  {| m_molecules := m_molecules s; m_ordered_list := m_ordered_list s;
     m_previously_accepted := m_previously_accepted s; m_result := m_result s;
     m_stored_structures := m_stored_structures s; m_rejected_structures :=
     m_rejected_structures s; m_all_structures := m_all_structures s;
     m_threshold := m_threshold s; m_reorder_rules := m_reorder_rules s;
     m_exclude_list := m_exclude_list s; m_skip := m_skip s; m_accepted :=
     m_accepted s; m_rejected := m_rejected s; m_duplicated := m_duplicated s;
     m_rejected_directly := m_rejected_directly s; m_reordered := m_reordered
     s; m_skiped := m_skiped s; m_rmsd_threshold := m_rmsd_threshold s;
     m_rmsd_set := m_rmsd_set s; m_dTI := m_dTI s; m_dTH := m_dTH s; m_dTE :=
     x; m_lowest_energy := m_lowest_energy s |}.

Definition set_m_lowest_energy (x : D) (s : Scan) : Scan :=
  {| m_molecules := m_molecules s; m_ordered_list := m_ordered_list s;
     m_previously_accepted := m_previously_accepted s; m_result := m_result s;
     m_stored_structures := m_stored_structures s; m_rejected_structures :=
     m_rejected_structures s; m_all_structures := m_all_structures s;
     m_threshold := m_threshold s; m_reorder_rules := m_reorder_rules s;
     m_exclude_list := m_exclude_list s; m_skip := m_skip s; m_accepted :=
     m_accepted s; m_rejected := m_rejected s; m_duplicated := m_duplicated s;
     m_rejected_directly := m_rejected_directly s; m_reordered := m_reordered
     s; m_skiped := m_skiped s; m_rmsd_threshold := m_rmsd_threshold s;
     m_rmsd_set := m_rmsd_set s; m_dTI := m_dTI s; m_dTH := m_dTH s; m_dTE :=
     m_dTE s; m_lowest_energy := x |}.

(** [m_molecules.at(index).second] and an assignment through the pointer. *)
Definition deref (s : Scan) (p : Ptr) : Molecule := m_molecules s p.

Definition assign (p : Ptr) (m : Molecule) (s : Scan) : Scan :=
  set_m_molecules (fun q => if Nat.eqb q p then m else m_molecules s q) s.

(** [void ConfScan::AcceptMolecule(Molecule* molecule)] *)
Definition AcceptMolecule (p : Ptr) (s : Scan) : Scan :=
  set_m_accepted (m_accepted s + 1)%Z
    (set_m_stored_structures (m_stored_structures s ++ [p])
       (set_m_result (m_result s ++ [p]) s)).

(** [void ConfScan::RejectMolecule(Molecule* molecule)] *)
Definition RejectMolecule (p : Ptr) (s : Scan) : Scan :=
  set_m_rejected (m_rejected s + 1)%Z
    (set_m_rejected_structures (m_rejected_structures s ++ [p]) s).

(** *** The reorder-rule cache *)

Definition rule_eqb (a b : Rule) : bool :=
  if list_eq_dec Z.eq_dec a b then true else false.

(** [std::find(cache.begin(), cache.end(), rule) != cache.end()] *)
Definition has_rule (cache : list Rule) (rule : Rule) : bool :=
  existsb (rule_eqb rule) cache.

(** [bool ConfScan::AddRules(const std::vector<int>& rules)] *)
Definition AddRules (rules : Rule) (s : Scan) : bool * Scan :=
  if (Nat.eqb (length rules) 0) || m_skip_orders cfg then (false, s)
  else if negb (has_rule (m_reorder_rules s) rules)
       then (true, set_m_reorder_rules (m_reorder_rules s ++ [rules]) s)
       else (true, s).

(** A restart file: unreadable, or read with the rules it lists. *)
Inductive RestartFile : Type :=
| Unreadable
| Parsed (reorder_cached : list Rule).

(** The loop of [ConfScan::LoadRestartInformation] over the restart files,
    as far as it touches the rule cache. *)
Definition load_file (f : RestartFile) (s : Scan) : Scan :=
  match f with
  | Unreadable => s
  | Parsed reorder_cached =>
      if m_restart cfg then
        fold_left (fun s vector =>
                     if negb (has_rule (m_reorder_rules s) vector)
                     then set_m_reorder_rules (m_reorder_rules s ++ [vector]) s
                     else s)
                  reorder_cached s
      else s
  end.

Definition LoadRestartInformation (files : list RestartFile) (s : Scan) : Scan :=
  fold_left (fun s f => load_file f s) files s.

(** *** Loading the ensemble *)

(** [m_ordered_list.insert(std::pair<double, int>(energy, molecule))].
    Modelled from the spec: the container is declared in confscan.h, which is
    not among the sources; the spec calls the ensemble a multiset ordered by
    energy ascending, so the model is [std::multimap]: entries are kept in
    ascending key order, a new entry going behind the entries of equal key. *)
Fixpoint ordered_insert (energy : D) (molecule : Ptr) (l : list (D * Ptr))
  : list (D * Ptr) :=
  match l with
  | [] => [(energy, molecule)]
  | (e, m) :: rest =>
      if energy <? e then (energy, molecule) :: l
      else (e, m) :: ordered_insert energy molecule rest
  end.

(** *** Pass 1: [void ConfScan::CheckOnly(double, double, double)] *)

(** [std::min(a, b)] and [std::max(a, b)] *)
Definition dmin (a b : D) : D := if b <? a then b else a.
Definition dmax (a b : D) : D := if a <? b then b else a.

Definition b2d (b : bool) : D := of_int (if b then 1 else 0).

(** The locals of the loop over the threads' results. *)
Record Gather : Type := {
  g_keep_molecule : bool;
  g_min_rmsd : D;
  g_dTI : D;
  g_dTH : D;
  g_dTE : D
}.

(** The loop over the threads after the pool has run, for candidate [mol1]. *)
Fixpoint gather_results (s : Scan) (mol1 : Molecule)
    (results : list (Molecule * NoReorderResult)) (g : Gather) : Gather :=
  match results with
  | [] => g
  | (reference, t) :: rest =>
      if negb (m_rmsd_set s) then
        gather_results s mol1 rest
          {| g_keep_molecule := true;
             g_min_rmsd := dmin (g_min_rmsd g) (nr_rmsd t);
             g_dTI := g_dTI g; g_dTH := g_dTH g; g_dTE := g_dTE g |}
      else
        let dE := dabs (Energy reference - Energy mol1) * lit (5251 # 2) in
        let g' :=
          {| g_keep_molecule := g_keep_molecule g;
             g_min_rmsd := g_min_rmsd g;
             g_dTI := dmax (g_dTI g)
                        (nr_DI t * b2d (nr_rmsd t <=? m_sTI cfg * m_rmsd_threshold s));
             g_dTH := dmax (g_dTH g)
                        (nr_DH t * b2d (nr_rmsd t <=? m_sTH cfg * m_rmsd_threshold s));
             g_dTE := dmax (g_dTE g)
                        (dE * b2d (nr_rmsd t <=? m_sTE cfg * m_rmsd_threshold s)) |} in
        if negb (nr_keep_molecule t) then
          {| g_keep_molecule := false; g_min_rmsd := g_min_rmsd g';
             g_dTI := g_dTI g'; g_dTH := g_dTH g'; g_dTE := g_dTE g' |}
        else gather_results s mol1 rest g'
  end.

(** The body of the loop of [CheckOnly] for the entry [index] of
    [m_ordered_list]; [threads] holds, for every accepted structure, its copy
    and the threshold its thread was made with.  Modelled from the spec
    (section 5): the pool, which is not among the sources, runs every thread
    once per candidate. *)
Definition check_candidate (index : Ptr) (a : Scan * list (Molecule * D))
  : Scan * list (Molecule * D) :=
  let s := fst a in
  let threads := snd a in
  if negb (m_skip s =? 0)%Z then (set_m_skip (m_skip s - 1)%Z s, threads)
  else if ((m_maxrank cfg <=? m_accepted s) && (m_maxrank cfg >? -1))%Z then a
  else
    let mol1 := deref s index in
    if (Check drv mol1 =? 1)%Z then (set_m_rejected (m_rejected s + 1)%Z s, threads)
    else if Nat.eqb (length (m_result s)) 0 then
      (set_m_lowest_energy (Energy mol1)
         (set_m_all_structures (m_all_structures s ++ [index])
            (AcceptMolecule index s)),
       threads ++ [(mol1, m_rmsd_threshold s)])
    else
      let results :=
        map (fun th => (fst th, execute_noreorder (fst th) (snd th) mol1)) threads in
      let g := gather_results s mol1 results
                 {| g_keep_molecule := true; g_min_rmsd := lit 10000;
                    g_dTI := m_dTI s; g_dTH := m_dTH s; g_dTE := m_dTE s |} in
      let s := set_m_dTE (g_dTE g) (set_m_dTH (g_dTH g) (set_m_dTI (g_dTI g) s)) in
      let threads' := if g_keep_molecule g
                      then threads ++ [(mol1, m_rmsd_threshold s)] else threads in
      let s := if g_keep_molecule g
               then AcceptMolecule index s else RejectMolecule index s in
      let s := if negb (m_rmsd_set s)
               then set_m_rmsd_threshold (dmin (g_min_rmsd g) (m_rmsd_threshold s)) s
               else s in
      (set_m_all_structures (m_all_structures s ++ [index]) s, threads').

(** The loop of [CheckOnly] over a stretch of [m_ordered_list]. *)
Definition check_loop (entries : list (D * Ptr)) (a : Scan * list (Molecule * D))
  : Scan * list (Molecule * D) :=
  fold_left (fun a e => check_candidate (snd e) a) entries a.

(** [CheckOnly]; the calibration samples [m_listThresh], the loose thresholds
    derived from them and the output files are left out. *)
Definition CheckOnly (s : Scan) : Scan :=
  set_m_rmsd_set true (fst (check_loop (m_ordered_list s) (s, []))).

(** *** Passes 2 and 3: [void ConfScan::Reorder(double dLE, double dLI,
    double dLH, bool reuse_only, bool reset)] *)

(** Not part of the sources: [CheckStop()] looks for the stop file; the
    answer it gives for a candidate and a thread is a parameter. *)
Variable CheckStop : Ptr -> nat -> bool.

Definition b2z (b : bool) : Z := if b then 1%Z else 0%Z.

(** [std::abs(mol1->Energy() - mol2->Energy()) * 2625.5] *)
Definition delta_E (mol1 mol2 : Molecule) : D :=
  dabs (Energy mol1 - Energy mol2) * lit (5251 # 2).

(** [dI] and [dH] of the pair. *)
Definition delta_I (mol1 mol2 : Molecule) : D :=
  (dabs (Ia mol1 - Ia mol2) + dabs (Ib mol1 - Ib mol2) + dabs (Ic mol1 - Ic mol2))
  * third.

Definition delta_H (mol1 mol2 : Molecule) : D :=
  abs_diff_sum (getPersisentImage mol1) (getPersisentImage mol2).

(** [1 * (dI < tI) + 2 * (dH < tH) + 4 * (dE < tE)] *)
Definition mask (mol1 mol2 : Molecule) (tI tH tE : D) : Z :=
  (1 * b2z (delta_I mol1 mol2 <? tI)%D
   + 2 * b2z (delta_H mol1 mol2 <? tH)%D
   + 4 * b2z (delta_E mol1 mol2 <? tE)%D)%Z.

(** [(looseThresh & m_looseThresh) == m_looseThresh
     || (dLI <= 1e-8 && dLH <= 1e-8 && dLE <= 1e-8)] *)
Definition loose_test (mol1 mol2 : Molecule) (dLE dLI dLH : D) : bool :=
  (Z.land (mask mol1 mol2 dLI dLH dLE) (m_looseThresh cfg) =? m_looseThresh cfg)%Z
  || ((dLI <=? lit (1 # 100000000)) && (dLH <=? lit (1 # 100000000))
      && (dLE <=? lit (1 # 100000000))).

(** [(tightThresh & m_tightThresh) == m_tightThresh] *)
Definition tight_test (s : Scan) (mol1 mol2 : Molecule) : bool :=
  (Z.land (mask mol1 mol2 (m_dTI s) (m_dTH s) (m_dTE s)) (m_tightThresh cfg)
   =? m_tightThresh cfg)%Z.

(** [std::find(m_exclude_list.begin(), m_exclude_list.end(), names) != end] *)
Definition excluded (s : Scan) (mol1 mol2 : Molecule) : bool :=
  existsb (fun n => String.eqb (fst n) (Name mol1) && String.eqb (snd n) (Name mol2))
          (m_exclude_list s).

(** The locals of the loop of [Reorder] over the candidates. *)
Record Pass : Type := {
  scan : Scan;
  threads : list Thread;
  rules : list Rule
}.

(** The locals of the body for one candidate. *)
Record Cand : Type := {
  c_scan : Scan;
  c_done : list Thread;        (* the threads already visited *)
  c_reorder : bool;
  c_keep_molecule : bool
}.

(** How a loop body ends: fall through, [break], or [return]. *)
Inductive Flow : Type := Next | Break | Return.

(** The body of the first inner loop for the accepted structure held by
    [th], after the stop-file check: the thread as the body leaves it, the
    locals, and whether the body ends in [break]. *)
Definition select_pair (index : Ptr) (dLE dLI dLH : D) (th : Thread) (c : Cand)
  : Cand * bool :=
  let s := c_scan c in
  let mol1 := deref s index in
  let mol2 := t_reference th in
  if loose_test mol1 mol2 dLE dLI dLH then
    if excluded s mol1 mol2 then
      ({| c_scan := set_m_duplicated (m_duplicated s + 1)%Z s;
          c_done := c_done c ++ [th];
          c_reorder := c_reorder c;
          c_keep_molecule := c_keep_molecule c |}, false)
    else if tight_test s mol1 mol2 then
      ({| c_scan := set_m_rejected_directly (m_rejected_directly s + 1)%Z
                      (set_m_threshold (m_threshold s ++ [mol2]) s);
          c_done := c_done c ++ [setEnabled true th];
          c_reorder := false;
          c_keep_molecule := false |}, true)
    else
      ({| c_scan := set_m_exclude_list
                      (m_exclude_list s ++ [(Name mol1, Name mol2)]) s;
          c_done := c_done c ++ [setEnabled true th];
          c_reorder := true;
          c_keep_molecule := c_keep_molecule c |}, false)
  else
    ({| c_scan := s;
        c_done := c_done c ++ [setEnabled false th];
        c_reorder := c_reorder c;
        c_keep_molecule := c_keep_molecule c |}, false).

(** The first inner loop: which accepted structures the candidate [index]
    is to be aligned with.  [t] counts the threads visited; the threads not
    visited are handed back. *)
Fixpoint select_threads (index : Ptr) (dLE dLI dLH : D) (t : nat)
    (todo : list Thread) (c : Cand) : Cand * list Thread * Flow :=
  match todo with
  | [] => (c, [], Next)
  | th :: rest =>
      if CheckStop index t then (c, todo, Return)
      else
        let r := select_pair index dLE dLI dLH th c in
        if snd r then (fst r, rest, Break)
        else select_threads index dLE dLI dLH (S t) rest (fst r)
  end.

(** [p->StartAndWait()].  Modelled from the spec (section 5): the pool, which
    is not among the sources, runs every enabled thread once and joins. *)
Definition run_pool (target : Molecule) (ths : list Thread) : list Thread :=
  map (fun th => if t_enabled th then execute target th else th) ths.

(** [for (auto* t : threads) { t->execute(); if (t->KeepMolecule() == false) break; }] *)
Fixpoint run_in_turn (target : Molecule) (ths : list Thread) : list Thread :=
  match ths with
  | [] => []
  | th :: rest =>
      let th' := execute target th in
      if negb (t_keep_molecule th') then th' :: rest
      else th' :: run_in_turn target rest
  end.

(** The loop that reads the threads after they ran. *)
Fixpoint read_threads (index : Ptr) (todo : list Thread)
    (a : Scan * list Thread * list Rule * bool)
  : Scan * list Thread * list Rule * bool :=
  match todo with
  | [] => a
  | th :: rest =>
      let '(s, done, rules, keep_molecule) := a in
      if negb (t_enabled th) then
        read_threads index rest
          (set_m_skiped (m_skiped s + 1)%Z s, done ++ [setEnabled true th],
           rules, keep_molecule)
      else
        let s := set_m_reordered (m_reordered s + 1)%Z s in
        if negb (t_keep_molecule th) then
          let r := AddRules (t_reorder_rule th) s in
          let rules := if fst r then rules ++ [t_reorder_rule th] else rules in
          let s := snd r in
          let s := if keep_molecule
                   then assign index
                          (ApplyReorderRule drv (deref s index) (t_reorder_rule th)) s
                   else s in
          read_threads index rest (s, done ++ [th], rules, false)
        else if (m_domolalign cfg >? lit 1)
                && (t_rmsd th <? m_domolalign cfg * m_rmsd_threshold s) then
          let mol1 := deref s index in
          let s := assign index (TargetReorderd drv (t_reference th) mol1) s in
          let keep_molecule :=
            if MolalignRMSD drv (t_reference th) mol1 <? m_rmsd_threshold s
            then false else keep_molecule in
          read_threads index rest (s, done ++ [th], rules, keep_molecule)
        else read_threads index rest (s, done ++ [th], rules, keep_molecule)
  end.

(** A thread for an accepted structure.  Modelled from the spec: the
    constructor of [ConfScanThread] is defined in confscan.h, which is not
    among the sources; a new worker is enabled and has no results. *)
Definition addThread (reference : Molecule) (reuse_only : bool) (s : Scan) : Thread :=
  {| t_reference := reference; t_rmsd_threshold := m_rmsd_threshold s;
     t_reuse_only := reuse_only; t_reorder_rules := m_reorder_rules s;
     t_enabled := true;
     t_keep_molecule := true; t_break_pool := false;
     t_reorder_worked := false; t_reused_worked := false;
     t_reorder_rule := []; t_rmsd := lit 0; t_old_rmsd := lit 0 |}.

(** The body of the loop of [Reorder] for the candidate [index]. *)
Definition reorder_candidate (dLE dLI dLH : D) (reuse_only : bool)
    (index : Ptr) (p : Pass) : Pass * Flow :=
  let s := scan p in
  if Nat.eqb (length (m_result s)) 0 then
    let s := AcceptMolecule index s in
    ({| scan := set_m_lowest_energy (Energy (deref s index)) s;
        threads := threads p ++ [addThread (deref s index) reuse_only s];
        rules := rules p |}, Next)
  else
    let m_dE := (Energy (deref s index) - m_lowest_energy s) * lit (5251 # 2) in
    if (m_dE >? m_energy_cutoff cfg) && negb (m_energy_cutoff cfg =? lit (-1)) then
      (p, Break)
    else
      let '(c, rest, flow) :=
        select_threads index dLE dLI dLH 0 (threads p)
          {| c_scan := s; c_done := []; c_reorder := false;
             c_keep_molecule := true |} in
      match flow with
      | Return =>
          ({| scan := c_scan c; threads := c_done c ++ rest; rules := rules p |},
           Return)
      | _ =>
          let ths := c_done c ++ rest in
          let s := c_scan c in
          let '(s, ths, rules', keep_molecule) :=
            if c_reorder c && c_keep_molecule c then
              let ths := map (setRules (m_reorder_rules s) (rules p)) ths in
              let ths := if m_molalign_single cfg
                         then run_in_turn (deref s index) ths
                         else run_pool (deref s index) ths in
              read_threads index ths (s, [], rules p, c_keep_molecule c)
            else
              (set_m_skiped (m_skiped s + Z.of_nat (length ths))%Z s, ths,
               rules p, c_keep_molecule c) in
          let s' := if keep_molecule
                    then AcceptMolecule index s else RejectMolecule index s in
          let ths := if keep_molecule
                     then ths ++ [addThread (deref s' index) reuse_only s']
                     else ths in
          ({| scan := s'; threads := ths; rules := rules' |},
           if rank_reached (m_maxrank cfg) (length (m_result s')) then Break else Next)
      end.

(** The loop of [Reorder] over a stretch of [cached]; it stops at the first
    [break] or [return]. *)
Fixpoint reorder_loop (dLE dLI dLH : D) (reuse_only : bool)
    (cached : list Ptr) (p : Pass) : Pass :=
  match cached with
  | [] => p
  | index :: rest =>
      let r := reorder_candidate dLE dLI dLH reuse_only index p in
      match snd r with
      | Next => reorder_loop dLE dLI dLH reuse_only rest (fst r)
      | _ => fst r
      end
  end.

(** The statements of [Reorder] before its loop. *)
Definition reorder_prologue (reset : bool) (s : Scan) : list Ptr * Scan :=
  let s := set_m_duplicated 0%Z (set_m_rejected_directly 0%Z s) in
  let s := if m_ignoreRotation cfg then set_m_dTI (lit (-1)) s else s in
  let s := if m_ignoreBarCode cfg then set_m_dTH (lit (-1)) s else s in
  let s := set_m_skiped 0%Z (set_m_reordered 0%Z
             (set_m_accepted 0%Z (set_m_rejected 0%Z s))) in
  let cached := if reset then m_all_structures s else m_stored_structures s in
  (cached, set_m_stored_structures [] (set_m_result (m_previously_accepted s) s)).

(** [Reorder]; the statistics that only feed the output are left out. *)
Definition Reorder (dLE dLI dLH : D) (reuse_only reset : bool) (s : Scan) : Scan :=
  let r := reorder_prologue reset s in
  scan (reorder_loop dLE dLI dLH reuse_only (fst r)
          {| scan := snd r; threads := []; rules := [] |}).

(** *** Loading the ensemble and running the passes *)

(** Not part of the sources: the energy backend. *)
Variable CalculateEnergy : Molecule -> D.

(** The body of the loop that reads the ensemble: the energy under which the
    molecule is filed, with [m_method] turning to "gfn2" at the first
    molecule without an energy. *)
Definition load_molecule (mol : Molecule) (a : bool * nat * Scan) : bool * nat * Scan :=
  let '(method_given, molecule, s) := a in
  let recompute := (dabs (Energy mol) <? lit (1 # 100000)) || method_given in
  let energy := if recompute then CalculateEnergy mol else Energy mol in
  (recompute, S molecule,
   assign molecule mol
     (set_m_ordered_list (ordered_insert energy molecule (m_ordered_list s)) s)).

Definition load_ensemble (method_given : bool) (file : list Molecule) (s : Scan) : Scan :=
  snd (fold_left (fun a mol => load_molecule mol a) file (method_given, O, s)).

(** Vocabulary for statements about the loader: the molecule carries no
    energy, [std::abs(energy) < 1e-5]; and the test the loader makes at
    structure [i] of the file has come out true for that structure or for an
    earlier one, or [m_method] was set from the start. *)
Definition lacks_energy (mol : Molecule) : bool :=
  dabs (Energy mol) <? lit (1 # 100000).

Definition recomputed (method_given : bool) (file : list Molecule) (i : nat) : bool :=
  method_given || existsb lacks_energy (firstn (S i) file).

(** The calls of [ConfScan::start()]: the passes it makes, each [Reorder]
    with the thresholds [start] hands it. *)
Inductive PassCall : Type :=
| CallCheckOnly
| CallSkipInit
| CallReorder (dLE dLI dLH : D) (reuse_only reset : bool).

Definition run_pass (c : PassCall) (s : Scan) : Scan :=
  match c with
  | CallCheckOnly => CheckOnly s
  | CallSkipInit =>
      set_m_stored_structures
        (m_stored_structures s ++ map snd (m_ordered_list s)) s
  | CallReorder dLE dLI dLH reuse_only reset =>
      Reorder dLE dLI dLH reuse_only reset s
  end.

Definition run_passes (calls : list PassCall) (s : Scan) : Scan :=
  fold_left (fun s c => run_pass c s) calls s.

(** *** [void ConfScan::Finalise()] *)

(** The files [Finalise] appends to, each as the list of what has been
    appended to it. *)
Record Files : Type := {
  accepted_file : list Ptr;
  rejected_file : list Ptr;
  joined_file : list Ptr;
  threshold_file : list Molecule
}.

(** The body of the loop over [m_stored_structures]; [i] is the local
    counter. *)
Definition finalise_molecule (s : Scan) (molecule : Ptr) (a : Z * Files)
  : Z * Files :=
  let i := fst a in
  let f := snd a in
  let difference :=
    dabs (Energy (deref s molecule) - m_lowest_energy s) * lit (5251 # 2) in
  let rejected :=
    {| accepted_file := accepted_file f;
       rejected_file := rejected_file f ++ [molecule];
       joined_file := joined_file f; threshold_file := threshold_file f |} in
  if (m_maxrank cfg <=? i)%Z && negb (m_maxrank cfg =? -1)%Z then (i, rejected)
  else if (difference >? m_energy_cutoff cfg)
          && negb (m_energy_cutoff cfg =? lit (-1)) then (i, rejected)
  else
    ((i + 1)%Z,
     {| accepted_file := accepted_file f ++ [molecule];
        rejected_file := rejected_file f;
        joined_file := if Nat.eqb (length (m_previously_accepted s)) 0
                       then joined_file f else joined_file f ++ [molecule];
        threshold_file := threshold_file f |}).

(** [Finalise]; [m_writeFiles] and [m_reduced_file] are members only it
    reads.  The restart file, the graph and the console output are left
    out. *)
Definition Finalise (m_writeFiles m_reduced_file : bool) (s : Scan) (f : Files)
  : Files :=
  let f := snd (fold_left (fun a molecule => finalise_molecule s molecule a)
                  (m_stored_structures s) (0%Z, f)) in
  let f := {| accepted_file := accepted_file f; rejected_file := rejected_file f;
              joined_file := joined_file f ++ m_previously_accepted s;
              threshold_file := threshold_file f |} in
  if m_writeFiles && negb m_reduced_file then
    {| accepted_file := accepted_file f;
       rejected_file := rejected_file f ++ m_rejected_structures s;
       joined_file := joined_file f;
       threshold_file := threshold_file f ++ m_threshold s |}
  else f.

(** *** Vocabulary for statements about the scanner *)

(** The rule cache of [s'] is the one of [s] with rules added behind it,
    none of them twice and none of them already in the cache of [s]. *)
Definition cache_extends (s s' : Scan) : Prop :=
  exists added : list Rule,
    m_reorder_rules s' = m_reorder_rules s ++ added
    /\ NoDup added
    /\ forall r, In r added -> ~ In r (m_reorder_rules s).

(** What the loop of [CheckOnly] has done to the lists between [s] and
    [s']: [L] has gone to [m_all_structures], [A] to the accepted and [R] to
    the rejected structures. *)
Definition filed (L A R : list Ptr) (s s' : Scan) : Prop :=
  m_all_structures s' = m_all_structures s ++ L
  /\ m_stored_structures s' = m_stored_structures s ++ A
  /\ m_rejected_structures s' = m_rejected_structures s ++ R
  /\ m_accepted s' = (m_accepted s + Z.of_nat (length A))%Z
  /\ (m_rejected s + Z.of_nat (length R) <= m_rejected s')%Z.

(** The scanner is still calibrating at [s'], and has rejected nothing and
    kept the tight thresholds since [s]. *)
Definition calibrating (s s' : Scan) : Prop :=
  m_rmsd_set s' = false
  /\ m_rejected_structures s' = m_rejected_structures s
  /\ m_dTI s' = m_dTI s
  /\ m_dTH s' = m_dTH s
  /\ m_dTE s' = m_dTE s.

(** The structure [molecule] is inside the energy window [Finalise]
    applies. *)
Definition in_window (s : Scan) (molecule : Ptr) : bool :=
  negb ((dabs (Energy (deref s molecule) - m_lowest_energy s) * lit (5251 # 2)
         >? m_energy_cutoff cfg)
        && negb (m_energy_cutoff cfg =? lit (-1))).

(** [l] is [l'] with entries left out, the order kept. *)
Inductive subseq {A : Type} : list A -> list A -> Prop :=
| subseq_nil : subseq [] []
| subseq_skip (x : A) (l l' : list A) : subseq l l' -> subseq l (x :: l')
| subseq_keep (x : A) (l l' : list A) : subseq l l' -> subseq (x :: l) (x :: l').

(** The passes [start()] makes: the initial pass, or with [m_skipinit] the
    copy of the ensemble, and then the calls of [Reorder]. *)
Definition start_calls (skipinit : bool) (runs : list (D * D * D * bool * bool))
  : list PassCall :=
  (if skipinit then CallSkipInit else CallCheckOnly)
  :: map (fun r => let '(dLE, dLI, dLH, reuse_only, reset) := r in
                   CallReorder dLE dLI dLH reuse_only reset) runs.

(** The candidates the loop of a pass runs over, in the order of the loop. *)
Definition candidates (c : PassCall) (s : Scan) : list Ptr :=
  match c with
  | CallCheckOnly | CallSkipInit => map snd (m_ordered_list s)
  | CallReorder _ _ _ _ reset => fst (reorder_prologue reset s)
  end.

(** The scanner inside a pass, when the loop has been through the first [n]
    candidates. *)
Definition pass_state_after (n : nat) (c : PassCall) (s : Scan) : Scan :=
  match c with
  | CallCheckOnly => fst (check_loop (firstn n (m_ordered_list s)) (s, []))
  | CallSkipInit =>
      set_m_stored_structures
        (m_stored_structures s ++ firstn n (map snd (m_ordered_list s))) s
  | CallReorder dLE dLI dLH reuse_only reset =>
      let r := reorder_prologue reset s in
      scan (reorder_loop dLE dLI dLH reuse_only (firstn n (fst r))
              {| scan := snd r; threads := []; rules := [] |})
  end.

(** The lists of the scanner that a statement about the order of the
    structures looks at are the same in [s] and [s']. *)
Definition same_lists (s s' : Scan) : Prop :=
  m_ordered_list s' = m_ordered_list s
  /\ m_all_structures s' = m_all_structures s
  /\ m_previously_accepted s' = m_previously_accepted s
  /\ m_stored_structures s' = m_stored_structures s
  /\ m_result s' = m_result s.

(** From [s] to [s'] the candidate [index] went behind [m_result] and
    [m_stored_structures], or nothing did. *)
Definition accepted_or_not (index : Ptr) (s s' : Scan) : Prop :=
  (m_stored_structures s' = m_stored_structures s /\ m_result s' = m_result s)
  \/ (m_stored_structures s' = m_stored_structures s ++ [index]
      /\ m_result s' = m_result s ++ [index]).

(** [l'] is [l], or [l] with [index] behind it. *)
Definition grows_by (index : Ptr) (l l' : list Ptr) : Prop :=
  l' = l \/ l' = l ++ [index].

(** Whether a call is one of [Reorder]. *)
Definition is_reorder (c : PassCall) : Prop :=
  match c with CallReorder _ _ _ _ _ => True | _ => False end.

(** The driver [d] with another permutation search: the RMSD, the rule and
    the topology difference that [start()] leaves are [rmsd], [rules] and
    [topo]. *)
Definition replace_search (d : Driver) (rmsd : Molecule -> Molecule -> D)
    (rules : Molecule -> Molecule -> Rule) (topo : Molecule -> Molecule -> Z)
  : Driver :=
  {| BestFitRMSD := BestFitRMSD d; Rules2RMSD := Rules2RMSD d;
     HBondTopoDifference_rules := HBondTopoDifference_rules d;
     ReorderRMSD := rmsd; ReorderRules := rules; HBondTopoDifference := topo;
     NoReorderRMSD := NoReorderRMSD d;
     NoReorderHBondTopoDifference := NoReorderHBondTopoDifference d;
     MolalignRMSD := MolalignRMSD d; TargetReorderd := TargetReorderd d;
     ApplyReorderRule := ApplyReorderRule d; Check := Check d |}.

(** The test [ConfScanThread::execute] makes on a cached rule. *)
Definition rule_applies (d : Driver) (th : Thread) (target : Molecule) (r : Rule)
  : bool :=
  (Z.of_nat (length r) =? AtomCount (t_reference th))%Z
  && negb (Z.of_nat (length r) =? 0)%Z
  && (Rules2RMSD d (t_reference th) target r <? t_rmsd_threshold th)
  && ((m_MaxHTopoDiff cfg =? -1)%Z
      || (HBondTopoDifference_rules d (t_reference th) target r
          <=? m_MaxHTopoDiff cfg)%Z).

(** The verdicts of the scanner, lists and counters, are the same in [s]
    and [s']. *)
Definition same_verdicts (s s' : Scan) : Prop :=
  m_stored_structures s' = m_stored_structures s
  /\ m_rejected_structures s' = m_rejected_structures s
  /\ m_all_structures s' = m_all_structures s
  /\ m_accepted s' = m_accepted s
  /\ m_rejected s' = m_rejected s.

(** From [s] to [s'] the candidate [index] was accepted, list and counter. *)
Definition accepted_step (index : Ptr) (s s' : Scan) : Prop :=
  m_stored_structures s' = m_stored_structures s ++ [index]
  /\ m_rejected_structures s' = m_rejected_structures s
  /\ m_accepted s' = (m_accepted s + 1)%Z
  /\ m_rejected s' = m_rejected s.

(** From [s] to [s'] the candidate [index] was rejected, list and counter. *)
Definition rejected_step (index : Ptr) (s s' : Scan) : Prop :=
  m_stored_structures s' = m_stored_structures s
  /\ m_rejected_structures s' = m_rejected_structures s ++ [index]
  /\ m_accepted s' = m_accepted s
  /\ m_rejected s' = (m_rejected s + 1)%Z.

End ConfScan.

Arguments Molecule : clear implicits.
Arguments Driver : clear implicits.
Arguments Settings : clear implicits.
Arguments Thread : clear implicits.
Arguments NoReorderResult : clear implicits.
Arguments Gather : clear implicits.
Arguments Scan : clear implicits.
Arguments Pass : clear implicits.
Arguments Cand : clear implicits.
Arguments PassCall : clear implicits.
Arguments Files : clear implicits.

End ConfScan.

Module Initialise.
Section Initialise.
Context {D : Type} `{Arith D}.
Local Open Scope D_scope.

(** Not part of the sources: the table [Elements::AtomicMass]. *)
Variable AtomicMass : Z -> D.
Variable m_hmass : D.

(** The mass of atom [i] as [Initialise] computes it. *)
Definition atom_mass (m_atomtype : list Z) (i : nat) : D :=
  let ty := nth i m_atomtype 0%Z in
  if (ty =? 1)%Z then AtomicMass ty * m_hmass else AtomicMass ty.

Definition fill3 (v : list D) (i : nat) (x : D) : list D :=
  wr (wr (wr v (3 * i + 0) x) (3 * i + 1) x) (3 * i + 2) x.

(** The loop of [SimpleMD::Initialise] that fills [m_eigen_masses] and
    [m_eigen_inv_masses]: three entries per atom. *)
Definition init_masses (m_atomtype : list Z) : list D * list D :=
  let n := length m_atomtype in
  for_range n
    (fun i (a : list D * list D) =>
       let m := atom_mass m_atomtype i in
       (fill3 (fst a) i m, fill3 (snd a) i (lit 1 / m)))
    (repeat (lit 0) (3 * n), repeat (lit 0) (3 * n)).

End Initialise.
End Initialise.

(* ===================================================================== *)
(** ** Statements of the specification, as it words them                  *)
(* ===================================================================== *)

Module Spec.
Section Spec.
Context {D : Type} `{Arith D}.
Local Open Scope D_scope.

(** "Kinetic energy E_kin = 1/2 sum m_i v_i^2", with one mass per atom. *)
Definition kinetic_energy (masses : list D) (vel : list D) : D :=
  lit (1 # 2) *
  fold_left (fun acc i =>
               acc + nth i masses (lit 0)
                     * (rd vel (3 * i) * rd vel (3 * i)
                        + rd vel (3 * i + 1) * rd vel (3 * i + 1)
                        + rd vel (3 * i + 2) * rd vel (3 * i + 2)))
            (seq 0 (length masses)) (lit 0).

(** The sum of a list of terms. *)
Fixpoint dsum (l : list D) : D :=
  match l with
  | [] => lit 0
  | x :: t => x + dsum t
  end.

(** "V_bias(x) = k_rmsd * sum_k w_k * exp(-alpha * RMSD(x, s_k)^2)"; a term
    is the pair of the weight w_k and of RMSD(x, s_k).  The argument of the
    exponential is written as the code writes it, [-rmsd * rmsd * alpha]. *)
Definition V_bias (exp : D -> D) (k_rmsd alpha : D) (terms : list (D * D)) : D :=
  k_rmsd * dsum (map (fun t => fst t * exp (- snd t * snd t * alpha)) terms).

(** "Plain MTD: w_k equals the visit counter of s_k": the terms of a worker
    whose reference holds the configuration x. *)
Definition plain_terms (BestFitRMSD : list D -> list D -> D)
    (th : BiasThread.t D) : list (D * D) :=
  map (fun s => (of_int (BiasThread.counter s),
                 BestFitRMSD (BiasThread.m_reference th) (BiasThread.geometry s)))
      (BiasThread.m_biased_structures th).

End Spec.
End Spec.

(* ===================================================================== *)
(** ** Concrete inputs                                                    *)
(* ===================================================================== *)

Module Inputs.
Section Inputs.
Context {D : Type} `{Arith D}.
Local Open Scope D_scope.

(** The Boltzmann constant in Hartree per Kelvin. *)
Definition kb_Eh : D := lit (3166811563 # 1000000000000000).

(** Two rows of the table of atomic masses: hydrogen and oxygen. *)
Definition AtomicMass (z : Z) : D :=
  if (z =? 1)%Z then lit (1008 # 1000)
  else if (z =? 8)%Z then lit (15999 # 1000)
  else lit 0.

Definition zeros (n : nat) : list D := repeat (lit 0) n.

(** A run without constraints, walls or metadynamics. *)
Definition plain_config (natoms : nat) (masses inv_masses : list D) (dT T0 : D)
  : SimpleMD.Config D :=
  {| SimpleMD.m_natoms := natoms;
     SimpleMD.m_eigen_masses := masses;
     SimpleMD.m_eigen_inv_masses := inv_masses;
     SimpleMD.m_dT := dT; SimpleMD.m_dt2 := dT * dT; SimpleMD.m_T0 := T0;
     SimpleMD.m_rmsd_mtd := false; SimpleMD.m_mtd_steps := 1;
     SimpleMD.m_threads := 1; SimpleMD.m_rmsd_econv := lit 0;
     SimpleMD.m_rmsd_fix_structure := false; SimpleMD.m_rmsd_indicies := [];
     SimpleMD.m_rattle_maxiter := 100; SimpleMD.m_rattle_max := lit 10;
     SimpleMD.m_rattle_min := lit (1 # 10000);
     SimpleMD.m_rattle_tol_12 := lit (1 # 10); SimpleMD.m_rattle_tol_13 := lit (1 # 2);
     SimpleMD.m_bond_constrained := []; SimpleMD.m_bond_13_constrained := [];
     SimpleMD.m_wall_temp := lit 0; SimpleMD.m_wall_beta := lit 0;
     SimpleMD.m_wall_spheric_radius := lit 0;
     SimpleMD.m_wall_x_min := lit 0; SimpleMD.m_wall_x_max := lit 0;
     SimpleMD.m_wall_y_min := lit 0; SimpleMD.m_wall_y_max := lit 0;
     SimpleMD.m_wall_z_min := lit 0; SimpleMD.m_wall_z_max := lit 0 |}.

(** A state with the given positions, velocities and gradient, and no bias
    structures. *)
Definition plain_state (x v g : list D) (dof : Z) : SimpleMD.State D unit :=
  {| SimpleMD.m_eigen_geometry := x; SimpleMD.m_eigen_velocities := v;
     SimpleMD.m_eigen_gradient := g;
     SimpleMD.m_T := lit 0; SimpleMD.m_Ekin := lit 0; SimpleMD.m_Epot := lit 0;
     SimpleMD.m_dof := dof; SimpleMD.m_unstable := false;
     SimpleMD.m_virial_correction := lit 0;
     SimpleMD.m_wall_violation_count := 0;
     SimpleMD.m_bias_threads := []; SimpleMD.m_bias_structure_count := 0;
     SimpleMD.m_bias_energy := lit 0; SimpleMD.m_colvar_incr := 0;
     SimpleMD.m_rmsd_mtd_molecule := [];
     SimpleMD.m_step := 0; SimpleMD.m_currentStep := lit 0;
     SimpleMD.m_interface_error := false; SimpleMD.m_interface_nan := false;
     SimpleMD.m_thermostat_state := tt |}.

(** [SimpleMD::None()]: no thermostat. *)
Definition no_thermostat (_ : SimpleMD.Config D) (s : SimpleMD.State D unit)
  : list D * unit :=
  (SimpleMD.m_eigen_velocities s, tt).

(** [WallPotential = [=]() -> double { return 0; }]: no wall. *)
Definition no_wall (_ : SimpleMD.Config D) (s : SimpleMD.State D unit) : list D * Z :=
  (SimpleMD.m_eigen_gradient s, SimpleMD.m_wall_violation_count s).

(** No fragment to rotate. *)
Definition no_rotation (_ : SimpleMD.Config D) (s : SimpleMD.State D unit) : list D :=
  SimpleMD.m_eigen_velocities s.

(** A backend that answers with the gradient [g] and reports no error. *)
Definition constant_backend (g : list D) (_ : list D) : SimpleMD.BackendResult D :=
  {| SimpleMD.be_energy := lit 0; SimpleMD.be_gradient := g;
     SimpleMD.be_error := false; SimpleMD.be_nan := false |}.

(** An O-H pair, oxygen first, the hydrogen moving along x. *)
Definition OH_masses : list D * list D :=
  Initialise.init_masses AtomicMass (lit 1) [8%Z; 1%Z].

Definition OH_config : SimpleMD.Config D :=
  plain_config 2 (fst OH_masses) (snd OH_masses) (lit 1) (lit 300).

Definition OH_velocities : list D :=
  [lit 0; lit 0; lit 0; lit (1 # 1000); lit 0; lit 0].

Definition OH_state : SimpleMD.State D unit :=
  plain_state (zeros 6) OH_velocities (zeros 6) 6.

(** One atom in the box [0, 10]^3 with wall steepness 1, or in the sphere
    of radius 10. *)
Definition box_config : SimpleMD.Config D :=
  {| SimpleMD.m_natoms := 1;
     SimpleMD.m_eigen_masses := [lit 1; lit 1; lit 1];
     SimpleMD.m_eigen_inv_masses := [lit 1; lit 1; lit 1];
     SimpleMD.m_dT := lit 1; SimpleMD.m_dt2 := lit 1; SimpleMD.m_T0 := lit 300;
     SimpleMD.m_rmsd_mtd := false; SimpleMD.m_mtd_steps := 1;
     SimpleMD.m_threads := 1; SimpleMD.m_rmsd_econv := lit 0;
     SimpleMD.m_rmsd_fix_structure := false; SimpleMD.m_rmsd_indicies := [];
     SimpleMD.m_rattle_maxiter := 100; SimpleMD.m_rattle_max := lit 10;
     SimpleMD.m_rattle_min := lit (1 # 10000);
     SimpleMD.m_rattle_tol_12 := lit (1 # 10); SimpleMD.m_rattle_tol_13 := lit (1 # 2);
     SimpleMD.m_bond_constrained := []; SimpleMD.m_bond_13_constrained := [];
     SimpleMD.m_wall_temp := lit 300; SimpleMD.m_wall_beta := lit 1;
     SimpleMD.m_wall_spheric_radius := lit 10;
     SimpleMD.m_wall_x_min := lit 0; SimpleMD.m_wall_x_max := lit 10;
     SimpleMD.m_wall_y_min := lit 0; SimpleMD.m_wall_y_max := lit 10;
     SimpleMD.m_wall_z_min := lit 0; SimpleMD.m_wall_z_max := lit 10 |}.

(** The atom has left the box by 1000 along x. *)
Definition escaped_state : SimpleMD.State D unit :=
  plain_state [lit (-1000); lit 5; lit 5] (zeros 3) (zeros 3) 3.

(** One atom of mass 1, time step 2, three degrees of freedom, target
    temperature 300 K, no thermostat, no wall, no bias; the backend answers
    with the gradient [g] along x. *)
Definition atom_config : SimpleMD.Config D :=
  plain_config 1 [lit 1; lit 1; lit 1] [lit 1; lit 1; lit 1] (lit 2) (lit 300).

Definition atom_state (vx : D) : SimpleMD.State D unit :=
  plain_state (zeros 3) [vx; lit 0; lit 0] (zeros 3) 3.

Definition atom_Verlet (g : D) : SimpleMD.State D unit -> SimpleMD.State D unit :=
  SimpleMD.Verlet (fun x => x) kb_Eh (fun _ _ => lit 0) (fun _ _ => []) 1%Z
    (lit 0) (lit 0) (constant_backend [g; lit 0; lit 0])
    no_thermostat no_wall atom_config.

Definition atom_loop_pass (g : D) (fuel : nat) (local_m_step : Z)
  : SimpleMD.State D unit -> res (SimpleMD.Outcome D unit * Z) :=
  SimpleMD.loop_pass (fun x => x) kb_Eh (fun _ _ => lit 0) (fun _ _ => []) 1%Z
    (lit 0) (lit 0) (constant_backend [g; lit 0; lit 0])
    no_thermostat no_wall no_rotation atom_config 0%Z fuel local_m_step.

(** [passes] passes of the loop for that atom, with the Verlet integrator. *)
Definition atom_md_loop (g : D) (fuel passes : nat) (local_m_step : Z)
  : SimpleMD.State D unit -> res (SimpleMD.Outcome D unit * Z) :=
  SimpleMD.md_loop (fun x => x) kb_Eh (fun _ _ => lit 0) (fun _ _ => []) 1%Z
    (lit 0) (lit 0) (constant_backend [g; lit 0; lit 0])
    no_thermostat no_wall no_rotation atom_config 0%Z fuel passes local_m_step.

(** The atom at x = 1 with velocity 3 and gradient 2 along x. *)
Definition moving_atom : SimpleMD.State D unit :=
  plain_state [lit 1; lit 0; lit 0] [lit 3; lit 0; lit 0] [lit 2; lit 0; lit 0] 3.

(** Stand-ins for what is not part of the sources, for runs in which every
    RMSD is zero: a function that agrees with [exp] at 0, and a driver that
    finds every structure on top of the reference. *)
Definition exp_near_zero (x : D) : D := lit 1 + x.
Definition rmsd_zero (_ _ : list D) : D := lit 0.
Definition gradient_zero (_ _ : list D) : list D := [].

(** A bias worker for one atom, plain metadynamics, without structures. *)
Definition worker (k alpha dT econv : D) : BiasThread.t D :=
  {| BiasThread.m_reference := zeros 3; BiasThread.m_atoms := 1;
     BiasThread.m_biased_structures := [];
     BiasThread.m_k := k; BiasThread.m_alpha := alpha;
     BiasThread.m_dT := dT; BiasThread.m_DT := lit 1;
     BiasThread.m_rmsd_econv := econv; BiasThread.m_wtmtd := false;
     BiasThread.m_currentStep := lit 0;
     BiasThread.m_current_bias := lit 0; BiasThread.m_counter := 0;
     BiasThread.m_gradient := zeros 3; BiasThread.m_rmsd_reference := lit 0;
     BiasThread.return_value := 0 |}.

(** The same worker holding one structure that has been visited once. *)
Definition worker_with_structure (k alpha dT econv : D) : BiasThread.t D :=
  BiasThread.addGeometry 1%Z (lit 0) (lit 0) (zeros 3) (lit 0) (lit 0) 0%Z
    (worker k alpha dT econv).

(** The same worker holding a second structure, visited three times. *)
Definition worker_with_two_structures (k alpha dT econv : D) : BiasThread.t D :=
  BiasThread.addGeometry 3%Z (lit 0) (lit 0) (zeros 3) (lit 0) (lit 0) 1%Z
    (worker_with_structure k alpha dT econv).

(** One atom with RMSD metadynamics on all of it, the bias test every 2
    steps, energy-convergence factor 5, and two workers whose force constant
    is 0, so that the bias energy stays 0 and every call deposits. *)
Definition two_worker_config : SimpleMD.Config D :=
  {| SimpleMD.m_natoms := 1;
     SimpleMD.m_eigen_masses := [lit 1; lit 1; lit 1];
     SimpleMD.m_eigen_inv_masses := [lit 1; lit 1; lit 1];
     SimpleMD.m_dT := lit 1; SimpleMD.m_dt2 := lit 1; SimpleMD.m_T0 := lit 300;
     SimpleMD.m_rmsd_mtd := true; SimpleMD.m_mtd_steps := 2;
     SimpleMD.m_threads := 2; SimpleMD.m_rmsd_econv := lit 5;
     SimpleMD.m_rmsd_fix_structure := false; SimpleMD.m_rmsd_indicies := [O];
     SimpleMD.m_rattle_maxiter := 100; SimpleMD.m_rattle_max := lit 10;
     SimpleMD.m_rattle_min := lit (1 # 10000);
     SimpleMD.m_rattle_tol_12 := lit (1 # 10); SimpleMD.m_rattle_tol_13 := lit (1 # 2);
     SimpleMD.m_bond_constrained := []; SimpleMD.m_bond_13_constrained := [];
     SimpleMD.m_wall_temp := lit 0; SimpleMD.m_wall_beta := lit 0;
     SimpleMD.m_wall_spheric_radius := lit 0;
     SimpleMD.m_wall_x_min := lit 0; SimpleMD.m_wall_x_max := lit 0;
     SimpleMD.m_wall_y_min := lit 0; SimpleMD.m_wall_y_max := lit 0;
     SimpleMD.m_wall_z_min := lit 0; SimpleMD.m_wall_z_max := lit 0 |}.

Definition two_worker_ApplyRMSDMTD
  : SimpleMD.State D unit -> SimpleMD.State D unit :=
  SimpleMD.ApplyRMSDMTD exp_near_zero kb_Eh rmsd_zero gradient_zero 1%Z
    (lit 0) (lit 0) two_worker_config.

(** Before the first bias: two workers, no structure. *)
Definition two_worker_start : SimpleMD.State D unit :=
  SimpleMD.set_m_rmsd_mtd_molecule (zeros 3)
    (SimpleMD.set_m_bias_threads
       [worker (lit 0) (lit 1) (lit 1) (lit 5);
        worker (lit 0) (lit 1) (lit 1) (lit 5)]
       (plain_state (zeros 3) (zeros 3) (zeros 3) 3)).

(** After two calls: the first deposits structures 0 and 1, the second
    structure 2. *)
Definition two_worker_state : SimpleMD.State D unit :=
  two_worker_ApplyRMSDMTD (two_worker_ApplyRMSDMTD two_worker_start).

(** [passes] passes of the run loop for that atom with the Verlet
    integrator, a backend that answers with a zero gradient, no thermostat
    and no wall; [m_mtd_steps] is 2. *)
Definition two_worker_md_loop (fuel passes : nat) (local_m_step : Z)
  : SimpleMD.State D unit -> res (SimpleMD.Outcome D unit * Z) :=
  SimpleMD.md_loop exp_near_zero kb_Eh rmsd_zero gradient_zero 1%Z
    (lit 0) (lit 0) (constant_backend (zeros 3))
    no_thermostat no_wall no_rotation two_worker_config 0%Z fuel passes
    local_m_step.

(** *** RATTLE *)

(** Two atoms of unit mass with the square of their distance constrained
    to 1, at most five passes and multipliers of magnitude at most 1/100. *)
Definition rattle_config : SimpleMD.Config D :=
  {| SimpleMD.m_natoms := 2;
     SimpleMD.m_eigen_masses := repeat (lit 1) 6;
     SimpleMD.m_eigen_inv_masses := repeat (lit 1) 6;
     SimpleMD.m_dT := lit 1; SimpleMD.m_dt2 := lit 1; SimpleMD.m_T0 := lit 300;
     SimpleMD.m_rmsd_mtd := false; SimpleMD.m_mtd_steps := 1;
     SimpleMD.m_threads := 1; SimpleMD.m_rmsd_econv := lit 0;
     SimpleMD.m_rmsd_fix_structure := false; SimpleMD.m_rmsd_indicies := [];
     SimpleMD.m_rattle_maxiter := 5; SimpleMD.m_rattle_max := lit (1 # 100);
     SimpleMD.m_rattle_min := lit (1 # 10000);
     SimpleMD.m_rattle_tol_12 := lit (1 # 10); SimpleMD.m_rattle_tol_13 := lit (1 # 2);
     SimpleMD.m_bond_constrained := [((0%nat, 1%nat), lit 1)];
     SimpleMD.m_bond_13_constrained := [];
     SimpleMD.m_wall_temp := lit 0; SimpleMD.m_wall_beta := lit 0;
     SimpleMD.m_wall_spheric_radius := lit 0;
     SimpleMD.m_wall_x_min := lit 0; SimpleMD.m_wall_x_max := lit 0;
     SimpleMD.m_wall_y_min := lit 0; SimpleMD.m_wall_y_max := lit 0;
     SimpleMD.m_wall_z_min := lit 0; SimpleMD.m_wall_z_max := lit 0 |}.

(** The two atoms at rest, 2 apart, with no force on them. *)
Definition stretched_geometry : list D :=
  [lit 0; lit 0; lit 0; lit 2; lit 0; lit 0].

Definition stretched_state : SimpleMD.State D unit :=
  plain_state stretched_geometry (zeros 6) (zeros 6) 6.

(** A gradient at the limit of [double], pulling the two atoms apart. *)
Definition exploding_gradient : list D :=
  [dbl_max; lit 0; lit 0; - dbl_max; lit 0; lit 0].

(** [Rattle] for the pair, with a backend that answers with the gradient
    [g], no thermostat, no wall and no bias. *)
Definition pair_Rattle (g : list D) (fuel : nat)
  : SimpleMD.State D unit -> res (SimpleMD.State D unit) :=
  SimpleMD.Rattle (fun x => x) kb_Eh rmsd_zero gradient_zero 1%Z (lit 0) (lit 0)
    (constant_backend g) no_thermostat no_wall no_rotation rattle_config fuel.

(** The state [Rattle] has before its second loop, [p] being what the first
    loop left. *)
Definition pair_Rattle_middle (g : list D) (p : SimpleMD.Pos D)
  : SimpleMD.State D unit -> SimpleMD.State D unit :=
  SimpleMD.Rattle_middle (fun x => x) kb_Eh rmsd_zero gradient_zero 1%Z (lit 0)
    (lit 0) (constant_backend g) no_thermostat no_wall rattle_config p.

(** *** The scanner *)

(** A molecule of three atoms, known by its name, energy, rotational
    constants and a persistence image of two entries. *)
Definition molecule (name : string) (energy ia ib ic h0 h1 : D)
  : ConfScan.Molecule D unit :=
  {| ConfScan.Name := name; ConfScan.Energy := energy;
     ConfScan.Ia := ia; ConfScan.Ib := ib; ConfScan.Ic := ic;
     ConfScan.getPersisentImage := [h0; h1];
     ConfScan.AtomCount := 3; ConfScan.Body := tt |}.

Definition mol_A : ConfScan.Molecule D unit :=
  molecule "A" (lit (-10)) (lit 1000) (lit 2000) (lit 3000) (lit 1) (lit 2).

Definition mol_B : ConfScan.Molecule D unit :=
  molecule "B" (lit (-9)) (lit 1030) (lit 2030) (lit 3030) (lit 2) (lit 4).

(** All three descriptors switched on in both masks. *)
Definition scan_settings : ConfScan.Settings D :=
  {| ConfScan.m_maxrank := -1; ConfScan.m_MaxHTopoDiff := -1;
     ConfScan.m_earlybreak := 0;
     ConfScan.m_looseThresh := 7; ConfScan.m_tightThresh := 7;
     ConfScan.m_sTI := lit (1 # 10); ConfScan.m_sTH := lit (1 # 10);
     ConfScan.m_sTE := lit (1 # 10);
     ConfScan.m_energy_cutoff := lit (-1); ConfScan.m_domolalign := lit (-1);
     ConfScan.m_skip_orders := false; ConfScan.m_restart := false;
     ConfScan.m_molalign_single := false;
     ConfScan.m_ignoreRotation := false; ConfScan.m_ignoreBarCode := false |}.

(** The scanner with [mol_A] at pointer 0, accepted, and [mol_B] at pointer
    1, the three tight thresholds [tight], and the list of pairs already
    aligned. *)
Definition scan_AB (tight : D) (exclude : list (string * string))
  : ConfScan.Scan D unit :=
  {| ConfScan.m_molecules := fun p => if Nat.eqb p 0 then mol_A else mol_B;
     ConfScan.m_ordered_list := [(lit (-10), 0%nat); (lit (-9), 1%nat)];
     ConfScan.m_previously_accepted := [];
     ConfScan.m_result := [0%nat]; ConfScan.m_stored_structures := [0%nat];
     ConfScan.m_rejected_structures := []; ConfScan.m_all_structures := [];
     ConfScan.m_threshold := []; ConfScan.m_reorder_rules := [];
     ConfScan.m_exclude_list := exclude;
     ConfScan.m_skip := 0; ConfScan.m_accepted := 1; ConfScan.m_rejected := 0;
     ConfScan.m_duplicated := 0; ConfScan.m_rejected_directly := 0;
     ConfScan.m_reordered := 0; ConfScan.m_skiped := 0;
     ConfScan.m_rmsd_threshold := lit (1 # 10); ConfScan.m_rmsd_set := true;
     ConfScan.m_dTI := tight; ConfScan.m_dTH := tight; ConfScan.m_dTE := tight;
     ConfScan.m_lowest_energy := lit (-10) |}.

(** The thread of [mol_A], with the enabled flag [enabled]. *)
Definition thread_A (enabled : bool) : ConfScan.Thread D unit :=
  ConfScan.setEnabled enabled (ConfScan.addThread mol_A false (scan_AB (lit 0) [])).




(** A driver that finds every pair [rmsd] apart and proposes the permutation
    [rule]. *)
Definition constant_driver (rmsd : D) (rule : ConfScan.Rule)
  : ConfScan.Driver D unit :=
  {| ConfScan.BestFitRMSD := fun _ _ => rmsd;
     ConfScan.Rules2RMSD := fun _ _ _ => rmsd;
     ConfScan.HBondTopoDifference_rules := fun _ _ _ => 0%Z;
     ConfScan.ReorderRMSD := fun _ _ => rmsd;
     ConfScan.ReorderRules := fun _ _ => rule;
     ConfScan.HBondTopoDifference := fun _ _ => 0%Z;
     ConfScan.NoReorderRMSD := fun _ _ => rmsd;
     ConfScan.NoReorderHBondTopoDifference := fun _ _ => 0%Z;
     ConfScan.MolalignRMSD := fun _ _ => rmsd;
     ConfScan.TargetReorderd := fun _ target => target;
     ConfScan.ApplyReorderRule := fun mol _ => mol;
     ConfScan.Check := fun _ => 0%Z |}.

(** No rank limit; no stop file. *)
Definition no_rank_limit (maxrank : Z) (size : nat) : bool := false.

Definition no_stop (index : ConfScan.Ptr) (t : nat) : bool := false.


(** A structure accepted by an earlier scan, and the scanner before the
    ensemble is read, with the earlier accepted structures [previous]; a
    pointer that was never assigned holds [mol_P]. *)
Definition mol_P : ConfScan.Molecule D unit :=
  molecule "P" (lit (-5)) (lit 500) (lit 600) (lit 700) (lit 9) (lit 9).

Definition scan_blank (previous : list ConfScan.Ptr) : ConfScan.Scan D unit :=
  {| ConfScan.m_molecules := fun _ => mol_P;
     ConfScan.m_ordered_list := [];
     ConfScan.m_previously_accepted := previous;
     ConfScan.m_result := previous; ConfScan.m_stored_structures := [];
     ConfScan.m_rejected_structures := []; ConfScan.m_all_structures := [];
     ConfScan.m_threshold := []; ConfScan.m_reorder_rules := [];
     ConfScan.m_exclude_list := [];
     ConfScan.m_skip := 0; ConfScan.m_accepted := 0; ConfScan.m_rejected := 0;
     ConfScan.m_duplicated := 0; ConfScan.m_rejected_directly := 0;
     ConfScan.m_reordered := 0; ConfScan.m_skiped := 0;
     ConfScan.m_rmsd_threshold := lit (1 # 10); ConfScan.m_rmsd_set := true;
     ConfScan.m_dTI := lit 0; ConfScan.m_dTH := lit 0; ConfScan.m_dTE := lit 0;
     ConfScan.m_lowest_energy := lit 0 |}.

(** The energy backend is not asked: the energies of the file are used. *)
Definition file_energy (mol : ConfScan.Molecule D unit) : D := ConfScan.Energy mol.

(** The ensemble file with [mol_B] ahead of [mol_A], read. *)
Definition scan_read (previous : list ConfScan.Ptr) : ConfScan.Scan D unit :=
  ConfScan.load_ensemble file_energy false [mol_B; mol_A] (scan_blank previous).

(** A driver whose [Check] fails the molecules named [name]. *)
Definition checking_driver (name : string) : ConfScan.Driver D unit :=
  {| ConfScan.BestFitRMSD := fun _ _ => lit 5;
     ConfScan.Rules2RMSD := fun _ _ _ => lit 5;
     ConfScan.HBondTopoDifference_rules := fun _ _ _ => 0%Z;
     ConfScan.ReorderRMSD := fun _ _ => lit 5;
     ConfScan.ReorderRules := fun _ _ => [];
     ConfScan.HBondTopoDifference := fun _ _ => 0%Z;
     ConfScan.NoReorderRMSD := fun _ _ => lit 5;
     ConfScan.NoReorderHBondTopoDifference := fun _ _ => 0%Z;
     ConfScan.MolalignRMSD := fun _ _ => lit 5;
     ConfScan.TargetReorderd := fun _ target => target;
     ConfScan.ApplyReorderRule := fun mol _ => mol;
     ConfScan.Check := fun mol => if String.eqb (ConfScan.Name mol) name
                                  then 1%Z else 0%Z |}.

(** The thread of [mol_A] as the reuse pass makes it. *)
Definition reuse_thread : ConfScan.Thread D unit :=
  ConfScan.addThread mol_A true (scan_AB (lit 0) []).

(** [scan_settings] with at most one hydrogen bond of difference allowed. *)
Definition topo_settings : ConfScan.Settings D :=
  {| ConfScan.m_maxrank := -1; ConfScan.m_MaxHTopoDiff := 1;
     ConfScan.m_earlybreak := 0;
     ConfScan.m_looseThresh := 7; ConfScan.m_tightThresh := 7;
     ConfScan.m_sTI := lit (1 # 10); ConfScan.m_sTH := lit (1 # 10);
     ConfScan.m_sTE := lit (1 # 10);
     ConfScan.m_energy_cutoff := lit (-1); ConfScan.m_domolalign := lit (-1);
     ConfScan.m_skip_orders := false; ConfScan.m_restart := false;
     ConfScan.m_molalign_single := false;
     ConfScan.m_ignoreRotation := false; ConfScan.m_ignoreBarCode := false |}.

(** A driver for which every cached rule brings the pair to RMSD 0, and a
    rule that starts with atom 2 changes five hydrogen bonds, any other rule
    none. *)
Definition topo_driver : ConfScan.Driver D unit :=
  {| ConfScan.BestFitRMSD := fun _ _ => lit 5;
     ConfScan.Rules2RMSD := fun _ _ _ => lit 0;
     ConfScan.HBondTopoDifference_rules :=
       fun _ _ r => if (hd 0%Z r =? 2)%Z then 5%Z else 0%Z;
     ConfScan.ReorderRMSD := fun _ _ => lit 5;
     ConfScan.ReorderRules := fun _ _ => [];
     ConfScan.HBondTopoDifference := fun _ _ => 0%Z;
     ConfScan.NoReorderRMSD := fun _ _ => lit 5;
     ConfScan.NoReorderHBondTopoDifference := fun _ _ => 0%Z;
     ConfScan.MolalignRMSD := fun _ _ => lit 5;
     ConfScan.TargetReorderd := fun _ target => target;
     ConfScan.ApplyReorderRule := fun mol _ => mol;
     ConfScan.Check := fun _ => 0%Z |}.

(** The thread of [mol_A] with a cache of three rules: the first of the
    wrong size, the second one that starts with atom 2. *)
Definition thread_with_three_rules : ConfScan.Thread D unit :=
  ConfScan.setRules [[9%Z]; [2%Z; 1%Z; 0%Z]; [1%Z; 0%Z; 2%Z]] [] (thread_A true).

(** [scan_settings] with the rank limit [maxrank]. *)
Definition ranked_settings (maxrank : Z) : ConfScan.Settings D :=
  {| ConfScan.m_maxrank := maxrank; ConfScan.m_MaxHTopoDiff := -1;
     ConfScan.m_earlybreak := 0;
     ConfScan.m_looseThresh := 7; ConfScan.m_tightThresh := 7;
     ConfScan.m_sTI := lit (1 # 10); ConfScan.m_sTH := lit (1 # 10);
     ConfScan.m_sTE := lit (1 # 10);
     ConfScan.m_energy_cutoff := lit (-1); ConfScan.m_domolalign := lit (-1);
     ConfScan.m_skip_orders := false; ConfScan.m_restart := false;
     ConfScan.m_molalign_single := false;
     ConfScan.m_ignoreRotation := false; ConfScan.m_ignoreBarCode := false |}.

(** The ensemble read, with the RMSD threshold still to be calibrated. *)
Definition scan_calibrating : ConfScan.Scan D unit :=
  ConfScan.set_m_rmsd_set false (scan_read []).

(** *** Walls and thermostat *)

(** One atom at rest at [(x, y, z)], with a gradient of zero. *)
Definition atom_at (x y z : D) : SimpleMD.State D unit :=
  plain_state [x; y; z] (zeros 3) (zeros 3) 3.

(** A stand-in for [sqrt] that is right at one argument: it answers [root]
    whatever it is asked. *)
Definition sqrt_is (root : D) (_ : D) : D := root.

(** One atom of unit mass and no walls configured: all bounds and the radius
    are zero. *)
Definition unwalled_config : SimpleMD.Config D :=
  plain_config 1 [lit 1; lit 1; lit 1] [lit 1; lit 1; lit 1] (lit 1) (lit 300).

(** One atom of unit mass moving with velocity 1 along x, one degree of
    freedom, time step 2 and target temperature 4. *)
Definition warming_config : SimpleMD.Config D :=
  plain_config 1 [lit 1; lit 1; lit 1] [lit 1; lit 1; lit 1] (lit 2) (lit 4).

Definition warming_state : SimpleMD.State D unit :=
  plain_state (zeros 3) [lit 1; lit 0; lit 0] (zeros 3) 1.

(** An objective with a mixed term: the product of the first two angles. *)
Definition mixed_objective (x : list D) : D := rd x 0 * rd x 1.

End Inputs.
End Inputs.

(* ===================================================================== *)
(* ===================================================================== *)
(** * Properties                                                          *)
(* ===================================================================== *)
(* ===================================================================== *)

(** ** The cost kernel *)

Section CostFacts.
Context {D : Type} `{Arith D}.
Local Open Scope D_scope.

Lemma Cost_outside (distance norm : D) (c : Z) :
  (c < 1 \/ 6 < c)%Z -> RMSDDriver.Cost distance norm c = distance * distance.
Proof.
  intros Hc. unfold RMSDDriver.Cost.
  repeat match goal with
         | |- context [(c =? ?k)%Z] => destruct (Z.eqb_spec c k); [lia|]
         end.
  reflexivity.
Qed.

(** C10.  [Cost] returns a value for every selector: distance^2, distance,
    distance + norm, distance^2 + norm^2, distance * norm and
    distance^2 * norm^2 for the selectors 1 to 6, and distance^2, the value of
    selector 1, for every other integer. *)
Theorem Cost_selector_table (distance norm : D) :
  RMSDDriver.Cost distance norm 1 = distance * distance
  /\ RMSDDriver.Cost distance norm 2 = distance
  /\ RMSDDriver.Cost distance norm 3 = distance + norm
  /\ RMSDDriver.Cost distance norm 4 = distance * distance + norm * norm
  /\ RMSDDriver.Cost distance norm 5 = distance * norm
  /\ RMSDDriver.Cost distance norm 6 = distance * distance * norm * norm
  /\ forall c : Z, (c < 1 \/ 6 < c)%Z ->
       RMSDDriver.Cost distance norm c = distance * distance
       /\ RMSDDriver.Cost distance norm c = RMSDDriver.Cost distance norm 1.
Proof.
  repeat split; try reflexivity; now apply Cost_outside.
Qed.

End CostFacts.

(** The table at the rational distance 3 and norm 2, with selector 7 as the
    selector outside the table. *)
Lemma Cost_selector_table_witness :
  RMSDDriver.Cost (D := Q) 3 2 7 = (3 * 3)%Q
  /\ RMSDDriver.Cost (D := Q) 3 2 7 = RMSDDriver.Cost (D := Q) 3 2 1.
Proof.
  refine (proj2 (proj2 (proj2 (proj2 (proj2 (proj2
            (Cost_selector_table (D := Q) 3 2)))))) 7%Z _).
  right. lia.
Defined.

(** ** The reorder-rule cache *)

Section RuleCacheFacts.
Context {D : Type} `{Arith D}.
Variable G : Type.
Variable drv : ConfScan.Driver D G.
Variable third : D.
Variable cfg : ConfScan.Settings D.
Variable rank_reached : Z -> nat -> bool.
Variable CheckStop : ConfScan.Ptr -> nat -> bool.

Local Abbreviation Scan := (ConfScan.Scan D G).
Local Abbreviation cache := (@ConfScan.m_reorder_rules D G).
Local Abbreviation cache_extends := (@ConfScan.cache_extends D G).

Lemma has_rule_In (c : list ConfScan.Rule) (r : ConfScan.Rule) :
  ConfScan.has_rule c r = true <-> In r c.
Proof.
  unfold ConfScan.has_rule, ConfScan.rule_eqb. rewrite existsb_exists. split.
  - intros [x [Hin Hx]]. destruct (list_eq_dec Z.eq_dec r x); [subst; assumption|discriminate].
  - intros Hin. exists r. split; [assumption|].
    destruct (list_eq_dec Z.eq_dec r r); [reflexivity|contradiction].
Qed.

Lemma cache_extends_refl (s : Scan) : cache_extends s s.
Proof.
  exists []. rewrite app_nil_r. repeat split; [constructor|intros r []].
Qed.

Lemma cache_extends_same (s s' : Scan) :
  cache s' = cache s -> cache_extends s s'.
Proof.
  intros E. exists []. rewrite app_nil_r. repeat split; [assumption|constructor|intros r []].
Qed.

Lemma cache_extends_trans (s1 s2 s3 : Scan) :
  cache_extends s1 s2 -> cache_extends s2 s3 -> cache_extends s1 s3.
Proof.
  intros [a1 [E1 [N1 F1]]] [a2 [E2 [N2 F2]]].
  exists (a1 ++ a2). rewrite E2, E1, app_assoc. split; [reflexivity|]. split.
  - apply NoDup_app; try assumption.
    intros r Hr1 Hr2. apply (F2 r Hr2). rewrite E1. apply in_or_app. now right.
  - intros r Hr Hin. apply in_app_or in Hr. destruct Hr as [Hr|Hr].
    + exact (F1 r Hr Hin).
    + apply (F2 r Hr). rewrite E1. apply in_or_app. now left.
Qed.

Lemma cache_extends_NoDup (s s' : Scan) :
  cache_extends s s' -> NoDup (cache s) -> NoDup (cache s').
Proof.
  intros [a [E [N F]]] Hs. rewrite E. apply NoDup_app; try assumption.
  intros r Hr Ha. exact (F r Ha Hr).
Qed.

Lemma cache_extends_push (s : Scan) (r : ConfScan.Rule) :
  ConfScan.has_rule (cache s) r = false ->
  cache_extends s (ConfScan.set_m_reorder_rules (cache s ++ [r]) s).
Proof.
  intros Hr. exists [r]. split; [reflexivity|]. split.
  - constructor; [intros []|constructor].
  - intros x [<-|[]] Hin. apply has_rule_In in Hin. congruence.
Qed.

Lemma AddRules_extends (rules : ConfScan.Rule) (s : Scan) :
  cache_extends s (snd (ConfScan.AddRules cfg rules s)).
Proof.
  unfold ConfScan.AddRules.
  destruct (Nat.eqb (length rules) 0 || ConfScan.m_skip_orders cfg); simpl.
  - apply cache_extends_refl.
  - destruct (ConfScan.has_rule (cache s) rules) eqn:E; simpl.
    + apply cache_extends_refl.
    + now apply cache_extends_push.
Qed.

Lemma load_file_extends (f : ConfScan.RestartFile) (s : Scan) :
  cache_extends s (ConfScan.load_file cfg f s).
Proof.
  destruct f as [|l]; simpl; [apply cache_extends_refl|].
  destruct (ConfScan.m_restart cfg); [|apply cache_extends_refl].
  revert s. induction l as [|v l IH]; intros s; simpl; [apply cache_extends_refl|].
  destruct (ConfScan.has_rule (cache s) v) eqn:E; simpl.
  - apply IH.
  - eapply cache_extends_trans; [apply cache_extends_push; exact E|apply IH].
Qed.

Lemma LoadRestartInformation_extends (files : list ConfScan.RestartFile) (s : Scan) :
  cache_extends s (ConfScan.LoadRestartInformation cfg files s).
Proof.
  unfold ConfScan.LoadRestartInformation. revert s.
  induction files as [|f files IH]; intros s; simpl; [apply cache_extends_refl|].
  eapply cache_extends_trans; [apply load_file_extends|apply IH].
Qed.

Ltac split_ifs :=
  repeat match goal with
         | |- context [if ?b then _ else _] => destruct b
         end.

Lemma check_candidate_cache (index : ConfScan.Ptr)
    (a : Scan * list (ConfScan.Molecule D G * D)) :
  cache (fst (ConfScan.check_candidate drv third cfg index a)) = cache (fst a).
Proof.
  destruct a as [s ths]. unfold ConfScan.check_candidate. cbn [fst snd].
  split_ifs; reflexivity.
Qed.

Lemma check_loop_cache (entries : list (D * ConfScan.Ptr))
    (a : Scan * list (ConfScan.Molecule D G * D)) :
  cache (fst (ConfScan.check_loop drv third cfg entries a)) = cache (fst a).
Proof.
  unfold ConfScan.check_loop. revert a.
  induction entries as [|e entries IH]; intros a; simpl; [reflexivity|].
  rewrite IH. apply check_candidate_cache.
Qed.

Lemma select_threads_cache (index : ConfScan.Ptr) (dLE dLI dLH : D)
    (todo : list (ConfScan.Thread D G)) (t : nat) (c : ConfScan.Cand D G) :
  cache (ConfScan.c_scan
           (fst (fst (ConfScan.select_threads third cfg CheckStop index
                        dLE dLI dLH t todo c))))
  = cache (ConfScan.c_scan c).
Proof.
  revert t c. induction todo as [|th todo IH]; intros t c; simpl; [reflexivity|].
  destruct (CheckStop index t); [reflexivity|].
  assert (Hp : cache (ConfScan.c_scan
                        (fst (ConfScan.select_pair third cfg index dLE dLI dLH th c)))
               = cache (ConfScan.c_scan c)).
  { unfold ConfScan.select_pair. split_ifs; reflexivity. }
  destruct (snd (ConfScan.select_pair third cfg index dLE dLI dLH th c)).
  - exact Hp.
  - cbn [fst]. rewrite IH. exact Hp.
Qed.

Lemma read_threads_extends (index : ConfScan.Ptr) (todo : list (ConfScan.Thread D G))
    (s : Scan) (done : list (ConfScan.Thread D G)) (rules : list ConfScan.Rule)
    (keep : bool) :
  cache_extends s
    (fst (fst (fst (ConfScan.read_threads drv cfg index todo (s, done, rules, keep))))).
Proof.
  revert s done rules keep.
  induction todo as [|th todo IH]; intros s done rules keep; simpl;
    [apply cache_extends_refl|].
  destruct (negb (ConfScan.t_enabled th)).
  { eapply cache_extends_trans; [|apply IH]. now apply cache_extends_same. }
  destruct (negb (ConfScan.t_keep_molecule th)).
  - eapply cache_extends_trans; [|apply IH].
    eapply cache_extends_trans;
      [|match goal with
        | |- cache_extends ?a ?b =>
            apply (cache_extends_same a b); destruct keep; reflexivity
        end].
    eapply cache_extends_trans; [|apply AddRules_extends].
    now apply cache_extends_same.
  - match goal with
    | |- context [if ?b then _ else _] => destruct b
    end; (eapply cache_extends_trans; [|apply IH]); now apply cache_extends_same.
Qed.

Lemma reorder_candidate_extends (dLE dLI dLH : D) (reuse_only : bool)
    (index : ConfScan.Ptr) (p : ConfScan.Pass D G) :
  cache_extends (ConfScan.scan p)
    (ConfScan.scan (fst (ConfScan.reorder_candidate drv third cfg rank_reached
                           CheckStop dLE dLI dLH reuse_only index p))).
Proof.
  unfold ConfScan.reorder_candidate.
  destruct (Nat.eqb (length (ConfScan.m_result (ConfScan.scan p))) 0).
  { now apply cache_extends_same. }
  match goal with
  | |- context [if ?b then _ else _] => destruct b
  end; [apply cache_extends_refl|].
  pose proof (select_threads_cache index dLE dLI dLH (ConfScan.threads p) 0
                {| ConfScan.c_scan := ConfScan.scan p; ConfScan.c_done := [];
                   ConfScan.c_reorder := false;
                   ConfScan.c_keep_molecule := true |}) as Hsel.
  destruct (ConfScan.select_threads third cfg CheckStop index dLE dLI dLH 0
              (ConfScan.threads p) _) as [[c rest] flow].
  cbn [fst ConfScan.c_scan] in Hsel.
  assert (Hc : cache_extends (ConfScan.scan p) (ConfScan.c_scan c))
    by now apply cache_extends_same.
  destruct flow; cbn [fst ConfScan.scan]; try exact Hc.
  - destruct (ConfScan.c_reorder c && ConfScan.c_keep_molecule c).
    + match goal with
      | |- context [ConfScan.read_threads ?d ?cf ?i ?todo (?s0, ?dn, ?rl, ?k)] =>
          pose proof (read_threads_extends i todo s0 dn rl k) as Hr;
          destruct (ConfScan.read_threads d cf i todo (s0, dn, rl, k))
            as [[[s1 ths1] rules1] keep1]
      end.
      cbn [fst] in Hr. cbn [fst ConfScan.scan].
      eapply cache_extends_trans; [exact Hc|].
      eapply cache_extends_trans; [exact Hr|].
      apply cache_extends_same. destruct keep1; reflexivity.
    + cbn [fst ConfScan.scan].
      eapply cache_extends_trans; [exact Hc|].
      apply cache_extends_same. destruct (ConfScan.c_keep_molecule c); reflexivity.
  - destruct (ConfScan.c_reorder c && ConfScan.c_keep_molecule c).
    + match goal with
      | |- context [ConfScan.read_threads ?d ?cf ?i ?todo (?s0, ?dn, ?rl, ?k)] =>
          pose proof (read_threads_extends i todo s0 dn rl k) as Hr;
          destruct (ConfScan.read_threads d cf i todo (s0, dn, rl, k))
            as [[[s1 ths1] rules1] keep1]
      end.
      cbn [fst] in Hr. cbn [fst ConfScan.scan].
      eapply cache_extends_trans; [exact Hc|].
      eapply cache_extends_trans; [exact Hr|].
      apply cache_extends_same. destruct keep1; reflexivity.
    + cbn [fst ConfScan.scan].
      eapply cache_extends_trans; [exact Hc|].
      apply cache_extends_same. destruct (ConfScan.c_keep_molecule c); reflexivity.
Qed.

Lemma reorder_loop_extends (dLE dLI dLH : D) (reuse_only : bool)
    (cached : list ConfScan.Ptr) (p : ConfScan.Pass D G) :
  cache_extends (ConfScan.scan p)
    (ConfScan.scan (ConfScan.reorder_loop drv third cfg rank_reached CheckStop
                      dLE dLI dLH reuse_only cached p)).
Proof.
  revert p. induction cached as [|index cached IH]; intros p; simpl;
    [apply cache_extends_refl|].
  pose proof (reorder_candidate_extends dLE dLI dLH reuse_only index p) as Hc.
  destruct (ConfScan.reorder_candidate drv third cfg rank_reached CheckStop
              dLE dLI dLH reuse_only index p) as [p' flow].
  cbn [fst snd] in *. destruct flow; try exact Hc.
  eapply cache_extends_trans; [exact Hc|apply IH].
Qed.

Lemma run_pass_extends (c : ConfScan.PassCall D) (s : Scan) :
  cache_extends s (ConfScan.run_pass drv third cfg rank_reached CheckStop c s).
Proof.
  destruct c as [| |dLE dLI dLH reuse_only reset]; simpl.
  - apply cache_extends_same. unfold ConfScan.CheckOnly. cbn [cache].
    apply (check_loop_cache (ConfScan.m_ordered_list s) (s, [])).
  - now apply cache_extends_same.
  - unfold ConfScan.Reorder.
    eapply cache_extends_trans; [|apply reorder_loop_extends].
    apply cache_extends_same. unfold ConfScan.reorder_prologue. cbn [snd ConfScan.scan].
    split_ifs; reflexivity.
Qed.

Lemma run_passes_extends (calls : list (ConfScan.PassCall D)) (s : Scan) :
  cache_extends s (ConfScan.run_passes drv third cfg rank_reached CheckStop calls s).
Proof.
  unfold ConfScan.run_passes. revert s.
  induction calls as [|c calls IH]; intros s; simpl; [apply cache_extends_refl|].
  eapply cache_extends_trans; [apply run_pass_extends|apply IH].
Qed.

(** C9.  The reorder-rule cache holds no rule twice and keeps the order of
    insertion: starting from the empty cache, reading restart files and
    running passes leaves it duplicate-free; [AddRules] and the restart
    loader add a rule only when it is not in the cache, and only behind the
    rules already there; and every operation of the scanner (the restart
    loader, [AddRules], every pass) leaves the old cache as the front part of
    the new one. *)
Theorem rule_cache_distinct_and_ordered
    (s : Scan) (files : list ConfScan.RestartFile)
    (calls : list (ConfScan.PassCall D)) (rules : ConfScan.Rule) :
  let s0 := ConfScan.set_m_reorder_rules [] s in
  let s1 := ConfScan.LoadRestartInformation cfg files s0 in
  let s2 := ConfScan.run_passes drv third cfg rank_reached CheckStop calls s1 in
  NoDup (cache s1) /\ NoDup (cache s2)
  /\ cache_extends s (ConfScan.LoadRestartInformation cfg files s)
  /\ cache_extends s (snd (ConfScan.AddRules cfg rules s))
  /\ cache_extends s
       (ConfScan.run_passes drv third cfg rank_reached CheckStop calls s)
  /\ (In rules (cache s) ->
      cache (snd (ConfScan.AddRules cfg rules s)) = cache s).
Proof.
  intros s0 s1 s2.
  assert (N0 : NoDup (cache s0)) by constructor.
  assert (N1 : NoDup (cache s1))
    by (eapply cache_extends_NoDup; [apply LoadRestartInformation_extends|exact N0]).
  repeat split.
  - exact N1.
  - eapply cache_extends_NoDup; [apply run_passes_extends|exact N1].
  - apply LoadRestartInformation_extends.
  - apply AddRules_extends.
  - apply run_passes_extends.
  - intros Hin. apply has_rule_In in Hin. unfold ConfScan.AddRules.
    destruct (Nat.eqb (length rules) 0 || ConfScan.m_skip_orders cfg); [reflexivity|].
    rewrite Hin. reflexivity.
Qed.

End RuleCacheFacts.

(** ** Kinetic energy *)

(** C1 (the code departs from the claim).  For an O-H pair whose hydrogen
    moves with 10^-3 along x, [EKin] stores 1/2 * 15.999 * 10^-6: it weights
    atom 1, the hydrogen, with entry 1 of [m_eigen_masses], which [Initialise]
    filled with the mass of atom 0, the oxygen.  One half of the sum of
    m_i v_i^2 is 1/2 * 1.008 * 10^-6.  The temperature is twice the stored
    kinetic energy over [kb_Eh * m_dof].  The same happens in binary64. *)
Theorem EKin_reads_mass_of_wrong_atom :
  let s := SimpleMD.EKin (D := Q) Inputs.kb_Eh Inputs.OH_config Inputs.OH_state in
  let f := SimpleMD.EKin (D := float) Inputs.kb_Eh Inputs.OH_config Inputs.OH_state in
  Inputs.OH_masses (D := Q)
    = ([15.999; 15.999; 15.999; 1.008; 1.008; 1.008],
       [1000 # 15999; 1000 # 15999; 1000 # 15999;
        1000 # 1008; 1000 # 1008; 1000 # 1008])%Q
  /\ SimpleMD.m_Ekin s == 15999 # 2000000000
  /\ Spec.kinetic_energy (D := Q) [15.999; 1.008]%Q Inputs.OH_velocities
     == 1008 # 2000000000
  /\ SimpleMD.m_T s
     == 2 * SimpleMD.m_Ekin s / (Inputs.kb_Eh * inject_Z (SimpleMD.m_dof s))
  /\ PrimFloat.ltb
       (Spec.kinetic_energy (D := float)
          [float_of_Q 15.999; float_of_Q 1.008] Inputs.OH_velocities)
       (SimpleMD.m_Ekin f) = true.
Proof.
  repeat split; vm_compute; reflexivity.
Qed.

(** ** Log-Fermi walls *)

Lemma Qltb_lt (a b : Q) : Qltb a b = true <-> a < b.
Proof.
  unfold Qltb. rewrite Qlt_alt. destruct (a ?= b); split; congruence.
Qed.

Lemma Qltb_ge (a b : Q) : Qltb a b = false <-> b <= a.
Proof.
  rewrite <- Bool.not_true_iff_false, Qltb_lt. split.
  - apply Qnot_lt_le.
  - apply Qle_not_lt.
Qed.

Section WallFacts.
Context {D : Type} `{Arith D}.
Variable Th : Type.
Variables exp log sqrt : D -> D.
Variable kb_Eh : D.
Variable cfg : SimpleMD.Config D.
Local Open Scope D_scope.

Local Abbreviation within_700 := (SimpleMD.within_700 (D := D)).

Lemma spheric_atom_trace (geom : list D) (i : nat) (a : SimpleMD.WallAcc D) :
  Forall within_700 (snd (SimpleMD.spheric_atom exp log sqrt kb_Eh cfg geom i a)).
Proof.
  unfold SimpleMD.spheric_atom, SimpleMD.tbind. cbn [snd SimpleMD.tret].
  rewrite app_nil_r.
  match goal with
  | |- context [if ?b then _ else _] => destruct b eqn:Hhi
  end; [constructor|].
  match goal with
  | |- context [if ?b then _ else _] => destruct b eqn:Hlo
  end; [constructor|].
  cbn [snd SimpleMD.call_exp]. constructor; [split; assumption|constructor].
Qed.

Lemma wall_loop_trace (P : D -> Prop)
    (body : nat -> SimpleMD.WallAcc D -> SimpleMD.Traced (SimpleMD.WallAcc D))
    (atoms : list nat) (a : SimpleMD.WallAcc D) :
  (forall i a', Forall P (snd (body i a'))) ->
  Forall P (snd (SimpleMD.wall_loop body atoms a)).
Proof.
  intros Hbody. revert a.
  induction atoms as [|i atoms IH]; intros a; simpl; [constructor|].
  unfold SimpleMD.tbind. cbn [snd]. apply Forall_app. split; [apply Hbody|apply IH].
Qed.

(** Every argument the spherical wall passes to [exp] has passed both guards. *)
Lemma spheric_walls_guard_exp (s : SimpleMD.State D Th) :
  Forall within_700
    (snd (SimpleMD.ApplySphericLogFermiWalls exp log sqrt kb_Eh cfg s)).
Proof.
  unfold SimpleMD.ApplySphericLogFermiWalls, SimpleMD.apply_walls, SimpleMD.tbind.
  cbn [snd SimpleMD.tret]. rewrite app_nil_r.
  apply wall_loop_trace. intros i a'. apply spheric_atom_trace.
Qed.

End WallFacts.

(** C7 (the code departs from the claim).  The spherical wall passes to
    [exp] only arguments between -700 and 700.  The rectangular wall calls
    [exp] without a guard: for one atom at x = -1000 in the box [0, 10]^3 with
    steepness 1 the first argument is 1000. *)
Theorem rect_walls_pass_unclamped_argument (exp log sqrt : Q -> Q) :
  (forall (cfg : SimpleMD.Config Q) (s : SimpleMD.State Q unit) (x : Q),
      In x (snd (SimpleMD.ApplySphericLogFermiWalls exp log sqrt Inputs.kb_Eh cfg s)) ->
      -700 <= x <= 700)
  /\ snd (SimpleMD.ApplyRectLogFermiWalls exp log Inputs.kb_Eh
            Inputs.box_config Inputs.escaped_state)
     = [1000; -1010; -5; -5; -5; -5]%Q
  /\ 700 < 1000.
Proof.
  split; [|split; [reflexivity|reflexivity]].
  intros cfg s x Hx.
  pose proof (spheric_walls_guard_exp exp log sqrt Inputs.kb_Eh cfg s) as Hall.
  rewrite Forall_forall in Hall. destruct (Hall x Hx) as [Hhi Hlo].
  cbn in Hhi, Hlo. apply Qltb_ge in Hhi, Hlo. split; assumption.
Qed.

(** ** The instability test *)

Section StepFacts.
Context {D : Type} `{Arith D}.
Variable Th : Type.
Variable exp : D -> D.
Variable kb_Eh : D.
Variable BestFitRMSD : list D -> list D -> D.
Variable DriverGradient : list D -> list D -> list D.
Variable counter0 : Z.
Variables energy0 factor0 : D.
Variable Backend : list D -> SimpleMD.BackendResult D.
Variable Thermostat : SimpleMD.Config D -> SimpleMD.State D Th -> list D * Th.
Variable WallPotential : SimpleMD.Config D -> SimpleMD.State D Th -> list D * Z.
Variable RemoveRotations : SimpleMD.Config D -> SimpleMD.State D Th -> list D.
Variable cfg : SimpleMD.Config D.
Variable rattle : Z.
Local Open Scope D_scope.

Local Abbreviation State := (SimpleMD.State D Th).
Local Abbreviation ApplyRMSDMTD :=
  (SimpleMD.ApplyRMSDMTD exp kb_Eh BestFitRMSD DriverGradient counter0 energy0
     factor0 cfg).
Local Abbreviation mtd_hook :=
  (SimpleMD.mtd_hook exp kb_Eh BestFitRMSD DriverGradient counter0 energy0
     factor0 cfg).
Local Abbreviation Verlet_first :=
  (SimpleMD.Verlet_first exp kb_Eh BestFitRMSD DriverGradient counter0 energy0
     factor0 Backend Thermostat WallPotential cfg).
Local Abbreviation Verlet :=
  (SimpleMD.Verlet exp kb_Eh BestFitRMSD DriverGradient counter0 energy0
     factor0 Backend Thermostat WallPotential cfg).
Local Abbreviation Rattle_middle :=
  (SimpleMD.Rattle_middle exp kb_Eh BestFitRMSD DriverGradient counter0 energy0
     factor0 Backend Thermostat WallPotential cfg).
Local Abbreviation Rattle_end :=
  (SimpleMD.Rattle_end kb_Eh Thermostat RemoveRotations cfg).
Local Abbreviation Rattle :=
  (SimpleMD.Rattle exp kb_Eh BestFitRMSD DriverGradient counter0 energy0
     factor0 Backend Thermostat WallPotential RemoveRotations cfg).
Local Abbreviation Integrator :=
  (SimpleMD.Integrator exp kb_Eh BestFitRMSD DriverGradient counter0 energy0
     factor0 Backend Thermostat WallPotential RemoveRotations cfg rattle).
Local Abbreviation loop_pass :=
  (SimpleMD.loop_pass exp kb_Eh BestFitRMSD DriverGradient counter0 energy0
     factor0 Backend Thermostat WallPotential RemoveRotations cfg rattle).

Local Abbreviation same_thermo := (@SimpleMD.same_thermo D Th).

Lemma same_thermo_refl (s : State) : same_thermo s s.
Proof. repeat split. Qed.

Lemma same_thermo_trans (s1 s2 s3 : State) :
  same_thermo s1 s2 -> same_thermo s2 s3 -> same_thermo s1 s3.
Proof.
  intros (a1 & a2 & a3 & a4) (b1 & b2 & b3 & b4).
  repeat split; congruence.
Qed.

Lemma ApplyRMSDMTD_thermo (s : State) : same_thermo s (ApplyRMSDMTD s).
Proof.
  unfold SimpleMD.ApplyRMSDMTD, SimpleMD.mtd_deposit, SimpleMD.mtd_evaluate,
    SimpleMD.mtd_seed.
  repeat match goal with
         | |- context [if ?b then _ else _] => destruct b
         end; repeat split.
Qed.

Lemma mtd_hook_thermo (s : State) : same_thermo s (mtd_hook s).
Proof.
  unfold SimpleMD.mtd_hook.
  destruct (SimpleMD.m_rmsd_mtd cfg); [|apply same_thermo_refl].
  destruct (Z.rem (SimpleMD.m_step s) (SimpleMD.m_mtd_steps cfg) =? 0)%Z;
    [apply ApplyRMSDMTD_thermo|apply same_thermo_refl].
Qed.

(** The test both integrators make: the new temperature against 10000 times
    the value [m_T] holds, or a NaN. *)
Lemma finish_step_flag (ekin : D) (s : State) :
  let T := SimpleMD.temperature kb_Eh (ekin * lit (1 # 2)) (SimpleMD.m_dof s) in
  SimpleMD.m_unstable (SimpleMD.finish_step kb_Eh ekin s)
  = ((T >? of_int 10000 * SimpleMD.m_T s) || disnan T).
Proof. reflexivity. Qed.

Lemma forces_thermo (s : State) :
  same_thermo s
    (SimpleMD.forces exp kb_Eh BestFitRMSD DriverGradient counter0 energy0
       factor0 Backend Thermostat WallPotential cfg s).
Proof.
  unfold SimpleMD.forces.
  eapply same_thermo_trans; [|apply same_thermo_trans with (2 := same_thermo_refl _)].
  2: { unfold SimpleMD.apply_WallPotential. repeat split. }
  eapply same_thermo_trans; [|apply mtd_hook_thermo].
  repeat split.
Qed.

Lemma Verlet_first_temperature (s : State) :
  SimpleMD.m_T (Verlet_first s)
  = SimpleMD.temperature kb_Eh
      (snd (SimpleMD.Verlet_drift cfg s) * lit (1 # 2)) (SimpleMD.m_dof s)
  /\ SimpleMD.m_dof (Verlet_first s) = SimpleMD.m_dof s.
Proof.
  unfold SimpleMD.Verlet_first.
  destruct (SimpleMD.Verlet_drift cfg s) as [[x v] ekin]. cbn [snd].
  match goal with
  | |- context [SimpleMD.forces _ _ _ _ _ _ _ _ _ _ _ ?a] =>
      destruct (forces_thermo a) as (E1 & E2 & _ & _)
  end.
  rewrite E1, E2. split; reflexivity.
Qed.

Lemma Rattle_middle_temperature (p : SimpleMD.Pos D) (s : State) :
  SimpleMD.m_T (Rattle_middle p s)
  = SimpleMD.temperature kb_Eh
      (SimpleMD.sum_kinetic cfg (SimpleMD.p_velocities p) * lit (1 # 2))
      (SimpleMD.m_dof s - SimpleMD.p_local_dof p)
  /\ SimpleMD.m_dof (Rattle_middle p s)
     = (SimpleMD.m_dof s - SimpleMD.p_local_dof p)%Z.
Proof.
  unfold SimpleMD.Rattle_middle.
  match goal with
  | |- context [SimpleMD.forces _ _ _ _ _ _ _ _ _ _ _ ?a] =>
      destruct (forces_thermo a) as (E1 & E2 & _ & _);
      set (f := SimpleMD.forces exp kb_Eh BestFitRMSD DriverGradient counter0
                  energy0 factor0 Backend Thermostat WallPotential cfg a) in *
  end.
  change (SimpleMD.m_T f
          = SimpleMD.temperature kb_Eh
              (SimpleMD.sum_kinetic cfg (SimpleMD.p_velocities p) * lit (1 # 2))
              (SimpleMD.m_dof s - SimpleMD.p_local_dof p)
          /\ SimpleMD.m_dof f = (SimpleMD.m_dof s - SimpleMD.p_local_dof p)%Z).
  rewrite E1, E2. split; reflexivity.
Qed.

(** C4, as the code has it.  At the end of a step of either integrator the
    flag [m_unstable] is set exactly when the temperature T of the
    full-step velocities exceeds 10000 times the temperature computed at the
    half step of the same step, or T is NaN; the target temperature and the
    coordinates are not looked at.  [Verlet] always comes to that end;
    [Rattle] comes to it exactly when its two constraint loops return, with
    what the first loop left, [p], and what the second left, [v].  The run
    loop stops with the dump exactly when the flag is set or the energy
    backend reports an error or a NaN. *)
Theorem unstable_flag_compares_with_half_step (s : State) :
  (let s1 := Verlet_first s in
   let T := SimpleMD.temperature kb_Eh
              (snd (SimpleMD.Verlet_kick cfg s1) * lit (1 # 2)) (SimpleMD.m_dof s) in
   let T_half := SimpleMD.temperature kb_Eh
                   (snd (SimpleMD.Verlet_drift cfg s) * lit (1 # 2))
                   (SimpleMD.m_dof s) in
   SimpleMD.m_unstable (Verlet s) = ((T >? of_int 10000 * T_half) || disnan T))
  /\ (forall fuel s',
        Rattle fuel s = Ok s' <->
        exists (p : SimpleMD.Pos D) (n : nat) (v : SimpleMD.Vel D) (n2 : nat),
          SimpleMD.position_stage cfg fuel (SimpleMD.m_eigen_geometry s)
            (SimpleMD.rattle_prologue cfg s) = Ok (p, n)
          /\ SimpleMD.velocity_stage cfg fuel (SimpleMD.p_coord p)
               (SimpleMD.velocity_start p (Rattle_middle p s)) = Ok (v, n2)
          /\ s' = Rattle_end (SimpleMD.m_dof s) p v (Rattle_middle p s))
  /\ (forall (p : SimpleMD.Pos D) (v : SimpleMD.Vel D),
        let s1 := SimpleMD.Rattle_settle RemoveRotations cfg p v (Rattle_middle p s) in
        let dof := (SimpleMD.m_dof s - SimpleMD.p_local_dof p)%Z in
        let T := SimpleMD.temperature kb_Eh
                   (SimpleMD.sum_kinetic cfg (SimpleMD.m_eigen_velocities s1)
                    * lit (1 # 2)) dof in
        let T_half := SimpleMD.temperature kb_Eh
                        (SimpleMD.sum_kinetic cfg (SimpleMD.p_velocities p)
                         * lit (1 # 2)) dof in
        SimpleMD.m_unstable (Rattle_end (SimpleMD.m_dof s) p v (Rattle_middle p s))
        = ((T >? of_int 10000 * T_half) || disnan T))
  /\ (forall fuel local_m_step r, loop_pass fuel local_m_step s = Ok r ->
      exists s', Integrator fuel s = Ok s'
        /\ ((SimpleMD.m_unstable s' || SimpleMD.m_interface_error s'
             || SimpleMD.m_interface_nan s' = true
             -> r = (SimpleMD.AbortedUnstable s', local_m_step))
            /\ (SimpleMD.m_unstable s' || SimpleMD.m_interface_error s'
                || SimpleMD.m_interface_nan s' = false
                -> exists s'', r = (SimpleMD.Continue s'', (local_m_step + 1)%Z)))).
Proof.
  split; [|split; [|split]].
  - cbv zeta. destruct (Verlet_first_temperature s) as [E1 E2].
    unfold SimpleMD.Verlet, SimpleMD.EKin, SimpleMD.ThermostatFunction.
    cbn [SimpleMD.m_unstable SimpleMD.set_m_T SimpleMD.set_m_Ekin
         SimpleMD.set_m_thermostat_state SimpleMD.set_m_eigen_velocities].
    rewrite finish_step_flag.
    cbn [SimpleMD.m_dof SimpleMD.m_T SimpleMD.set_m_eigen_velocities].
    rewrite E1, E2. reflexivity.
  - intros fuel s'. unfold SimpleMD.Rattle, SimpleMD.velocity_start. split.
    + intros HR.
      destruct (SimpleMD.position_stage cfg fuel _ _) as [[p n]| |];
        try discriminate.
      cbn [rbind fst] in HR.
      destruct (SimpleMD.velocity_stage cfg fuel _ _) as [[v n2]| |] eqn:EV;
        try discriminate.
      cbn [rbind fst] in HR. injection HR as <-.
      exists p, n, v, n2. split; [reflexivity|]. split; [exact EV|reflexivity].
    + intros (p & n & v & n2 & EP & EV & ->).
      rewrite EP. cbn [rbind fst]. rewrite EV. reflexivity.
  - intros p v. cbv zeta.
    destruct (Rattle_middle_temperature p s) as [E1 E2].
    unfold SimpleMD.Rattle_end, SimpleMD.EKin, SimpleMD.ThermostatFunction.
    cbn [SimpleMD.m_unstable SimpleMD.set_m_T SimpleMD.set_m_Ekin SimpleMD.set_m_dof
         SimpleMD.set_m_thermostat_state SimpleMD.set_m_eigen_velocities].
    rewrite finish_step_flag.
    assert (Hs : SimpleMD.m_T (SimpleMD.Rattle_settle RemoveRotations cfg p v
                                 (Rattle_middle p s))
                 = SimpleMD.m_T (Rattle_middle p s)
              /\ SimpleMD.m_dof (SimpleMD.Rattle_settle RemoveRotations cfg p v
                                   (Rattle_middle p s))
                 = SimpleMD.m_dof (Rattle_middle p s)).
    { unfold SimpleMD.Rattle_settle, SimpleMD.apply_RemoveRotations.
      destruct (SimpleMD.p_move p); split; reflexivity. }
    destruct Hs as [Hs1 Hs2]. rewrite Hs1, Hs2, E1, E2. reflexivity.
  - intros fuel local_m_step r HL. unfold SimpleMD.loop_pass in HL.
    destruct (Integrator fuel s) as [s'| |]; try discriminate.
    cbn [rbind] in HL. exists s'. split; [reflexivity|].
    destruct (SimpleMD.m_unstable s' || SimpleMD.m_interface_error s'
              || SimpleMD.m_interface_nan s'); injection HL as <-.
    + split; [reflexivity|discriminate].
    + split; [discriminate|]. intros _. eexists. reflexivity.
Qed.

End StepFacts.

(** C4, a step the claim gets wrong in either direction.  Target temperature
    300 K, one atom, binary64.  With velocity 0.001 and gradient -0.2 the
    step ends at 4252.5 K, well below 10000 * 300 K, no coordinate is NaN,
    and yet the step is flagged and the run stops.  With velocity 100 and
    gradient -1 the step ends above 10^9 K, far above 10000 * 300 K, and is
    not flagged: the run goes on. *)
Lemma unstable_flag_ignores_target_temperature :
  let cold := Inputs.atom_Verlet (D := float) (lit (-2 # 10))
                (Inputs.atom_state (lit (1 # 1000))) in
  let hot := Inputs.atom_Verlet (D := float) (lit (-1))
               (Inputs.atom_state (lit 100)) in
  (SimpleMD.m_unstable cold = true
   /\ PrimFloat.leb (SimpleMD.m_T cold)
        (PrimFloat.mul (lit 10000) (SimpleMD.m_T0 (Inputs.atom_config (D := float))))
      = true
   /\ existsb PrimFloat.is_nan (SimpleMD.m_eigen_geometry cold) = false
   /\ Inputs.atom_loop_pass (D := float) (lit (-2 # 10)) 1 5
        (Inputs.atom_state (lit (1 # 1000)))
      = Ok (SimpleMD.AbortedUnstable cold, 5%Z))
  /\ (SimpleMD.m_unstable hot = false
      /\ PrimFloat.ltb
           (PrimFloat.mul (lit 10000) (SimpleMD.m_T0 (Inputs.atom_config (D := float))))
           (SimpleMD.m_T hot)
         = true
      /\ exists s, Inputs.atom_loop_pass (D := float) (lit (-1)) 1 5
                     (Inputs.atom_state (lit 100))
                   = Ok (SimpleMD.Continue s, 6%Z)).
Proof.
  cbv zeta.
  split; [split; [|split; [|split]]|split; [|split]];
    try (vm_compute; reflexivity).
  eexists. vm_compute. reflexivity.
Qed.

(** ** The bias energy of plain RMSD metadynamics *)

Section BiasFacts.
Variable exp : Q -> Q.
Variable kb_Eh : Q.
Variable BestFitRMSD : list Q -> list Q -> Q.
Variable DriverGradient : list Q -> list Q -> list Q.

Local Abbreviation execute_loop :=
  (BiasThread.execute_loop (D := Q) exp kb_Eh BestFitRMSD DriverGradient).
Local Abbreviation execute :=
  (BiasThread.execute (D := Q) exp kb_Eh BestFitRMSD DriverGradient).

Local Abbreviation terms_of := (BiasThread.terms_of (D := Q) BestFitRMSD).

Lemma execute_loop_bias (th : BiasThread.t Q) (l : list (BiasThread.BiasStructure Q))
    (i : nat) (a : BiasThread.Acc Q) :
  BiasThread.m_wtmtd th = false ->
  BiasThread.a_current_bias (execute_loop th i l a)
  == BiasThread.a_current_bias a
     + BiasThread.m_dT th
       * Spec.V_bias (D := Q) exp (BiasThread.m_k th) (BiasThread.m_alpha th)
           (terms_of th l).
Proof.
  intros Hw. revert i a.
  induction l as [|s l IH]; intros i a.
  - unfold Spec.V_bias. cbn. ring.
  - cbn [BiasThread.execute_loop]. rewrite IH.
    unfold BiasThread.execute_body. rewrite Hw.
    cbn [negb BiasThread.a_current_bias].
    unfold Spec.V_bias, BiasThread.terms_of, of_int.
    cbn [map Spec.dsum fst snd lit dadd dmul dopp Q_Arith].
    ring.
Qed.

(** X26.  What [BiasThread::execute] leaves as the bias energy of a worker
    in plain metadynamics.  A worker without structures returns 0 and keeps
    its bias energy and its gradient as they were.  A worker with structures
    returns 1 and holds its factor [m_dT] times k_rmsd times the sum, over its
    structures, of the visit counter times exp(-RMSD(x, s_k)^2 * alpha), the
    counters being those on entry. *)
Theorem plain_bias_energy_carries_dT (th : BiasThread.t Q) :
  BiasThread.m_wtmtd th = false ->
  (BiasThread.m_biased_structures th = [] ->
   BiasThread.return_value (execute th) = 0%Z
   /\ BiasThread.m_current_bias (execute th) = BiasThread.m_current_bias th
   /\ BiasThread.m_gradient (execute th) = BiasThread.m_gradient th)
  /\ (BiasThread.m_biased_structures th <> [] ->
      BiasThread.return_value (execute th) = 1%Z
      /\ BiasThread.m_current_bias (execute th)
         == BiasThread.m_dT th
            * Spec.V_bias (D := Q) exp (BiasThread.m_k th) (BiasThread.m_alpha th)
                (Spec.plain_terms BestFitRMSD th)).
Proof.
  intros Hw. unfold BiasThread.execute.
  destruct (BiasThread.m_biased_structures th) as [|s l] eqn:E.
  - split; [intros _; cbn; repeat split | intros Hne; congruence].
  - split; [intros Hnil; discriminate Hnil | intros _].
    split; [reflexivity|].
    cbn [BiasThread.m_current_bias]. rewrite execute_loop_bias by assumption.
    cbn [BiasThread.a_current_bias].
    unfold Spec.plain_terms, BiasThread.terms_of, of_int.
    rewrite E. cbn [lit Q_Arith]. ring.
Qed.

End BiasFacts.

(** The worker with factor 3, k_rmsd 2 and two structures, visited once and
    three times, every RMSD being zero: it returns 1 and its bias energy is
    3 * 2 * (1 + 3). *)
Lemma plain_bias_energy_carries_dT_witness :
  BiasThread.return_value
    (BiasThread.execute (D := Q) Inputs.exp_near_zero Inputs.kb_Eh
       Inputs.rmsd_zero Inputs.gradient_zero
       (Inputs.worker_with_two_structures 2 1 3 5)) = 1%Z
  /\ BiasThread.m_current_bias
       (BiasThread.execute (D := Q) Inputs.exp_near_zero Inputs.kb_Eh
          Inputs.rmsd_zero Inputs.gradient_zero
          (Inputs.worker_with_two_structures 2 1 3 5))
     == 3 * Spec.V_bias (D := Q) Inputs.exp_near_zero 2 1
              (Spec.plain_terms Inputs.rmsd_zero
                 (Inputs.worker_with_two_structures 2 1 3 5))
  /\ 3 * Spec.V_bias (D := Q) Inputs.exp_near_zero 2 1
           (Spec.plain_terms Inputs.rmsd_zero
              (Inputs.worker_with_two_structures 2 1 3 5))
     == 24.
Proof.
  pose proof (proj2 (plain_bias_energy_carries_dT Inputs.exp_near_zero
                       Inputs.kb_Eh Inputs.rmsd_zero Inputs.gradient_zero
                       (Inputs.worker_with_two_structures 2 1 3 5) eq_refl))
    as W.
  destruct W as [R E]; [discriminate|].
  split; [exact R|]. split; [exact E|]. vm_compute. reflexivity.
Defined.

(** ** Deposition of bias structures *)

Section DepositFacts.
Context {D : Type} `{Arith D}.
Variable Th : Type.
Variable exp : D -> D.
Variable kb_Eh : D.
Variable BestFitRMSD : list D -> list D -> D.
Variable DriverGradient : list D -> list D -> list D.
Variable counter0 : Z.
Variables energy0 factor0 : D.
Variable cfg : SimpleMD.Config D.
Local Open Scope D_scope.

Local Abbreviation State := (SimpleMD.State D Th).
Local Abbreviation counts := (SimpleMD.structure_counts (D := D)).
Local Abbreviation bt_execute :=
  (BiasThread.execute exp kb_Eh BestFitRMSD DriverGradient).
Local Abbreviation mtd_seed := (SimpleMD.mtd_seed (Th := Th) counter0 energy0 factor0).
Local Abbreviation mtd_evaluate :=
  (SimpleMD.mtd_evaluate (Th := Th) exp kb_Eh BestFitRMSD DriverGradient cfg).
Local Abbreviation ApplyRMSDMTD :=
  (SimpleMD.ApplyRMSDMTD (Th := Th) exp kb_Eh BestFitRMSD DriverGradient counter0
     energy0 factor0 cfg).

Lemma execute_loop_length (th : BiasThread.t D) (l : list (BiasThread.BiasStructure D))
    (i : nat) (a : BiasThread.Acc D) :
  length (BiasThread.a_structures
            (BiasThread.execute_loop exp kb_Eh BestFitRMSD DriverGradient th i l a))
  = (length (BiasThread.a_structures a) + length l)%nat.
Proof.
  revert i a. induction l as [|s l IH]; intros i a; cbn [BiasThread.execute_loop].
  - cbn. lia.
  - rewrite IH. cbn [BiasThread.execute_body BiasThread.a_structures].
    rewrite length_app. cbn. lia.
Qed.

Lemma execute_length (th : BiasThread.t D) :
  length (BiasThread.m_biased_structures (bt_execute th))
  = length (BiasThread.m_biased_structures th).
Proof.
  unfold BiasThread.execute.
  destruct (BiasThread.m_biased_structures th) as [|s l] eqn:E.
  - reflexivity.
  - cbn [BiasThread.m_biased_structures]. rewrite execute_loop_length. reflexivity.
Qed.

Lemma sequential_counts (g : list D) (step : D) (ths : list (BiasThread.t D))
    (c : SimpleMD.Collect D) :
  counts (fst (SimpleMD.mtd_sequential exp kb_Eh BestFitRMSD DriverGradient cfg
                 g step ths c))
  = counts ths.
Proof.
  revert c. induction ths as [|th ths IH]; intros c; cbn; [reflexivity|].
  f_equal; [|apply IH].
  unfold SimpleMD.bt_execute. now rewrite execute_length.
Qed.

Lemma set_geometries_counts (g : list D) (step : D) (limit : option Z)
    (ths : list (BiasThread.t D)) (i : nat) :
  counts (SimpleMD.set_geometries g step i limit ths) = counts ths.
Proof.
  revert i. induction ths as [|th ths IH]; intros i; cbn; [reflexivity|].
  f_equal; [|apply IH].
  destruct limit as [n|]; [destruct (Z.of_nat i <? n)%Z|]; reflexivity.
Qed.

Lemma pool_counts (g : list D) (s : State) (c : SimpleMD.Collect D) :
  counts (fst (SimpleMD.mtd_pool exp kb_Eh BestFitRMSD DriverGradient cfg g s c))
  = counts (SimpleMD.m_bias_threads s).
Proof.
  unfold SimpleMD.mtd_pool. cbn [fst].
  rewrite <- (set_geometries_counts g (SimpleMD.m_currentStep s)
                (if (SimpleMD.m_bias_structure_count s <? SimpleMD.m_threads cfg)%Z
                 then Some (SimpleMD.m_bias_structure_count s) else None)
                (SimpleMD.m_bias_threads s) 0).
  generalize (SimpleMD.set_geometries g (SimpleMD.m_currentStep s) 0
                (if (SimpleMD.m_bias_structure_count s <? SimpleMD.m_threads cfg)%Z
                 then Some (SimpleMD.m_bias_structure_count s) else None)
                (SimpleMD.m_bias_threads s)).
  intros l. induction l as [|th l IH]; cbn; [reflexivity|].
  f_equal; [|exact IH]. unfold SimpleMD.bt_execute. now rewrite execute_length.
Qed.

(** Evaluating the bias deposits nothing. *)
Lemma evaluate_counts (g : list D) (s : State) :
  counts (SimpleMD.m_bias_threads (fst (mtd_evaluate g s)))
  = counts (SimpleMD.m_bias_threads s)
  /\ SimpleMD.m_bias_structure_count (fst (mtd_evaluate g s))
     = SimpleMD.m_bias_structure_count s.
Proof.
  unfold SimpleMD.mtd_evaluate. cbn [fst SimpleMD.m_bias_threads
    SimpleMD.m_bias_structure_count SimpleMD.set_m_colvar_incr
    SimpleMD.set_m_eigen_gradient SimpleMD.set_m_bias_threads].
  split; [|reflexivity].
  destruct ((SimpleMD.m_threads cfg =? 1)%Z
            || (SimpleMD.m_bias_structure_count s =? 1)%Z).
  - apply sequential_counts.
  - apply pool_counts.
Qed.

Lemma at_thread_counts (ths : list (BiasThread.t D)) (i : nat)
    (g : list D) (r t : D) (idx : Z) :
  counts (SimpleMD.at_thread ths i
            (BiasThread.addGeometry counter0 energy0 factor0 g r t idx))
  = SimpleMD.bump_at (counts ths) i.
Proof.
  revert i. induction ths as [|th ths IH]; intros [|i]; cbn; try reflexivity.
  - f_equal. rewrite length_app. cbn. lia.
  - f_equal. apply IH.
Qed.

Lemma bump_at_length (l : list nat) (i : nat) :
  length (SimpleMD.bump_at l i) = length l.
Proof.
  revert i. induction l as [|n l IH]; intros [|i]; cbn; try reflexivity.
  now rewrite IH.
Qed.

(** One call of [ApplyRMSDMTD] deposits at most two structures.  When no
    structure exists yet it deposits the current geometry in worker 0 without
    looking at the bias energy.  After the workers have computed the current
    bias, it deposits the current geometry exactly when the bias times the
    energy-convergence factor is below the number of structures and
    [rmsd_fix_structure] is off, in the worker whose number is that count
    modulo the number of workers. *)
Lemma deposit_rule (s : State) :
  let g := SimpleMD.current_geometry cfg s in
  let first := (SimpleMD.m_bias_structure_count s =? 0)%Z in
  let count := if first then (SimpleMD.m_bias_structure_count s + 1)%Z
               else SimpleMD.m_bias_structure_count s in
  let current_bias :=
    snd (mtd_evaluate g (mtd_seed g (SimpleMD.set_m_colvar_incr 0%Z s))) in
  let below := (current_bias * SimpleMD.m_rmsd_econv cfg <? of_int count)
               && negb (SimpleMD.m_rmsd_fix_structure cfg) in
  let slot := Z.to_nat (Z.rem count (Z.of_nat (length (SimpleMD.m_bias_threads s)))) in
  SimpleMD.m_bias_structure_count (ApplyRMSDMTD s)
  = (count + (if below then 1 else 0))%Z
  /\ counts (SimpleMD.m_bias_threads (ApplyRMSDMTD s))
     = SimpleMD.bump_if below slot
         (SimpleMD.bump_if first 0 (counts (SimpleMD.m_bias_threads s))).
Proof.
  cbv zeta. unfold SimpleMD.ApplyRMSDMTD.
  set (g := SimpleMD.current_geometry cfg s).
  set (s1 := mtd_seed g (SimpleMD.set_m_colvar_incr 0%Z s)).
  destruct (evaluate_counts g s1) as [Ec En].
  set (r := mtd_evaluate g s1) in *.
  assert (Hs1 : SimpleMD.m_bias_structure_count s1
                = (if (SimpleMD.m_bias_structure_count s =? 0)%Z
                   then (SimpleMD.m_bias_structure_count s + 1)%Z
                   else SimpleMD.m_bias_structure_count s)
              /\ counts (SimpleMD.m_bias_threads s1)
                 = SimpleMD.bump_if (SimpleMD.m_bias_structure_count s =? 0)%Z 0
                     (counts (SimpleMD.m_bias_threads s))).
  { unfold s1, SimpleMD.mtd_seed.
    cbn [SimpleMD.m_bias_structure_count SimpleMD.m_bias_threads
         SimpleMD.set_m_colvar_incr].
    destruct (SimpleMD.m_bias_structure_count s =? 0)%Z; cbn; [|split; reflexivity].
    split; [reflexivity|]. unfold SimpleMD.bt_addGeometry. apply at_thread_counts. }
  destruct Hs1 as [Hn Hc].
  assert (Hlen : length (SimpleMD.m_bias_threads (fst r))
                 = length (SimpleMD.m_bias_threads s)).
  { pose proof (f_equal (@length nat) Ec) as Ec'.
    pose proof (f_equal (@length nat) Hc) as Hc'.
    unfold SimpleMD.structure_counts in Ec', Hc'.
    rewrite !length_map in Ec'. rewrite length_map in Hc'.
    etransitivity; [exact Ec'|]. etransitivity; [exact Hc'|].
    unfold SimpleMD.bump_if.
    destruct (SimpleMD.m_bias_structure_count s =? 0)%Z;
      [rewrite bump_at_length|]; now rewrite length_map. }
  unfold SimpleMD.mtd_deposit.
  cbn [SimpleMD.m_bias_structure_count SimpleMD.m_bias_threads
       SimpleMD.set_m_bias_energy SimpleMD.set_m_rmsd_mtd_molecule].
  rewrite En, Hn, Hlen.
  match goal with
  | |- context [if ?b then _ else _] => destruct b
  end.
  - cbn [SimpleMD.m_bias_structure_count SimpleMD.m_bias_threads
         SimpleMD.set_m_bias_structure_count SimpleMD.set_m_bias_threads
         SimpleMD.bump_if].
    split; [reflexivity|].
    unfold SimpleMD.bt_addGeometry. rewrite at_thread_counts.
    cbn [SimpleMD.m_bias_threads SimpleMD.set_m_bias_energy
         SimpleMD.set_m_rmsd_mtd_molecule].
    rewrite Ec, Hc. reflexivity.
  - cbn [SimpleMD.m_bias_structure_count SimpleMD.m_bias_threads
         SimpleMD.set_m_bias_energy SimpleMD.set_m_rmsd_mtd_molecule
         SimpleMD.bump_if].
    split; [lia|]. rewrite Ec, Hc. reflexivity.
Qed.

End DepositFacts.

(** ** The selection of the pairs in a reorder pass *)

Section ReorderFacts.
Context {D : Type} `{Arith D}.
Variable G : Type.
Variable third : D.
Variable cfg : ConfScan.Settings D.
Variable rank_reached : Z -> nat -> bool.
Variable CheckStop : ConfScan.Ptr -> nat -> bool.

Local Abbreviation select_pair := (@ConfScan.select_pair D _ G third cfg).
Local Abbreviation select_threads := (@ConfScan.select_threads D _ G third cfg CheckStop).





End ReorderFacts.

(** ** The order of the accepted structures *)

Section SubseqFacts.
Variable A : Type.
Implicit Types l : list A.

Lemma subseq_nil_l l : ConfScan.subseq [] l.
Proof. induction l; constructor; assumption. Qed.

Lemma subseq_refl l : ConfScan.subseq l l.
Proof. induction l; constructor; assumption. Qed.

Lemma subseq_trans l1 l2 l3 :
  ConfScan.subseq l1 l2 -> ConfScan.subseq l2 l3 -> ConfScan.subseq l1 l3.
Proof.
  intros H12 H23. revert l1 H12.
  induction H23 as [|x l2 l3 _ IH|x l2 l3 _ IH]; intros l1 H12.
  - exact H12.
  - constructor. apply IH. exact H12.
  - inversion H12; subst.
    + apply ConfScan.subseq_skip. apply IH. assumption.
    + apply ConfScan.subseq_keep. apply IH. assumption.
Qed.

Lemma subseq_app l1 l1' l2 l2' :
  ConfScan.subseq l1 l1' -> ConfScan.subseq l2 l2' ->
  ConfScan.subseq (l1 ++ l2) (l1' ++ l2').
Proof.
  intros H1 H2. induction H1; simpl.
  - exact H2.
  - apply ConfScan.subseq_skip. assumption.
  - apply ConfScan.subseq_keep. assumption.
Qed.

Lemma subseq_firstn (n : nat) l : ConfScan.subseq (firstn n l) l.
Proof.
  revert n. induction l as [|x l IH]; intros [|n]; simpl.
  - constructor.
  - constructor.
  - apply subseq_nil_l.
  - apply ConfScan.subseq_keep. apply IH.
Qed.

Lemma subseq_Forall (P : A -> Prop) l l' :
  ConfScan.subseq l l' -> Forall P l' -> Forall P l.
Proof.
  induction 1; intros F.
  - constructor.
  - inversion F; subst. auto.
  - inversion F; subst. apply Forall_cons; auto.
Qed.

Lemma subseq_sorted (R : A -> A -> Prop) l l' :
  ConfScan.subseq l l' -> StronglySorted R l' -> StronglySorted R l.
Proof.
  induction 1 as [|x l l' S IH|x l l' S IH]; intros St.
  - constructor.
  - inversion St; subst. auto.
  - inversion St; subst. apply SSorted_cons; [auto|].
    eapply subseq_Forall; eassumption.
Qed.

End SubseqFacts.

Lemma subseq_map (A B : Type) (f : A -> B) (l l' : list A) :
  ConfScan.subseq l l' -> ConfScan.subseq (map f l) (map f l').
Proof.
  induction 1; simpl.
  - constructor.
  - apply ConfScan.subseq_skip. assumption.
  - apply ConfScan.subseq_keep. assumption.
Qed.

Lemma subseq_map_inv (A B : Type) (f : A -> B) (l : list B) (L : list A) :
  ConfScan.subseq l (map f L) ->
  exists L', ConfScan.subseq L' L /\ l = map f L'.
Proof.
  revert l. induction L as [|x L IH]; intros l S; simpl in S.
  - inversion S; subst. exists []. split; [constructor|reflexivity].
  - inversion S; subst.
    + destruct (IH _ H1) as [L' [S' ->]]. exists L'.
      split; [apply ConfScan.subseq_skip; exact S'|reflexivity].
    + destruct (IH _ H1) as [L' [S' ->]]. exists (x :: L').
      split; [apply ConfScan.subseq_keep; exact S'|reflexivity].
Qed.

Section OrderFacts.
Variable G : Type.
Variable drv : ConfScan.Driver Q G.
Variable third : Q.
Variable cfg : ConfScan.Settings Q.
Variable rank_reached : Z -> nat -> bool.
Variable CheckStop : ConfScan.Ptr -> nat -> bool.
Variable CalculateEnergy : ConfScan.Molecule Q G -> Q.

Local Abbreviation Scan := (ConfScan.Scan Q G).
Local Abbreviation ordered := (@ConfScan.m_ordered_list Q G).
Local Abbreviation stored := (@ConfScan.m_stored_structures Q G).
Local Abbreviation every := (@ConfScan.m_all_structures Q G).
Local Abbreviation result := (@ConfScan.m_result Q G).
Local Abbreviation previous := (@ConfScan.m_previously_accepted Q G).
Local Abbreviation same_lists := (@ConfScan.same_lists Q G).
Local Abbreviation keys_ascend :=
  (fun l : list (Q * ConfScan.Ptr) => StronglySorted Qle (map fst l)).

(** *** Reading the ensemble *)

Lemma ordered_insert_Forall (P : Q -> Prop) (energy : Q) (molecule : ConfScan.Ptr)
    (l : list (Q * ConfScan.Ptr)) :
  P energy -> Forall P (map fst l) ->
  Forall P (map fst (ConfScan.ordered_insert energy molecule l)).
Proof.
  intros Pe. induction l as [|[e m] l IH]; simpl; intros F.
  - constructor; [exact Pe|constructor].
  - inversion F; subst. destruct (Qltb energy e); simpl.
    + constructor; [exact Pe|]. constructor; assumption.
    + constructor; [assumption|]. apply IH. assumption.
Qed.

Lemma ordered_insert_ascend (energy : Q) (molecule : ConfScan.Ptr)
    (l : list (Q * ConfScan.Ptr)) :
  keys_ascend l -> keys_ascend (ConfScan.ordered_insert energy molecule l).
Proof.
  induction l as [|[e m] l IH]; simpl; intros St.
  - constructor; constructor.
  - inversion St as [|? ? St' F]; subst.
    destruct (Qltb energy e) eqn:E; simpl.
    + apply Qltb_lt in E. constructor; [exact St|].
      constructor; [apply Qlt_le_weak; exact E|].
      eapply Forall_impl; [|exact F]. intros a Ha. cbv beta in Ha.
      eapply Qle_trans; [apply Qlt_le_weak; exact E|exact Ha].
    + apply Qltb_ge in E. constructor; [apply IH; exact St'|].
      apply ordered_insert_Forall; assumption.
Qed.

Lemma load_ensemble_lists (file : list (ConfScan.Molecule Q G))
    (a : bool * nat * Scan) :
  let s' := snd (fold_left (fun a mol => ConfScan.load_molecule CalculateEnergy mol a)
                   file a) in
  (keys_ascend (ordered (snd a)) -> keys_ascend (ordered s'))
  /\ stored s' = stored (snd a)
  /\ every s' = every (snd a)
  /\ result s' = result (snd a)
  /\ previous s' = previous (snd a).
Proof.
  cbv zeta. revert a. induction file as [|mol file IH]; intros a; simpl.
  - repeat split; auto.
  - destruct (IH (ConfScan.load_molecule CalculateEnergy mol a))
      as (I1 & I2 & I3 & I4 & I5).
    destruct a as [[method_given molecule] s]. cbn in I1, I2, I3, I4, I5 |- *.
    repeat split; try assumption.
    intros St. apply I1. apply ordered_insert_ascend. exact St.
Qed.

(** *** One candidate *)

Ltac case_ifs :=
  repeat match goal with
         | |- context [if ?b then _ else _] => destruct b
         end.

Lemma same_lists_refl (s : Scan) : same_lists s s.
Proof. repeat split. Qed.

Lemma same_lists_trans (s1 s2 s3 : Scan) :
  same_lists s1 s2 -> same_lists s2 s3 -> same_lists s1 s3.
Proof.
  intros (A1 & A2 & A3 & A4 & A5) (B1 & B2 & B3 & B4 & B5).
  repeat split; etransitivity; eassumption.
Qed.

Lemma check_candidate_lists (index : ConfScan.Ptr)
    (a : Scan * list (ConfScan.Molecule Q G * Q)) :
  let s' := fst (ConfScan.check_candidate drv third cfg index a) in
  ordered s' = ordered (fst a)
  /\ previous s' = previous (fst a)
  /\ ConfScan.accepted_or_not index (fst a) s'
  /\ ConfScan.grows_by index (every (fst a)) (every s').
Proof.
  cbv zeta. unfold ConfScan.check_candidate, ConfScan.accepted_or_not,
    ConfScan.grows_by.
  case_ifs; cbn; repeat split;
    first [left; split; reflexivity | right; split; reflexivity
          | left; reflexivity | right; reflexivity].
Qed.

Lemma select_threads_lists (index : ConfScan.Ptr) (dLE dLI dLH : Q)
    (todo : list (ConfScan.Thread Q G)) (t : nat) (c : ConfScan.Cand Q G) :
  same_lists (ConfScan.c_scan c)
    (ConfScan.c_scan
       (fst (fst (ConfScan.select_threads third cfg CheckStop index
                    dLE dLI dLH t todo c)))).
Proof.
  revert t c.
  induction todo as [|th todo IH]; intros t c; cbn [ConfScan.select_threads];
    [apply same_lists_refl|].
  destruct (CheckStop index t); [apply same_lists_refl|].
  assert (Hp : same_lists (ConfScan.c_scan c)
                 (ConfScan.c_scan
                    (fst (ConfScan.select_pair third cfg index dLE dLI dLH th c)))).
  { unfold ConfScan.select_pair. case_ifs; repeat split. }
  destruct (snd (ConfScan.select_pair third cfg index dLE dLI dLH th c)).
  - exact Hp.
  - cbn [fst]. eapply same_lists_trans; [exact Hp|apply IH].
Qed.

Lemma read_threads_lists (index : ConfScan.Ptr) (todo : list (ConfScan.Thread Q G))
    (s : Scan) (done : list (ConfScan.Thread Q G)) (rules : list ConfScan.Rule)
    (keep : bool) :
  same_lists s
    (fst (fst (fst (ConfScan.read_threads drv cfg index todo (s, done, rules, keep))))).
Proof.
  revert s done rules keep.
  induction todo as [|th todo IH]; intros s done rules keep; simpl;
    [apply same_lists_refl|].
  unfold ConfScan.AddRules.
  case_ifs; (eapply same_lists_trans; [|apply IH]); repeat split.
Qed.

Lemma reorder_candidate_lists (dLE dLI dLH : Q) (reuse_only : bool)
    (index : ConfScan.Ptr) (p : ConfScan.Pass Q G) :
  let s := ConfScan.scan p in
  let s' := ConfScan.scan
              (fst (ConfScan.reorder_candidate drv third cfg rank_reached CheckStop
                      dLE dLI dLH reuse_only index p)) in
  ordered s' = ordered s
  /\ every s' = every s
  /\ previous s' = previous s
  /\ ConfScan.accepted_or_not index s s'.
Proof.
  cbv zeta. unfold ConfScan.reorder_candidate, ConfScan.accepted_or_not.
  destruct (Nat.eqb _ 0).
  { cbn. repeat split. right. split; reflexivity. }
  match goal with |- context [if ?b then _ else _] => destruct b end.
  { cbn. repeat split. left. split; reflexivity. }
  pose proof (select_threads_lists index dLE dLI dLH (ConfScan.threads p) 0
                {| ConfScan.c_scan := ConfScan.scan p; ConfScan.c_done := [];
                   ConfScan.c_reorder := false;
                   ConfScan.c_keep_molecule := true |}) as S.
  destruct (ConfScan.select_threads _ _ _ _ _ _ _ _ _ _) as [[c rest] flow].
  cbn [fst ConfScan.c_scan] in S. destruct S as (S1 & S2 & S3 & S4 & S5).
  assert (R : forall (ths : list (ConfScan.Thread Q G)) (rules : list ConfScan.Rule),
             let '(s, ths', rules', keep_molecule) :=
               ConfScan.read_threads drv cfg index ths
                 (ConfScan.c_scan c, [], rules, ConfScan.c_keep_molecule c) in
             same_lists (ConfScan.scan p) s).
  { intros ths rules.
    pose proof (read_threads_lists index ths (ConfScan.c_scan c) [] rules
                  (ConfScan.c_keep_molecule c)) as T.
    destruct (ConfScan.read_threads _ _ _ _ _) as [[[s2 ths2] r2] k2].
    cbn [fst] in T. eapply same_lists_trans; [|exact T]. repeat split; assumption. }
  destruct flow.
  - destruct (ConfScan.c_reorder c && ConfScan.c_keep_molecule c).
    + match goal with
      | |- context [ConfScan.read_threads drv cfg index ?ths (_, _, ?rules, _)] =>
          specialize (R ths rules);
          destruct (ConfScan.read_threads drv cfg index ths _) as [[[s2 ths2] r2] k2]
      end.
      destruct R as (R1 & R2 & R3 & R4 & R5).
      destruct k2; cbn; rewrite ?R1, ?R2, ?R3, ?R4, ?R5; repeat split;
        first [left; split; reflexivity | right; split; reflexivity].
    + destruct (ConfScan.c_keep_molecule c); cbn;
        rewrite ?S1, ?S2, ?S3, ?S4, ?S5; repeat split;
        first [left; split; reflexivity | right; split; reflexivity].
  - destruct (ConfScan.c_reorder c && ConfScan.c_keep_molecule c).
    + match goal with
      | |- context [ConfScan.read_threads drv cfg index ?ths (_, _, ?rules, _)] =>
          specialize (R ths rules);
          destruct (ConfScan.read_threads drv cfg index ths _) as [[[s2 ths2] r2] k2]
      end.
      destruct R as (R1 & R2 & R3 & R4 & R5).
      destruct k2; cbn; rewrite ?R1, ?R2, ?R3, ?R4, ?R5; repeat split;
        first [left; split; reflexivity | right; split; reflexivity].
    + destruct (ConfScan.c_keep_molecule c); cbn;
        rewrite ?S1, ?S2, ?S3, ?S4, ?S5; repeat split;
        first [left; split; reflexivity | right; split; reflexivity].
  - cbn. rewrite ?S1, ?S2, ?S3, ?S4, ?S5. repeat split. left. split; reflexivity.
Qed.

(** *** The loops *)

Lemma check_loop_lists (entries : list (Q * ConfScan.Ptr))
    (a : Scan * list (ConfScan.Molecule Q G * Q)) :
  let s' := fst (ConfScan.check_loop drv third cfg entries a) in
  ordered s' = ordered (fst a)
  /\ previous s' = previous (fst a)
  /\ (exists l, ConfScan.subseq l (map snd entries)
                /\ stored s' = stored (fst a) ++ l
                /\ result s' = result (fst a) ++ l)
  /\ (exists l, ConfScan.subseq l (map snd entries)
                /\ every s' = every (fst a) ++ l).
Proof.
  cbv zeta. unfold ConfScan.check_loop. revert a.
  induction entries as [|e entries IH]; intros a; simpl.
  - repeat split; exists []; rewrite ?app_nil_r; repeat split; constructor.
  - destruct (IH (ConfScan.check_candidate drv third cfg (snd e) a))
      as (I1 & I2 & (l & Sl & I3 & I4) & (l' & Sl' & I5)).
    destruct (check_candidate_lists (snd e) a) as (C1 & C2 & C3 & C4).
    rewrite I1, I2, I3, I4, I5, C1, C2. split; [reflexivity|]. split; [reflexivity|].
    split.
    + destruct C3 as [[-> ->]|[-> ->]].
      * exists l. split; [apply ConfScan.subseq_skip; exact Sl|]. split; reflexivity.
      * exists (snd e :: l). split; [apply ConfScan.subseq_keep; exact Sl|].
        rewrite <- !app_assoc. split; reflexivity.
    + destruct C4 as [->| ->].
      * exists l'. split; [apply ConfScan.subseq_skip; exact Sl'|reflexivity].
      * exists (snd e :: l'). split; [apply ConfScan.subseq_keep; exact Sl'|].
        rewrite <- !app_assoc. reflexivity.
Qed.

Lemma reorder_loop_lists (dLE dLI dLH : Q) (reuse_only : bool)
    (cached : list ConfScan.Ptr) (p : ConfScan.Pass Q G) :
  let s := ConfScan.scan p in
  let s' := ConfScan.scan
              (ConfScan.reorder_loop drv third cfg rank_reached CheckStop
                 dLE dLI dLH reuse_only cached p) in
  ordered s' = ordered s
  /\ every s' = every s
  /\ previous s' = previous s
  /\ exists l, ConfScan.subseq l cached
               /\ stored s' = stored s ++ l
               /\ result s' = result s ++ l.
Proof.
  cbv zeta. revert p. induction cached as [|index cached IH]; intros p; simpl.
  - repeat split. exists []. rewrite !app_nil_r. repeat split. constructor.
  - destruct (reorder_candidate_lists dLE dLI dLH reuse_only index p)
      as (C1 & C2 & C3 & C4).
    set (r := ConfScan.reorder_candidate drv third cfg rank_reached CheckStop
                dLE dLI dLH reuse_only index p) in *.
    assert (Stop : ordered (ConfScan.scan (fst r)) = ordered (ConfScan.scan p)
                   /\ every (ConfScan.scan (fst r)) = every (ConfScan.scan p)
                   /\ previous (ConfScan.scan (fst r)) = previous (ConfScan.scan p)
                   /\ exists l, ConfScan.subseq l (index :: cached)
                        /\ stored (ConfScan.scan (fst r))
                           = stored (ConfScan.scan p) ++ l
                        /\ result (ConfScan.scan (fst r))
                           = result (ConfScan.scan p) ++ l).
    { repeat split; try assumption. destruct C4 as [[-> ->]|[-> ->]].
      - exists []. rewrite !app_nil_r. repeat split. apply subseq_nil_l.
      - exists [index]. repeat split. apply ConfScan.subseq_keep. apply subseq_nil_l. }
    destruct (snd r); [|exact Stop|exact Stop].
    destruct (IH (fst r)) as (I1 & I2 & I3 & (l & Sl & I4 & I5)).
    rewrite I1, I2, I3, I4, I5, C1, C2, C3. repeat split.
    destruct C4 as [[-> ->]|[-> ->]].
    + exists l. split; [apply ConfScan.subseq_skip; exact Sl|]. split; reflexivity.
    + exists (index :: l). split; [apply ConfScan.subseq_keep; exact Sl|].
      rewrite <- !app_assoc. split; reflexivity.
Qed.

(** *** The passes *)

(** The invariant of the passes: the structures accepted by the latest pass
    and the structures kept for a reset are the candidates [O] of the first
    pass with entries left out. *)
Local Abbreviation Inv :=
  (fun (O : list ConfScan.Ptr) (s : Scan) =>
     ConfScan.subseq (stored s) O /\ ConfScan.subseq (every s) O).

Lemma reorder_prologue_lists (reset : bool) (s : Scan) :
  let r := ConfScan.reorder_prologue cfg reset s in
  fst r = (if reset then every s else stored s)
  /\ ordered (snd r) = ordered s
  /\ every (snd r) = every s
  /\ previous (snd r) = previous s
  /\ stored (snd r) = []
  /\ result (snd r) = previous s.
Proof.
  cbv zeta. unfold ConfScan.reorder_prologue. cbn [fst snd].
  case_ifs; cbn; repeat split.
Qed.

(** [Reorder] run over the stretch [cs] of its candidates. *)
Lemma reorder_stretch_lists (dLE dLI dLH : Q) (reuse_only reset : bool)
    (cs : list ConfScan.Ptr) (s : Scan) :
  let r := ConfScan.reorder_prologue cfg reset s in
  let s' := ConfScan.scan
              (ConfScan.reorder_loop drv third cfg rank_reached CheckStop
                 dLE dLI dLH reuse_only cs
                 {| ConfScan.scan := snd r; ConfScan.threads := [];
                    ConfScan.rules := [] |}) in
  ordered s' = ordered s
  /\ every s' = every s
  /\ previous s' = previous s
  /\ ConfScan.subseq (stored s') cs
  /\ result s' = previous s ++ stored s'.
Proof.
  cbv zeta.
  destruct (reorder_prologue_lists reset s) as (_ & P2 & P3 & P4 & P5 & P6).
  cbv zeta in P2, P3, P4, P5, P6.
  destruct (reorder_loop_lists dLE dLI dLH reuse_only cs
              {| ConfScan.scan := snd (ConfScan.reorder_prologue cfg reset s);
                 ConfScan.threads := []; ConfScan.rules := [] |})
    as (L1 & L2 & L3 & (l & Sl & L4 & L5)).
  cbv zeta in L1, L2, L3, L4, L5. cbn [ConfScan.scan] in L1, L2, L3, L4, L5.
  rewrite L1, L2, L3, L4, L5, P2, P3, P4, P5, P6. cbn [app].
  repeat split. exact Sl.
Qed.

Lemma reorder_pass_inv (O : list ConfScan.Ptr) (c : ConfScan.PassCall Q) (s : Scan) :
  ConfScan.is_reorder c -> Inv O s ->
  let s' := ConfScan.run_pass drv third cfg rank_reached CheckStop c s in
  Inv O s' /\ ordered s' = ordered s /\ previous s' = previous s.
Proof.
  destruct c as [| |dLE dLI dLH reuse_only reset]; simpl; try contradiction.
  intros _ [Is Ie]. unfold ConfScan.Reorder.
  destruct (reorder_stretch_lists dLE dLI dLH reuse_only reset
              (fst (ConfScan.reorder_prologue cfg reset s)) s)
    as (R1 & R2 & R3 & R4 & _).
  cbv zeta in R1, R2, R3, R4.
  destruct (reorder_prologue_lists reset s) as (P1 & _). cbv zeta in P1.
  repeat split; try assumption.
  - eapply subseq_trans; [exact R4|]. rewrite P1. destruct reset; assumption.
  - rewrite R2. exact Ie.
Qed.

Lemma reorder_passes_inv (O : list ConfScan.Ptr) (calls : list (ConfScan.PassCall Q))
    (s : Scan) :
  Forall (@ConfScan.is_reorder Q) calls -> Inv O s ->
  let s' := ConfScan.run_passes drv third cfg rank_reached CheckStop calls s in
  Inv O s' /\ ordered s' = ordered s /\ previous s' = previous s.
Proof.
  cbv zeta. unfold ConfScan.run_passes. revert s.
  induction calls as [|c calls IH]; intros s F I; simpl.
  - repeat split; apply I.
  - inversion F; subst.
    destruct (@reorder_pass_inv _ c _ H1 I) as (I' & O' & P').
    destruct (IH _ H2 I') as (I'' & O'' & P'').
    repeat split; try apply I''; etransitivity; eassumption.
Qed.

Lemma first_pass_inv (skipinit : bool) (s : Scan) :
  stored s = [] -> every s = [] ->
  let c := if skipinit then ConfScan.CallSkipInit else ConfScan.CallCheckOnly in
  let s' := ConfScan.run_pass drv third cfg rank_reached CheckStop c s in
  Inv (map snd (ordered s)) s' /\ ordered s' = ordered s /\ previous s' = previous s.
Proof.
  intros Hs He. cbv zeta. destruct skipinit; simpl.
  - rewrite Hs, He. cbn. repeat split; [apply subseq_refl|apply subseq_nil_l].
  - unfold ConfScan.CheckOnly.
    destruct (check_loop_lists (ordered s) (s, []))
      as (C1 & C2 & (l & Sl & C3 & _) & (l' & Sl' & C4)).
    cbv zeta in C1, C2, C3, C4. cbn [fst] in C1, C2, C3, C4.
    cbn. rewrite C1, C2, C3, C4, Hs, He. cbn [app]. repeat split; assumption.
Qed.

Lemma start_calls_reorder (runs : list (Q * Q * Q * bool * bool)) :
  Forall (@ConfScan.is_reorder Q)
    (map (fun r => let '(dLE, dLI, dLH, reuse_only, reset) := r in
                   ConfScan.CallReorder dLE dLI dLH reuse_only reset) runs).
Proof.
  induction runs as [|[[[[dLE dLI] dLH] reuse_only] reset] runs IH]; simpl;
    constructor; [exact I|exact IH].
Qed.

(** The candidates of a pass and the structures accepted when the loop has
    been through [n] of them, for a pass that starts in a state where the
    invariant holds. *)
Lemma pass_moment (O : list ConfScan.Ptr) (c : ConfScan.PassCall Q) (n : nat)
    (s : Scan) :
  Inv O s ->
  (ConfScan.is_reorder c \/ (stored s = [] /\ every s = [] /\ O = map snd (ordered s))) ->
  ConfScan.subseq (ConfScan.candidates cfg c s) O
  /\ ConfScan.subseq
       (stored (ConfScan.pass_state_after drv third cfg rank_reached CheckStop n c s))
       (firstn n (ConfScan.candidates cfg c s))
  /\ (ConfScan.is_reorder c ->
      result (ConfScan.pass_state_after drv third cfg rank_reached CheckStop n c s)
      = previous s
        ++ stored (ConfScan.pass_state_after drv third cfg rank_reached CheckStop
                     n c s)).
Proof.
  intros [Is Ie] Hc.
  destruct c as [| |dLE dLI dLH reuse_only reset];
    cbn [ConfScan.candidates ConfScan.pass_state_after ConfScan.is_reorder].
  - destruct Hc as [[]|(Hs & He & ->)]. split; [apply subseq_refl|].
    split; [|contradiction].
    destruct (check_loop_lists (firstn n (ordered s)) (s, []))
      as (_ & _ & (l & Sl & C3 & _) & _).
    cbv zeta in C3. cbn [fst] in C3. rewrite C3, Hs. cbn [app].
    rewrite firstn_map. exact Sl.
  - destruct Hc as [[]|(Hs & He & ->)]. split; [apply subseq_refl|].
    split; [|contradiction]. cbn. rewrite Hs. apply subseq_refl.
  - destruct (reorder_prologue_lists reset s) as (P1 & _). cbv zeta in P1.
    destruct (reorder_stretch_lists dLE dLI dLH reuse_only reset
                (firstn n (fst (ConfScan.reorder_prologue cfg reset s))) s)
      as (_ & _ & _ & R4 & R5).
    cbv zeta in R4, R5.
    split; [rewrite P1; destruct reset; assumption|].
    split; [exact R4|]. intros _. exact R5.
Qed.

(** *** The first candidate *)

Lemma reorder_first_candidate (dLE dLI dLH : Q) (reuse_only : bool)
    (index : ConfScan.Ptr) (p : ConfScan.Pass Q G) :
  result (ConfScan.scan p) = [] ->
  let r := ConfScan.reorder_candidate drv third cfg rank_reached CheckStop
             dLE dLI dLH reuse_only index p in
  snd r = ConfScan.Next
  /\ stored (ConfScan.scan (fst r)) = stored (ConfScan.scan p) ++ [index]
  /\ result (ConfScan.scan (fst r)) = [index]
  /\ ConfScan.m_lowest_energy (ConfScan.scan (fst r))
     = ConfScan.Energy (ConfScan.deref (ConfScan.scan p) index).
Proof.
  intros E. cbv zeta. unfold ConfScan.reorder_candidate. rewrite E. cbn.
  rewrite E. repeat split.
Qed.

Lemma check_first_candidate (index : ConfScan.Ptr)
    (a : Scan * list (ConfScan.Molecule Q G * Q)) :
  ConfScan.m_skip (fst a) = 0%Z ->
  ((ConfScan.m_maxrank cfg <=? ConfScan.m_accepted (fst a))
   && (ConfScan.m_maxrank cfg >? -1))%Z = false ->
  (ConfScan.Check drv (ConfScan.deref (fst a) index) =? 1)%Z = false ->
  result (fst a) = [] ->
  let a' := ConfScan.check_candidate drv third cfg index a in
  stored (fst a') = stored (fst a) ++ [index]
  /\ result (fst a') = [index]
  /\ ConfScan.m_lowest_energy (fst a')
     = ConfScan.Energy (ConfScan.deref (fst a) index).
Proof.
  intros Hs Hr Hc E. cbv zeta. unfold ConfScan.check_candidate.
  rewrite Hs, Hr, Hc, E. cbn. rewrite E. repeat split.
Qed.

(** C6.  The ensemble is filed in ascending order of the energy each
    molecule is given when it is read.  In the passes [start()] makes, at
    the moment when [done] are over and the loop of the pass [c] has been
    through [n] candidates:
    - the candidates of [c] are entries of that list, in its order;
    - the structures accepted by the pass, [m_stored_structures], are
      entries of that list, in its order, so their filed energies do not
      decrease; in a pass of [Reorder], [m_result] is the earlier accepted
      structures followed by them;
    - in [Reorder] a candidate met with [m_result] empty is accepted without
      a comparison; in [CheckOnly] it is, when the skip counter is at zero,
      the rank limit is not reached and the molecule passes [Check]. *)
Theorem accepted_structures_ascend_in_filed_energy
    (file : list (ConfScan.Molecule Q G)) (method_given : bool) (s_init : Scan)
    (skipinit : bool) (runs : list (Q * Q * Q * bool * bool))
    (done todo : list (ConfScan.PassCall Q)) (c : ConfScan.PassCall Q) (n : nat) :
  ordered s_init = [] -> stored s_init = [] -> every s_init = [] ->
  ConfScan.start_calls skipinit runs = done ++ c :: todo ->
  let s0 := ConfScan.load_ensemble CalculateEnergy method_given file s_init in
  let s1 := ConfScan.run_passes drv third cfg rank_reached CheckStop done s0 in
  let s := ConfScan.pass_state_after drv third cfg rank_reached CheckStop n c s1 in
  StronglySorted Qle (map fst (ordered s0))
  /\ (exists l, ConfScan.subseq l (ordered s0)
                /\ StronglySorted Qle (map fst l)
                /\ ConfScan.candidates cfg c s1 = map snd l)
  /\ (exists l, ConfScan.subseq l (ordered s0)
                /\ StronglySorted Qle (map fst l)
                /\ stored s = map snd l)
  /\ (ConfScan.is_reorder c -> result s = previous s_init ++ stored s)
  /\ (forall (dLE dLI dLH : Q) (reuse_only : bool) (index : ConfScan.Ptr)
             (p : ConfScan.Pass Q G),
         result (ConfScan.scan p) = [] ->
         let r := ConfScan.reorder_candidate drv third cfg rank_reached CheckStop
                    dLE dLI dLH reuse_only index p in
         snd r = ConfScan.Next
         /\ stored (ConfScan.scan (fst r)) = stored (ConfScan.scan p) ++ [index]
         /\ result (ConfScan.scan (fst r)) = [index])
  /\ (forall (index : ConfScan.Ptr) (a : Scan * list (ConfScan.Molecule Q G * Q)),
         ConfScan.m_skip (fst a) = 0%Z ->
         ((ConfScan.m_maxrank cfg <=? ConfScan.m_accepted (fst a))
          && (ConfScan.m_maxrank cfg >? -1))%Z = false ->
         (ConfScan.Check drv (ConfScan.deref (fst a) index) =? 1)%Z = false ->
         result (fst a) = [] ->
         let a' := ConfScan.check_candidate drv third cfg index a in
         stored (fst a') = stored (fst a) ++ [index]
         /\ result (fst a') = [index]).
Proof.
  intros Ho Hs He Hcalls. cbv zeta.
  destruct (load_ensemble_lists file (method_given, O, s_init))
    as (L1 & L2 & L3 & L4 & L5).
  cbv zeta in L1, L2, L3, L4, L5. cbn [snd] in L1, L2, L3, L4, L5.
  fold (ConfScan.load_ensemble CalculateEnergy method_given file s_init)
    in L1, L2, L3, L4, L5.
  set (s0 := ConfScan.load_ensemble CalculateEnergy method_given file s_init) in *.
  assert (Sorted0 : StronglySorted Qle (map fst (ordered s0))).
  { apply L1. rewrite Ho. constructor. }
  rewrite Hs in L2. rewrite He in L3.
  set (s1 := ConfScan.run_passes drv third cfg rank_reached CheckStop done s0).
  assert (M : Inv (map snd (ordered s0)) s1
              /\ ordered s1 = ordered s0 /\ previous s1 = previous s0
              /\ (ConfScan.is_reorder c
                  \/ (stored s1 = [] /\ every s1 = []
                      /\ map snd (ordered s0) = map snd (ordered s1)))).
  { unfold ConfScan.start_calls in Hcalls. destruct done as [|d done'].
    - subst s1. cbn [ConfScan.run_passes fold_left].
      rewrite L2, L3. split; [split; apply subseq_nil_l|].
      split; [reflexivity|]. split; [reflexivity|].
      right. repeat split.
    - cbn [app] in Hcalls. injection Hcalls as Hd Hrest.
      pose proof (start_calls_reorder runs) as F. rewrite Hrest in F.
      apply Forall_app in F as [Fd Fc]. inversion Fc; subst.
      destruct (first_pass_inv skipinit s0 L2 L3) as (I1 & O1 & P1).
      cbv zeta in I1, O1, P1.
      unfold s1, ConfScan.run_passes. cbn [fold_left].
      fold (ConfScan.run_passes drv third cfg rank_reached CheckStop done'
              (ConfScan.run_pass drv third cfg rank_reached CheckStop
                 (if skipinit then ConfScan.CallSkipInit else ConfScan.CallCheckOnly)
                 s0)).
      destruct (@reorder_passes_inv _ done' _ Fd I1) as (I2 & O2 & P2).
      cbv zeta in I2, O2, P2.
      split; [exact I2|]. split; [etransitivity; eassumption|].
      split; [etransitivity; eassumption|]. left. assumption. }
  destruct M as (I1 & O1 & P1 & Hc).
  assert (Hc' : ConfScan.is_reorder c
                \/ (stored s1 = [] /\ every s1 = []
                    /\ map snd (ordered s0) = map snd (ordered s1))) by exact Hc.
  destruct (@pass_moment _ c n _ I1 Hc') as (M1 & M2 & M3).
  split; [exact Sorted0|]. split; [|split; [|split; [|split]]].
  - destruct (subseq_map_inv _ _ M1) as [l [Sl El]].
    exists l. repeat split; try assumption.
    eapply subseq_sorted; [apply subseq_map; exact Sl|exact Sorted0].
  - assert (M2' : ConfScan.subseq
                    (stored (ConfScan.pass_state_after drv third cfg rank_reached
                               CheckStop n c s1)) (map snd (ordered s0))).
    { eapply subseq_trans; [exact M2|]. eapply subseq_trans; [apply subseq_firstn|].
      exact M1. }
    destruct (subseq_map_inv _ _ M2') as [l [Sl El]].
    exists l. repeat split; try assumption.
    eapply subseq_sorted; [apply subseq_map; exact Sl|exact Sorted0].
  - intros R. rewrite (M3 R), P1, L5. reflexivity.
  - intros dLE dLI dLH reuse_only index p E.
    destruct (reorder_first_candidate dLE dLI dLH reuse_only index p E)
      as (F1 & F2 & F3 & _).
    repeat split; assumption.
  - intros index a Hk Hr Hch E.
    destruct (check_first_candidate index a Hk Hr Hch E) as (F1 & F2 & _).
    split; assumption.
Qed.

End OrderFacts.

(** The passes at work on the file that lists [mol_B] ahead of [mol_A]: the
    initial pass is over and the loop of a pass of [Reorder] has been
    through both of its candidates. *)
Lemma accepted_structures_ascend_in_filed_energy_witness :
  let s0 := Inputs.scan_read (D := Q) [] in
  let c := ConfScan.CallReorder (D := Q) 10000 10000 10000 false false in
  let s1 := ConfScan.run_passes (Inputs.constant_driver 5 []) (1 # 3)
              Inputs.scan_settings Inputs.no_rank_limit Inputs.no_stop
              [ConfScan.CallCheckOnly] s0 in
  let s := ConfScan.pass_state_after (Inputs.constant_driver 5 []) (1 # 3)
             Inputs.scan_settings Inputs.no_rank_limit Inputs.no_stop 2 c s1 in
  exists l, ConfScan.subseq l (ConfScan.m_ordered_list s0)
            /\ StronglySorted Qle (map fst l)
            /\ ConfScan.m_stored_structures s = map snd l.
Proof.
  exact (proj1 (proj2 (proj2
    (@accepted_structures_ascend_in_filed_energy unit
       (Inputs.constant_driver 5 []) (1 # 3) Inputs.scan_settings
       Inputs.no_rank_limit Inputs.no_stop Inputs.file_energy
       [Inputs.mol_B; Inputs.mol_A] false (Inputs.scan_blank [])
       false [(10000, 10000, 10000, false, false)]
       [ConfScan.CallCheckOnly] []
       (ConfScan.CallReorder 10000 10000 10000 false false) 2
       eq_refl eq_refl eq_refl eq_refl)))).
Defined.

(** C6, where the claim fails.  In the initial pass the candidate of lowest
    energy, [mol_A] at pointer 1, is met with no structure accepted and with a
    molecule that does not pass [Check]: it is counted as rejected and not
    accepted, and the pass ends with [mol_B] alone.  And with a structure of
    energy -5 accepted by an earlier scan, [m_result] after a pass of
    [Reorder] holds the energies -5, -10, -9. *)
Lemma first_candidate_can_be_rejected_and_result_can_descend :
  let s0 := Inputs.scan_read (D := Q) [] in
  let a := ConfScan.check_candidate (Inputs.checking_driver "A") (1 # 3)
             Inputs.scan_settings 1%nat (s0, []) in
  let s1 := ConfScan.CheckOnly (Inputs.checking_driver "A") (1 # 3)
              Inputs.scan_settings s0 in
  let s2 := ConfScan.run_passes (Inputs.constant_driver 5 []) (1 # 3)
              Inputs.scan_settings Inputs.no_rank_limit Inputs.no_stop
              (ConfScan.start_calls false [(10000, 10000, 10000, false, false)])
              (Inputs.scan_read (D := Q) [2%nat]) in
  ConfScan.m_ordered_list s0 = [(-10, 1%nat); (-9, 0%nat)]
  /\ ConfScan.m_result s0 = []
  /\ ConfScan.m_result (fst a) = []
  /\ ConfScan.m_stored_structures (fst a) = []
  /\ ConfScan.m_rejected (fst a) = 1%Z
  /\ ConfScan.m_result s1 = [0%nat]
  /\ ConfScan.m_result s2 = [2%nat; 1%nat; 0%nat]
  /\ map (fun p => ConfScan.Energy (ConfScan.m_molecules s2 p)) (ConfScan.m_result s2)
     = [-5; -10; -9].
Proof.
  cbv zeta. repeat split; vm_compute; reflexivity.
Qed.

(** ** The loops of RATTLE *)

Section FuelFacts.

Lemma settles_ret (A : Type) (r : res A) : r <> NoFuel -> settles (fun _ => r) r.
Proof. intros N. split; [exact N|]. exists O. reflexivity. Qed.

Lemma for_each_settles (X S : Type) (body : nat -> X -> S -> res S)
    (P : S -> S -> Prop) :
  (forall s, P s s) ->
  (forall s1 s2 s3, P s1 s2 -> P s2 s3 -> P s1 s3) ->
  (forall x s, exists r, settles (fun fuel => body fuel x s) r
                         /\ forall s', r = Ok s' -> P s s') ->
  forall (l : list X) (s : S),
    exists r, settles (fun fuel => for_each l (body fuel) s) r
              /\ forall s', r = Ok s' -> P s s'.
Proof.
  intros Prefl Ptrans Hb l. induction l as [|x l IH]; intros s; simpl.
  - exists (Ok s). split; [apply settles_ret; discriminate|].
    intros s' E. injection E as <-. apply Prefl.
  - destruct (Hb x s) as [r [[N [f0 H0]] Hp]].
    destruct r as [s1| |]; [| |contradiction].
    + destruct (IH s1) as [r' [[N' [f1 H1]] Hp']]. exists r'. split.
      * split; [exact N'|]. exists (Nat.max f0 f1). intros f Hf.
        rewrite H0 by lia. simpl. apply H1. lia.
      * intros s' E. eapply Ptrans; [apply Hp; reflexivity|apply Hp'; exact E].
    + exists Exited. split.
      * split; [discriminate|]. exists f0. intros f Hf. rewrite H0 by lia. reflexivity.
      * discriminate.
Qed.

(** A [while] whose condition compares a counter, which every pass of the
    body advances by one, with a limit; the fuel of the loop and the fuel of
    its body are told apart. *)
Lemma counted_loop_runs (S : Type) (iter_of : S -> Q) (limit : Z)
    (body : nat -> S -> res (S * bool)) :
  (forall s, exists r, settles (fun fuel => body fuel s) r
                       /\ forall s' b, r = Ok (s', b) -> iter_of s' == iter_of s + 1) ->
  forall (m : nat) (k : Z) (s : S) (n : nat),
    iter_of s == inject_Z k -> Z.to_nat (limit - k) = m ->
    exists r,
      r <> NoFuel
      /\ (exists f0, forall fw fb, (f0 <= fw)%nat -> (f0 <= fb)%nat ->
            while_loop fw (fun s => Qltb (iter_of s) (inject_Z limit))
              (body fb) s n = r)
      /\ forall s' n', r = Ok (s', n') -> (n' <= n + m)%nat.
Proof.
  intros Hb m. induction m as [|m IH]; intros k s n Hk Hm.
  - assert (C : Qltb (iter_of s) (inject_Z limit) = false).
    { apply Qltb_ge. rewrite Hk. rewrite <- Zle_Qle. lia. }
    exists (Ok (s, n)). split; [discriminate|]. split.
    + exists 1%nat. intros fw fb Hw _.
      destruct fw as [|fw]; [lia|]. simpl. rewrite C. reflexivity.
    + intros s' n' E. injection E as <- <-. lia.
  - assert (C : Qltb (iter_of s) (inject_Z limit) = true).
    { apply Qltb_lt. rewrite Hk. rewrite <- Zlt_Qlt. lia. }
    destruct (Hb s) as [r [[N [f0 H0]] Hi]].
    destruct r as [[s1 brk]| |]; [| |contradiction].
    + destruct brk.
      * exists (Ok (s1, Datatypes.S n)). split; [discriminate|]. split.
        -- exists (Datatypes.S f0). intros fw fb Hw Hf.
           destruct fw as [|fw]; [lia|]. simpl. rewrite C. rewrite H0 by lia.
           reflexivity.
        -- intros s' n' E. injection E as <- <-. lia.
      * assert (Hk1 : iter_of s1 == inject_Z (k + 1)).
        { rewrite (Hi s1 false eq_refl), Hk, inject_Z_plus. reflexivity. }
        destruct (IH (k + 1)%Z s1 (Datatypes.S n) Hk1 ltac:(lia))
          as [r' [N' [[f1 H1] Hn]]].
        exists r'. split; [exact N'|]. split.
        -- exists (Datatypes.S (Nat.max f0 f1)). intros fw fb Hw Hf.
           destruct fw as [|fw]; [lia|]. simpl. rewrite C. rewrite H0 by lia.
           apply H1; lia.
        -- intros s' n' E. specialize (Hn s' n' E). lia.
    + exists Exited. split; [discriminate|]. split.
      * exists (Datatypes.S f0). intros fw fb Hw Hf.
        destruct fw as [|fw]; [lia|]. simpl. rewrite C. rewrite H0 by lia.
        reflexivity.
      * discriminate.
Qed.

Lemma counted_loop_settles (S : Type) (iter_of : S -> Q) (limit : Z)
    (body : nat -> S -> res (S * bool)) (s : S) :
  (forall s, exists r, settles (fun fuel => body fuel s) r
                       /\ forall s' b, r = Ok (s', b) -> iter_of s' == iter_of s + 1) ->
  iter_of s == 0 ->
  exists r,
    settles (fun fuel =>
               while_loop fuel (fun s => Qltb (iter_of s) (inject_Z limit))
                 (body fuel) s O) r
    /\ forall s' n', r = Ok (s', n') -> (Z.of_nat n' <= Z.max 0 limit)%Z.
Proof.
  intros Hb H0.
  destruct (@counted_loop_runs S iter_of limit body Hb (Z.to_nat (limit - 0)) 0%Z s O
              H0 eq_refl) as [r [N [[f0 Hf] Hn]]].
  exists r. split.
  - split; [exact N|]. exists f0. intros f Hle. apply Hf; exact Hle.
  - intros s' n' E. specialize (Hn s' n' E). lia.
Qed.

End FuelFacts.

Section MultiplierFacts.
Variable max : Q.
Hypothesis max_positive : 0 < max.

Local Abbreviation tenth := (1 # 10).

Lemma magnitude_bound (lambda : Q) :
  exists N : nat, Qabs lambda <= max * inject_Z (10 ^ Z.of_nat N).
Proof.
  exists (Z.to_nat (Z.abs (Qnum lambda) * Zpos (Qden max))).
  remember (Z.abs (Qnum lambda) * Zpos (Qden max))%Z as e eqn:He.
  assert (E0 : (0 <= e)%Z) by (subst e; nia).
  rewrite Z2Nat.id by exact E0.
  assert (P : (e < 10 ^ e)%Z) by (apply Z.pow_gt_lin_r; lia).
  destruct lambda as [a b]. destruct max as [c d] eqn:Em.
  assert (C : (0 < c)%Z).
  { unfold Qlt in max_positive. simpl in max_positive. lia. }
  unfold Qle, Qabs, Qmult, inject_Z. simpl in *. subst e.
  set (p := (10 ^ (Z.abs a * Z.pos d))%Z) in *.
  rewrite Pos.mul_1_r.
  assert (P0 : (0 < p)%Z) by lia.
  assert (B1 : (1 <= Z.pos b)%Z) by lia.
  assert (M1 : (p <= c * p)%Z) by nia.
  assert (M2 : (c * p <= c * p * Z.pos b)%Z) by nia.
  lia.
Qed.

Lemma scale_loop_runs (N : nat) :
  forall (lambda : Q) (n : nat),
    Qabs lambda <= max * inject_Z (10 ^ Z.of_nat N) ->
    exists k : nat,
      (forall fuel, (k < fuel)%nat ->
         while_loop fuel (fun l => Qltb max (Qabs l))
           (fun l => Ok (l * tenth, false)) lambda n
         = Ok (SimpleMD.scaled k tenth lambda, (n + k)%nat))
      /\ Qabs (SimpleMD.scaled k tenth lambda) <= max
      /\ forall j, (j < k)%nat -> max < Qabs (SimpleMD.scaled j tenth lambda).
Proof.
  induction N as [|N IH]; intros lambda n B.
  - exists O. assert (C : Qltb max (Qabs lambda) = false).
    { apply Qltb_ge. eapply Qle_trans; [exact B|].
      change (inject_Z (10 ^ Z.of_nat 0)) with 1. rewrite Qmult_1_r. apply Qle_refl. }
    split; [|split].
    + intros fuel Hf. destruct fuel as [|fuel]; [lia|]. simpl. rewrite C.
      rewrite Nat.add_0_r. reflexivity.
    + apply Qltb_ge. exact C.
    + intros j Hj. lia.
  - destruct (Qltb max (Qabs lambda)) eqn:C.
    + assert (B1 : Qabs (lambda * tenth) <= max * inject_Z (10 ^ Z.of_nat N)).
      { rewrite Qabs_Qmult.
        assert (T : Qabs tenth == tenth) by reflexivity. rewrite T.
        assert (E : inject_Z (10 ^ Z.of_nat (Datatypes.S N))
                    == 10 * inject_Z (10 ^ Z.of_nat N)).
        { rewrite Nat2Z.inj_succ, Z.pow_succ_r by lia. rewrite inject_Z_mult.
          reflexivity. }
        rewrite E in B.
        apply Qle_trans with (y := (max * (10 * inject_Z (10 ^ Z.of_nat N))) * tenth).
        - apply Qmult_le_compat_r; [exact B|discriminate].
        - apply Qle_lteq. right. field. }
      destruct (IH (lambda * tenth) (Datatypes.S n) B1) as [k [R [Hle Hgt]]].
      exists (Datatypes.S k). split; [|split].
      * intros fuel Hf. destruct fuel as [|fuel]; [lia|]. simpl. rewrite C.
        rewrite R by lia. f_equal. f_equal. lia.
      * exact Hle.
      * intros j Hj. destruct j as [|j]; simpl.
        -- apply Qltb_lt. exact C.
        -- apply Hgt. lia.
    + exists O. split; [|split].
      * intros fuel Hf. destruct fuel as [|fuel]; [lia|]. simpl. rewrite C.
        rewrite Nat.add_0_r. reflexivity.
      * apply Qltb_ge. exact C.
      * intros j Hj. lia.
Qed.

(** [while (std::abs(lambda) > max) lambda *= 0.1] ends, with the multiplier
    scaled as many times as it took and not once more. *)
Lemma scale_multiplier_settles (lambda : Q) :
  exists k : nat,
    settles (fun fuel => SimpleMD.scale_multiplier fuel max tenth lambda)
      (Ok (SimpleMD.scaled k tenth lambda))
    /\ Qabs (SimpleMD.scaled k tenth lambda) <= max
    /\ forall j, (j < k)%nat -> max < Qabs (SimpleMD.scaled j tenth lambda).
Proof.
  destruct (magnitude_bound lambda) as [N B].
  destruct (scale_loop_runs N lambda O B) as [k [R [Hle Hgt]]].
  exists k. split; [|split; assumption].
  split; [discriminate|]. exists (Datatypes.S k). intros fuel Hf.
  unfold SimpleMD.scale_multiplier.
  change (while_loop fuel (fun l : Q => (dabs l >? max)%D)
            (fun l : Q => Ok ((l * tenth)%D, false)) lambda O)
    with (while_loop fuel (fun l => Qltb max (Qabs l))
            (fun l => Ok (l * tenth, false)) lambda O).
  rewrite R by lia. reflexivity.
Qed.

End MultiplierFacts.

Section RattleFacts.
Variable cfg : SimpleMD.Config Q.
Hypothesis max_positive : 0 < SimpleMD.m_rattle_max cfg.

Lemma position_bond_settles (geom : list Q) (is13 : bool) (bond : (nat * nat) * Q)
    (p : SimpleMD.Pos Q) :
  exists r,
    settles (fun fuel => SimpleMD.position_bond cfg fuel geom is13 bond p) r
    /\ forall p', r = Ok p' -> SimpleMD.p_iter p' = SimpleMD.p_iter p.
Proof.
  unfold SimpleMD.position_bond. cbv zeta.
  match goal with
  | |- context [if ?c then _ else Ok p] => destruct c
  end.
  - change (@disinf Q Q_Arith) with (fun _ : Q => false).
    change (@disnan Q Q_Arith) with (fun _ : Q => false).
    cbv beta. rewrite andb_false_r.
    match goal with
    | |- context [SimpleMD.scale_multiplier _ _ _ ?l] =>
        destruct (scale_multiplier_settles max_positive l) as [k [[_ [f0 Hf]] _]]
    end.
    eexists. split.
    + split; [|exists f0; intros fuel Hle].
      2: { change (@lit Q Q_Arith (1 # 10)) with (1 # 10).
           rewrite (Hf fuel Hle). cbn [rbind]. reflexivity. }
      discriminate.
    + intros p' E. injection E as <-. reflexivity.
  - exists (Ok p). split; [apply settles_ret; discriminate|].
    intros p' E. injection E as <-. reflexivity.
Qed.

Lemma velocity_bond_settles (coord : list Q) (is13 : bool) (bond : (nat * nat) * Q)
    (v : SimpleMD.Vel Q) :
  exists r,
    settles (fun fuel => SimpleMD.velocity_bond cfg fuel coord is13 bond v) r
    /\ forall v', r = Ok v' -> SimpleMD.v_iter v' = SimpleMD.v_iter v.
Proof.
  unfold SimpleMD.velocity_bond. cbv zeta.
  match goal with
  | |- context [if ?c then _ else Ok v] => destruct c
  end.
  - match goal with
    | |- context [SimpleMD.scale_multiplier _ _ _ ?l] =>
        destruct (scale_multiplier_settles max_positive l) as [k [[_ [f0 Hf]] _]]
    end.
    eexists. split.
    + split; [|exists f0; intros fuel Hle].
      2: { change (@lit Q Q_Arith (1 # 10)) with (1 # 10).
           rewrite (Hf fuel Hle). cbn [rbind]. reflexivity. }
      discriminate.
    + intros v' E. injection E as <-. reflexivity.
  - exists (Ok v). split; [apply settles_ret; discriminate|].
    intros v' E. injection E as <-. reflexivity.
Qed.

Lemma position_iteration_settles (geom : list Q) (p : SimpleMD.Pos Q) :
  exists r,
    settles (fun fuel => SimpleMD.position_iteration cfg fuel geom p) r
    /\ forall p' b, r = Ok (p', b) -> SimpleMD.p_iter p' == SimpleMD.p_iter p + 1.
Proof.
  unfold SimpleMD.position_iteration. cbv zeta.
  match goal with
  | |- context [for_each _ _ ?p0] =>
      destruct (@for_each_settles _ _
                  (fun fuel => SimpleMD.position_bond cfg fuel geom false)
                  (fun s s' => SimpleMD.p_iter s' = SimpleMD.p_iter s)
                  (fun s => eq_refl)
                  (fun s1 s2 s3 A B => eq_trans B A)
                  (position_bond_settles geom false)
                  (SimpleMD.m_bond_constrained cfg) p0)
        as [r1 [[N1 [f1 H1]] P1]]
  end.
  destruct r1 as [p1| |]; [| |contradiction].
  - destruct (@for_each_settles _ _
                (fun fuel => SimpleMD.position_bond cfg fuel geom true)
                (fun s s' => SimpleMD.p_iter s' = SimpleMD.p_iter s)
                (fun s => eq_refl)
                (fun s1 s2 s3 A B => eq_trans B A)
                (position_bond_settles geom true)
                (SimpleMD.m_bond_13_constrained cfg) p1)
      as [r2 [[N2 [f2 H2]] P2]].
    destruct r2 as [p2| |]; [| |contradiction].
    + eexists. split.
      * split; [|exists (Nat.max f1 f2); intros fuel Hle].
        2: { rewrite H1 by lia. cbn [rbind]. rewrite H2 by lia. cbn [rbind].
             reflexivity. }
        discriminate.
      * intros p' b E. injection E as <- <-. cbn [SimpleMD.p_iter].
        rewrite (P2 p2 eq_refl), (P1 p1 eq_refl). reflexivity.
    + exists Exited. split; [|discriminate].
      split; [discriminate|]. exists (Nat.max f1 f2). intros fuel Hle.
      rewrite H1 by lia. cbn [rbind]. rewrite H2 by lia. reflexivity.
  - exists Exited. split; [|discriminate].
    split; [discriminate|]. exists f1. intros fuel Hle.
    rewrite H1 by lia. reflexivity.
Qed.

Lemma velocity_iteration_settles (coord : list Q) (v : SimpleMD.Vel Q) :
  exists r,
    settles (fun fuel => SimpleMD.velocity_iteration cfg fuel coord v) r
    /\ forall v' b, r = Ok (v', b) -> SimpleMD.v_iter v' == SimpleMD.v_iter v + 1.
Proof.
  unfold SimpleMD.velocity_iteration. cbv zeta.
  match goal with
  | |- context [for_each _ _ ?v0] =>
      destruct (@for_each_settles _ _
                  (fun fuel => SimpleMD.velocity_bond cfg fuel coord false)
                  (fun s s' => SimpleMD.v_iter s' = SimpleMD.v_iter s)
                  (fun s => eq_refl)
                  (fun s1 s2 s3 A B => eq_trans B A)
                  (velocity_bond_settles coord false)
                  (SimpleMD.m_bond_constrained cfg) v0)
        as [r1 [[N1 [f1 H1]] P1]]
  end.
  destruct r1 as [v1| |]; [| |contradiction].
  - destruct (@for_each_settles _ _
                (fun fuel => SimpleMD.velocity_bond cfg fuel coord true)
                (fun s s' => SimpleMD.v_iter s' = SimpleMD.v_iter s)
                (fun s => eq_refl)
                (fun s1 s2 s3 A B => eq_trans B A)
                (velocity_bond_settles coord true)
                (SimpleMD.m_bond_13_constrained cfg) v1)
      as [r2 [[N2 [f2 H2]] P2]].
    destruct r2 as [v2| |]; [| |contradiction].
    + eexists. split.
      * split; [|exists (Nat.max f1 f2); intros fuel Hle].
        2: { rewrite H1 by lia. cbn [rbind]. rewrite H2 by lia. cbn [rbind].
             reflexivity. }
        discriminate.
      * intros v' b E. injection E as <- <-.
        rewrite (P2 v2 eq_refl), (P1 v1 eq_refl). reflexivity.
    + exists Exited. split; [|discriminate].
      split; [discriminate|]. exists (Nat.max f1 f2). intros fuel Hle.
      rewrite H1 by lia. cbn [rbind]. rewrite H2 by lia. reflexivity.
  - exists Exited. split; [|discriminate].
    split; [discriminate|]. exists f1. intros fuel Hle.
    rewrite H1 by lia. reflexivity.
Qed.

Lemma clamp_scalarproduct_cases (scalarproduct : Q) :
  (Qabs scalarproduct < SimpleMD.m_rattle_min cfg -> scalarproduct < 0 ->
   SimpleMD.clamp_scalarproduct cfg scalarproduct == - SimpleMD.m_rattle_min cfg)
  /\ (Qabs scalarproduct < SimpleMD.m_rattle_min cfg -> 0 <= scalarproduct ->
      SimpleMD.clamp_scalarproduct cfg scalarproduct = SimpleMD.m_rattle_min cfg)
  /\ (SimpleMD.m_rattle_min cfg <= Qabs scalarproduct ->
      SimpleMD.clamp_scalarproduct cfg scalarproduct = scalarproduct)
  /\ SimpleMD.m_rattle_min cfg <= Qabs (SimpleMD.clamp_scalarproduct cfg scalarproduct).
Proof.
  unfold SimpleMD.clamp_scalarproduct.
  change (@dabs Q Q_Arith) with Qabs. change (@dltb Q Q_Arith) with Qltb.
  change (@lit Q Q_Arith) with (fun q : Q => q).
  change (@dmul Q Q_Arith) with Qmult. cbv beta.
  destruct (Qltb (Qabs scalarproduct) (SimpleMD.m_rattle_min cfg)) eqn:A.
  - apply Qltb_lt in A. destruct (Qltb scalarproduct 0) eqn:S.
    + apply Qltb_lt in S. split; [|split; [|split]].
      * intros _ _. ring.
      * intros _ Hs. exfalso. apply (Qlt_not_le _ _ S Hs).
      * intros Hm. exfalso. apply (Qlt_not_le _ _ A Hm).
      * assert (E : -1 * SimpleMD.m_rattle_min cfg == - SimpleMD.m_rattle_min cfg)
          by ring.
        rewrite E, Qabs_opp. apply Qle_Qabs.
    + apply Qltb_ge in S. split; [|split; [|split]].
      * intros _ Hs. exfalso. apply (Qlt_not_le _ _ Hs S).
      * intros _ _. reflexivity.
      * intros Hm. exfalso. apply (Qlt_not_le _ _ A Hm).
      * apply Qle_Qabs.
  - apply Qltb_ge in A. split; [|split; [|split]].
    + intros Hm. exfalso. apply (Qlt_not_le _ _ Hm A).
    + intros Hm. exfalso. apply (Qlt_not_le _ _ Hm A).
    + intros _. reflexivity.
    + exact A.
Qed.

(** Over the rationals and with [m_rattle_max] positive: with enough
    fuel the position loop and the velocity loop of [Rattle] come to an end,
    or to [exit(0)], after at most [m_rattle_maxiter] passes; the loop that
    scales a multiplier ends with the multiplier multiplied by 0.1 as often
    as its magnitude was above [m_rattle_max], and then the magnitude is at
    most [m_rattle_max]; the scalar product the position stage divides by
    is the one computed when its magnitude is at least [m_rattle_min], and
    [- m_rattle_min] or [m_rattle_min] by its sign when it is below. *)
Lemma rattle_loops_settle :
  (forall (geom : list Q) (p : SimpleMD.Pos Q),
      SimpleMD.p_iter p == 0 ->
      exists r,
        settles (fun fuel => SimpleMD.position_stage cfg fuel geom p) r
        /\ forall p' n, r = Ok (p', n) ->
                        (Z.of_nat n <= Z.max 0 (SimpleMD.m_rattle_maxiter cfg))%Z)
  /\ (forall (coord : list Q) (v : SimpleMD.Vel Q),
         SimpleMD.v_iter v == 0 ->
         exists r,
           settles (fun fuel => SimpleMD.velocity_stage cfg fuel coord v) r
           /\ forall v' n, r = Ok (v', n) ->
                           (Z.of_nat n <= Z.max 0 (SimpleMD.m_rattle_maxiter cfg))%Z)
  /\ (forall lambda : Q,
         exists k : nat,
           settles (fun fuel =>
                      SimpleMD.scale_multiplier fuel (SimpleMD.m_rattle_max cfg)
                        (1 # 10) lambda)
             (Ok (SimpleMD.scaled k (1 # 10) lambda))
           /\ Qabs (SimpleMD.scaled k (1 # 10) lambda) <= SimpleMD.m_rattle_max cfg
           /\ forall j, (j < k)%nat ->
                        SimpleMD.m_rattle_max cfg
                        < Qabs (SimpleMD.scaled j (1 # 10) lambda))
  /\ (forall scalarproduct : Q,
         (Qabs scalarproduct < SimpleMD.m_rattle_min cfg -> scalarproduct < 0 ->
          SimpleMD.clamp_scalarproduct cfg scalarproduct
          == - SimpleMD.m_rattle_min cfg)
         /\ (Qabs scalarproduct < SimpleMD.m_rattle_min cfg -> 0 <= scalarproduct ->
             SimpleMD.clamp_scalarproduct cfg scalarproduct
             = SimpleMD.m_rattle_min cfg)
         /\ (SimpleMD.m_rattle_min cfg <= Qabs scalarproduct ->
             SimpleMD.clamp_scalarproduct cfg scalarproduct = scalarproduct)
         /\ SimpleMD.m_rattle_min cfg
            <= Qabs (SimpleMD.clamp_scalarproduct cfg scalarproduct)).
Proof.
  split; [|split; [|split]].
  - intros geom p H0. unfold SimpleMD.position_stage.
    exact (@counted_loop_settles _ (@SimpleMD.p_iter Q)
             (SimpleMD.m_rattle_maxiter cfg)
             (fun fuel => SimpleMD.position_iteration cfg fuel geom) p
             (position_iteration_settles geom) H0).
  - intros coord v H0. unfold SimpleMD.velocity_stage.
    exact (@counted_loop_settles _ (@SimpleMD.v_iter Q)
             (SimpleMD.m_rattle_maxiter cfg)
             (fun fuel => SimpleMD.velocity_iteration cfg fuel coord) v
             (velocity_iteration_settles coord) H0).
  - intros lambda. apply scale_multiplier_settles. exact max_positive.
  - intros scalarproduct. apply clamp_scalarproduct_cases.
Qed.

End RattleFacts.

(* ===================================================================== *)
(** * Further properties of the code                                      *)
(* ===================================================================== *)

(** ** The comparison threads of the scanner *)

Section ThreadFacts.
Variable G : Type.
Variable cfg : ConfScan.Settings Q.

Local Abbreviation Thread := (ConfScan.Thread Q G).
Local Abbreviation Molecule := (ConfScan.Molecule Q G).

(** One pass of the loop over the cached rules. *)
Lemma try_rules_step (drv : ConfScan.Driver Q G) (th : Thread) (target : Molecule)
    (r : ConfScan.Rule) (rules : list ConfScan.Rule) :
  ConfScan.try_rules drv cfg th target (r :: rules)
  = if ConfScan.rule_applies cfg drv th target r
    then Some (r, ConfScan.Rules2RMSD drv (ConfScan.t_reference th) target r)
    else ConfScan.try_rules drv cfg th target rules.
Proof.
  simpl. unfold ConfScan.rule_applies, ConfScan.topo_ok.
  destruct (Z.of_nat (length r) =? ConfScan.AtomCount (ConfScan.t_reference th))%Z;
    [|reflexivity].
  destruct (Z.of_nat (length r) =? 0)%Z; reflexivity.
Qed.

(** What the loop over the cached rules returns: a rule of the thread that
    passes the test, with its RMSD, behind rules that do not pass it. *)
Lemma try_rules_first (drv : ConfScan.Driver Q G) (th : Thread) (target : Molecule)
    (rules : list ConfScan.Rule) :
  match ConfScan.try_rules drv cfg th target rules with
  | Some (r, rmsd) =>
      exists before after,
        rules = before ++ r :: after
        /\ Forall (fun r' => ConfScan.rule_applies cfg drv th target r' = false) before
        /\ ConfScan.rule_applies cfg drv th target r = true
        /\ rmsd = ConfScan.Rules2RMSD drv (ConfScan.t_reference th) target r
  | None =>
      Forall (fun r' => ConfScan.rule_applies cfg drv th target r' = false) rules
  end.
Proof.
  induction rules as [|r rules IH]; [constructor|].
  rewrite try_rules_step.
  destruct (ConfScan.rule_applies cfg drv th target r) eqn:T.
  - exists [], rules. repeat split; [constructor|exact T].
  - destruct (ConfScan.try_rules drv cfg th target rules) as [[r0 rmsd]|].
    + destruct IH as (before & after & E & Fb & Hr & Hm).
      exists (r :: before), after. rewrite E. repeat split; try assumption.
      constructor; [exact T|exact Fb].
    + constructor; [exact T|exact IH].
Qed.

(** X1.  When [ConfScanThread::execute] reports a duplicate
    ([KeepMolecule()] false), the RMSD it reports is not above the threshold
    of the thread, whichever of the three tests found it. *)
Theorem duplicate_verdict_is_within_threshold (drv : ConfScan.Driver Q G)
    (target : Molecule) (th : Thread) :
  ConfScan.t_keep_molecule (ConfScan.execute drv cfg target th) = false ->
  ConfScan.t_rmsd (ConfScan.execute drv cfg target th)
  <= ConfScan.t_rmsd_threshold th.
Proof.
  unfold ConfScan.execute.
  change (@dltb Q Q_Arith) with Qltb. change (@dleb Q Q_Arith) with Qle_bool.
  destruct (Qltb (ConfScan.BestFitRMSD drv (ConfScan.t_reference th) target)
              (ConfScan.t_rmsd_threshold th)) eqn:B.
  - intros _. cbn. apply Qlt_le_weak, Qltb_lt. exact B.
  - pose proof (try_rules_first drv th target (ConfScan.t_reorder_rules th)) as T.
    destruct (ConfScan.try_rules drv cfg th target (ConfScan.t_reorder_rules th))
      as [[r rmsd]|].
    + intros _. cbn. destruct T as (before & after & _ & _ & Hr & ->).
      unfold ConfScan.rule_applies in Hr.
      apply andb_prop in Hr as [Hr _]. apply andb_prop in Hr as [_ Hr].
      apply Qlt_le_weak, Qltb_lt. exact Hr.
    + destruct (ConfScan.t_reuse_only th); [cbn; discriminate|].
      match goal with
      | |- context [if ?b then _ else _] => destruct b eqn:R
      end; [|cbn; discriminate].
      intros _. cbn. apply andb_prop in R as [R _].
      apply Qle_bool_iff. exact R.
Qed.

(** X2.  A thread made for the reuse pass never looks at what the
    permutation search of the driver would return: with [reuse_only] set,
    the result of [execute] is the same for every search. *)
Theorem reuse_only_never_searches (drv : ConfScan.Driver Q G)
    (rmsd : Molecule -> Molecule -> Q)
    (rules : Molecule -> Molecule -> ConfScan.Rule)
    (topo : Molecule -> Molecule -> Z) (target : Molecule) (th : Thread) :
  ConfScan.t_reuse_only th = true ->
  ConfScan.execute (ConfScan.replace_search drv rmsd rules topo) cfg target th
  = ConfScan.execute drv cfg target th.
Proof.
  intros R. unfold ConfScan.execute. cbn [ConfScan.BestFitRMSD ConfScan.replace_search].
  assert (T : forall l,
             ConfScan.try_rules (ConfScan.replace_search drv rmsd rules topo)
               cfg th target l
             = ConfScan.try_rules drv cfg th target l).
  { induction l as [|r l IH]; simpl; [reflexivity|]. rewrite IH. reflexivity. }
  rewrite T, R. reflexivity.
Qed.

(** X3.  A reuse hit of [ConfScanThread::execute] returns one of the rules
    the thread was given: it has as many entries as the reference has atoms,
    at least one, and it is the first rule in the order of the list that
    brings the RMSD below the threshold with an allowed topology
    difference: the difference the driver reports for that rule is at most
    [m_MaxHTopoDiff], or [m_MaxHTopoDiff] is -1. *)
Theorem reuse_hit_is_first_fitting_rule (drv : ConfScan.Driver Q G)
    (target : Molecule) (th : Thread) :
  ConfScan.t_reused_worked (ConfScan.execute drv cfg target th) = true ->
  let r := ConfScan.t_reorder_rule (ConfScan.execute drv cfg target th) in
  exists before after,
    ConfScan.t_reorder_rules th = before ++ r :: after
    /\ Forall (fun r' => ConfScan.rule_applies cfg drv th target r' = false) before
    /\ ConfScan.rule_applies cfg drv th target r = true
    /\ Z.of_nat (length r) = ConfScan.AtomCount (ConfScan.t_reference th)
    /\ r <> []
    /\ ConfScan.t_rmsd (ConfScan.execute drv cfg target th)
       = ConfScan.Rules2RMSD drv (ConfScan.t_reference th) target r
    /\ ConfScan.t_rmsd (ConfScan.execute drv cfg target th)
       < ConfScan.t_rmsd_threshold th
    /\ (ConfScan.m_MaxHTopoDiff cfg = (-1)%Z
        \/ (ConfScan.HBondTopoDifference_rules drv (ConfScan.t_reference th)
              target r
            <= ConfScan.m_MaxHTopoDiff cfg)%Z).
Proof.
  unfold ConfScan.execute.
  destruct (ConfScan.BestFitRMSD drv (ConfScan.t_reference th) target
            <? ConfScan.t_rmsd_threshold th)%D; [cbn; discriminate|].
  pose proof (try_rules_first drv th target (ConfScan.t_reorder_rules th)) as T.
  destruct (ConfScan.try_rules drv cfg th target (ConfScan.t_reorder_rules th))
    as [[r rmsd]|].
  - intros _. cbn. destruct T as (before & after & E & Fb & Hr & ->).
    exists before, after. pose proof Hr as Happ.
    unfold ConfScan.rule_applies in Hr.
    apply andb_prop in Hr as [Hr Htopo]. apply andb_prop in Hr as [Hr Hlt].
    apply andb_prop in Hr as [Hsize Hne].
    apply Z.eqb_eq in Hsize. apply negb_true_iff, Z.eqb_neq in Hne.
    unfold ConfScan.topo_ok in Htopo. apply orb_prop in Htopo.
    split; [exact E|]. split; [exact Fb|]. split; [exact Happ|].
    split; [exact Hsize|]. split; [intros ->; apply Hne; reflexivity|].
    split; [reflexivity|]. split; [apply Qltb_lt; exact Hlt|].
    destruct Htopo as [Ht|Ht];
      [left; apply Z.eqb_eq; exact Ht|right; apply Z.leb_le; exact Ht].
  - destruct (ConfScan.t_reuse_only th); [cbn; discriminate|].
    match goal with
    | |- context [if ?b then _ else _] => destruct b
    end; cbn; discriminate.
Qed.

End ThreadFacts.


(** [mol_B] against the thread of [mol_A], with a driver that finds the two
    0 apart as they stand: a duplicate at RMSD 0, the threshold being 1/10. *)
Lemma duplicate_verdict_is_within_threshold_witness :
  let th' := ConfScan.execute (Inputs.constant_driver (D := Q) 0 [])
               Inputs.scan_settings Inputs.mol_B (Inputs.thread_A true) in
  ConfScan.t_keep_molecule th' = false
  /\ ConfScan.t_rmsd th' <= ConfScan.t_rmsd_threshold (Inputs.thread_A (D := Q) true).
Proof.
  split; [reflexivity|].
  apply (@duplicate_verdict_is_within_threshold unit Inputs.scan_settings
           (Inputs.constant_driver 0 []) Inputs.mol_B (Inputs.thread_A true)).
  reflexivity.
Defined.

(** The reuse thread of [mol_A] and a search that would report the pair 0
    apart. *)
Lemma reuse_only_never_searches_witness :
  ConfScan.execute
    (ConfScan.replace_search (Inputs.constant_driver (D := Q) 5 [])
       (fun _ _ => 0) (fun _ _ => [1%Z; 0%Z; 2%Z]) (fun _ _ => 0%Z))
    Inputs.scan_settings Inputs.mol_B Inputs.reuse_thread
  = ConfScan.execute (Inputs.constant_driver (D := Q) 5 []) Inputs.scan_settings
      Inputs.mol_B Inputs.reuse_thread.
Proof.
  apply (@reuse_only_never_searches unit Inputs.scan_settings
           (Inputs.constant_driver 5 []) (fun _ _ => 0)
           (fun _ _ => [1%Z; 0%Z; 2%Z]) (fun _ _ => 0%Z)
           Inputs.mol_B Inputs.reuse_thread).
  reflexivity.
Defined.

(** The cache holds a rule of the wrong size, a rule that brings the RMSD to
    0 but changes five hydrogen bonds where one is allowed, and a rule that
    changes none: the hit is the third. *)
Lemma reuse_hit_is_first_fitting_rule_witness :
  let th := Inputs.thread_with_three_rules (D := Q) in
  let th' := ConfScan.execute Inputs.topo_driver Inputs.topo_settings
               Inputs.mol_B th in
  ConfScan.t_reorder_rule th' = [1%Z; 0%Z; 2%Z]
  /\ exists before after,
       ConfScan.t_reorder_rules th = before ++ ConfScan.t_reorder_rule th' :: after
       /\ Forall (fun r' => ConfScan.rule_applies Inputs.topo_settings
                              Inputs.topo_driver th Inputs.mol_B r' = false) before
       /\ ConfScan.rule_applies Inputs.topo_settings Inputs.topo_driver th
            Inputs.mol_B (ConfScan.t_reorder_rule th') = true
       /\ Z.of_nat (length (ConfScan.t_reorder_rule th'))
          = ConfScan.AtomCount (ConfScan.t_reference th)
       /\ ConfScan.t_reorder_rule th' <> []
       /\ ConfScan.t_rmsd th'
          = ConfScan.Rules2RMSD Inputs.topo_driver (ConfScan.t_reference th)
              Inputs.mol_B (ConfScan.t_reorder_rule th')
       /\ ConfScan.t_rmsd th' < ConfScan.t_rmsd_threshold th
       /\ (ConfScan.m_MaxHTopoDiff (Inputs.topo_settings (D := Q)) = (-1)%Z
           \/ (ConfScan.HBondTopoDifference_rules Inputs.topo_driver
                 (ConfScan.t_reference th) Inputs.mol_B (ConfScan.t_reorder_rule th')
               <= ConfScan.m_MaxHTopoDiff (Inputs.topo_settings (D := Q)))%Z).
Proof.
  split; [reflexivity|].
  exact (@reuse_hit_is_first_fitting_rule unit Inputs.topo_settings
           Inputs.topo_driver Inputs.mol_B Inputs.thread_with_three_rules eq_refl).
Defined.


(** ** Every candidate of a pass gets one verdict *)

Section VerdictFacts.
Context {D : Type} `{Arith D}.
Variable G : Type.
Variable drv : ConfScan.Driver D G.
Variable third : D.
Variable cfg : ConfScan.Settings D.
Variable rank_reached : Z -> nat -> bool.
Variable CheckStop : ConfScan.Ptr -> nat -> bool.

Local Abbreviation Scan := (ConfScan.Scan D G).
Local Abbreviation same_verdicts := (@ConfScan.same_verdicts D G).
Local Abbreviation accepted_step := (@ConfScan.accepted_step D G).
Local Abbreviation rejected_step := (@ConfScan.rejected_step D G).

Ltac split_cases :=
  repeat match goal with
         | |- context [if ?b then _ else _] => destruct b
         end.

Lemma same_verdicts_refl (s : Scan) : same_verdicts s s.
Proof. repeat split. Qed.

Lemma same_verdicts_trans (s1 s2 s3 : Scan) :
  same_verdicts s1 s2 -> same_verdicts s2 s3 -> same_verdicts s1 s3.
Proof.
  intros (A1 & A2 & A3 & A4 & A5) (B1 & B2 & B3 & B4 & B5).
  repeat split; etransitivity; eassumption.
Qed.

Lemma select_threads_verdicts (index : ConfScan.Ptr) (dLE dLI dLH : D)
    (todo : list (ConfScan.Thread D G)) (t : nat) (c : ConfScan.Cand D G) :
  same_verdicts (ConfScan.c_scan c)
    (ConfScan.c_scan
       (fst (fst (ConfScan.select_threads third cfg CheckStop index
                    dLE dLI dLH t todo c)))).
Proof.
  revert t c.
  induction todo as [|th todo IH]; intros t c; cbn [ConfScan.select_threads];
    [apply same_verdicts_refl|].
  destruct (CheckStop index t); [apply same_verdicts_refl|].
  assert (Hp : same_verdicts (ConfScan.c_scan c)
                 (ConfScan.c_scan
                    (fst (ConfScan.select_pair third cfg index dLE dLI dLH th c)))).
  { unfold ConfScan.select_pair. split_cases; repeat split. }
  destruct (snd (ConfScan.select_pair third cfg index dLE dLI dLH th c)).
  - exact Hp.
  - cbn [fst]. eapply same_verdicts_trans; [exact Hp|apply IH].
Qed.

Lemma read_threads_verdicts (index : ConfScan.Ptr)
    (todo : list (ConfScan.Thread D G)) (s : Scan)
    (done : list (ConfScan.Thread D G)) (rules : list ConfScan.Rule)
    (keep : bool) :
  same_verdicts s
    (fst (fst (fst (ConfScan.read_threads drv cfg index todo (s, done, rules, keep))))).
Proof.
  revert s done rules keep.
  induction todo as [|th todo IH]; intros s done rules keep; simpl;
    [apply same_verdicts_refl|].
  unfold ConfScan.AddRules.
  split_cases; (eapply same_verdicts_trans; [|apply IH]); repeat split.
Qed.

(** The body of the loop of [Reorder]: the candidate is accepted, or
    rejected, or the body leaves the loop without a verdict. *)
Lemma reorder_candidate_verdict (dLE dLI dLH : D) (reuse_only : bool)
    (index : ConfScan.Ptr) (p : ConfScan.Pass D G) :
  let r := ConfScan.reorder_candidate drv third cfg rank_reached CheckStop
             dLE dLI dLH reuse_only index p in
  let s := ConfScan.scan p in
  let s' := ConfScan.scan (fst r) in
  accepted_step index s s' \/ rejected_step index s s'
  \/ (snd r <> ConfScan.Next
      /\ ConfScan.m_stored_structures s' = ConfScan.m_stored_structures s
      /\ ConfScan.m_rejected_structures s' = ConfScan.m_rejected_structures s
      /\ ConfScan.m_accepted s' = ConfScan.m_accepted s
      /\ ConfScan.m_rejected s' = ConfScan.m_rejected s).
Proof.
  cbv zeta. unfold ConfScan.reorder_candidate, ConfScan.accepted_step,
    ConfScan.rejected_step.
  destruct (Nat.eqb _ 0).
  { left. cbn. repeat split. }
  match goal with |- context [if ?b then _ else _] => destruct b end.
  { right. right. cbn. repeat split. discriminate. }
  pose proof (select_threads_verdicts index dLE dLI dLH (ConfScan.threads p) 0
                {| ConfScan.c_scan := ConfScan.scan p; ConfScan.c_done := [];
                   ConfScan.c_reorder := false;
                   ConfScan.c_keep_molecule := true |}) as S.
  destruct (ConfScan.select_threads _ _ _ _ _ _ _ _ _ _) as [[c rest] flow].
  cbn [fst ConfScan.c_scan] in S. destruct S as (S1 & S2 & S3 & S4 & S5).
  assert (R : forall (ths : list (ConfScan.Thread D G)) (rules : list ConfScan.Rule),
             let '(s, ths', rules', keep_molecule) :=
               ConfScan.read_threads drv cfg index ths
                 (ConfScan.c_scan c, [], rules, ConfScan.c_keep_molecule c) in
             same_verdicts (ConfScan.scan p) s).
  { intros ths rules.
    pose proof (read_threads_verdicts index ths (ConfScan.c_scan c) [] rules
                  (ConfScan.c_keep_molecule c)) as T.
    destruct (ConfScan.read_threads _ _ _ _ _) as [[[s2 ths2] r2] k2].
    cbn [fst] in T. eapply same_verdicts_trans; [|exact T]. repeat split; assumption. }
  assert (Verdict : forall (s2 : Scan) (k2 : bool),
             same_verdicts (ConfScan.scan p) s2 ->
             let s' := if k2 then ConfScan.AcceptMolecule index s2
                       else ConfScan.RejectMolecule index s2 in
             (ConfScan.m_stored_structures s'
              = ConfScan.m_stored_structures (ConfScan.scan p) ++ [index]
              /\ ConfScan.m_rejected_structures s'
                 = ConfScan.m_rejected_structures (ConfScan.scan p)
              /\ ConfScan.m_accepted s' = (ConfScan.m_accepted (ConfScan.scan p) + 1)%Z
              /\ ConfScan.m_rejected s' = ConfScan.m_rejected (ConfScan.scan p))
             \/ (ConfScan.m_stored_structures s'
                 = ConfScan.m_stored_structures (ConfScan.scan p)
                 /\ ConfScan.m_rejected_structures s'
                    = ConfScan.m_rejected_structures (ConfScan.scan p) ++ [index]
                 /\ ConfScan.m_accepted s' = ConfScan.m_accepted (ConfScan.scan p)
                 /\ ConfScan.m_rejected s'
                    = (ConfScan.m_rejected (ConfScan.scan p) + 1)%Z)).
  { intros s2 k2 (V1 & V2 & _ & V4 & V5). destruct k2; cbn.
    - left. rewrite V1, V2, V4, V5. repeat split.
    - right. rewrite V1, V2, V4, V5. repeat split. }
  assert (Skipped : same_verdicts (ConfScan.scan p)
                      (ConfScan.set_m_skiped
                         (ConfScan.m_skiped (ConfScan.c_scan c)
                          + Z.of_nat (length (ConfScan.c_done c ++ rest)))%Z
                         (ConfScan.c_scan c))).
  { repeat split; assumption. }
  destruct flow.
  - destruct (ConfScan.c_reorder c && ConfScan.c_keep_molecule c).
    + match goal with
      | |- context [ConfScan.read_threads drv cfg index ?ths (_, _, ?rules, _)] =>
          specialize (R ths rules);
          destruct (ConfScan.read_threads drv cfg index ths _) as [[[s2 ths2] r2] k2]
      end.
      destruct (Verdict s2 k2 R) as [V|V]; [left|right; left]; destruct k2; exact V.
    + destruct (Verdict _ (ConfScan.c_keep_molecule c) Skipped) as [V|V];
        [left|right; left]; destruct (ConfScan.c_keep_molecule c); exact V.
  - destruct (ConfScan.c_reorder c && ConfScan.c_keep_molecule c).
    + match goal with
      | |- context [ConfScan.read_threads drv cfg index ?ths (_, _, ?rules, _)] =>
          specialize (R ths rules);
          destruct (ConfScan.read_threads drv cfg index ths _) as [[[s2 ths2] r2] k2]
      end.
      destruct (Verdict s2 k2 R) as [V|V]; [left|right; left]; destruct k2; exact V.
    + destruct (Verdict _ (ConfScan.c_keep_molecule c) Skipped) as [V|V];
        [left|right; left]; destruct (ConfScan.c_keep_molecule c); exact V.
  - right. right. cbn. repeat split; try assumption. discriminate.
Qed.

Lemma reorder_loop_verdicts (dLE dLI dLH : D) (reuse_only : bool)
    (cached : list ConfScan.Ptr) (p : ConfScan.Pass D G) :
  let s := ConfScan.scan p in
  let s' := ConfScan.scan
              (ConfScan.reorder_loop drv third cfg rank_reached CheckStop
                 dLE dLI dLH reuse_only cached p) in
  exists (k : nat) (A R : list ConfScan.Ptr),
    (k <= length cached)%nat
    /\ ConfScan.m_stored_structures s' = ConfScan.m_stored_structures s ++ A
    /\ ConfScan.m_rejected_structures s' = ConfScan.m_rejected_structures s ++ R
    /\ Permutation (A ++ R) (firstn k cached)
    /\ ConfScan.m_accepted s' = (ConfScan.m_accepted s + Z.of_nat (length A))%Z
    /\ ConfScan.m_rejected s' = (ConfScan.m_rejected s + Z.of_nat (length R))%Z.
Proof.
  cbv zeta. revert p. induction cached as [|index cached IH]; intros p;
    cbn [ConfScan.reorder_loop].
  - exists O, [], []. rewrite !app_nil_r, !Z.add_0_r. repeat split; constructor.
  - pose proof (reorder_candidate_verdict dLE dLI dLH reuse_only index p) as V.
    cbv zeta in V.
    set (r := ConfScan.reorder_candidate drv third cfg rank_reached CheckStop
                dLE dLI dLH reuse_only index p) in *.
    assert (One : forall A R : list ConfScan.Ptr,
               Permutation (A ++ R) [index] ->
               ConfScan.m_stored_structures (ConfScan.scan (fst r))
               = ConfScan.m_stored_structures (ConfScan.scan p) ++ A ->
               ConfScan.m_rejected_structures (ConfScan.scan (fst r))
               = ConfScan.m_rejected_structures (ConfScan.scan p) ++ R ->
               ConfScan.m_accepted (ConfScan.scan (fst r))
               = (ConfScan.m_accepted (ConfScan.scan p) + Z.of_nat (length A))%Z ->
               ConfScan.m_rejected (ConfScan.scan (fst r))
               = (ConfScan.m_rejected (ConfScan.scan p) + Z.of_nat (length R))%Z ->
               exists (k : nat) (A' R' : list ConfScan.Ptr),
                 (k <= length (index :: cached))%nat
                 /\ ConfScan.m_stored_structures
                      (ConfScan.scan
                         match snd r with
                         | ConfScan.Next =>
                             ConfScan.reorder_loop drv third cfg rank_reached
                               CheckStop dLE dLI dLH reuse_only cached (fst r)
                         | _ => fst r
                         end)
                    = ConfScan.m_stored_structures (ConfScan.scan p) ++ A'
                 /\ ConfScan.m_rejected_structures
                      (ConfScan.scan
                         match snd r with
                         | ConfScan.Next =>
                             ConfScan.reorder_loop drv third cfg rank_reached
                               CheckStop dLE dLI dLH reuse_only cached (fst r)
                         | _ => fst r
                         end)
                    = ConfScan.m_rejected_structures (ConfScan.scan p) ++ R'
                 /\ Permutation (A' ++ R') (firstn k (index :: cached))
                 /\ ConfScan.m_accepted
                      (ConfScan.scan
                         match snd r with
                         | ConfScan.Next =>
                             ConfScan.reorder_loop drv third cfg rank_reached
                               CheckStop dLE dLI dLH reuse_only cached (fst r)
                         | _ => fst r
                         end)
                    = (ConfScan.m_accepted (ConfScan.scan p) + Z.of_nat (length A'))%Z
                 /\ ConfScan.m_rejected
                      (ConfScan.scan
                         match snd r with
                         | ConfScan.Next =>
                             ConfScan.reorder_loop drv third cfg rank_reached
                               CheckStop dLE dLI dLH reuse_only cached (fst r)
                         | _ => fst r
                         end)
                    = (ConfScan.m_rejected (ConfScan.scan p) + Z.of_nat (length R'))%Z).
    { intros A R P E1 E2 E3 E4.
      assert (Stop : exists (k : nat) (A' R' : list ConfScan.Ptr),
                 (k <= length (index :: cached))%nat
                 /\ ConfScan.m_stored_structures (ConfScan.scan (fst r))
                    = ConfScan.m_stored_structures (ConfScan.scan p) ++ A'
                 /\ ConfScan.m_rejected_structures (ConfScan.scan (fst r))
                    = ConfScan.m_rejected_structures (ConfScan.scan p) ++ R'
                 /\ Permutation (A' ++ R') (firstn k (index :: cached))
                 /\ ConfScan.m_accepted (ConfScan.scan (fst r))
                    = (ConfScan.m_accepted (ConfScan.scan p) + Z.of_nat (length A'))%Z
                 /\ ConfScan.m_rejected (ConfScan.scan (fst r))
                    = (ConfScan.m_rejected (ConfScan.scan p) + Z.of_nat (length R'))%Z).
      { exists 1%nat, A, R. cbn [firstn length]. repeat split; try assumption. lia. }
      destruct (snd r); [|exact Stop|exact Stop].
      destruct (IH (fst r)) as (k & A' & R' & Hk & I1 & I2 & IP & I3 & I4).
      exists (Datatypes.S k), (A ++ A'), (R ++ R').
      rewrite I1, I2, I3, I4, E1, E2, E3, E4, !length_app, !Nat2Z.inj_add,
        <- !app_assoc.
      cbn [firstn length]. repeat split; try lia.
      apply Permutation_trans with (l' := (A ++ R) ++ (A' ++ R')).
      - rewrite <- !app_assoc. apply Permutation_app_head.
        rewrite !app_assoc. apply Permutation_app_tail. apply Permutation_app_comm.
      - change (index :: firstn k cached) with ([index] ++ firstn k cached).
        apply Permutation_app; assumption. }
    destruct V as [V|[V|V]].
    + destruct V as (V1 & V2 & V3 & V4).
      apply (One [index] []); cbn [length app Z.of_nat];
        rewrite ?app_nil_r, ?Z.add_0_r; try assumption. constructor. constructor.
    + destruct V as (V1 & V2 & V3 & V4).
      apply (One [] [index]); cbn [length app Z.of_nat];
        rewrite ?app_nil_r, ?Z.add_0_r; try assumption. constructor. constructor.
    + destruct V as (Vn & V1 & V2 & V3 & V4).
      exists O, [], []. cbn [firstn length app Z.of_nat].
      rewrite !app_nil_r, !Z.add_0_r.
      destruct (snd r); [contradiction| |]; repeat split; try assumption;
        try lia; constructor.
Qed.

(** X4.  A pass of [Reorder] gives every candidate it gets to one verdict:
    the structures it accepts and the structures it adds to the rejected
    ones are, together, the first [k] candidates of the pass, each once;
    the counters [m_accepted] and [m_rejected] are the lengths of the two
    lists.  ([k] is below the number of candidates when the energy window,
    the rank limit or the stop file ends the pass.) *)
Theorem reorder_pass_partitions_its_candidates (dLE dLI dLH : D)
    (reuse_only reset : bool) (s : Scan) :
  let s' := ConfScan.Reorder drv third cfg rank_reached CheckStop
              dLE dLI dLH reuse_only reset s in
  let cached := if reset then ConfScan.m_all_structures s
                else ConfScan.m_stored_structures s in
  exists (k : nat) (R : list ConfScan.Ptr),
    (k <= length cached)%nat
    /\ ConfScan.m_rejected_structures s' = ConfScan.m_rejected_structures s ++ R
    /\ Permutation (ConfScan.m_stored_structures s' ++ R) (firstn k cached)
    /\ ConfScan.m_accepted s' = Z.of_nat (length (ConfScan.m_stored_structures s'))
    /\ ConfScan.m_rejected s' = Z.of_nat (length R).
Proof.
  cbv zeta. unfold ConfScan.Reorder.
  destruct (reorder_loop_verdicts dLE dLI dLH reuse_only
              (fst (ConfScan.reorder_prologue cfg reset s))
              {| ConfScan.scan := snd (ConfScan.reorder_prologue cfg reset s);
                 ConfScan.threads := []; ConfScan.rules := [] |})
    as (k & A & R & Hk & L1 & L2 & LP & L3 & L4).
  cbn [ConfScan.scan] in L1, L2, L3, L4.
  assert (P : fst (ConfScan.reorder_prologue cfg reset s)
              = (if reset then ConfScan.m_all_structures s
                 else ConfScan.m_stored_structures s)
              /\ ConfScan.m_stored_structures (snd (ConfScan.reorder_prologue cfg reset s))
                 = []
              /\ ConfScan.m_rejected_structures
                   (snd (ConfScan.reorder_prologue cfg reset s))
                 = ConfScan.m_rejected_structures s
              /\ ConfScan.m_accepted (snd (ConfScan.reorder_prologue cfg reset s)) = 0%Z
              /\ ConfScan.m_rejected (snd (ConfScan.reorder_prologue cfg reset s)) = 0%Z).
  { unfold ConfScan.reorder_prologue. cbn [fst snd]. split_cases; cbn; repeat split. }
  destruct P as (P1 & P2 & P3 & P4 & P5).
  rewrite P1 in *. rewrite P2 in L1. rewrite P3 in L2. rewrite P4 in L3.
  rewrite P5 in L4. cbn [app] in L1.
  exists k, R. rewrite L1, L2, L3, L4. repeat split; try assumption.
Qed.

End VerdictFacts.


(** ** The initial pass *)

Section CheckFacts.
Context {D : Type} `{Arith D}.
Variable G : Type.
Variable drv : ConfScan.Driver D G.
Variable third : D.
Variable cfg : ConfScan.Settings D.

Local Abbreviation Scan := (ConfScan.Scan D G).
Local Abbreviation Threads := (list (ConfScan.Molecule D G * D)).

Ltac conjuncts := repeat match goal with |- _ /\ _ => split end.

Local Abbreviation filed := (@ConfScan.filed D G).
Local Abbreviation calibrating := (@ConfScan.calibrating D G).

Lemma check_candidate_files (index : ConfScan.Ptr) (a : Scan * Threads) :
  let s' := fst (ConfScan.check_candidate drv third cfg index a) in
  filed [] [] [] (fst a) s'
  \/ filed [index] [index] [] (fst a) s'
  \/ filed [index] [] [index] (fst a) s'.
Proof.
  cbv zeta. unfold ConfScan.check_candidate, ConfScan.filed.
  destruct (negb _).
  { left. cbn. rewrite !app_nil_r. conjuncts; rewrite ?app_nil_r; first [reflexivity | lia]. }
  destruct (_ && _).
  { left. cbn. rewrite !app_nil_r. conjuncts; rewrite ?app_nil_r; first [reflexivity | lia]. }
  destruct (Z.eqb _ 1).
  { left. cbn. rewrite !app_nil_r. conjuncts; rewrite ?app_nil_r; first [reflexivity | lia]. }
  destruct (Nat.eqb _ 0).
  { right. left. cbn. conjuncts; rewrite ?app_nil_r; first [reflexivity | lia]. }
  match goal with
  | |- context [ConfScan.gather_results ?c ?s ?m ?r ?g] =>
      generalize (ConfScan.gather_results c s m r g)
  end.
  intros g. destruct (ConfScan.g_keep_molecule g); cbn.
  - right. left. destruct (negb (ConfScan.m_rmsd_set (fst a))); cbn;
      conjuncts; rewrite ?app_nil_r; first [reflexivity | lia].
  - right. right. destruct (negb (ConfScan.m_rmsd_set (fst a))); cbn;
      conjuncts; rewrite ?app_nil_r; first [reflexivity | lia].
Qed.

Lemma check_loop_files (entries : list (D * ConfScan.Ptr)) (a : Scan * Threads) :
  let s' := fst (ConfScan.check_loop drv third cfg entries a) in
  exists L A R : list ConfScan.Ptr,
    filed L A R (fst a) s'
    /\ ConfScan.subseq L (map snd entries)
    /\ ConfScan.subseq A L /\ ConfScan.subseq R L
    /\ Permutation L (A ++ R).
Proof.
  cbv zeta. unfold ConfScan.check_loop. revert a.
  induction entries as [|e entries IH]; intros a; cbn [fold_left map].
  - exists [], [], []. unfold ConfScan.filed. cbn. rewrite !app_nil_r.
    conjuncts; first [reflexivity | lia | constructor].
  - destruct (IH (ConfScan.check_candidate drv third cfg (snd e) a))
      as (L & A & R & (F1 & F2 & F3 & F4 & F5) & SL & SA & SR & P).
    destruct (check_candidate_files (snd e) a) as [V|[V|V]];
      destruct V as (V1 & V2 & V3 & V4 & V5).
    + exists L, A, R. unfold ConfScan.filed.
      rewrite V1 in F1. rewrite V2 in F2. rewrite V3 in F3. rewrite V4 in F4.
      rewrite F1, F2, F3, F4, !app_nil_r. cbn [length Z.of_nat] in *.
      conjuncts; first [reflexivity | assumption | lia | idtac].
      apply ConfScan.subseq_skip. exact SL.
    + exists (snd e :: L), (snd e :: A), R. unfold ConfScan.filed.
      rewrite V1 in F1. rewrite V2 in F2. rewrite V3 in F3. rewrite V4 in F4.
      rewrite F1, F2, F3, F4, <- !app_assoc, ?app_nil_r.
      cbn [length app] in *. rewrite Nat2Z.inj_succ.
      conjuncts; first [reflexivity | assumption | lia | idtac].
      * apply ConfScan.subseq_keep. exact SL.
      * apply ConfScan.subseq_keep. exact SA.
      * apply ConfScan.subseq_skip. exact SR.
      * apply perm_skip. exact P.
    + exists (snd e :: L), A, (snd e :: R). unfold ConfScan.filed.
      rewrite V1 in F1. rewrite V2 in F2. rewrite V3 in F3. rewrite V4 in F4.
      rewrite F1, F2, F3, F4, <- !app_assoc, ?app_nil_r.
      cbn [length app] in *. rewrite Nat2Z.inj_succ.
      conjuncts; first [reflexivity | assumption | lia | idtac].
      * apply ConfScan.subseq_keep. exact SL.
      * apply ConfScan.subseq_skip. exact SA.
      * apply ConfScan.subseq_keep. exact SR.
      * apply Permutation_cons_app. exact P.
Qed.

(** X5.  The initial pass files every candidate it compares exactly once:
    what [CheckOnly] appends to [m_all_structures] is a selection of the
    energy-ordered candidates, in their order, and each of these is appended
    either to the accepted or to the rejected structures, in the same order.
    [m_accepted] counts the accepted ones; [m_rejected] counts the rejected
    ones and, in addition, the molecules that fail [Check], which reach none
    of the lists. *)
Theorem check_only_files_each_compared_candidate_once (s : Scan) :
  let s' := ConfScan.CheckOnly drv third cfg s in
  exists L A R : list ConfScan.Ptr,
    ConfScan.m_all_structures s' = ConfScan.m_all_structures s ++ L
    /\ ConfScan.m_stored_structures s' = ConfScan.m_stored_structures s ++ A
    /\ ConfScan.m_rejected_structures s' = ConfScan.m_rejected_structures s ++ R
    /\ ConfScan.subseq L (map snd (ConfScan.m_ordered_list s))
    /\ ConfScan.subseq A L /\ ConfScan.subseq R L
    /\ Permutation L (A ++ R)
    /\ ConfScan.m_accepted s' = (ConfScan.m_accepted s + Z.of_nat (length A))%Z
    /\ (ConfScan.m_rejected s + Z.of_nat (length R) <= ConfScan.m_rejected s')%Z.
Proof.
  cbv zeta. unfold ConfScan.CheckOnly.
  destruct (check_loop_files (ConfScan.m_ordered_list s) (s, []))
    as (L & A & R & (F1 & F2 & F3 & F4 & F5) & SL & SA & SR & P).
  cbn [fst] in *. exists L, A, R. cbn. conjuncts; first [assumption | reflexivity].
Qed.

(** *** The calibration pass *)

Lemma gather_calibrating (s : Scan) (mol1 : ConfScan.Molecule D G)
    (results : list (ConfScan.Molecule D G * ConfScan.NoReorderResult D))
    (g : ConfScan.Gather D) :
  ConfScan.m_rmsd_set s = false ->
  let g' := ConfScan.gather_results cfg s mol1 results g in
  ConfScan.g_keep_molecule g' = (match results with
                                 | [] => ConfScan.g_keep_molecule g
                                 | _ => true
                                 end)
  /\ ConfScan.g_dTI g' = ConfScan.g_dTI g
  /\ ConfScan.g_dTH g' = ConfScan.g_dTH g
  /\ ConfScan.g_dTE g' = ConfScan.g_dTE g.
Proof.
  intros Hs. cbv zeta. revert g.
  induction results as [|[reference t] rest IH]; intros g;
    cbn [ConfScan.gather_results]; [conjuncts; reflexivity|].
  rewrite Hs. cbn [negb].
  destruct (IH {| ConfScan.g_keep_molecule := true;
                  ConfScan.g_min_rmsd :=
                    ConfScan.dmin (ConfScan.g_min_rmsd g) (ConfScan.nr_rmsd t);
                  ConfScan.g_dTI := ConfScan.g_dTI g;
                  ConfScan.g_dTH := ConfScan.g_dTH g;
                  ConfScan.g_dTE := ConfScan.g_dTE g |})
    as (K & I1 & I2 & I3).
  cbn in K, I1, I2, I3. conjuncts; try first [assumption | reflexivity].
  rewrite K. destruct rest; reflexivity.
Qed.

Lemma check_candidate_calibrating (index : ConfScan.Ptr) (a : Scan * Threads) :
  ConfScan.m_rmsd_set (fst a) = false ->
  calibrating (fst a) (fst (ConfScan.check_candidate drv third cfg index a)).
Proof.
  intros Hs. unfold ConfScan.check_candidate, ConfScan.calibrating.
  destruct (negb _); [cbn; conjuncts; first [assumption | reflexivity]|].
  destruct (_ && _); [cbn; conjuncts; first [assumption | reflexivity]|].
  destruct (Z.eqb _ 1); [cbn; conjuncts; first [assumption | reflexivity]|].
  destruct (Nat.eqb (length (ConfScan.m_result (fst a))) 0) eqn:E0;
    [cbn; conjuncts; first [assumption | reflexivity]|].
  match goal with
  | |- context [ConfScan.gather_results ?c ?s ?m ?r ?g] =>
      pose proof (@gather_calibrating s m r g Hs) as Gc;
      cbv zeta in Gc;
      destruct Gc as (K & I1 & I2 & I3);
      revert K I1 I2 I3;
      generalize (ConfScan.gather_results c s m r g)
  end.
  intros g K I1 I2 I3. cbn in I1, I2, I3.
  assert (Kt : ConfScan.g_keep_molecule g = true).
  { rewrite K. destruct (map _ _); reflexivity. }
  rewrite Kt. cbn. rewrite Hs. cbn. conjuncts; first [assumption | reflexivity].
Qed.

Lemma check_loop_calibrating (entries : list (D * ConfScan.Ptr)) (a : Scan * Threads) :
  ConfScan.m_rmsd_set (fst a) = false ->
  calibrating (fst a) (fst (ConfScan.check_loop drv third cfg entries a)).
Proof.
  unfold ConfScan.check_loop. revert a.
  induction entries as [|e entries IH]; intros a Hs; cbn [fold_left].
  - unfold ConfScan.calibrating. conjuncts; first [exact Hs | reflexivity].
  - destruct (check_candidate_calibrating (snd e) a Hs) as (C0 & C1 & C2 & C3 & C4).
    destruct (IH _ C0) as (J0 & J1 & J2 & J3 & J4).
    unfold ConfScan.calibrating. rewrite J1, J2, J3, J4.
    conjuncts; first [assumption | reflexivity].
Qed.

(** X6.  While the scanner calibrates its RMSD threshold ([m_rmsd_set] is
    false), the initial pass rejects no structure for being a duplicate:
    [m_rejected_structures] stays as it is, every candidate that is compared
    is accepted, and the tight thresholds [m_dTI], [m_dTH] and [m_dTE] keep
    their values. *)
Theorem calibration_pass_rejects_no_duplicate (s : Scan) :
  ConfScan.m_rmsd_set s = false ->
  let s' := ConfScan.CheckOnly drv third cfg s in
  ConfScan.m_rejected_structures s' = ConfScan.m_rejected_structures s
  /\ (exists A : list ConfScan.Ptr,
         ConfScan.m_all_structures s' = ConfScan.m_all_structures s ++ A
         /\ ConfScan.m_stored_structures s' = ConfScan.m_stored_structures s ++ A)
  /\ ConfScan.m_dTI s' = ConfScan.m_dTI s
  /\ ConfScan.m_dTH s' = ConfScan.m_dTH s
  /\ ConfScan.m_dTE s' = ConfScan.m_dTE s.
Proof.
  intros Hs. cbv zeta. unfold ConfScan.CheckOnly.
  destruct (@check_loop_calibrating (ConfScan.m_ordered_list s) (s, []) Hs)
    as (_ & C1 & C2 & C3 & C4).
  destruct (check_loop_files (ConfScan.m_ordered_list s) (s, []))
    as (L & A & R & (F1 & F2 & F3 & F4 & F5) & SL & SA & SR & P).
  cbn [fst] in *. cbn. conjuncts; try first [assumption | reflexivity].
  exists A. split; [|assumption].
  rewrite C1 in F3.
  assert (R = []) as ->.
  { destruct R; [reflexivity|].
    apply (f_equal (@length _)) in F3. rewrite length_app in F3. cbn in F3. lia. }
  rewrite app_nil_r in P. rewrite F1. f_equal.
  clear - SA P. apply Permutation_length in P.
  induction SA as [|x l l' S IH|x l l' S IH].
  - reflexivity.
  - exfalso. clear IH. cbn in P.
    assert (Len : forall (X : Type) (u v : list X),
               ConfScan.subseq u v -> (length u <= length v)%nat).
    { intros X u v Su. induction Su; cbn; lia. }
    pose proof (Len _ _ _ S). lia.
  - f_equal. apply IH. cbn in P. lia.
Qed.

(** *** The rank limit *)

Lemma check_candidate_rank (index : ConfScan.Ptr) (a : Scan * Threads) :
  (-1 < ConfScan.m_maxrank cfg)%Z ->
  (ConfScan.m_accepted (fst a) <= ConfScan.m_maxrank cfg)%Z ->
  (ConfScan.m_accepted (fst (ConfScan.check_candidate drv third cfg index a))
   <= ConfScan.m_maxrank cfg)%Z.
Proof.
  intros Hm Ha. unfold ConfScan.check_candidate.
  destruct (negb _); [exact Ha|].
  destruct (_ && _) eqn:E; [exact Ha|].
  assert (Lt : (ConfScan.m_accepted (fst a) < ConfScan.m_maxrank cfg)%Z).
  { apply andb_false_iff in E. destruct E as [E|E].
    - apply Z.leb_gt in E. exact E.
    - revert E. rewrite Z.gtb_ltb, Z.ltb_ge. lia. }
  destruct (Z.eqb _ 1); [cbn; exact Ha|].
  destruct (Nat.eqb _ 0); [cbn; lia|].
  match goal with
  | |- context [ConfScan.gather_results ?c ?s ?m ?r ?g] =>
      generalize (ConfScan.gather_results c s m r g)
  end.
  intros g. destruct (ConfScan.g_keep_molecule g); cbn;
    destruct (negb (ConfScan.m_rmsd_set (fst a))); cbn; lia.
Qed.

(** X7.  With a rank limit set ([m_maxrank] above -1), the initial pass never
    takes the number of accepted structures past the limit. *)
Theorem check_only_respects_rank_limit (s : Scan) :
  (-1 < ConfScan.m_maxrank cfg)%Z ->
  (ConfScan.m_accepted s <= ConfScan.m_maxrank cfg)%Z ->
  (ConfScan.m_accepted (ConfScan.CheckOnly drv third cfg s)
   <= ConfScan.m_maxrank cfg)%Z.
Proof.
  intros Hm Ha. unfold ConfScan.CheckOnly. cbn.
  unfold ConfScan.check_loop.
  generalize (@nil (ConfScan.Molecule D G * D)).
  generalize (ConfScan.m_ordered_list s). intros entries. revert s Ha.
  induction entries as [|e entries IH].
  - intros s Ha l. exact Ha.
  - intros s Ha l. cbn [fold_left].
    pose proof (@check_candidate_rank (snd e) (s, l) Hm Ha) as Hc.
    destruct (ConfScan.check_candidate drv third cfg (snd e) (s, l)) as [s1 l1].
    cbn [fst] in Hc. apply (IH s1 Hc l1).
Qed.

End CheckFacts.


(** The initial pass over the ensemble of [mol_B] and [mol_A] while the
    threshold is calibrated, the driver finding every pair 5 apart. *)
Lemma calibration_pass_rejects_no_duplicate_witness :
  let s := Inputs.scan_calibrating (D := Q) in
  let s' := ConfScan.CheckOnly (Inputs.constant_driver 5 []) (1 # 3)
              Inputs.scan_settings s in
  ConfScan.m_rejected_structures s' = ConfScan.m_rejected_structures s
  /\ (exists A : list ConfScan.Ptr,
         ConfScan.m_all_structures s' = ConfScan.m_all_structures s ++ A
         /\ ConfScan.m_stored_structures s' = ConfScan.m_stored_structures s ++ A)
  /\ ConfScan.m_dTI s' = ConfScan.m_dTI s
  /\ ConfScan.m_dTH s' = ConfScan.m_dTH s
  /\ ConfScan.m_dTE s' = ConfScan.m_dTE s.
Proof.
  exact (@calibration_pass_rejects_no_duplicate Q _ unit
           (Inputs.constant_driver 5 []) (1 # 3) Inputs.scan_settings
           Inputs.scan_calibrating eq_refl).
Defined.

(** The same ensemble with a rank limit of 1. *)
Lemma check_only_respects_rank_limit_witness :
  ConfScan.m_accepted (Inputs.scan_read (D := Q) []) = 0%Z
  /\ (ConfScan.m_accepted
        (ConfScan.CheckOnly (Inputs.constant_driver (D := Q) 5%Q []) (1 # 3)%Q
           (Inputs.ranked_settings 1) (Inputs.scan_read []))
      <= 1)%Z.
Proof.
  split; [reflexivity|].
  apply (@check_only_respects_rank_limit Q _ unit (Inputs.constant_driver 5 [])
           (1 # 3) (Inputs.ranked_settings 1) (Inputs.scan_read [])).
  - reflexivity.
  - vm_compute. discriminate.
Defined.


(** *** The thresholds, in exact arithmetic *)

Section ThresholdFacts.
Variable G : Type.
Variable drv : ConfScan.Driver Q G.
Variable third : Q.
Variable cfg : ConfScan.Settings Q.

Local Abbreviation Scan := (ConfScan.Scan Q G).
Local Abbreviation Threads := (list (ConfScan.Molecule Q G * Q)).

Lemma dmax_ge (a b : Q) : a <= ConfScan.dmax a b.
Proof.
  unfold ConfScan.dmax. change (@dltb Q Q_Arith) with Qltb.
  destruct (Qltb a b) eqn:E.
  - apply Qlt_le_weak. apply Qltb_lt. exact E.
  - apply Qle_refl.
Qed.

Lemma dmin_le (a b : Q) : ConfScan.dmin a b <= b.
Proof.
  unfold ConfScan.dmin. change (@dltb Q Q_Arith) with Qltb.
  destruct (Qltb b a) eqn:E.
  - apply Qle_refl.
  - apply Qltb_ge. exact E.
Qed.

Lemma gather_results_raises (s : Scan) (mol1 : ConfScan.Molecule Q G)
    (results : list (ConfScan.Molecule Q G * ConfScan.NoReorderResult Q))
    (g : ConfScan.Gather Q) :
  let g' := ConfScan.gather_results cfg s mol1 results g in
  ConfScan.g_dTI g <= ConfScan.g_dTI g'
  /\ ConfScan.g_dTH g <= ConfScan.g_dTH g'
  /\ ConfScan.g_dTE g <= ConfScan.g_dTE g'.
Proof.
  cbv zeta. revert g.
  induction results as [|[reference t] rest IH]; intros g;
    cbn [ConfScan.gather_results].
  - split; [|split]; apply Qle_refl.
  - destruct (negb (ConfScan.m_rmsd_set s)).
    + match goal with
      | |- context [ConfScan.gather_results cfg s mol1 rest ?g0] =>
          destruct (IH g0) as (I1 & I2 & I3)
      end.
      cbn in I1, I2, I3. split; [|split]; assumption.
    + destruct (negb (ConfScan.nr_keep_molecule t)).
      * cbn. split; [|split]; apply dmax_ge.
      * match goal with
        | |- context [ConfScan.gather_results cfg s mol1 rest ?g0] =>
            destruct (IH g0) as (I1 & I2 & I3)
        end.
        cbn in I1, I2, I3.
        split; [|split]; (eapply Qle_trans; [apply dmax_ge|eassumption]).
Qed.

Lemma check_candidate_thresholds (index : ConfScan.Ptr) (a : Scan * Threads) :
  let s := fst a in
  let s' := fst (ConfScan.check_candidate drv third cfg index a) in
  ConfScan.m_rmsd_set s' = ConfScan.m_rmsd_set s
  /\ ConfScan.m_dTI s <= ConfScan.m_dTI s'
  /\ ConfScan.m_dTH s <= ConfScan.m_dTH s'
  /\ ConfScan.m_dTE s <= ConfScan.m_dTE s'
  /\ ConfScan.m_rmsd_threshold s' <= ConfScan.m_rmsd_threshold s
  /\ (ConfScan.m_rmsd_set s = true ->
      ConfScan.m_rmsd_threshold s' = ConfScan.m_rmsd_threshold s).
Proof.
  cbv zeta. unfold ConfScan.check_candidate.
  assert (Same : forall s : Scan,
             ConfScan.m_rmsd_set s = ConfScan.m_rmsd_set s
             /\ ConfScan.m_dTI s <= ConfScan.m_dTI s
             /\ ConfScan.m_dTH s <= ConfScan.m_dTH s
             /\ ConfScan.m_dTE s <= ConfScan.m_dTE s
             /\ ConfScan.m_rmsd_threshold s <= ConfScan.m_rmsd_threshold s
             /\ (ConfScan.m_rmsd_set s = true ->
                 ConfScan.m_rmsd_threshold s = ConfScan.m_rmsd_threshold s)).
  { intros s. split; [reflexivity|].
    split; [apply Qle_refl|]. split; [apply Qle_refl|]. split; [apply Qle_refl|].
    split; [apply Qle_refl|]. intros _. reflexivity. }
  destruct (negb _); [cbn; apply Same|].
  destruct (_ && _); [apply Same|].
  destruct (Z.eqb _ 1); [cbn; apply Same|].
  destruct (Nat.eqb _ 0); [cbn; apply Same|].
  match goal with
  | |- context [ConfScan.gather_results ?c ?s ?m ?r ?g] =>
      destruct (@gather_results_raises s m r g) as (I1 & I2 & I3);
      revert I1 I2 I3;
      generalize (ConfScan.gather_results c s m r g)
  end.
  intros g I1 I2 I3. cbn in I1, I2, I3.
  destruct (ConfScan.m_rmsd_set (fst a)) eqn:Hs;
    destruct (ConfScan.g_keep_molecule g); cbn; rewrite Hs; cbn; rewrite ?Hs;
    (split; [reflexivity|]; split; [exact I1|]; split; [exact I2|];
     split; [exact I3|]; split;
     [first [apply Qle_refl | apply dmin_le]
     |intros E; first [reflexivity | discriminate E]]).
Qed.

(** X8.  The initial pass moves its thresholds in one direction only: the
    tight thresholds [m_dTI], [m_dTH] and [m_dTE] never fall and the RMSD
    threshold never rises; once the RMSD threshold is set ([m_rmsd_set]) the
    pass leaves it as it is. *)
Theorem check_only_moves_thresholds_one_way (s : Scan) :
  let s' := ConfScan.CheckOnly drv third cfg s in
  ConfScan.m_dTI s <= ConfScan.m_dTI s'
  /\ ConfScan.m_dTH s <= ConfScan.m_dTH s'
  /\ ConfScan.m_dTE s <= ConfScan.m_dTE s'
  /\ ConfScan.m_rmsd_threshold s' <= ConfScan.m_rmsd_threshold s
  /\ (ConfScan.m_rmsd_set s = true ->
      ConfScan.m_rmsd_threshold s' = ConfScan.m_rmsd_threshold s).
Proof.
  cbv zeta. unfold ConfScan.CheckOnly. cbn. unfold ConfScan.check_loop.
  assert (Loop : forall (entries : list (Q * ConfScan.Ptr)) (a : Scan * Threads),
             let s' := fst (fold_left
                              (fun a e => ConfScan.check_candidate drv third cfg
                                            (snd e) a) entries a) in
             ConfScan.m_rmsd_set s' = ConfScan.m_rmsd_set (fst a)
             /\ ConfScan.m_dTI (fst a) <= ConfScan.m_dTI s'
             /\ ConfScan.m_dTH (fst a) <= ConfScan.m_dTH s'
             /\ ConfScan.m_dTE (fst a) <= ConfScan.m_dTE s'
             /\ ConfScan.m_rmsd_threshold s' <= ConfScan.m_rmsd_threshold (fst a)
             /\ (ConfScan.m_rmsd_set (fst a) = true ->
                 ConfScan.m_rmsd_threshold s' = ConfScan.m_rmsd_threshold (fst a))).
  { induction entries as [|e entries IH]; intros a; cbv zeta; cbn [fold_left].
    - split; [reflexivity|].
      split; [apply Qle_refl|]. split; [apply Qle_refl|]. split; [apply Qle_refl|].
      split; [apply Qle_refl|]. intros _. reflexivity.
    - destruct (check_candidate_thresholds (snd e) a) as (C0 & C1 & C2 & C3 & C4 & C5).
      destruct (IH (ConfScan.check_candidate drv third cfg (snd e) a))
        as (J0 & J1 & J2 & J3 & J4 & J5).
      split; [rewrite J0; exact C0|].
      split; [eapply Qle_trans; eassumption|].
      split; [eapply Qle_trans; eassumption|].
      split; [eapply Qle_trans; eassumption|].
      split; [eapply Qle_trans; eassumption|].
      intros E. rewrite J5; [apply C5; exact E|]. rewrite C0. exact E. }
  destruct (Loop (ConfScan.m_ordered_list s) (s, [])) as (_ & L1 & L2 & L3 & L4 & L5).
  cbn [fst] in *. split; [exact L1|]. split; [exact L2|]. split; [exact L3|].
  split; [exact L4|exact L5].
Qed.

End ThresholdFacts.


(** ** The files written at the end *)

Section FinaliseFacts.
Context {D : Type} `{Arith D}.
Variable G : Type.
Variable cfg : ConfScan.Settings D.

Local Abbreviation Scan := (ConfScan.Scan D G).
Local Abbreviation Files := (ConfScan.Files D G).

Lemma finalise_loop (s : Scan) (l : list ConfScan.Ptr) (i : Z) (f : Files) :
  let r := fold_left (fun a molecule => ConfScan.finalise_molecule cfg s molecule a)
             l (i, f) in
  exists A R : list ConfScan.Ptr,
    ConfScan.accepted_file (snd r) = ConfScan.accepted_file f ++ A
    /\ ConfScan.rejected_file (snd r) = ConfScan.rejected_file f ++ R
    /\ ConfScan.joined_file (snd r)
       = ConfScan.joined_file f
         ++ (if Nat.eqb (length (ConfScan.m_previously_accepted s)) 0
             then [] else A)
    /\ ConfScan.threshold_file (snd r) = ConfScan.threshold_file f
    /\ fst r = (i + Z.of_nat (length A))%Z
    /\ ConfScan.subseq A l /\ ConfScan.subseq R l
    /\ Permutation (A ++ R) l
    /\ Forall (fun molecule => ConfScan.in_window cfg s molecule = true) A
    /\ (ConfScan.m_maxrank cfg = (-1)%Z
        \/ (fst r <= Z.max i (ConfScan.m_maxrank cfg))%Z).
Proof.
  cbv zeta. revert i f. induction l as [|m l IH]; intros i f; cbn [fold_left].
  - exists [], []. cbn [fst snd app length Z.of_nat].
    rewrite !app_nil_r, Z.add_0_r.
    destruct (Nat.eqb _ 0); rewrite ?app_nil_r;
      (split; [reflexivity|]; split; [reflexivity|]; split; [reflexivity|];
       split; [reflexivity|]; split; [reflexivity|]; split; [constructor|];
       split; [constructor|]; split; [constructor|]; split; [constructor|];
       right; lia).
  - set (a1 := ConfScan.finalise_molecule cfg s m (i, f)).
    assert (Step :
      (fst a1 = i
       /\ ConfScan.accepted_file (snd a1) = ConfScan.accepted_file f
       /\ ConfScan.rejected_file (snd a1) = ConfScan.rejected_file f ++ [m]
       /\ ConfScan.joined_file (snd a1) = ConfScan.joined_file f
       /\ ConfScan.threshold_file (snd a1) = ConfScan.threshold_file f)
      \/ (fst a1 = (i + 1)%Z
          /\ ConfScan.accepted_file (snd a1) = ConfScan.accepted_file f ++ [m]
          /\ ConfScan.rejected_file (snd a1) = ConfScan.rejected_file f
          /\ ConfScan.joined_file (snd a1)
             = ConfScan.joined_file f
               ++ (if Nat.eqb (length (ConfScan.m_previously_accepted s)) 0
                   then [] else [m])
          /\ ConfScan.threshold_file (snd a1) = ConfScan.threshold_file f
          /\ ConfScan.in_window cfg s m = true
          /\ (ConfScan.m_maxrank cfg = (-1)%Z \/ (i < ConfScan.m_maxrank cfg)%Z))).
    { unfold a1, ConfScan.finalise_molecule, ConfScan.in_window. cbn [fst snd].
      destruct ((ConfScan.m_maxrank cfg <=? i)%Z
                && negb (ConfScan.m_maxrank cfg =? -1)%Z) eqn:Erank.
      - left. cbn. repeat (split; [reflexivity|]). reflexivity.
      - destruct (_ && negb (ConfScan.m_energy_cutoff cfg =? lit (-1))%D) eqn:Ewin.
        + left. cbn. repeat (split; [reflexivity|]). reflexivity.
        + right. cbn [fst snd ConfScan.accepted_file ConfScan.rejected_file
                      ConfScan.joined_file ConfScan.threshold_file negb].
          split; [reflexivity|]. split; [reflexivity|]. split; [reflexivity|].
          split; [destruct (Nat.eqb _ 0); rewrite ?app_nil_r; reflexivity|].
          split; [reflexivity|]. split; [reflexivity|].
          apply andb_false_iff in Erank. destruct Erank as [Er|Er].
          * apply Z.leb_gt in Er. right. exact Er.
          * apply negb_false_iff, Z.eqb_eq in Er. left. exact Er. }
    clearbody a1. destruct a1 as [i1 f1]. cbn [fst snd] in Step.
    destruct (IH i1 f1) as (A & R & E1 & E2 & E3 & E4 & E5 & S1 & S2 & P & W & K).
    destruct Step as [(T0 & T1 & T2 & T3 & T4)|(T0 & T1 & T2 & T3 & T4 & Tw & Tr)].
    + exists A, (m :: R). rewrite E1, E2, E3, E4, E5, T0, T1, T2, T3, T4, <- app_assoc.
      split; [reflexivity|]. split; [reflexivity|]. split; [reflexivity|].
      split; [reflexivity|]. split; [reflexivity|].
      split; [apply ConfScan.subseq_skip; exact S1|].
      split; [apply ConfScan.subseq_keep; exact S2|].
      split; [apply Permutation_sym, Permutation_cons_app, Permutation_sym; exact P|].
      split; [exact W|]. rewrite E5, T0 in K. exact K.
    + exists (m :: A), R. rewrite E1, E2, E3, E4, E5, T0, T1, T2, T3, T4.
      split; [now rewrite <- app_assoc|]. split; [reflexivity|].
      split; [destruct (Nat.eqb _ 0); rewrite <- ?app_assoc; reflexivity|].
      split; [reflexivity|].
      split; [cbn [length]; lia|].
      split; [apply ConfScan.subseq_keep; exact S1|].
      split; [apply ConfScan.subseq_skip; exact S2|].
      split; [cbn [app]; apply perm_skip; exact P|].
      split; [apply Forall_cons; [exact Tw|exact W]|].
      destruct K as [K|K]; [left; exact K|].
      destruct Tr as [Tr|Tr]; [left; exact Tr|].
      right. rewrite E5, T0 in K. cbn [length]. lia.
Qed.

(** X9.  [Finalise] sends every stored structure to exactly one of the two
    files: the accepted file gets, in the order of the list, structures
    inside the energy window, at most [m_maxrank] of them when a rank limit is
    set; the others go to the rejected file, ahead of the structures the
    passes have rejected.  The joined file gets the same accepted structures
    in front of the earlier accepted ones, when there are any. *)
Theorem finalise_sends_each_stored_structure_to_one_file
    (m_writeFiles m_reduced_file : bool) (s : Scan) (f : Files) :
  let f' := ConfScan.Finalise cfg m_writeFiles m_reduced_file s f in
  exists A R : list ConfScan.Ptr,
    ConfScan.accepted_file f' = ConfScan.accepted_file f ++ A
    /\ ConfScan.rejected_file f'
       = ConfScan.rejected_file f ++ R
         ++ (if m_writeFiles && negb m_reduced_file
             then ConfScan.m_rejected_structures s else [])
    /\ ConfScan.joined_file f'
       = ConfScan.joined_file f
         ++ (if Nat.eqb (length (ConfScan.m_previously_accepted s)) 0
             then [] else A)
         ++ ConfScan.m_previously_accepted s
    /\ ConfScan.subseq A (ConfScan.m_stored_structures s)
    /\ ConfScan.subseq R (ConfScan.m_stored_structures s)
    /\ Permutation (A ++ R) (ConfScan.m_stored_structures s)
    /\ Forall (fun molecule => ConfScan.in_window cfg s molecule = true) A
    /\ (ConfScan.m_maxrank cfg = (-1)%Z
        \/ (Z.of_nat (length A) <= Z.max 0 (ConfScan.m_maxrank cfg))%Z).
Proof.
  cbv zeta. unfold ConfScan.Finalise.
  destruct (finalise_loop s (ConfScan.m_stored_structures s) 0 f)
    as (A & R & E1 & E2 & E3 & E4 & E5 & S1 & S2 & P & W & K).
  exists A, R.
  destruct (m_writeFiles && negb m_reduced_file);
    cbn [ConfScan.accepted_file ConfScan.rejected_file ConfScan.joined_file];
    rewrite E1, E2, E3, <- ?app_assoc, ?app_nil_r;
    (split; [reflexivity|]; split; [reflexivity|]; split; [reflexivity|];
     split; [exact S1|]; split; [exact S2|]; split; [exact P|];
     split; [exact W|]; rewrite E5 in K; exact K).
Qed.

End FinaliseFacts.


(** ** The workers of the bias *)

Section WorkerFacts.
Context {D : Type} `{Arith D}.
Variable exp : D -> D.
Variable kb_Eh : D.
Variable BestFitRMSD : list D -> list D -> D.
Variable DriverGradient : list D -> list D -> list D.
Local Open Scope D_scope.

Local Abbreviation execute_loop :=
  (BiasThread.execute_loop exp kb_Eh BestFitRMSD DriverGradient).
Local Abbreviation execute :=
  (BiasThread.execute exp kb_Eh BestFitRMSD DriverGradient).
Local Abbreviation revisited := (BiasThread.revisited exp BestFitRMSD).

Lemma execute_loop_revisits (th : BiasThread.t D)
    (l : list (BiasThread.BiasStructure D)) (i : nat) (a : BiasThread.Acc D) :
  exists l' : list (BiasThread.BiasStructure D),
    BiasThread.a_structures (execute_loop th i l a) = BiasThread.a_structures a ++ l'
    /\ Forall2 (revisited th) l l'
    /\ BiasThread.a_counter (execute_loop th i l a)
       = (BiasThread.a_counter a + BiasThread.visits l')%Z.
Proof.
  revert i a. induction l as [|s l IH]; intros i a; cbn [BiasThread.execute_loop].
  - exists []. rewrite app_nil_r. cbn. split; [reflexivity|]. split; [constructor|lia].
  - destruct (IH (S i) (BiasThread.execute_body exp kb_Eh BestFitRMSD DriverGradient
                         th i s a)) as (l' & E & F & C).
    rewrite E, C. unfold BiasThread.execute_body.
    cbn [BiasThread.a_structures BiasThread.a_counter].
    match goal with
    | |- context [BiasThread.a_structures a ++ [?s1]] => exists (s1 :: l')
    end.
    rewrite <- app_assoc. cbn [app BiasThread.visits fold_right BiasThread.counter].
    split; [reflexivity|]. split; [|rewrite Z.add_assoc; reflexivity].
    apply Forall2_cons; [|exact F].
    unfold BiasThread.revisited. cbn.
    split; [reflexivity|]. split; [reflexivity|]. split; [reflexivity|].
    split; [reflexivity|].
    destruct (dltb _ _); [right|left]; split; reflexivity.
Qed.

(** X10.  A worker updates its bias structures in place: [execute] keeps their
    number, their order, and of each one the geometry, the reference RMSD,
    the deposition time and the index; a structure is either left with its
    visit counter and its deposited energy, or the counter goes up by one and
    the energy by exp(-RMSD^2 alpha) times [m_dT].  With at least one
    structure, [m_counter] is afterwards the sum of the updated visit
    counters; with none, [execute] leaves it alone. *)
Theorem worker_revisits_its_structures_in_place (th : BiasThread.t D) :
  let th' := execute th in
  Forall2 (revisited th) (BiasThread.m_biased_structures th)
    (BiasThread.m_biased_structures th')
  /\ BiasThread.m_counter th'
     = match BiasThread.m_biased_structures th with
       | [] => BiasThread.m_counter th
       | _ :: _ => BiasThread.visits (BiasThread.m_biased_structures th')
       end.
Proof.
  cbv zeta. unfold BiasThread.execute.
  destruct (BiasThread.m_biased_structures th) as [|s l] eqn:E.
  - cbn. rewrite ?E. split; [constructor|reflexivity].
  - cbn [BiasThread.m_biased_structures BiasThread.m_counter].
    match goal with
    | |- context [BiasThread.execute_loop _ _ _ _ th 0 (s :: l) ?a0] =>
        destruct (execute_loop_revisits th (s :: l) 0 a0) as (l' & E1 & F & C)
    end.
    rewrite E1, C. cbn [BiasThread.a_structures BiasThread.a_counter app].
    split; [exact F|lia].
Qed.

End WorkerFacts.


(** ** The bookkeeping of the bias structures *)

Section BookFacts.
Context {D : Type} `{Arith D}.
Variable Th : Type.
Variable exp : D -> D.
Variable kb_Eh : D.
Variable BestFitRMSD : list D -> list D -> D.
Variable DriverGradient : list D -> list D -> list D.
Variable counter0 : Z.
Variables energy0 factor0 : D.
Variable cfg : SimpleMD.Config D.
Local Open Scope D_scope.

Local Abbreviation State := (SimpleMD.State D Th).
Local Abbreviation indices := (SimpleMD.structure_indices (D := D)).
Local Abbreviation bt_execute :=
  (BiasThread.execute exp kb_Eh BestFitRMSD DriverGradient).
Local Abbreviation mtd_seed := (SimpleMD.mtd_seed (Th := Th) counter0 energy0 factor0).
Local Abbreviation mtd_evaluate :=
  (SimpleMD.mtd_evaluate (Th := Th) exp kb_Eh BestFitRMSD DriverGradient cfg).
Local Abbreviation ApplyRMSDMTD :=
  (SimpleMD.ApplyRMSDMTD (Th := Th) exp kb_Eh BestFitRMSD DriverGradient counter0
     energy0 factor0 cfg).

Lemma execute_indices (th : BiasThread.t D) :
  map BiasThread.index (BiasThread.m_biased_structures (bt_execute th))
  = map BiasThread.index (BiasThread.m_biased_structures th).
Proof.
  unfold BiasThread.execute.
  destruct (BiasThread.m_biased_structures th) as [|s l] eqn:E.
  - cbn. rewrite ?E. reflexivity.
  - cbn [BiasThread.m_biased_structures].
    match goal with
    | |- context [BiasThread.execute_loop _ _ _ _ th 0 (s :: l) ?a0] =>
        destruct (execute_loop_revisits exp kb_Eh BestFitRMSD DriverGradient
                    th (s :: l) 0 a0) as (l' & E1 & F & _)
    end.
    rewrite E1. cbn [BiasThread.a_structures app].
    clear E1 E. induction F as [|x y u v R F IH]; [reflexivity|].
    cbn [map]. f_equal; [|exact IH].
    destruct R as (_ & _ & _ & R & _). exact R.
Qed.

Lemma sequential_indices (g : list D) (step : D) (ths : list (BiasThread.t D))
    (c : SimpleMD.Collect D) :
  indices (fst (SimpleMD.mtd_sequential exp kb_Eh BestFitRMSD DriverGradient cfg
                  g step ths c))
  = indices ths.
Proof.
  revert c. induction ths as [|th ths IH]; intros c; cbn; [reflexivity|].
  f_equal; [|apply IH].
  unfold SimpleMD.bt_execute. now rewrite execute_indices.
Qed.

Lemma set_geometries_indices (g : list D) (step : D) (limit : option Z)
    (ths : list (BiasThread.t D)) (i : nat) :
  indices (SimpleMD.set_geometries g step i limit ths) = indices ths.
Proof.
  revert i. induction ths as [|th ths IH]; intros i; cbn; [reflexivity|].
  f_equal; [|apply IH].
  destruct limit as [n|]; [destruct (Z.of_nat i <? n)%Z|]; reflexivity.
Qed.

Lemma pool_indices (g : list D) (s : State) (c : SimpleMD.Collect D) :
  indices (fst (SimpleMD.mtd_pool exp kb_Eh BestFitRMSD DriverGradient cfg g s c))
  = indices (SimpleMD.m_bias_threads s).
Proof.
  unfold SimpleMD.mtd_pool. cbn [fst].
  rewrite <- (set_geometries_indices g (SimpleMD.m_currentStep s)
                (if (SimpleMD.m_bias_structure_count s <? SimpleMD.m_threads cfg)%Z
                 then Some (SimpleMD.m_bias_structure_count s) else None)
                (SimpleMD.m_bias_threads s) 0).
  generalize (SimpleMD.set_geometries g (SimpleMD.m_currentStep s) 0
                (if (SimpleMD.m_bias_structure_count s <? SimpleMD.m_threads cfg)%Z
                 then Some (SimpleMD.m_bias_structure_count s) else None)
                (SimpleMD.m_bias_threads s)).
  intros l. induction l as [|th l IH]; cbn; [reflexivity|].
  f_equal; [|exact IH]. unfold SimpleMD.bt_execute. now rewrite execute_indices.
Qed.

Lemma evaluate_indices (g : list D) (s : State) :
  indices (SimpleMD.m_bias_threads (fst (mtd_evaluate g s)))
  = indices (SimpleMD.m_bias_threads s)
  /\ SimpleMD.m_bias_structure_count (fst (mtd_evaluate g s))
     = SimpleMD.m_bias_structure_count s.
Proof.
  unfold SimpleMD.mtd_evaluate. cbn [fst SimpleMD.m_bias_threads
    SimpleMD.m_bias_structure_count SimpleMD.set_m_colvar_incr
    SimpleMD.set_m_eigen_gradient SimpleMD.set_m_bias_threads].
  split; [|reflexivity].
  destruct ((SimpleMD.m_threads cfg =? 1)%Z
            || (SimpleMD.m_bias_structure_count s =? 1)%Z).
  - apply sequential_indices.
  - apply pool_indices.
Qed.

Lemma indices_length (ths : list (BiasThread.t D)) :
  length (indices ths) = length ths.
Proof. unfold SimpleMD.structure_indices. apply length_map. Qed.

Lemma at_thread_indices (ths : list (BiasThread.t D)) (i : nat)
    (g : list D) (r t : D) (idx : Z) :
  length (SimpleMD.at_thread ths i
            (BiasThread.addGeometry counter0 energy0 factor0 g r t idx))
  = length ths
  /\ forall j : nat,
       nth j (indices (SimpleMD.at_thread ths i
                         (BiasThread.addGeometry counter0 energy0 factor0 g r t idx)))
           []
       = if ((j =? i)%nat && (j <? length ths)%nat)%bool
         then nth j (indices ths) [] ++ [idx]
         else nth j (indices ths) [].
Proof.
  revert i. induction ths as [|th ths IH]; intros i.
  - cbn. split; [reflexivity|]. intros j.
    rewrite andb_false_r. reflexivity.
  - destruct i as [|i]; cbn [SimpleMD.at_thread length].
    + split; [reflexivity|]. intros [|j]; cbn.
      * rewrite map_app. reflexivity.
      * reflexivity.
    + destruct (IH i) as [L N]. split; [now rewrite L|].
      intros [|j]; [reflexivity|].
      cbn [SimpleMD.structure_indices map nth].
      change (S j =? S i)%nat with (j =? i)%nat.
      change (S j <? S (length ths))%nat with (j <? length ths)%nat.
      apply N.
Qed.

Lemma dealt_next (n : nat) (c : Z) (j : nat) :
  (0 <= c)%Z ->
  SimpleMD.dealt n (c + 1) j
  = SimpleMD.dealt n c j
    ++ (if (Z.rem c (Z.of_nat n) =? Z.of_nat j)%Z then [c] else []).
Proof.
  intros Hc. unfold SimpleMD.dealt.
  replace (Z.to_nat (c + 1)) with (S (Z.to_nat c)) by lia.
  rewrite seq_S, map_app, filter_app. cbn [plus map filter].
  rewrite Z2Nat.id by exact Hc. reflexivity.
Qed.

Lemma from_entries (L : list (list Z)) (n : nat) (f : nat -> list Z) :
  length L = n ->
  (forall j : nat, (j < n)%nat -> nth j L [] = f j) ->
  L = map f (seq 0 n).
Proof.
  intros Len N. apply (nth_ext L (map f (seq 0 n)) [] (f O)).
  - rewrite length_map, length_seq. exact Len.
  - intros j Hj. rewrite Len in Hj.
    rewrite (nth_indep (map f (seq 0 n)) (f O) (f (length (seq 0 n))))
      by (rewrite length_map, length_seq; exact Hj).
    rewrite map_nth. rewrite N by exact Hj. f_equal.
    rewrite seq_nth by exact Hj. reflexivity.
Qed.

Lemma to_entries (n : nat) (f : nat -> list Z) (j : nat) :
  (j < n)%nat -> nth j (map f (seq 0 n)) [] = f j.
Proof.
  intros Hj.
  rewrite (nth_indep (map f (seq 0 n)) [] (f (length (seq 0 n))))
    by (rewrite length_map, length_seq; exact Hj).
  rewrite map_nth. f_equal. rewrite seq_nth by exact Hj. reflexivity.
Qed.

(** One deposition keeps the structures dealt out. *)
Lemma deposit_deals (ths : list (BiasThread.t D)) (c : Z)
    (g : list D) (r t : D) :
  ths <> [] -> (0 <= c)%Z ->
  indices ths = map (SimpleMD.dealt (length ths) c) (seq 0 (length ths)) ->
  let ths' := SimpleMD.at_thread ths
                (Z.to_nat (Z.rem c (Z.of_nat (length ths))))
                (BiasThread.addGeometry counter0 energy0 factor0 g r t c) in
  length ths' = length ths
  /\ indices ths' = map (SimpleMD.dealt (length ths) (c + 1)) (seq 0 (length ths)).
Proof.
  intros Hne Hc Hd. cbv zeta.
  destruct (at_thread_indices ths (Z.to_nat (Z.rem c (Z.of_nat (length ths))))
              g r t c) as [L N].
  split; [exact L|].
  apply from_entries; [rewrite indices_length; exact L|].
  intros j Hj. rewrite N, Hd, to_entries by exact Hj.
  rewrite dealt_next by exact Hc.
  assert (Hn : (0 < Z.of_nat (length ths))%Z).
  { destruct ths; [congruence|cbn [length]; lia]. }
  assert (Hr : (0 <= Z.rem c (Z.of_nat (length ths)) < Z.of_nat (length ths))%Z).
  { apply Z.rem_bound_pos; lia. }
  apply Nat.ltb_lt in Hj. rewrite Hj, andb_true_r.
  destruct (Nat.eqb_spec j (Z.to_nat (Z.rem c (Z.of_nat (length ths))))) as [E|E].
  - replace (Z.rem c (Z.of_nat (length ths)) =? Z.of_nat j)%Z with true;
      [reflexivity|].
    symmetry. apply Z.eqb_eq. lia.
  - replace (Z.rem c (Z.of_nat (length ths)) =? Z.of_nat j)%Z with false;
      [now rewrite app_nil_r|].
    symmetry. apply Z.eqb_neq. lia.
Qed.

(** X11.  The structures stay dealt out to the workers in turn: when worker
    [j] of [n] holds, in this order, the structures whose index is below
    [m_bias_structure_count] and leaves the remainder [j] modulo [n], the same
    holds after [ApplyRMSDMTD], whatever it deposits; the number of workers
    stays and the count does not fall. *)
Theorem bias_structures_stay_dealt_out (s : State) :
  SimpleMD.m_bias_threads s <> [] ->
  (0 <= SimpleMD.m_bias_structure_count s)%Z ->
  SimpleMD.dealt_out s ->
  let s' := ApplyRMSDMTD s in
  length (SimpleMD.m_bias_threads s') = length (SimpleMD.m_bias_threads s)
  /\ (SimpleMD.m_bias_structure_count s
      <= SimpleMD.m_bias_structure_count s')%Z
  /\ SimpleMD.dealt_out s'.
Proof.
  intros Hne Hc Hd. cbv zeta. unfold SimpleMD.ApplyRMSDMTD.
  set (g := SimpleMD.current_geometry cfg s).
  set (s1 := mtd_seed g (SimpleMD.set_m_colvar_incr 0%Z s)).
  assert (I1 : length (SimpleMD.m_bias_threads s1) = length (SimpleMD.m_bias_threads s)
               /\ (SimpleMD.m_bias_structure_count s
                   <= SimpleMD.m_bias_structure_count s1)%Z
               /\ SimpleMD.dealt_out s1).
  { unfold s1, SimpleMD.mtd_seed.
    cbn [SimpleMD.m_bias_structure_count SimpleMD.m_bias_threads
         SimpleMD.set_m_colvar_incr].
    destruct (SimpleMD.m_bias_structure_count s =? 0)%Z eqn:E0.
    - apply Z.eqb_eq in E0. unfold SimpleMD.dealt_out in *.
      cbn [SimpleMD.m_bias_structure_count SimpleMD.m_bias_threads
           SimpleMD.set_m_bias_structure_count SimpleMD.set_m_bias_threads
           SimpleMD.set_m_colvar_incr SimpleMD.m_currentStep].
      rewrite E0 in *.
      pose proof (@deposit_deals (SimpleMD.m_bias_threads s) 0%Z g (lit 0)
                    (SimpleMD.m_currentStep s) Hne (Z.le_refl 0) Hd) as [L N].
      rewrite Z.rem_0_l in L, N
        by (destruct (SimpleMD.m_bias_threads s); [congruence|cbn [length]; lia]).
      change (Z.to_nat 0) with O in L, N.
      unfold SimpleMD.bt_addGeometry. rewrite L.
      split; [reflexivity|]. split; [lia|]. exact N.
    - split; [reflexivity|]. split; [apply Z.le_refl|]. exact Hd. }
  destruct I1 as (L1 & C1 & D1).
  destruct (evaluate_indices g s1) as [Ei En].
  set (r := mtd_evaluate g s1) in *.
  assert (L2 : length (SimpleMD.m_bias_threads (fst r))
               = length (SimpleMD.m_bias_threads s1)).
  { etransitivity; [symmetry; apply indices_length|].
    rewrite Ei. apply indices_length. }
  unfold SimpleMD.mtd_deposit.
  cbn [SimpleMD.m_bias_structure_count SimpleMD.m_bias_threads
       SimpleMD.set_m_bias_energy SimpleMD.set_m_rmsd_mtd_molecule].
  assert (D2 : indices (SimpleMD.m_bias_threads (fst r))
               = map (SimpleMD.dealt (length (SimpleMD.m_bias_threads (fst r)))
                        (SimpleMD.m_bias_structure_count (fst r)))
                   (seq 0 (length (SimpleMD.m_bias_threads (fst r))))).
  { rewrite Ei, En, L2. exact D1. }
  assert (Hne2 : SimpleMD.m_bias_threads (fst r) <> []).
  { intros E. rewrite E in L2. cbn in L2.
    destruct (SimpleMD.m_bias_threads s); [congruence|].
    cbn in L1. lia. }
  match goal with
  | |- context [if ?b then _ else _] => destruct b
  end.
  - cbn [SimpleMD.m_bias_structure_count SimpleMD.m_bias_threads
         SimpleMD.set_m_bias_structure_count SimpleMD.set_m_bias_threads].
    unfold SimpleMD.dealt_out.
    cbn [SimpleMD.m_bias_structure_count SimpleMD.m_bias_threads
         SimpleMD.set_m_bias_structure_count SimpleMD.set_m_bias_threads
         SimpleMD.set_m_bias_energy SimpleMD.set_m_rmsd_mtd_molecule].
    assert (Hc2 : (0 <= SimpleMD.m_bias_structure_count (fst r))%Z)
      by (rewrite En; lia).
    pose proof (fun g' r' t' =>
                  @deposit_deals (SimpleMD.m_bias_threads (fst r))
                    (SimpleMD.m_bias_structure_count (fst r)) g' r' t'
                    Hne2 Hc2 D2) as Dd.
    cbv zeta in Dd. unfold SimpleMD.bt_addGeometry.
    rewrite (proj1 (Dd _ _ _)).
    split; [exact (eq_trans L2 L1)|]. split; [rewrite En; lia|].
    apply (proj2 (Dd _ _ _)).
  - unfold SimpleMD.dealt_out.
    cbn [SimpleMD.m_bias_structure_count SimpleMD.m_bias_threads
         SimpleMD.set_m_bias_energy SimpleMD.set_m_rmsd_mtd_molecule].
    split; [exact (eq_trans L2 L1)|]. split; [rewrite En; exact C1|]. exact D2.
Qed.

End BookFacts.


(** Two workers after two calls: worker 0 holds structures 0 and 2, worker 1
    holds structure 1; the third call hands structure 3 to worker 1. *)
Lemma bias_structures_stay_dealt_out_witness :
  let s := Inputs.two_worker_state (D := Q) in
  let s' := Inputs.two_worker_ApplyRMSDMTD s in
  (SimpleMD.structure_indices (SimpleMD.m_bias_threads s) = [[0; 2]; [1]]%Z
   /\ SimpleMD.m_bias_structure_count s = 3%Z
   /\ SimpleMD.structure_indices (SimpleMD.m_bias_threads s') = [[0; 2]; [1; 3]]%Z
   /\ SimpleMD.m_bias_structure_count s' = 4%Z)
  /\ length (SimpleMD.m_bias_threads s') = length (SimpleMD.m_bias_threads s)
  /\ (SimpleMD.m_bias_structure_count s <= SimpleMD.m_bias_structure_count s')%Z
  /\ SimpleMD.dealt_out s'.
Proof.
  split; [vm_compute; repeat split; reflexivity|].
  apply (@bias_structures_stay_dealt_out Q _ unit Inputs.exp_near_zero
           Inputs.kb_Eh Inputs.rmsd_zero Inputs.gradient_zero 1%Z 0 0
           Inputs.two_worker_config Inputs.two_worker_state).
  - vm_compute. discriminate.
  - vm_compute. discriminate.
  - vm_compute. reflexivity.
Defined.


(** ** Harmonic walls *)

Section BufferFacts.
Context {D : Type} `{Arith D}.

Lemma wr_length (v : list D) (i : nat) (x : D) : length (wr v i x) = length v.
Proof.
  revert i. induction v as [|h t IH]; intros [|i]; cbn; try reflexivity.
  now rewrite IH.
Qed.

Lemma rd_wr_same (v : list D) (i : nat) (x : D) :
  (i < length v)%nat -> rd (wr v i x) i = x.
Proof.
  revert i. induction v as [|h t IH]; intros [|i] Hi; cbn in *; try lia.
  - reflexivity.
  - apply IH. lia.
Qed.

Lemma rd_wr_other (v : list D) (i j : nat) (x : D) :
  i <> j -> rd (wr v i x) j = rd v j.
Proof.
  revert i j. induction v as [|h t IH]; intros [|i] [|j] Hij; cbn; try reflexivity.
  - congruence.
  - apply IH. congruence.
Qed.

Lemma rd_wr_outside (v : list D) (i : nat) (x : D) :
  (length v <= i)%nat -> wr v i x = v.
Proof.
  revert i. induction v as [|h t IH]; intros [|i] Hi; cbn in *; try reflexivity.
  - lia.
  - f_equal. apply IH. lia.
Qed.

(** Three writes to the entries of atom [i], each from the entry it
    replaces. *)
Lemma rd_atom_update (g : list D) (i : nat) (f : D -> nat -> D) (p : nat) :
  let g0 := wr g (3 * i + 0) (f (rd g (3 * i + 0)) 0%nat) in
  let g1 := wr g0 (3 * i + 1) (f (rd g0 (3 * i + 1)) 1%nat) in
  let g2 := wr g1 (3 * i + 2) (f (rd g1 (3 * i + 2)) 2%nat) in
  length g2 = length g
  /\ rd g2 p = if ((3 * i <=? p) && (p <? 3 * i + 3) && (p <? length g))%nat
               then f (rd g p) (p - 3 * i)%nat else rd g p.
Proof.
  cbv zeta. split; [now rewrite !wr_length|].
  destruct (Nat.leb_spec (3 * i) p) as [Lo|Lo];
    [destruct (Nat.ltb_spec p (3 * i + 3)) as [Hi|Hi]|]; cbn [andb].
  - destruct (Nat.ltb_spec p (length g)) as [In|Out].
    + assert (C : p = (3 * i + 0)%nat \/ p = (3 * i + 1)%nat \/ p = (3 * i + 2)%nat)
        by lia.
      destruct C as [C|[C|C]]; subst p.
      * rewrite rd_wr_other by lia. rewrite rd_wr_other by lia.
        rewrite rd_wr_same by lia.
        replace (3 * i + 0 - 3 * i)%nat with 0%nat by lia. reflexivity.
      * rewrite rd_wr_other by lia. rewrite rd_wr_same by (rewrite wr_length; lia).
        rewrite rd_wr_other by lia.
        replace (3 * i + 1 - 3 * i)%nat with 1%nat by lia. reflexivity.
      * rewrite rd_wr_same by (rewrite !wr_length; lia).
        rewrite rd_wr_other by lia. rewrite rd_wr_other by lia.
        replace (3 * i + 2 - 3 * i)%nat with 2%nat by lia. reflexivity.
    + assert (C : p = (3 * i + 0)%nat \/ p = (3 * i + 1)%nat \/ p = (3 * i + 2)%nat)
        by lia.
      unfold rd. rewrite !nth_overflow; rewrite ?wr_length; try lia. reflexivity.
  - rewrite !rd_wr_other by lia. reflexivity.
  - rewrite !rd_wr_other by lia. reflexivity.
Qed.

End BufferFacts.


Section HarmonicWallFacts.
Variable Th : Type.
Variable sqrt : Q -> Q.
Variable kb_Eh : Q.
Variable cfg : SimpleMD.Config Q.

Local Abbreviation State := (SimpleMD.State Q Th).
Local Abbreviation WallAcc := (SimpleMD.WallAcc Q).
Local Abbreviation rect_body := (SimpleMD.rect_harmonic_atom kb_Eh cfg).
Local Abbreviation spheric_body := (SimpleMD.spheric_harmonic_atom sqrt kb_Eh cfg).
Local Abbreviation wall_lo := (SimpleMD.wall_lo cfg).
Local Abbreviation wall_hi := (SimpleMD.wall_hi cfg).
Local Abbreviation distance := (SimpleMD.distance_from_origin sqrt).

(** What the rectangular wall takes from entry [p] of the gradient, and what
    the spherical wall takes. *)
Local Abbreviation rect_d := (fun (geom : list Q) (p : nat) =>
  SimpleMD.harmonic_d (SimpleMD.m_wall_temp cfg * kb_Eh) (rd geom p)
    (wall_lo (p mod 3)) (wall_hi (p mod 3))).

Local Abbreviation spheric_d := (fun (geom : list Q) (p : nat) =>
  SimpleMD.m_wall_temp cfg * kb_Eh
  * (SimpleMD.m_wall_spheric_radius cfg - distance geom (p / 3))
  * SimpleMD.flag (Qltb (SimpleMD.m_wall_spheric_radius cfg) (distance geom (p / 3)))
  * rd geom p / distance geom (p / 3)).

Lemma atom_axis (i p : nat) :
  (3 * i <= p)%nat -> (p < 3 * i + 3)%nat ->
  (3 * i + (p - 3 * i) = p)%nat /\ ((p - 3 * i) = p mod 3)%nat /\ (i = p / 3)%nat.
Proof.
  intros Lo Hi. split; [lia|]. split.
  - apply (Nat.mod_unique p 3 i); lia.
  - apply (Nat.div_unique p 3 i (p - 3 * i)); lia.
Qed.

Lemma rect_atom_gradient (geom : list Q) (i : nat) (a : WallAcc) (p : nat) :
  let g := SimpleMD.w_gradient a in
  let g' := SimpleMD.w_gradient (fst (rect_body geom i a)) in
  length g' = length g
  /\ rd g' p = if ((3 * i <=? p) && (p <? 3 * i + 3) && (p <? length g))%nat
               then rd g p - rect_d geom p else rd g p.
Proof.
  cbv zeta.
  pose proof (@rd_atom_update Q _ (SimpleMD.w_gradient a) i
                (fun old c => old - SimpleMD.harmonic_d
                                      (SimpleMD.m_wall_temp cfg * kb_Eh)
                                      (rd geom (3 * i + c)) (wall_lo c) (wall_hi c))
                p) as U.
  cbv zeta in U. destruct U as [L U]. split; [exact L|].
  etransitivity; [exact U|].
  destruct (Nat.leb_spec (3 * i) p) as [Lo|Lo];
    [destruct (Nat.ltb_spec p (3 * i + 3)) as [Hi|Hi]|]; cbn [andb];
    try reflexivity.
  destruct (p <? length (SimpleMD.w_gradient a))%nat; [|reflexivity].
  destruct (@atom_axis i p Lo Hi) as (E1 & E2 & _). rewrite E1, E2. reflexivity.
Qed.

Lemma spheric_atom_gradient (geom : list Q) (i : nat) (a : WallAcc) (p : nat) :
  let g := SimpleMD.w_gradient a in
  let g' := SimpleMD.w_gradient (fst (spheric_body geom i a)) in
  length g' = length g
  /\ rd g' p = if ((3 * i <=? p) && (p <? 3 * i + 3) && (p <? length g))%nat
               then rd g p - spheric_d geom p else rd g p.
Proof.
  cbv zeta.
  pose proof (@rd_atom_update Q _ (SimpleMD.w_gradient a) i
                (fun old c =>
                   old - SimpleMD.m_wall_temp cfg * kb_Eh
                         * (SimpleMD.m_wall_spheric_radius cfg - distance geom i)
                         * SimpleMD.flag (Qltb (SimpleMD.m_wall_spheric_radius cfg)
                                            (distance geom i))
                         * rd geom (3 * i + c) / distance geom i)
                p) as U.
  cbv zeta in U. destruct U as [L U]. split; [exact L|].
  etransitivity; [exact U|].
  destruct (Nat.leb_spec (3 * i) p) as [Lo|Lo];
    [destruct (Nat.ltb_spec p (3 * i + 3)) as [Hi|Hi]|]; cbn [andb];
    try reflexivity.
  destruct (p <? length (SimpleMD.w_gradient a))%nat; [|reflexivity].
  destruct (@atom_axis i p Lo Hi) as (E1 & _ & E3). rewrite E1, <- E3. reflexivity.
Qed.

Lemma wall_loop_gradient
    (body : nat -> WallAcc -> SimpleMD.Traced (D := Q) WallAcc) (d : nat -> Q) :
  (forall (i : nat) (a : WallAcc) (p : nat),
      let g := SimpleMD.w_gradient a in
      let g' := SimpleMD.w_gradient (fst (body i a)) in
      length g' = length g
      /\ rd g' p = if ((3 * i <=? p) && (p <? 3 * i + 3) && (p <? length g))%nat
                   then rd g p - d p else rd g p) ->
  forall (n s : nat) (a : WallAcc) (p : nat),
    let g := SimpleMD.w_gradient a in
    let g' := SimpleMD.w_gradient (fst (SimpleMD.wall_loop body (seq s n) a)) in
    length g' = length g
    /\ rd g' p = if ((3 * s <=? p) && (p <? 3 * (s + n)) && (p <? length g))%nat
                 then rd g p - d p else rd g p.
Proof.
  intros Hbody.
  induction n as [|n IH]; intros s a p; cbv zeta; cbn [seq SimpleMD.wall_loop].
  - unfold SimpleMD.tret. cbn [fst]. split; [reflexivity|].
    destruct (Nat.leb_spec (3 * s) p); destruct (Nat.ltb_spec p (3 * (s + 0)));
      cbn [andb]; try reflexivity; lia.
  - unfold SimpleMD.tbind. cbn [fst].
    destruct (Hbody s a p) as [L1 G1].
    destruct (IH (S s) (fst (body s a)) p) as [L2 G2].
    split; [now rewrite L2|].
    rewrite G2, G1, L1.
    destruct (Nat.leb_spec (3 * s) p); destruct (Nat.ltb_spec p (3 * s + 3));
      destruct (Nat.leb_spec (3 * S s) p);
      destruct (Nat.ltb_spec p (3 * (S s + n)));
      destruct (Nat.ltb_spec p (3 * (s + S n)));
      destruct (Nat.ltb_spec p (length (SimpleMD.w_gradient a)));
      cbn [andb]; try reflexivity; lia.
Qed.

Lemma wall_loop_invariant (P : WallAcc -> Prop)
    (body : nat -> WallAcc -> SimpleMD.Traced (D := Q) WallAcc) (atoms : list nat)
    (a : WallAcc) :
  P a ->
  (forall (i : nat) (a' : WallAcc), In i atoms -> P a' -> P (fst (body i a'))) ->
  P (fst (SimpleMD.wall_loop body atoms a)).
Proof.
  revert a. induction atoms as [|i atoms IH]; intros a Pa Hbody;
    cbn [SimpleMD.wall_loop].
  - exact Pa.
  - unfold SimpleMD.tbind. cbn [fst]. apply IH.
    + apply Hbody; [left; reflexivity|exact Pa].
    + intros j a' Hj. apply Hbody. right. exact Hj.
Qed.

Lemma harmonic_d_beyond (k x lo hi : Q) :
  - SimpleMD.harmonic_d k x lo hi == k * SimpleMD.beyond x lo hi.
Proof.
  unfold SimpleMD.harmonic_d, SimpleMD.beyond, SimpleMD.flag, of_int.
  cbn [lit dadd dsub dmul dltb Q_Arith].
  destruct (Qltb x lo); destruct (Qltb hi x);
    change (inject_Z 1) with 1; change (inject_Z 0) with 0; ring.
Qed.

Lemma harmonic_inside (k x lo hi : Q) :
  lo <= x <= hi ->
  SimpleMD.harmonic_d k x lo hi == 0
  /\ SimpleMD.harmonic_V x lo hi == 0
  /\ Qltb (x - lo) 0 = false /\ Qltb (hi - x) 0 = false.
Proof.
  intros [Lo Hi].
  assert (A : Qltb x lo = false) by (apply Qltb_ge; exact Lo).
  assert (B : Qltb hi x = false) by (apply Qltb_ge; exact Hi).
  unfold SimpleMD.harmonic_d, SimpleMD.harmonic_V, SimpleMD.flag, of_int.
  cbn [lit dadd dsub dmul dltb Q_Arith]. rewrite A, B.
  change (inject_Z 0) with 0.
  split; [ring|]. split; [ring|].
  split; apply Qltb_ge; lra.
Qed.

(** X12.  The rectangular harmonic wall adds to an entry of the gradient the
    force constant [m_wall_temp * kb_Eh] times the distance of the coordinate
    beyond the box, below the lower bound as well as above the upper one; the
    entry of a coordinate inside the bounds is left as it is. *)
Theorem rect_harmonic_wall_adds_distance_beyond_box (s : State) (i c : nat) :
  (i < SimpleMD.m_natoms cfg)%nat -> (c < 3)%nat ->
  (3 * i + c < length (SimpleMD.m_eigen_gradient s))%nat ->
  let p := (3 * i + c)%nat in
  let s' := snd (fst (SimpleMD.ApplyRectHarmonicWalls kb_Eh cfg s)) in
  rd (SimpleMD.m_eigen_gradient s') p
  == rd (SimpleMD.m_eigen_gradient s) p
     + SimpleMD.m_wall_temp cfg * kb_Eh
       * SimpleMD.beyond (rd (SimpleMD.m_eigen_geometry s) p) (wall_lo c) (wall_hi c).
Proof.
  intros Hi Hc Hp. cbv zeta.
  unfold SimpleMD.ApplyRectHarmonicWalls, SimpleMD.apply_walls, SimpleMD.tbind.
  cbn [fst snd SimpleMD.tret SimpleMD.m_eigen_gradient
       SimpleMD.set_m_wall_violation_count SimpleMD.set_m_eigen_gradient].
  destruct (@wall_loop_gradient (rect_body (SimpleMD.m_eigen_geometry s))
              (rect_d (SimpleMD.m_eigen_geometry s))
              (rect_atom_gradient (SimpleMD.m_eigen_geometry s))
              (SimpleMD.m_natoms cfg)
              0%nat {| SimpleMD.w_potential := lit 0;
                       SimpleMD.w_gradient := SimpleMD.m_eigen_gradient s;
                       SimpleMD.w_counter := 0 |} (3 * i + c)%nat) as [_ G].
  cbn [SimpleMD.w_gradient] in G. rewrite G.
  replace ((3 * 0 <=? 3 * i + c)%nat) with true by (symmetry; apply Nat.leb_le; lia).
  replace ((3 * i + c <? 3 * (0 + SimpleMD.m_natoms cfg))%nat) with true
    by (symmetry; apply Nat.ltb_lt; lia).
  replace ((3 * i + c <? length (SimpleMD.m_eigen_gradient s))%nat) with true
    by (symmetry; apply Nat.ltb_lt; lia).
  cbn [andb].
  replace ((3 * i + c) mod 3)%nat with c
    by (apply (Nat.mod_unique (3 * i + c) 3 i c); lia).
  change (@dsub Q Q_Arith) with Qminus. unfold Qminus.
  rewrite harmonic_d_beyond. reflexivity.
Qed.

Lemma rect_idle (s : State) :
  (forall i c : nat, (i < SimpleMD.m_natoms cfg)%nat -> (c < 3)%nat ->
     wall_lo c <= rd (SimpleMD.m_eigen_geometry s) (3 * i + c) <= wall_hi c) ->
  let r := fst (SimpleMD.ApplyRectHarmonicWalls kb_Eh cfg s) in
  fst r == 0
  /\ SimpleMD.m_wall_violation_count (snd r) = 0%Z
  /\ forall p : nat,
       rd (SimpleMD.m_eigen_gradient (snd r)) p == rd (SimpleMD.m_eigen_gradient s) p.
Proof.
  intros Hin. cbv zeta.
  unfold SimpleMD.ApplyRectHarmonicWalls, SimpleMD.apply_walls, SimpleMD.tbind.
  cbn [fst snd SimpleMD.tret SimpleMD.m_eigen_gradient
       SimpleMD.m_wall_violation_count
       SimpleMD.set_m_wall_violation_count SimpleMD.set_m_eigen_gradient].
  set (a0 := {| SimpleMD.w_potential := lit 0;
                SimpleMD.w_gradient := SimpleMD.m_eigen_gradient s;
                SimpleMD.w_counter := 0 |}).
  assert (Inv : SimpleMD.w_potential
                  (fst (SimpleMD.wall_loop (rect_body (SimpleMD.m_eigen_geometry s))
                          (seq 0 (SimpleMD.m_natoms cfg)) a0)) == 0
                /\ SimpleMD.w_counter
                     (fst (SimpleMD.wall_loop (rect_body (SimpleMD.m_eigen_geometry s))
                             (seq 0 (SimpleMD.m_natoms cfg)) a0)) = 0%Z).
  { apply (@wall_loop_invariant
             (fun a => SimpleMD.w_potential a == 0 /\ SimpleMD.w_counter a = 0%Z)).
    - split; reflexivity.
    - intros i a' Hi [Pp Pc]. apply in_seq in Hi.
      assert (Hi' : (i < SimpleMD.m_natoms cfg)%nat) by lia.
      destruct (@harmonic_inside (SimpleMD.m_wall_temp cfg * kb_Eh) _ _ _
                  (Hin i 0%nat Hi' ltac:(lia))) as (_ & Vx & Ox1 & Ox2).
      destruct (@harmonic_inside (SimpleMD.m_wall_temp cfg * kb_Eh) _ _ _
                  (Hin i 1%nat Hi' ltac:(lia))) as (_ & Vy & Oy1 & Oy2).
      destruct (@harmonic_inside (SimpleMD.m_wall_temp cfg * kb_Eh) _ _ _
                  (Hin i 2%nat Hi' ltac:(lia))) as (_ & Vz & Oz1 & Oz2).
      cbn [SimpleMD.wall_lo SimpleMD.wall_hi] in *.
      unfold SimpleMD.rect_harmonic_atom, SimpleMD.tret.
      cbn [fst SimpleMD.w_potential SimpleMD.w_counter].
      cbn [lit dadd dsub dmul dltb Q_Arith] in *.
      rewrite Ox1, Ox2, Oy1, Oy2, Oz1, Oz2. cbn [orb].
      split; [|exact Pc]. rewrite Pp, Vx, Vy, Vz. ring. }
  destruct Inv as [Ip Ic]. split; [exact Ip|]. split; [exact Ic|].
  intros p.
  destruct (@wall_loop_gradient (rect_body (SimpleMD.m_eigen_geometry s))
              (rect_d (SimpleMD.m_eigen_geometry s))
              (rect_atom_gradient (SimpleMD.m_eigen_geometry s))
              (SimpleMD.m_natoms cfg) 0%nat a0 p) as [_ G].
  rewrite G. unfold a0. cbn [SimpleMD.w_gradient].
  destruct (Nat.leb_spec (3 * 0) p) as [Lo|Lo]; cbn [andb]; [|reflexivity].
  destruct (Nat.ltb_spec p (3 * (0 + SimpleMD.m_natoms cfg))) as [Hi|Hi];
    cbn [andb]; [|reflexivity].
  destruct (p <? length (SimpleMD.m_eigen_gradient s))%nat; [|reflexivity].
  assert (Hq : (p / 3 < SimpleMD.m_natoms cfg)%nat)
    by (apply Nat.Div0.div_lt_upper_bound; lia).
  assert (Hr : (p mod 3 < 3)%nat) by (apply Nat.mod_upper_bound; lia).
  pose proof (Hin (p / 3)%nat (p mod 3)%nat Hq Hr) as Hb.
  rewrite <- (Nat.div_mod_eq p 3) in Hb.
  destruct (@harmonic_inside (SimpleMD.m_wall_temp cfg * kb_Eh) _ _ _ Hb)
    as (Dz & _).
  change (@dsub Q Q_Arith) with Qminus. rewrite Dz. ring.
Qed.

(** X13.  With every atom inside the box the rectangular harmonic wall does
    nothing: the potential it returns is zero, no atom is counted as a
    violation and the gradient keeps its entries. *)
Theorem rect_harmonic_wall_is_idle_inside_box (s : State) :
  (forall i c : nat, (i < SimpleMD.m_natoms cfg)%nat -> (c < 3)%nat ->
     wall_lo c <= rd (SimpleMD.m_eigen_geometry s) (3 * i + c) <= wall_hi c) ->
  let r := fst (SimpleMD.ApplyRectHarmonicWalls kb_Eh cfg s) in
  fst r == 0
  /\ SimpleMD.m_wall_violation_count (snd r) = 0%Z
  /\ forall p : nat,
       rd (SimpleMD.m_eigen_gradient (snd r)) p == rd (SimpleMD.m_eigen_gradient s) p.
Proof. exact (@rect_idle s). Qed.

Lemma spheric_d_outside (geom : list Q) (p : nat) :
  - spheric_d geom p
  == SimpleMD.m_wall_temp cfg * kb_Eh
     * (if Qltb (SimpleMD.m_wall_spheric_radius cfg) (distance geom (p / 3))
        then (distance geom (p / 3) - SimpleMD.m_wall_spheric_radius cfg)
             * rd geom p / distance geom (p / 3)
        else 0).
Proof.
  unfold SimpleMD.flag, of_int. cbn [lit dadd dsub dmul ddiv dltb Q_Arith].
  destruct (Qltb (SimpleMD.m_wall_spheric_radius cfg) (distance geom (p / 3)));
    change (inject_Z 1) with 1; change (inject_Z 0) with 0; unfold Qdiv; ring.
Qed.

(** X14.  The spherical harmonic wall leaves the gradient entries of an atom
    within the radius as they are; for an atom at a distance d beyond the
    radius R it adds the force constant times (d - R) times the coordinate
    over d, which points away from the origin.  (The atom is taken off the
    origin: the code divides by d.) *)
Theorem spheric_harmonic_wall_adds_radial_excess (s : State) (i c : nat) :
  (i < SimpleMD.m_natoms cfg)%nat -> (c < 3)%nat ->
  (3 * i + c < length (SimpleMD.m_eigen_gradient s))%nat ->
  0 < distance (SimpleMD.m_eigen_geometry s) i ->
  let p := (3 * i + c)%nat in
  let d := distance (SimpleMD.m_eigen_geometry s) i in
  let s' := snd (fst (SimpleMD.ApplySphericHarmonicWalls sqrt kb_Eh cfg s)) in
  rd (SimpleMD.m_eigen_gradient s') p
  == rd (SimpleMD.m_eigen_gradient s) p
     + SimpleMD.m_wall_temp cfg * kb_Eh
       * (if Qltb (SimpleMD.m_wall_spheric_radius cfg) d
          then (d - SimpleMD.m_wall_spheric_radius cfg)
               * rd (SimpleMD.m_eigen_geometry s) p / d
          else 0).
Proof.
  intros Hi Hc Hp Hd. cbv zeta.
  unfold SimpleMD.ApplySphericHarmonicWalls, SimpleMD.apply_walls, SimpleMD.tbind.
  cbn [fst snd SimpleMD.tret SimpleMD.m_eigen_gradient
       SimpleMD.set_m_wall_violation_count SimpleMD.set_m_eigen_gradient].
  destruct (@wall_loop_gradient (spheric_body (SimpleMD.m_eigen_geometry s))
              (spheric_d (SimpleMD.m_eigen_geometry s))
              (spheric_atom_gradient (SimpleMD.m_eigen_geometry s))
              (SimpleMD.m_natoms cfg)
              0%nat {| SimpleMD.w_potential := lit 0;
                       SimpleMD.w_gradient := SimpleMD.m_eigen_gradient s;
                       SimpleMD.w_counter := 0 |} (3 * i + c)%nat) as [_ G].
  cbn [SimpleMD.w_gradient] in G. rewrite G.
  replace ((3 * 0 <=? 3 * i + c)%nat) with true by (symmetry; apply Nat.leb_le; lia).
  replace ((3 * i + c <? 3 * (0 + SimpleMD.m_natoms cfg))%nat) with true
    by (symmetry; apply Nat.ltb_lt; lia).
  replace ((3 * i + c <? length (SimpleMD.m_eigen_gradient s))%nat) with true
    by (symmetry; apply Nat.ltb_lt; lia).
  cbn [andb].
  pose proof (spheric_d_outside (SimpleMD.m_eigen_geometry s) (3 * i + c)) as O.
  assert (E : ((3 * i + c) / 3 = i)%nat)
    by (symmetry; apply (Nat.div_unique (3 * i + c) 3 i c); lia).
  cbv beta in O |- *. rewrite E in O |- *.
  change (@dsub Q Q_Arith) with Qminus. unfold Qminus at 1.
  apply Qplus_comp; [reflexivity|exact O].
Qed.

Lemma spheric_idle (s : State) :
  (forall i : nat, (i < SimpleMD.m_natoms cfg)%nat ->
     0 < distance (SimpleMD.m_eigen_geometry s) i
     /\ distance (SimpleMD.m_eigen_geometry s) i <= SimpleMD.m_wall_spheric_radius cfg) ->
  let r := fst (SimpleMD.ApplySphericHarmonicWalls sqrt kb_Eh cfg s) in
  fst r == 0
  /\ SimpleMD.m_wall_violation_count (snd r) = 0%Z
  /\ forall p : nat,
       rd (SimpleMD.m_eigen_gradient (snd r)) p == rd (SimpleMD.m_eigen_gradient s) p.
Proof.
  intros Hin. cbv zeta.
  unfold SimpleMD.ApplySphericHarmonicWalls, SimpleMD.apply_walls, SimpleMD.tbind.
  cbn [fst snd SimpleMD.tret SimpleMD.m_eigen_gradient
       SimpleMD.m_wall_violation_count
       SimpleMD.set_m_wall_violation_count SimpleMD.set_m_eigen_gradient].
  set (a0 := {| SimpleMD.w_potential := lit 0;
                SimpleMD.w_gradient := SimpleMD.m_eigen_gradient s;
                SimpleMD.w_counter := 0 |}).
  assert (Inv : SimpleMD.w_potential
                  (fst (SimpleMD.wall_loop (spheric_body (SimpleMD.m_eigen_geometry s))
                          (seq 0 (SimpleMD.m_natoms cfg)) a0)) == 0
                /\ SimpleMD.w_counter
                     (fst (SimpleMD.wall_loop
                             (spheric_body (SimpleMD.m_eigen_geometry s))
                             (seq 0 (SimpleMD.m_natoms cfg)) a0)) = 0%Z).
  { apply (@wall_loop_invariant
             (fun a => SimpleMD.w_potential a == 0 /\ SimpleMD.w_counter a = 0%Z)).
    - split; reflexivity.
    - intros i a' Hi [Pp Pc]. apply in_seq in Hi.
      assert (Hi' : (i < SimpleMD.m_natoms cfg)%nat) by lia.
      destruct (Hin i Hi') as [_ Le]. apply Qltb_ge in Le.
      unfold SimpleMD.distance_from_origin in Le.
      unfold SimpleMD.spheric_harmonic_atom, SimpleMD.tret, SimpleMD.flag, of_int.
      cbn [fst SimpleMD.w_potential SimpleMD.w_counter].
      cbn [lit dadd dsub dmul dltb Q_Arith] in *.
      rewrite Le. split; [|exact Pc]. rewrite Pp.
      change (inject_Z 0) with 0. ring. }
  destruct Inv as [Ip Ic]. split; [exact Ip|]. split; [exact Ic|].
  intros p.
  destruct (@wall_loop_gradient (spheric_body (SimpleMD.m_eigen_geometry s))
              (spheric_d (SimpleMD.m_eigen_geometry s))
              (spheric_atom_gradient (SimpleMD.m_eigen_geometry s))
              (SimpleMD.m_natoms cfg) 0%nat a0 p) as [_ G].
  rewrite G. unfold a0. cbn [SimpleMD.w_gradient].
  destruct (Nat.leb_spec (3 * 0) p) as [Lo|Lo]; cbn [andb]; [|reflexivity].
  destruct (Nat.ltb_spec p (3 * (0 + SimpleMD.m_natoms cfg))) as [Hi|Hi];
    cbn [andb]; [|reflexivity].
  destruct (p <? length (SimpleMD.m_eigen_gradient s))%nat; [|reflexivity].
  assert (Hq : (p / 3 < SimpleMD.m_natoms cfg)%nat)
    by (apply Nat.Div0.div_lt_upper_bound; lia).
  destruct (Hin (p / 3)%nat Hq) as [_ Le]. apply Qltb_ge in Le.
  pose proof (spheric_d_outside (SimpleMD.m_eigen_geometry s) p) as O.
  cbv beta in O |- *. rewrite Le in O |- *.
  change (@dsub Q Q_Arith) with Qminus. unfold Qminus at 1.
  rewrite Qmult_0_r in O.
  transitivity (rd (SimpleMD.m_eigen_gradient s) p + 0); [|ring].
  apply Qplus_comp; [reflexivity|exact O].
Qed.

(** X15.  With every atom off the origin and within the radius the spherical
    harmonic wall does nothing: the potential it returns is zero, no atom is
    counted as a violation and the gradient keeps its entries. *)
Theorem spheric_harmonic_wall_is_idle_inside_sphere (s : State) :
  (forall i : nat, (i < SimpleMD.m_natoms cfg)%nat ->
     0 < distance (SimpleMD.m_eigen_geometry s) i
     /\ distance (SimpleMD.m_eigen_geometry s) i <= SimpleMD.m_wall_spheric_radius cfg) ->
  let r := fst (SimpleMD.ApplySphericHarmonicWalls sqrt kb_Eh cfg s) in
  fst r == 0
  /\ SimpleMD.m_wall_violation_count (snd r) = 0%Z
  /\ forall p : nat,
       rd (SimpleMD.m_eigen_gradient (snd r)) p == rd (SimpleMD.m_eigen_gradient s) p.
Proof. exact (@spheric_idle s). Qed.

End HarmonicWallFacts.


(** The atom that has left the box [0, 10]^3 by 1000 along x, below the
    lower bound. *)
Lemma rect_harmonic_wall_adds_distance_beyond_box_witness :
  let s := Inputs.escaped_state (D := Q) in
  let s' := snd (fst (SimpleMD.ApplyRectHarmonicWalls Inputs.kb_Eh
                        Inputs.box_config s)) in
  rd (SimpleMD.m_eigen_gradient s') 0
  == rd (SimpleMD.m_eigen_gradient s) 0
     + SimpleMD.m_wall_temp Inputs.box_config * Inputs.kb_Eh
       * SimpleMD.beyond (rd (SimpleMD.m_eigen_geometry s) 0)
           (SimpleMD.wall_lo Inputs.box_config 0)
           (SimpleMD.wall_hi Inputs.box_config 0).
Proof.
  apply (@rect_harmonic_wall_adds_distance_beyond_box unit Inputs.kb_Eh
           Inputs.box_config Inputs.escaped_state 0%nat 0%nat).
  - cbn. lia.
  - lia.
  - cbn. lia.
Defined.

(** The atom in the middle of the box. *)
Lemma rect_harmonic_wall_is_idle_inside_box_witness :
  let s := Inputs.atom_at (D := Q) 5 5 5 in
  let r := fst (SimpleMD.ApplyRectHarmonicWalls Inputs.kb_Eh Inputs.box_config s) in
  fst r == 0
  /\ SimpleMD.m_wall_violation_count (snd r) = 0%Z
  /\ forall p : nat,
       rd (SimpleMD.m_eigen_gradient (snd r)) p == rd (SimpleMD.m_eigen_gradient s) p.
Proof.
  apply (@rect_harmonic_wall_is_idle_inside_box unit Inputs.kb_Eh
           Inputs.box_config (Inputs.atom_at 5 5 5)).
  intros i c Hi Hc. cbn in Hi.
  destruct i as [|i]; [|lia].
  destruct c as [|[|[|c]]]; [| | |lia]; cbn; lra.
Defined.

(** The atom at (15, 20, 0), 25 from the origin, and a sphere of radius
    10. *)
Lemma spheric_harmonic_wall_adds_radial_excess_witness :
  let s := Inputs.atom_at (D := Q) 15 20 0 in
  let d := SimpleMD.distance_from_origin (Inputs.sqrt_is 25)
             (SimpleMD.m_eigen_geometry s) 0 in
  let s' := snd (fst (SimpleMD.ApplySphericHarmonicWalls (Inputs.sqrt_is 25)
                        Inputs.kb_Eh Inputs.box_config s)) in
  rd (SimpleMD.m_eigen_gradient s') 0
  == rd (SimpleMD.m_eigen_gradient s) 0
     + SimpleMD.m_wall_temp Inputs.box_config * Inputs.kb_Eh
       * (if Qltb (SimpleMD.m_wall_spheric_radius Inputs.box_config) d
          then (d - SimpleMD.m_wall_spheric_radius Inputs.box_config)
               * rd (SimpleMD.m_eigen_geometry s) 0 / d
          else 0).
Proof.
  apply (@spheric_harmonic_wall_adds_radial_excess unit (Inputs.sqrt_is 25)
           Inputs.kb_Eh Inputs.box_config (Inputs.atom_at 15 20 0) 0%nat 0%nat).
  - cbn. lia.
  - lia.
  - cbn. lia.
  - reflexivity.
Defined.

(** The atom at (3, 4, 0), 5 from the origin, inside the sphere of radius
    10. *)
Lemma spheric_harmonic_wall_is_idle_inside_sphere_witness :
  let s := Inputs.atom_at (D := Q) 3 4 0 in
  let r := fst (SimpleMD.ApplySphericHarmonicWalls (Inputs.sqrt_is 5)
                  Inputs.kb_Eh Inputs.box_config s) in
  fst r == 0
  /\ SimpleMD.m_wall_violation_count (snd r) = 0%Z
  /\ forall p : nat,
       rd (SimpleMD.m_eigen_gradient (snd r)) p == rd (SimpleMD.m_eigen_gradient s) p.
Proof.
  apply (@spheric_harmonic_wall_is_idle_inside_sphere unit (Inputs.sqrt_is 5)
           Inputs.kb_Eh Inputs.box_config (Inputs.atom_at 3 4 0)).
  intros i Hi. split; vm_compute; [reflexivity|discriminate].
Defined.


(** ** The walls [InitialiseWalls] sets up *)

Section InitialiseWallsFacts.
Variable Th : Type.
Variable sqrt : Q -> Q.
Variable kb_Eh : Q.
Variable cfg : SimpleMD.Config Q.

Local Abbreviation State := (SimpleMD.State Q Th).
Local Abbreviation distance := (SimpleMD.distance_from_origin sqrt).
Local Abbreviation extent_atom := (SimpleMD.extent_atom sqrt).
Local Abbreviation InitialiseWalls := (SimpleMD.InitialiseWalls sqrt cfg).

Lemma fmin_le_l (a b : Q) : SimpleMD.fmin a b <= a.
Proof.
  unfold SimpleMD.fmin. change (@dltb Q Q_Arith) with Qltb.
  destruct (Qltb b a) eqn:E.
  - apply Qlt_le_weak. apply Qltb_lt. exact E.
  - apply Qle_refl.
Qed.

Lemma fmin_le_r (a b : Q) : SimpleMD.fmin a b <= b.
Proof.
  unfold SimpleMD.fmin. change (@dltb Q Q_Arith) with Qltb.
  destruct (Qltb b a) eqn:E.
  - apply Qle_refl.
  - apply Qltb_ge. exact E.
Qed.

Lemma fmax_ge_l (a b : Q) : a <= SimpleMD.fmax a b.
Proof.
  unfold SimpleMD.fmax. change (@dltb Q Q_Arith) with Qltb.
  destruct (Qltb a b) eqn:E.
  - apply Qlt_le_weak. apply Qltb_lt. exact E.
  - apply Qle_refl.
Qed.

Lemma fmax_ge_r (a b : Q) : b <= SimpleMD.fmax a b.
Proof.
  unfold SimpleMD.fmax. change (@dltb Q Q_Arith) with Qltb.
  destruct (Qltb a b) eqn:E.
  - apply Qle_refl.
  - apply Qltb_ge. exact E.
Qed.

Lemma margin_ge_5 (extent : Q) : 5 <= SimpleMD.margin extent.
Proof. unfold SimpleMD.margin. apply fmax_ge_r. Qed.

(** The loop that measures the molecule only widens the extent, and the
    extent covers every atom the loop has been over. *)
Lemma extent_loop (geom : list Q) (atoms : list nat) (e0 : SimpleMD.Extent Q) :
  let e := fold_left (fun acc i => extent_atom geom i acc) atoms e0 in
  (SimpleMD.min_x e <= SimpleMD.min_x e0 /\ SimpleMD.max_x e0 <= SimpleMD.max_x e
   /\ SimpleMD.min_y e <= SimpleMD.min_y e0 /\ SimpleMD.max_y e0 <= SimpleMD.max_y e
   /\ SimpleMD.min_z e <= SimpleMD.min_z e0 /\ SimpleMD.max_z e0 <= SimpleMD.max_z e
   /\ SimpleMD.max_distance_from_origin e0 <= SimpleMD.max_distance_from_origin e)
  /\ forall i : nat, In i atoms ->
       SimpleMD.min_x e <= rd geom (3 * i + 0) <= SimpleMD.max_x e
       /\ SimpleMD.min_y e <= rd geom (3 * i + 1) <= SimpleMD.max_y e
       /\ SimpleMD.min_z e <= rd geom (3 * i + 2) <= SimpleMD.max_z e
       /\ distance geom i <= SimpleMD.max_distance_from_origin e.
Proof.
  cbv zeta. revert e0. induction atoms as [|j atoms IH]; intros e0; cbn [fold_left].
  - split; [|intros i []].
    repeat match goal with |- _ /\ _ => split end; apply Qle_refl.
  - destruct (IH (extent_atom geom j e0))
      as ((W1 & W2 & W3 & W4 & W5 & W6 & W7) & C).
    cbn [SimpleMD.extent_atom SimpleMD.min_x SimpleMD.max_x SimpleMD.min_y
         SimpleMD.max_y SimpleMD.min_z SimpleMD.max_z
         SimpleMD.max_distance_from_origin] in W1, W2, W3, W4, W5, W6, W7.
    split.
    + repeat match goal with |- _ /\ _ => split end;
        (eapply Qle_trans; [eassumption|apply fmin_le_l])
        || (eapply Qle_trans; [apply fmax_ge_l|eassumption]).
    + intros i [E|Hi]; [subst i|apply C; exact Hi].
      repeat match goal with |- _ /\ _ => split end;
        (eapply Qle_trans; [eassumption|apply fmin_le_r])
        || (eapply Qle_trans; [apply fmax_ge_r|eassumption]).
Qed.

Lemma molecular_extent_covers (geom : list Q) (i : nat) :
  (i < SimpleMD.m_natoms cfg)%nat ->
  let e := SimpleMD.molecular_extent sqrt cfg geom in
  SimpleMD.min_x e <= rd geom (3 * i + 0) <= SimpleMD.max_x e
  /\ SimpleMD.min_y e <= rd geom (3 * i + 1) <= SimpleMD.max_y e
  /\ SimpleMD.min_z e <= rd geom (3 * i + 2) <= SimpleMD.max_z e
  /\ distance geom i <= SimpleMD.max_distance_from_origin e
  /\ 0 <= SimpleMD.max_distance_from_origin e.
Proof.
  intros Hi. cbv zeta. unfold SimpleMD.molecular_extent, for_range.
  match goal with
  | |- context [fold_left _ (seq 0 ?n) ?e0] =>
      destruct (extent_loop geom (seq 0 n) e0) as ((_ & _ & _ & _ & _ & _ & W) & C)
  end.
  destruct (C i) as (Cx & Cy & Cz & Cd); [apply in_seq; lia|].
  split; [exact Cx|]. split; [exact Cy|]. split; [exact Cz|]. split; [exact Cd|].
  exact W.
Qed.

(** The walls [InitialiseWalls] gives when there are atoms. *)
Lemma walls_with_atoms (box geom : list Q) :
  (0 < SimpleMD.m_natoms cfg)%nat ->
  let w := InitialiseWalls box geom in
  let e := SimpleMD.molecular_extent sqrt cfg geom in
  let sized (lo hi : Q) (a b : Q * Q) :=
    if SimpleMD.needs_config lo hi then a else b in
  (SimpleMD.x_min w, SimpleMD.x_max w)
  = sized (SimpleMD.m_wall_x_min cfg) (SimpleMD.m_wall_x_max cfg)
      (SimpleMD.min_x e - SimpleMD.margin (SimpleMD.max_x e - SimpleMD.min_x e),
       SimpleMD.max_x e + SimpleMD.margin (SimpleMD.max_x e - SimpleMD.min_x e))
      (SimpleMD.m_wall_x_min cfg, SimpleMD.m_wall_x_max cfg)
  /\ (SimpleMD.y_min w, SimpleMD.y_max w)
     = sized (SimpleMD.m_wall_y_min cfg) (SimpleMD.m_wall_y_max cfg)
         (SimpleMD.min_y e - SimpleMD.margin (SimpleMD.max_y e - SimpleMD.min_y e),
          SimpleMD.max_y e + SimpleMD.margin (SimpleMD.max_y e - SimpleMD.min_y e))
         (SimpleMD.m_wall_y_min cfg, SimpleMD.m_wall_y_max cfg)
  /\ (SimpleMD.z_min w, SimpleMD.z_max w)
     = sized (SimpleMD.m_wall_z_min cfg) (SimpleMD.m_wall_z_max cfg)
         (SimpleMD.min_z e - SimpleMD.margin (SimpleMD.max_z e - SimpleMD.min_z e),
          SimpleMD.max_z e + SimpleMD.margin (SimpleMD.max_z e - SimpleMD.min_z e))
         (SimpleMD.m_wall_z_min cfg, SimpleMD.m_wall_z_max cfg)
  /\ SimpleMD.spheric_radius w
     = if Qeq_bool (SimpleMD.m_wall_spheric_radius cfg) 0
       then SimpleMD.max_distance_from_origin e
            + SimpleMD.margin (SimpleMD.max_distance_from_origin e)
       else SimpleMD.m_wall_spheric_radius cfg.
Proof.
  intros Hn. cbv zeta.
  assert (W : 0 <= SimpleMD.max_distance_from_origin
                     (SimpleMD.molecular_extent sqrt cfg geom)).
  { apply (@molecular_extent_covers geom 0%nat Hn). }
  pose proof (margin_ge_5 (SimpleMD.max_distance_from_origin
                             (SimpleMD.molecular_extent sqrt cfg geom))) as M.
  unfold SimpleMD.InitialiseWalls.
  replace (Nat.eqb (SimpleMD.m_natoms cfg) 0) with false
    by (symmetry; apply Nat.eqb_neq; lia).
  cbn [andb lit deqb dltb dadd Q_Arith].
  destruct (SimpleMD.needs_config (SimpleMD.m_wall_x_min cfg)
              (SimpleMD.m_wall_x_max cfg));
    destruct (SimpleMD.needs_config (SimpleMD.m_wall_y_min cfg)
                (SimpleMD.m_wall_y_max cfg));
    destruct (SimpleMD.needs_config (SimpleMD.m_wall_z_min cfg)
                (SimpleMD.m_wall_z_max cfg));
    destruct (Qeq_bool (SimpleMD.m_wall_spheric_radius cfg) 0) eqn:S;
    cbn [orb andb fst snd SimpleMD.x_min SimpleMD.x_max SimpleMD.y_min
         SimpleMD.y_max SimpleMD.z_min SimpleMD.z_max SimpleMD.spheric_radius];
    try (split; [reflexivity|]; split; [reflexivity|]; split; reflexivity);
    (assert (L : Qltb (SimpleMD.m_wall_spheric_radius cfg)
                   (SimpleMD.max_distance_from_origin
                      (SimpleMD.molecular_extent sqrt cfg geom)
                    + SimpleMD.margin
                        (SimpleMD.max_distance_from_origin
                           (SimpleMD.molecular_extent sqrt cfg geom))) = true)
       by (apply Qltb_lt; apply Qeq_bool_eq in S; rewrite S; lra));
    rewrite L;
    cbn [fst snd SimpleMD.x_min SimpleMD.x_max SimpleMD.y_min
         SimpleMD.y_max SimpleMD.z_min SimpleMD.z_max SimpleMD.spheric_radius];
    (split; [reflexivity|]; split; [reflexivity|]; split; reflexivity).
Qed.

Lemma sized_walls (box geom : list Q) (i : nat) :
  (i < SimpleMD.m_natoms cfg)%nat ->
  let w := InitialiseWalls box geom in
  let sized (lo hi lo' hi' x : Q) :=
    if SimpleMD.needs_config lo hi then lo' + 5 <= x /\ x <= hi' - 5
    else lo' = lo /\ hi' = hi in
  sized (SimpleMD.m_wall_x_min cfg) (SimpleMD.m_wall_x_max cfg)
    (SimpleMD.x_min w) (SimpleMD.x_max w) (rd geom (3 * i + 0))
  /\ sized (SimpleMD.m_wall_y_min cfg) (SimpleMD.m_wall_y_max cfg)
       (SimpleMD.y_min w) (SimpleMD.y_max w) (rd geom (3 * i + 1))
  /\ sized (SimpleMD.m_wall_z_min cfg) (SimpleMD.m_wall_z_max cfg)
       (SimpleMD.z_min w) (SimpleMD.z_max w) (rd geom (3 * i + 2))
  /\ (if Qeq_bool (SimpleMD.m_wall_spheric_radius cfg) 0
      then distance geom i + 5 <= SimpleMD.spheric_radius w
      else SimpleMD.spheric_radius w = SimpleMD.m_wall_spheric_radius cfg).
Proof.
  intros Hi. cbv zeta.
  assert (Hn : (0 < SimpleMD.m_natoms cfg)%nat) by lia.
  destruct (@walls_with_atoms box geom Hn) as (Wx & Wy & Wz & Ws).
  cbv zeta in Wx, Wy, Wz.
  destruct (@molecular_extent_covers geom i Hi) as ((X1 & X2) & (Y1 & Y2) & (Z1 & Z2) & Dd & _).
  pose proof (margin_ge_5 (SimpleMD.max_x (SimpleMD.molecular_extent sqrt cfg geom)
                           - SimpleMD.min_x (SimpleMD.molecular_extent sqrt cfg geom)))
    as Mx.
  pose proof (margin_ge_5 (SimpleMD.max_y (SimpleMD.molecular_extent sqrt cfg geom)
                           - SimpleMD.min_y (SimpleMD.molecular_extent sqrt cfg geom)))
    as My.
  pose proof (margin_ge_5 (SimpleMD.max_z (SimpleMD.molecular_extent sqrt cfg geom)
                           - SimpleMD.min_z (SimpleMD.molecular_extent sqrt cfg geom)))
    as Mz.
  pose proof (margin_ge_5 (SimpleMD.max_distance_from_origin
                             (SimpleMD.molecular_extent sqrt cfg geom))) as Ms.
  change (@dsub Q Q_Arith) with Qminus in *.
  change (@dadd Q Q_Arith) with Qplus in *.
  split; [|split; [|split]].
  - destruct (SimpleMD.needs_config (SimpleMD.m_wall_x_min cfg)
                (SimpleMD.m_wall_x_max cfg));
      injection Wx as -> ->; [split; lra|split; reflexivity].
  - destruct (SimpleMD.needs_config (SimpleMD.m_wall_y_min cfg)
                (SimpleMD.m_wall_y_max cfg));
      injection Wy as -> ->; [split; lra|split; reflexivity].
  - destruct (SimpleMD.needs_config (SimpleMD.m_wall_z_min cfg)
                (SimpleMD.m_wall_z_max cfg));
      injection Wz as -> ->; [split; lra|split; reflexivity].
  - rewrite Ws. destruct (Qeq_bool (SimpleMD.m_wall_spheric_radius cfg) 0);
      [lra|reflexivity].
Qed.

(** X16.  Where [InitialiseWalls] sizes a wall itself - the bounds of an axis
    that were left at zero or are not ascending, the radius that was left at
    zero - every atom ends up inside with at least 5 to spare; bounds and a
    radius that were given and are valid are used as given. *)
Theorem auto_sized_walls_contain_the_molecule (box geom : list Q) (i : nat) :
  (i < SimpleMD.m_natoms cfg)%nat ->
  let w := InitialiseWalls box geom in
  let sized (lo hi lo' hi' x : Q) :=
    if SimpleMD.needs_config lo hi then lo' + 5 <= x /\ x <= hi' - 5
    else lo' = lo /\ hi' = hi in
  sized (SimpleMD.m_wall_x_min cfg) (SimpleMD.m_wall_x_max cfg)
    (SimpleMD.x_min w) (SimpleMD.x_max w) (rd geom (3 * i + 0))
  /\ sized (SimpleMD.m_wall_y_min cfg) (SimpleMD.m_wall_y_max cfg)
       (SimpleMD.y_min w) (SimpleMD.y_max w) (rd geom (3 * i + 1))
  /\ sized (SimpleMD.m_wall_z_min cfg) (SimpleMD.m_wall_z_max cfg)
       (SimpleMD.z_min w) (SimpleMD.z_max w) (rd geom (3 * i + 2))
  /\ (if Qeq_bool (SimpleMD.m_wall_spheric_radius cfg) 0
      then distance geom i + 5 <= SimpleMD.spheric_radius w
      else SimpleMD.spheric_radius w = SimpleMD.m_wall_spheric_radius cfg).
Proof. exact (@sized_walls box geom i). Qed.

(** X17.  A box that [InitialiseWalls] has sized on all three axes leaves the
    geometry it was sized for alone: the rectangular harmonic wall returns no
    potential, counts no violation and keeps the gradient. *)
Theorem auto_sized_box_is_idle_on_its_geometry (box : list Q) (s : State) :
  SimpleMD.needs_config (SimpleMD.m_wall_x_min cfg) (SimpleMD.m_wall_x_max cfg) = true ->
  SimpleMD.needs_config (SimpleMD.m_wall_y_min cfg) (SimpleMD.m_wall_y_max cfg) = true ->
  SimpleMD.needs_config (SimpleMD.m_wall_z_min cfg) (SimpleMD.m_wall_z_max cfg) = true ->
  let cfg' := SimpleMD.with_walls cfg
                (InitialiseWalls box (SimpleMD.m_eigen_geometry s)) in
  let r := fst (SimpleMD.ApplyRectHarmonicWalls kb_Eh cfg' s) in
  fst r == 0
  /\ SimpleMD.m_wall_violation_count (snd r) = 0%Z
  /\ forall p : nat,
       rd (SimpleMD.m_eigen_gradient (snd r)) p == rd (SimpleMD.m_eigen_gradient s) p.
Proof.
  intros Nx Ny Nz. cbv zeta. apply rect_idle.
  intros i c Hi Hc. cbn [SimpleMD.with_walls SimpleMD.m_natoms] in Hi.
  destruct (@sized_walls box (SimpleMD.m_eigen_geometry s) i Hi) as (Sx & Sy & Sz & _).
  rewrite Nx in Sx. rewrite Ny in Sy. rewrite Nz in Sz.
  destruct c as [|[|[|c]]]; [| | |lia];
    cbn [SimpleMD.wall_lo SimpleMD.wall_hi SimpleMD.with_walls
         SimpleMD.m_wall_x_min SimpleMD.m_wall_x_max SimpleMD.m_wall_y_min
         SimpleMD.m_wall_y_max SimpleMD.m_wall_z_min SimpleMD.m_wall_z_max];
    split; lra.
Qed.

(** X18.  A sphere that [InitialiseWalls] has sized leaves the geometry it
    was sized for alone as well, when no atom sits on the origin. *)
Theorem auto_sized_sphere_is_idle_on_its_geometry (box : list Q) (s : State) :
  SimpleMD.m_wall_spheric_radius cfg == 0 ->
  (forall i : nat, (i < SimpleMD.m_natoms cfg)%nat ->
     0 < distance (SimpleMD.m_eigen_geometry s) i) ->
  let cfg' := SimpleMD.with_walls cfg
                (InitialiseWalls box (SimpleMD.m_eigen_geometry s)) in
  let r := fst (SimpleMD.ApplySphericHarmonicWalls sqrt kb_Eh cfg' s) in
  fst r == 0
  /\ SimpleMD.m_wall_violation_count (snd r) = 0%Z
  /\ forall p : nat,
       rd (SimpleMD.m_eigen_gradient (snd r)) p == rd (SimpleMD.m_eigen_gradient s) p.
Proof.
  intros Rz Hd. cbv zeta. apply spheric_idle.
  intros i Hi. cbn [SimpleMD.with_walls SimpleMD.m_natoms] in Hi.
  split; [apply Hd; exact Hi|].
  destruct (@sized_walls box (SimpleMD.m_eigen_geometry s) i Hi) as (_ & _ & _ & Ss).
  apply Qeq_bool_iff in Rz. rewrite Rz in Ss.
  cbn [SimpleMD.with_walls SimpleMD.m_wall_spheric_radius]. lra.
Qed.

End InitialiseWallsFacts.


(** One atom at (1, 2, 2), 3 from the origin, and no wall configured: the
    box is sized from 1 - 5 to 1 + 5 along x, and so on, the radius is
    3 + 5. *)
Lemma auto_sized_walls_contain_the_molecule_witness :
  let geom := [1; 2; 2] in
  let w := SimpleMD.InitialiseWalls (Inputs.sqrt_is 3) Inputs.unwalled_config
             [] geom in
  (SimpleMD.x_min w + 5 <= 1 /\ 1 <= SimpleMD.x_max w - 5)
  /\ (SimpleMD.y_min w + 5 <= 2 /\ 2 <= SimpleMD.y_max w - 5)
  /\ (SimpleMD.z_min w + 5 <= 2 /\ 2 <= SimpleMD.z_max w - 5)
  /\ 3 + 5 <= SimpleMD.spheric_radius w.
Proof.
  exact (@auto_sized_walls_contain_the_molecule (Inputs.sqrt_is 3)
           Inputs.unwalled_config [] [1; 2; 2] 0%nat (Nat.lt_0_succ 0)).
Defined.

Lemma auto_sized_box_is_idle_on_its_geometry_witness :
  let s := Inputs.atom_at (D := Q) 1 2 2 in
  let cfg' := SimpleMD.with_walls Inputs.unwalled_config
                (SimpleMD.InitialiseWalls (Inputs.sqrt_is 3) Inputs.unwalled_config
                   [] (SimpleMD.m_eigen_geometry s)) in
  let r := fst (SimpleMD.ApplyRectHarmonicWalls Inputs.kb_Eh cfg' s) in
  fst r == 0
  /\ SimpleMD.m_wall_violation_count (snd r) = 0%Z
  /\ forall p : nat,
       rd (SimpleMD.m_eigen_gradient (snd r)) p == rd (SimpleMD.m_eigen_gradient s) p.
Proof.
  exact (@auto_sized_box_is_idle_on_its_geometry unit (Inputs.sqrt_is 3)
           Inputs.kb_Eh Inputs.unwalled_config [] (Inputs.atom_at 1 2 2)
           eq_refl eq_refl eq_refl).
Defined.

Lemma auto_sized_sphere_is_idle_on_its_geometry_witness :
  let s := Inputs.atom_at (D := Q) 1 2 2 in
  let cfg' := SimpleMD.with_walls Inputs.unwalled_config
                (SimpleMD.InitialiseWalls (Inputs.sqrt_is 3) Inputs.unwalled_config
                   [] (SimpleMD.m_eigen_geometry s)) in
  let r := fst (SimpleMD.ApplySphericHarmonicWalls (Inputs.sqrt_is 3)
                  Inputs.kb_Eh cfg' s) in
  fst r == 0
  /\ SimpleMD.m_wall_violation_count (snd r) = 0%Z
  /\ forall p : nat,
       rd (SimpleMD.m_eigen_gradient (snd r)) p == rd (SimpleMD.m_eigen_gradient s) p.
Proof.
  apply (@auto_sized_sphere_is_idle_on_its_geometry unit (Inputs.sqrt_is 3)
           Inputs.kb_Eh Inputs.unwalled_config [] (Inputs.atom_at 1 2 2)).
  - reflexivity.
  - intros i Hi. reflexivity.
Defined.


(** ** The Berendsen thermostat *)

Section ThermostatFacts.
Variable Th : Type.
Variable sqrt : Q -> Q.
Variable kb_Eh : Q.
Variable cfg : SimpleMD.Config Q.

Local Abbreviation State := (SimpleMD.State Q Th).
Local Abbreviation EKin := (SimpleMD.EKin (Th := Th) kb_Eh cfg).
Local Abbreviation Berendson := (SimpleMD.Berendson (Th := Th) sqrt cfg).

(** The loop of [Berendson] scales the entries of the atoms. *)
Lemma scaling_loop (lambda : Q) (n : nat) :
  forall (s : nat) (v : list Q) (p : nat),
    let v' := fold_left
                (fun acc i => SimpleMD.upd_xyz acc i (fun v j => rd v j * lambda))
                (seq s n) v in
    length v' = length v
    /\ rd v' p = if ((3 * s <=? p) && (p <? 3 * (s + n)) && (p <? length v))%nat
                 then rd v p * lambda else rd v p.
Proof.
  induction n as [|n IH]; intros s v p; cbv zeta; cbn [seq fold_left].
  - split; [reflexivity|].
    destruct (Nat.leb_spec (3 * s) p); destruct (Nat.ltb_spec p (3 * (s + 0)));
      cbn [andb]; try reflexivity; lia.
  - pose proof (@rd_atom_update Q _ v s (fun old _ => old * lambda) p) as U.
    cbv zeta in U. destruct U as [L1 G1].
    destruct (IH (S s) (SimpleMD.upd_xyz v s (fun v j => rd v j * lambda)) p)
      as [L2 G2].
    unfold SimpleMD.upd_xyz in L2, G2 |- *. cbv beta in L2, G2 |- *.
    split; [rewrite L2; exact L1|].
    rewrite G2, G1, L1.
    destruct (Nat.leb_spec (3 * s) p); destruct (Nat.ltb_spec p (3 * s + 3));
      destruct (Nat.leb_spec (3 * S s) p);
      destruct (Nat.ltb_spec p (3 * (S s + n)));
      destruct (Nat.ltb_spec p (3 * (s + S n)));
      destruct (Nat.ltb_spec p (length v));
      cbn [andb]; try reflexivity; lia.
Qed.

Lemma kinetic_sum_scales (lambda : Q) (v v' : list Q) (atoms : list nat) (e e' : Q) :
  (forall i : nat, In i atoms ->
     rd v' (3 * i) = rd v (3 * i) * lambda
     /\ rd v' (3 * i + 1) = rd v (3 * i + 1) * lambda
     /\ rd v' (3 * i + 2) = rd v (3 * i + 2) * lambda) ->
  e' == lambda * lambda * e ->
  fold_left (fun acc i => acc + SimpleMD.kinetic_term cfg v' i) atoms e'
  == lambda * lambda
     * fold_left (fun acc i => acc + SimpleMD.kinetic_term cfg v i) atoms e.
Proof.
  revert e e'. induction atoms as [|i atoms IH]; intros e e' Hv He; cbn [fold_left].
  - exact He.
  - apply IH.
    + intros j Hj. apply Hv. right. exact Hj.
    + destruct (Hv i (or_introl eq_refl)) as (V0 & V1 & V2).
      unfold SimpleMD.kinetic_term. rewrite V0, V1, V2.
      cbn [dadd dmul Q_Arith]. rewrite He. ring.
Qed.

(** X19.  One call of the Berendsen thermostat moves the temperature towards
    the target by the fraction [m_dT / (2 m_coupling)] of the difference: with
    [m_T] the temperature of the velocities, as [EKin] has left it, the
    temperature [EKin] finds after [Berendson] is
    [m_T + m_dT / (2 m_coupling) * (m_T0 - m_T)].  (The square root is taken
    as exact at the argument the thermostat gives it.) *)
Theorem berendson_relaxes_temperature (m_coupling : Q) (s0 : State) :
  let s1 := EKin s0 in
  let s2 := EKin (SimpleMD.set_m_eigen_velocities (Berendson m_coupling s1) s1) in
  let a := 1 + (SimpleMD.m_dT cfg / 2 * (SimpleMD.m_T0 cfg - SimpleMD.m_T s1))
               / (SimpleMD.m_T s1 * m_coupling) in
  (3 * SimpleMD.m_natoms cfg <= length (SimpleMD.m_eigen_velocities s0))%nat ->
  sqrt a * sqrt a == a ->
  ~ SimpleMD.m_T s1 == 0 ->
  ~ m_coupling == 0 ->
  SimpleMD.m_T s2
  == SimpleMD.m_T s1
     + SimpleMD.m_dT cfg / (2 * m_coupling) * (SimpleMD.m_T0 cfg - SimpleMD.m_T s1)
  /\ SimpleMD.m_Ekin s2 == a * SimpleMD.m_Ekin s1.
Proof.
  cbv zeta. intros Hlen Hsq HT Hc.
  set (s1 := EKin s0) in *.
  set (a := 1 + (SimpleMD.m_dT cfg / 2 * (SimpleMD.m_T0 cfg - SimpleMD.m_T s1))
                / (SimpleMD.m_T s1 * m_coupling)) in *.
  set (lambda := sqrt a) in *.
  assert (V1 : SimpleMD.m_eigen_velocities s1 = SimpleMD.m_eigen_velocities s0)
    by reflexivity.
  assert (D1 : SimpleMD.m_dof s1 = SimpleMD.m_dof s0) by reflexivity.
  assert (K : SimpleMD.m_Ekin
                (EKin (SimpleMD.set_m_eigen_velocities (Berendson m_coupling s1) s1))
              == a * SimpleMD.m_Ekin s1).
  { assert (E2 : SimpleMD.m_Ekin
                   (EKin (SimpleMD.set_m_eigen_velocities
                            (Berendson m_coupling s1) s1))
                 = fold_left
                     (fun acc i =>
                        acc + SimpleMD.kinetic_term cfg (Berendson m_coupling s1) i)
                     (seq 0 (SimpleMD.m_natoms cfg)) 0 * (1 # 2)) by reflexivity.
    assert (E1 : SimpleMD.m_Ekin s1
                 = fold_left
                     (fun acc i =>
                        acc + SimpleMD.kinetic_term cfg
                                (SimpleMD.m_eigen_velocities s0) i)
                     (seq 0 (SimpleMD.m_natoms cfg)) 0 * (1 # 2)) by reflexivity.
    rewrite E2, E1.
    rewrite (@kinetic_sum_scales lambda (SimpleMD.m_eigen_velocities s0)
               (Berendson m_coupling s1) (seq 0 (SimpleMD.m_natoms cfg)) 0 0).
    - rewrite <- Hsq. ring.
    - intros i Hi. apply in_seq in Hi.
      assert (P : forall p : nat, (3 * i <= p < 3 * i + 3)%nat ->
                    rd (Berendson m_coupling s1) p
                    = rd (SimpleMD.m_eigen_velocities s0) p * lambda).
      { intros p Hp. unfold SimpleMD.Berendson, for_range.
        destruct (@scaling_loop lambda (SimpleMD.m_natoms cfg) 0
                    (SimpleMD.m_eigen_velocities s1) p) as [_ G].
        cbn [lit dadd dsub dmul ddiv Q_Arith]. fold a. fold lambda.
        rewrite V1 in G |- *. etransitivity; [exact G|].
        replace ((3 * 0 <=? p)%nat) with true by (symmetry; apply Nat.leb_le; lia).
        replace ((p <? 3 * (0 + SimpleMD.m_natoms cfg))%nat) with true
          by (symmetry; apply Nat.ltb_lt; lia).
        replace ((p <? length (SimpleMD.m_eigen_velocities s0))%nat) with true
          by (symmetry; apply Nat.ltb_lt; lia).
        reflexivity. }
      split; [apply P; lia|]. split; apply P; lia.
    - ring. }
  split; [|exact K].
  assert (T2 : SimpleMD.m_T
                 (EKin (SimpleMD.set_m_eigen_velocities (Berendson m_coupling s1) s1))
               == 2 * SimpleMD.m_Ekin
                        (EKin (SimpleMD.set_m_eigen_velocities
                                 (Berendson m_coupling s1) s1))
                  / (kb_Eh * inject_Z (SimpleMD.m_dof s0))) by reflexivity.
  assert (T1 : SimpleMD.m_T s1
               == 2 * SimpleMD.m_Ekin s1 / (kb_Eh * inject_Z (SimpleMD.m_dof s0)))
    by reflexivity.
  rewrite T2, K.
  transitivity (a * SimpleMD.m_T s1).
  - rewrite T1. unfold Qdiv. ring.
  - unfold a. field. split; assumption.
Qed.

End ThermostatFacts.


(** One atom of unit mass with velocity 1, one degree of freedom and
    [kb_Eh] taken as 1: the temperature is 1, the target 4, the time step 2
    and the coupling 1, so the thermostat scales by the root of 4 and the
    temperature goes from 1 to 1 + 2 / 2 * (4 - 1). *)
Lemma berendson_relaxes_temperature_witness :
  let s1 := SimpleMD.EKin 1 Inputs.warming_config (Inputs.warming_state (D := Q)) in
  let s2 := SimpleMD.EKin 1 Inputs.warming_config
              (SimpleMD.set_m_eigen_velocities
                 (SimpleMD.Berendson (Inputs.sqrt_is 2) Inputs.warming_config 1 s1)
                 s1) in
  SimpleMD.m_T s2 == 4 /\ SimpleMD.m_T s1 == 1.
Proof.
  cbv zeta. split; [|reflexivity].
  destruct (@berendson_relaxes_temperature unit (Inputs.sqrt_is 2) 1
              Inputs.warming_config 1 Inputs.warming_state) as [T _].
  - cbn. lia.
  - reflexivity.
  - intros E. discriminate E.
  - intros E. discriminate E.
  - rewrite T. reflexivity.
Defined.


(** ** Translation and distance *)

Section GeometryFacts.
Variable sqrt : Q -> Q.

Local Abbreviation Position := (GeometryTools.Position (D := Q)).
Local Abbreviation Translate := (GeometryTools.TranslateMolecule (D := Q)).
Local Abbreviation Distance := (GeometryTools.Distance sqrt).

(** X20.  Translations of a geometry compose: moving it from [a] to [b] and
    then from [b] to [c] gives, row by row, what moving it from [a] to [c]
    gives; in particular the way back undoes a translation, and a translation
    from a point to itself changes nothing. *)
Theorem translations_compose (geom : list Position) (a b c : Position) :
  let same (p q : Position) :=
    GeometryTools.px p == GeometryTools.px q
    /\ GeometryTools.py p == GeometryTools.py q
    /\ GeometryTools.pz p == GeometryTools.pz q in
  Forall2 same (Translate (Translate geom a b) b c) (Translate geom a c)
  /\ Forall2 same (Translate (Translate geom a b) b a) geom
  /\ Forall2 same (Translate geom a a) geom.
Proof.
  cbv zeta. unfold GeometryTools.TranslateMolecule.
  split; [|split]; induction geom as [|[[x y] z] geom IH]; cbn [map];
    try constructor; try exact IH;
    destruct a as [[a0 a1] a2]; destruct b as [[b0 b1] b2];
    destruct c as [[c0 c1] c2];
    unfold GeometryTools.padd, GeometryTools.psub, GeometryTools.px,
      GeometryTools.py, GeometryTools.pz;
    cbn [fst snd dadd dsub Q_Arith];
    (split; [ring|split; ring]).
Qed.

(** X21.  The distance is symmetric and does not change when both points are
    moved by the same vector.  ([sqrt] is taken to give equal results for
    equal rationals.) *)
Theorem distance_is_symmetric_and_translation_invariant (a b t : Position) :
  (forall x y : Q, x == y -> sqrt x == sqrt y) ->
  Distance a b == Distance b a
  /\ Distance (GeometryTools.padd a t) (GeometryTools.padd b t) == Distance a b.
Proof.
  intros Hs.
  destruct a as [[a0 a1] a2]; destruct b as [[b0 b1] b2];
    destruct t as [[t0 t1] t2].
  unfold GeometryTools.Distance, GeometryTools.padd, GeometryTools.px,
    GeometryTools.py, GeometryTools.pz.
  cbn [fst snd dadd dsub dmul Q_Arith].
  split; apply Hs; ring.
Qed.

End GeometryFacts.


(** The points (0, 0, 0) and (3, 4, 0), moved by (1, 1, 1); the stand-in for
    the square root is the identity. *)
Lemma distance_is_symmetric_and_translation_invariant_witness :
  let a : GeometryTools.Position (D := Q) := (0, 0, 0) in
  let b : GeometryTools.Position (D := Q) := (3, 4, 0) in
  let t : GeometryTools.Position (D := Q) := (1, 1, 1) in
  GeometryTools.Distance (fun x => x) a b == GeometryTools.Distance (fun x => x) b a
  /\ GeometryTools.Distance (fun x => x) (GeometryTools.padd a t)
       (GeometryTools.padd b t)
     == GeometryTools.Distance (fun x => x) a b.
Proof.
  apply (@distance_is_symmetric_and_translation_invariant (fun x => x)
           (0, 0, 0) (3, 4, 0) (1, 1, 1)).
  intros x y E. exact E.
Defined.


(** ** The gradient handed to the L-BFGS solver *)

Section ProbeFacts.
Variable objective : list Q -> Q.

Local Abbreviation call := (LBFGSRotation.call objective).
Local Abbreviation central_difference :=
  (LBFGSRotation.central_difference objective).
Local Abbreviation dx := (LBFGSRotation.dx (D := Q)).

(** X22.  The gradient is taken by central differences, but the angle that
    has been probed is left one step below its value: the first component is
    the difference quotient at [x], the second one at [x] with the first angle
    lowered by [dx], the third one at [x] with the first two angles lowered by
    [dx].  (The objective is taken to give equal results for equal
    angles.) *)
Theorem gradient_probes_are_not_restored (x0 x1 x2 g0 g1 g2 : Q) :
  (forall u v : list Q, Forall2 Qeq u v -> objective u == objective v) ->
  Forall2 Qeq (snd (call [x0; x1; x2] [g0; g1; g2]))
    [central_difference 0 [x0; x1; x2];
     central_difference 1 [x0 - dx; x1; x2];
     central_difference 2 [x0 - dx; x1 - dx; x2]]
  /\ fst (call [x0; x1; x2] [g0; g1; g2]) = objective [x0; x1; x2].
Proof.
  intros Ho. split; [|reflexivity].
  unfold LBFGSRotation.call, for_range, LBFGSRotation.central_difference,
    LBFGSRotation.probe.
  cbn [seq fold_left fst snd wr rd nth lit dadd dsub dmul ddiv Q_Arith].
  assert (E : forall p p' m m' : Q, p == p' -> m == m' ->
                (p - m) / (2 * dx) == (p' - m') / (2 * dx)).
  { intros p p' m m' Ep Em. rewrite Ep, Em. reflexivity. }
  constructor; [|constructor; [|constructor; [|constructor]]].
  - apply E; apply Ho; repeat constructor; try reflexivity.
    unfold LBFGSRotation.dx. cbn [lit Q_Arith]. ring.
  - apply E; apply Ho; repeat constructor; try reflexivity;
      unfold LBFGSRotation.dx; cbn [lit Q_Arith]; ring.
  - apply E; apply Ho; repeat constructor; try reflexivity;
      unfold LBFGSRotation.dx; cbn [lit Q_Arith]; ring.
Qed.

End ProbeFacts.


Lemma mixed_objective_respects_equality (u v : list Q) :
  Forall2 Qeq u v -> Inputs.mixed_objective u == Inputs.mixed_objective v.
Proof.
  intros F. unfold Inputs.mixed_objective. cbn [dmul Q_Arith].
  destruct F as [|a b u v E F]; [reflexivity|].
  destruct F as [|a' b' u v E' F]; unfold rd; cbn [nth]; rewrite E;
    [reflexivity|rewrite E'; reflexivity].
Qed.

(** The product of the first two angles at (3, 7, 0): the derivative along
    the second angle is 3, the component the code returns is the quotient at
    the first angle lowered by [dx]. *)
Lemma gradient_probes_are_not_restored_witness :
  Forall2 Qeq
    (snd (LBFGSRotation.call (Inputs.mixed_objective (D := Q)) [3; 7; 0] [0; 0; 0]))
    [LBFGSRotation.central_difference Inputs.mixed_objective 0 [3; 7; 0];
     LBFGSRotation.central_difference Inputs.mixed_objective 1
       [3 - LBFGSRotation.dx; 7; 0];
     LBFGSRotation.central_difference Inputs.mixed_objective 2
       [3 - LBFGSRotation.dx; 7 - LBFGSRotation.dx; 0]]
  /\ fst (LBFGSRotation.call (Inputs.mixed_objective (D := Q)) [3; 7; 0] [0; 0; 0])
     = Inputs.mixed_objective [3; 7; 0].
Proof.
  exact (@gradient_probes_are_not_restored Inputs.mixed_objective 3 7 0 0 0 0
           mixed_objective_respects_equality).
Defined.

(** ** The run loop and the step counter *)

Section RunFacts.
Context {D : Type} `{Arith D}.
Variable Th : Type.
Variable exp : D -> D.
Variable kb_Eh : D.
Variable BestFitRMSD : list D -> list D -> D.
Variable DriverGradient : list D -> list D -> list D.
Variable counter0 : Z.
Variables energy0 factor0 : D.
Variable Backend : list D -> SimpleMD.BackendResult D.
Variable Thermostat : SimpleMD.Config D -> SimpleMD.State D Th -> list D * Th.
Variable WallPotential : SimpleMD.Config D -> SimpleMD.State D Th -> list D * Z.
Variable RemoveRotations : SimpleMD.Config D -> SimpleMD.State D Th -> list D.
Variable cfg : SimpleMD.Config D.
Variable rattle : Z.
Local Open Scope D_scope.

Local Abbreviation State := (SimpleMD.State D Th).
Local Abbreviation same_clock := (@SimpleMD.same_clock D Th).
Local Abbreviation forces :=
  (SimpleMD.forces exp kb_Eh BestFitRMSD DriverGradient counter0 energy0
     factor0 Backend Thermostat WallPotential cfg).
Local Abbreviation Verlet :=
  (SimpleMD.Verlet exp kb_Eh BestFitRMSD DriverGradient counter0 energy0
     factor0 Backend Thermostat WallPotential cfg).
Local Abbreviation Rattle :=
  (SimpleMD.Rattle exp kb_Eh BestFitRMSD DriverGradient counter0 energy0
     factor0 Backend Thermostat WallPotential RemoveRotations cfg).
Local Abbreviation Integrator :=
  (SimpleMD.Integrator exp kb_Eh BestFitRMSD DriverGradient counter0 energy0
     factor0 Backend Thermostat WallPotential RemoveRotations cfg rattle).
Local Abbreviation loop_pass :=
  (SimpleMD.loop_pass exp kb_Eh BestFitRMSD DriverGradient counter0 energy0
     factor0 Backend Thermostat WallPotential RemoveRotations cfg rattle).
Local Abbreviation md_loop :=
  (SimpleMD.md_loop exp kb_Eh BestFitRMSD DriverGradient counter0 energy0
     factor0 Backend Thermostat WallPotential RemoveRotations cfg rattle).

Lemma same_clock_refl (s : State) : same_clock s s.
Proof. split; reflexivity. Qed.

Lemma same_clock_trans (s1 s2 s3 : State) :
  same_clock s1 s2 -> same_clock s2 s3 -> same_clock s1 s3.
Proof.
  intros [A1 A2] [B1 B2]. split; etransitivity; eassumption.
Qed.

Lemma forces_clock (s : State) : same_clock s (forces s).
Proof.
  unfold SimpleMD.forces, SimpleMD.apply_WallPotential, SimpleMD.mtd_hook,
    SimpleMD.assign_Epot, SimpleMD.FastEnergy, SimpleMD.ThermostatFunction.
  destruct (SimpleMD.m_rmsd_mtd cfg); [|split; reflexivity].
  match goal with
  | |- context [if ?b then _ else _] => destruct b
  end; [|split; reflexivity].
  unfold SimpleMD.ApplyRMSDMTD, SimpleMD.mtd_deposit, SimpleMD.mtd_evaluate,
    SimpleMD.mtd_seed.
  cbn [fst snd SimpleMD.m_bias_structure_count SimpleMD.m_bias_threads
       SimpleMD.m_bias_energy SimpleMD.m_currentStep SimpleMD.m_step
       SimpleMD.set_m_colvar_incr SimpleMD.set_m_eigen_gradient
       SimpleMD.set_m_bias_threads SimpleMD.set_m_bias_structure_count
       SimpleMD.set_m_bias_energy SimpleMD.set_m_rmsd_mtd_molecule
       SimpleMD.set_m_wall_violation_count SimpleMD.set_m_Epot
       SimpleMD.set_m_interface_nan SimpleMD.set_m_interface_error
       SimpleMD.set_m_thermostat_state SimpleMD.set_m_eigen_velocities].
  repeat match goal with
         | |- context [if ?b then _ else _] => destruct b
         end; split; reflexivity.
Qed.

Lemma Verlet_clock (s : State) : same_clock s (Verlet s).
Proof.
  unfold SimpleMD.Verlet, SimpleMD.EKin, SimpleMD.ThermostatFunction,
    SimpleMD.finish_step, SimpleMD.Verlet_first.
  destruct (SimpleMD.Verlet_drift cfg s) as [[x v] ekin].
  match goal with
  | |- context [SimpleMD.forces _ _ _ _ _ _ _ _ _ _ _ ?a] =>
      destruct (forces_clock a) as [E1 E2]
  end.
  split; cbn [SimpleMD.m_step SimpleMD.m_currentStep SimpleMD.set_m_T
              SimpleMD.set_m_Ekin SimpleMD.set_m_unstable
              SimpleMD.set_m_thermostat_state SimpleMD.set_m_eigen_velocities
              SimpleMD.set_m_eigen_geometry] in *; assumption.
Qed.

Lemma Rattle_clock (fuel : nat) (s s' : State) :
  Rattle fuel s = Ok s' -> same_clock s s'.
Proof.
  unfold SimpleMD.Rattle. intros HR.
  destruct (SimpleMD.position_stage cfg fuel _ _) as [[p n]| |]; try discriminate.
  cbn [rbind fst] in HR.
  destruct (SimpleMD.velocity_stage cfg fuel _ _) as [[v n2]| |]; try discriminate.
  cbn [rbind fst] in HR. injection HR as <-.
  unfold SimpleMD.Rattle_end, SimpleMD.Rattle_settle, SimpleMD.EKin,
    SimpleMD.ThermostatFunction, SimpleMD.finish_step,
    SimpleMD.apply_RemoveRotations, SimpleMD.Rattle_middle.
  match goal with
  | |- context [SimpleMD.forces _ _ _ _ _ _ _ _ _ _ _ ?a] =>
      destruct (forces_clock a) as [E1 E2]
  end.
  destruct (SimpleMD.p_move p);
    split; cbn [SimpleMD.m_step SimpleMD.m_currentStep SimpleMD.set_m_T
                SimpleMD.set_m_Ekin SimpleMD.set_m_unstable SimpleMD.set_m_dof
                SimpleMD.set_m_virial_correction
                SimpleMD.set_m_thermostat_state SimpleMD.set_m_eigen_velocities
                SimpleMD.set_m_eigen_geometry] in *; assumption.
Qed.

Lemma Integrator_clock (fuel : nat) (s s' : State) :
  Integrator fuel s = Ok s' -> same_clock s s'.
Proof.
  unfold SimpleMD.Integrator. destruct (rattle =? 1)%Z.
  - apply Rattle_clock.
  - intros E. injection E as <-. apply Verlet_clock.
Qed.

(** X23.  The run loop counts its passes in a local variable and never
    touches the member [m_step], which is what [Verlet] and [Rattle] compare
    with [m_mtd_steps] before they apply the bias: after any number of passes
    the member is what it was when the loop began.  A run that is not aborted
    has added one to the local counter and [m_dT] to the simulation time in
    every pass; a run that is aborted stops in the pass that was unstable,
    with the counter and the time of the passes before it. *)
Theorem run_loop_never_advances_member_step (fuel passes : nat)
    (local_m_step : Z) (s : State) (r : SimpleMD.Outcome D Th * Z) :
  md_loop fuel passes local_m_step s = Ok r ->
  SimpleMD.m_step (SimpleMD.outcome_state (fst r)) = SimpleMD.m_step s
  /\ match fst r with
     | SimpleMD.Continue s' =>
         snd r = (local_m_step + Z.of_nat passes)%Z
         /\ SimpleMD.m_currentStep s'
            = SimpleMD.advanced cfg passes (SimpleMD.m_currentStep s)
     | SimpleMD.AbortedUnstable s' =>
         exists done : nat,
           (done < passes)%nat
           /\ snd r = (local_m_step + Z.of_nat done)%Z
           /\ SimpleMD.m_currentStep s'
              = SimpleMD.advanced cfg done (SimpleMD.m_currentStep s)
     end.
Proof.
  revert local_m_step s r.
  induction passes as [|k IH]; intros local_m_step s r; cbn [SimpleMD.md_loop].
  - intros E. injection E as <-. cbn. split; [reflexivity|]. split; [lia|reflexivity].
  - unfold SimpleMD.loop_pass.
    destruct (Integrator fuel s) as [s1| |] eqn:EI; cbn [rbind]; try discriminate.
    destruct (Integrator_clock fuel s EI) as [C1 C2].
    destruct (SimpleMD.m_unstable s1 || SimpleMD.m_interface_error s1
              || SimpleMD.m_interface_nan s1); cbn [rbind fst snd].
    + intros E. injection E as <-. cbn [fst snd SimpleMD.outcome_state].
      split; [exact C1|]. exists O. split; [lia|]. split; [lia|].
      cbn [SimpleMD.advanced]. exact C2.
    + intros E. destruct (IH _ _ _ E) as [M R]. split.
      * rewrite M. cbn [SimpleMD.m_step SimpleMD.set_m_currentStep]. exact C1.
      * destruct (fst r) as [s'|s'].
        -- destruct R as [R1 R2]. split; [lia|].
           rewrite R2. cbn [SimpleMD.m_currentStep SimpleMD.set_m_currentStep
                            SimpleMD.advanced]. rewrite C2. reflexivity.
        -- destruct R as (done & Hd & R1 & R2). exists (S done).
           split; [lia|]. split; [lia|].
           rewrite R2. cbn [SimpleMD.m_currentStep SimpleMD.set_m_currentStep
                            SimpleMD.advanced]. rewrite C2. reflexivity.
Qed.

End RunFacts.

Lemma run_loop_never_advances_member_step_witness :
  exists s' : SimpleMD.State float unit,
    Inputs.atom_md_loop (lit (-1)) 1 3 0 (Inputs.atom_state (lit 100))
    = Ok (SimpleMD.Continue s', 3%Z)
    /\ SimpleMD.m_step s' = 0%Z
    /\ SimpleMD.m_currentStep s'
       = SimpleMD.advanced Inputs.atom_config 3 (lit 0).
Proof.
  unfold Inputs.atom_md_loop.
  match goal with
  | |- exists s', ?run = _ /\ _ =>
      assert (E : exists s', run = Ok (SimpleMD.Continue s', 3%Z))
        by (vm_compute; eexists; reflexivity)
  end.
  destruct E as [s' E]. exists s'. split; [exact E|].
  destruct (run_loop_never_advances_member_step _ _ _ _ _ _ _ _ _ _ _ _ _ _
              _ _ _ E) as [M [_ C]].
  split; [exact M|exact C].
Defined.

(** ** The Verlet step *)

Section VerletFacts.
Context {D : Type} `{Arith D}.
Variable Th : Type.
Variable exp : D -> D.
Variable kb_Eh : D.
Variable BestFitRMSD : list D -> list D -> D.
Variable DriverGradient : list D -> list D -> list D.
Variable counter0 : Z.
Variables energy0 factor0 : D.
Variable Backend : list D -> SimpleMD.BackendResult D.
Variable Thermostat : SimpleMD.Config D -> SimpleMD.State D Th -> list D * Th.
Variable WallPotential : SimpleMD.Config D -> SimpleMD.State D Th -> list D * Z.
Variable cfg : SimpleMD.Config D.
Local Open Scope D_scope.

Local Abbreviation State := (SimpleMD.State D Th).
Local Abbreviation Verlet :=
  (SimpleMD.Verlet exp kb_Eh BestFitRMSD DriverGradient counter0 energy0
     factor0 Backend Thermostat WallPotential cfg).
Local Abbreviation forces :=
  (SimpleMD.forces exp kb_Eh BestFitRMSD DriverGradient counter0 energy0
     factor0 Backend Thermostat WallPotential cfg).

(** The first loop of [Verlet] after [k] atoms. *)
Lemma drift_loop (s : State) (k : nat) :
  let x := SimpleMD.m_eigen_geometry s in
  let v := SimpleMD.m_eigen_velocities s in
  let g := SimpleMD.m_eigen_gradient s in
  let r := fold_left
             (fun (a : list D * list D * D) i =>
                let '(x, v, ekin) := a in
                let x' := SimpleMD.upd_xyz x i (SimpleMD.drift cfg g v) in
                let v' := SimpleMD.upd_xyz v i (SimpleMD.half_kick cfg g) in
                (x', v', ekin + SimpleMD.kinetic_term cfg v' i))
             (seq 0 k) (x, v, lit 0) in
  length (fst (fst r)) = length x
  /\ length (snd (fst r)) = length v
  /\ forall p : nat,
       rd (fst (fst r)) p
       = (if ((p <? 3 * k) && (p <? length x))%nat
          then SimpleMD.drift cfg g v x p else rd x p)
       /\ rd (snd (fst r)) p
          = (if ((p <? 3 * k) && (p <? length v))%nat
             then SimpleMD.half_kick cfg g v p else rd v p).
Proof.
  cbv zeta. induction k as [|k IH].
  - cbn [seq fold_left fst snd]. split; [reflexivity|]. split; [reflexivity|].
    intros p. split; reflexivity.
  - rewrite seq_S, fold_left_app. cbn [plus fold_left].
    destruct (fold_left _ (seq 0 k) _) as [[xk vk] ek].
    cbn [fst snd] in IH |- *. destruct IH as (Lx & Lv & IH).
    pose proof (fun p =>
      @rd_atom_update D _ xk k
        (fun old c =>
           old + SimpleMD.m_dT cfg * rd vk (3 * k + c)
           - lit (1 # 2) * rd (SimpleMD.m_eigen_gradient s) (3 * k + c)
             * rd (SimpleMD.m_eigen_inv_masses cfg) (3 * k + c)
             * SimpleMD.m_dt2 cfg) p) as Ux.
    pose proof (fun p =>
      @rd_atom_update D _ vk k
        (fun old c =>
           old - lit (1 # 2) * SimpleMD.m_dT cfg
                 * rd (SimpleMD.m_eigen_gradient s) (3 * k + c)
                 * rd (SimpleMD.m_eigen_inv_masses cfg) (3 * k + c)) p) as Uv.
    cbv zeta in Ux, Uv.
    split; [rewrite <- Lx; exact (proj1 (Ux O))|].
    split; [rewrite <- Lv; exact (proj1 (Uv O))|].
    intros p. destruct (IH p) as [Ix Iv].
    assert (Here : (3 * k <= p)%nat -> (p < 3 * k + 3)%nat ->
                   (3 * k + (p - 3 * k) = p)%nat) by lia.
    split.
    + etransitivity; [exact (proj2 (Ux p))|]. rewrite Lx.
      destruct (Nat.leb_spec (3 * k) p) as [Lo|Lo];
        destruct (Nat.ltb_spec p (3 * k + 3)) as [Hi|Hi];
        destruct (Nat.ltb_spec p (3 * S k)) as [Hs|Hs]; try lia;
        cbn [andb].
      * destruct (Nat.ltb_spec p (length (SimpleMD.m_eigen_geometry s)));
          [|rewrite Ix; replace (p <? 3 * k)%nat with false
              by (symmetry; apply Nat.ltb_ge; lia); reflexivity].
        rewrite (Here Lo Hi), Ix. destruct (IH p) as [_ Iv'].
        rewrite Iv'.
        replace (p <? 3 * k)%nat with false by (symmetry; apply Nat.ltb_ge; lia).
        reflexivity.
      * rewrite Ix.
        replace (p <? 3 * k)%nat with false by (symmetry; apply Nat.ltb_ge; lia).
        reflexivity.
      * rewrite Ix.
        replace (p <? 3 * k)%nat with true by (symmetry; apply Nat.ltb_lt; lia).
        reflexivity.
    + etransitivity; [exact (proj2 (Uv p))|]. rewrite Lv.
      destruct (Nat.leb_spec (3 * k) p) as [Lo|Lo];
        destruct (Nat.ltb_spec p (3 * k + 3)) as [Hi|Hi];
        destruct (Nat.ltb_spec p (3 * S k)) as [Hs|Hs]; try lia;
        cbn [andb].
      * destruct (Nat.ltb_spec p (length (SimpleMD.m_eigen_velocities s)));
          [|rewrite Iv; replace (p <? 3 * k)%nat with false
              by (symmetry; apply Nat.ltb_ge; lia); reflexivity].
        rewrite (Here Lo Hi), Iv.
        replace (p <? 3 * k)%nat with false by (symmetry; apply Nat.ltb_ge; lia).
        reflexivity.
      * rewrite Iv.
        replace (p <? 3 * k)%nat with false by (symmetry; apply Nat.ltb_ge; lia).
        reflexivity.
      * rewrite Iv.
        replace (p <? 3 * k)%nat with true by (symmetry; apply Nat.ltb_lt; lia).
        reflexivity.
Qed.

(** The second loop of [Verlet] after [k] atoms. *)
Lemma kick_loop (g v : list D) (k : nat) :
  let r := fold_left
             (fun (a : list D * D) i =>
                let v' := SimpleMD.upd_xyz (fst a) i (SimpleMD.half_kick cfg g) in
                (v', snd a + SimpleMD.kinetic_term cfg v' i))
             (seq 0 k) (v, lit 0) in
  length (fst r) = length v
  /\ forall p : nat,
       rd (fst r) p
       = (if ((p <? 3 * k) && (p <? length v))%nat
          then SimpleMD.half_kick cfg g v p else rd v p).
Proof.
  cbv zeta. induction k as [|k IH].
  - cbn [seq fold_left fst snd]. split; [reflexivity|]. intros p. reflexivity.
  - rewrite seq_S, fold_left_app. cbn [plus fold_left].
    destruct (fold_left _ (seq 0 k) _) as [vk ek].
    cbn [fst snd] in IH |- *. destruct IH as (Lv & IH).
    pose proof (fun p =>
      @rd_atom_update D _ vk k
        (fun old c =>
           old - lit (1 # 2) * SimpleMD.m_dT cfg * rd g (3 * k + c)
                 * rd (SimpleMD.m_eigen_inv_masses cfg) (3 * k + c)) p) as Uv.
    cbv zeta in Uv.
    split; [rewrite <- Lv; exact (proj1 (Uv O))|].
    intros p. pose proof (IH p) as Iv.
    assert (Here : (3 * k <= p)%nat -> (p < 3 * k + 3)%nat ->
                   (3 * k + (p - 3 * k) = p)%nat) by lia.
    etransitivity; [exact (proj2 (Uv p))|]. rewrite Lv.
    destruct (Nat.leb_spec (3 * k) p) as [Lo|Lo];
      destruct (Nat.ltb_spec p (3 * k + 3)) as [Hi|Hi];
      destruct (Nat.ltb_spec p (3 * S k)) as [Hs|Hs]; try lia;
      cbn [andb].
    + destruct (Nat.ltb_spec p (length v));
        [|rewrite Iv; replace (p <? 3 * k)%nat with false
            by (symmetry; apply Nat.ltb_ge; lia); reflexivity].
      rewrite (Here Lo Hi), Iv.
      replace (p <? 3 * k)%nat with false by (symmetry; apply Nat.ltb_ge; lia).
      reflexivity.
    + rewrite Iv.
      replace (p <? 3 * k)%nat with false by (symmetry; apply Nat.ltb_ge; lia).
      reflexivity.
    + rewrite Iv.
      replace (p <? 3 * k)%nat with true by (symmetry; apply Nat.ltb_lt; lia).
      reflexivity.
Qed.

(** What [forces] leaves of positions, velocities and gradient when there is
    no thermostat, no wall and no bias. *)
Lemma forces_plain (s : State) :
  SimpleMD.m_rmsd_mtd cfg = false ->
  (forall s0 : State, fst (Thermostat cfg s0) = SimpleMD.m_eigen_velocities s0) ->
  (forall s0 : State, fst (WallPotential cfg s0) = SimpleMD.m_eigen_gradient s0) ->
  SimpleMD.m_eigen_geometry (forces s) = SimpleMD.m_eigen_geometry s
  /\ SimpleMD.m_eigen_velocities (forces s) = SimpleMD.m_eigen_velocities s
  /\ SimpleMD.m_eigen_gradient (forces s)
     = SimpleMD.be_gradient (Backend (SimpleMD.m_eigen_geometry s)).
Proof.
  intros Hmtd Hth Hwall.
  unfold SimpleMD.forces, SimpleMD.mtd_hook. rewrite Hmtd.
  unfold SimpleMD.apply_WallPotential. rewrite Hwall.
  unfold SimpleMD.assign_Epot, SimpleMD.FastEnergy, SimpleMD.ThermostatFunction.
  cbn [fst snd SimpleMD.m_eigen_geometry SimpleMD.m_eigen_velocities
       SimpleMD.m_eigen_gradient SimpleMD.set_m_eigen_velocities
       SimpleMD.set_m_eigen_gradient SimpleMD.set_m_thermostat_state
       SimpleMD.set_m_wall_violation_count SimpleMD.set_m_Epot
       SimpleMD.set_m_interface_nan SimpleMD.set_m_interface_error].
  rewrite Hth. split; [reflexivity|]. split; reflexivity.
Qed.

(** X24.  Without thermostat, wall and bias, [Verlet] is the velocity Verlet
    step.  For every coordinate [p] of an atom: the position becomes
    [x + m_dT * v - 0.5 * g * m_eigen_inv_masses * m_dt2] with the gradient [g]
    the step began with; the gradient becomes the one the backend gives at the
    new positions; the velocity gets two half kicks, the first with the old
    and the second with the new gradient. *)
Theorem verlet_is_velocity_verlet (s : State) (p : nat) :
  SimpleMD.m_rmsd_mtd cfg = false ->
  (forall s0 : State, fst (Thermostat cfg s0) = SimpleMD.m_eigen_velocities s0) ->
  (forall s0 : State, fst (WallPotential cfg s0) = SimpleMD.m_eigen_gradient s0) ->
  (p < 3 * SimpleMD.m_natoms cfg)%nat ->
  (p < length (SimpleMD.m_eigen_geometry s))%nat ->
  (p < length (SimpleMD.m_eigen_velocities s))%nat ->
  let s' := Verlet s in
  let x := SimpleMD.m_eigen_geometry s in
  let v := SimpleMD.m_eigen_velocities s in
  let g := SimpleMD.m_eigen_gradient s in
  let inv_m := SimpleMD.m_eigen_inv_masses cfg in
  let g' := SimpleMD.be_gradient (Backend (SimpleMD.m_eigen_geometry s')) in
  rd (SimpleMD.m_eigen_geometry s') p
  = rd x p + SimpleMD.m_dT cfg * rd v p
    - lit (1 # 2) * rd g p * rd inv_m p * SimpleMD.m_dt2 cfg
  /\ SimpleMD.m_eigen_gradient s' = g'
  /\ rd (SimpleMD.m_eigen_velocities s') p
     = rd v p - lit (1 # 2) * SimpleMD.m_dT cfg * rd g p * rd inv_m p
       - lit (1 # 2) * SimpleMD.m_dT cfg * rd g' p * rd inv_m p.
Proof.
  intros Hmtd Hth Hwall Hp Hx Hv. cbv zeta.
  destruct (drift_loop s (SimpleMD.m_natoms cfg)) as (Lx & Lv & Dr).
  cbv zeta in Lx, Lv, Dr.
  assert (First :
    SimpleMD.m_eigen_geometry (SimpleMD.Verlet_first
        exp kb_Eh BestFitRMSD DriverGradient counter0 energy0 factor0 Backend
        Thermostat WallPotential cfg s)
    = fst (fst (SimpleMD.Verlet_drift cfg s))
    /\ SimpleMD.m_eigen_velocities (SimpleMD.Verlet_first
          exp kb_Eh BestFitRMSD DriverGradient counter0 energy0 factor0 Backend
          Thermostat WallPotential cfg s)
       = snd (fst (SimpleMD.Verlet_drift cfg s))
    /\ SimpleMD.m_eigen_gradient (SimpleMD.Verlet_first
          exp kb_Eh BestFitRMSD DriverGradient counter0 energy0 factor0 Backend
          Thermostat WallPotential cfg s)
       = SimpleMD.be_gradient
           (Backend (fst (fst (SimpleMD.Verlet_drift cfg s))))).
  { unfold SimpleMD.Verlet_first.
    destruct (SimpleMD.Verlet_drift cfg s) as [[x1 v1] e1]. cbn [fst snd].
    match goal with
    | |- context [SimpleMD.forces _ _ _ _ _ _ _ _ _ _ _ ?s0] =>
        destruct (forces_plain s0 Hmtd Hth Hwall) as (F1 & F2 & F3)
    end.
    rewrite F1, F2, F3. split; [reflexivity|]. split; reflexivity. }
  unfold SimpleMD.Verlet.
  set (s1 := SimpleMD.Verlet_first exp kb_Eh BestFitRMSD DriverGradient
               counter0 energy0 factor0 Backend Thermostat WallPotential cfg s)
    in *.
  destruct First as (G1 & V1 & R1).
  unfold SimpleMD.EKin, SimpleMD.ThermostatFunction, SimpleMD.finish_step.
  cbn [fst snd SimpleMD.m_eigen_geometry SimpleMD.m_eigen_velocities
       SimpleMD.m_eigen_gradient SimpleMD.set_m_T SimpleMD.set_m_Ekin
       SimpleMD.set_m_unstable SimpleMD.set_m_eigen_velocities
       SimpleMD.set_m_thermostat_state].
  rewrite Hth.
  cbn [fst snd SimpleMD.m_eigen_geometry SimpleMD.m_eigen_velocities
       SimpleMD.m_eigen_gradient SimpleMD.set_m_T SimpleMD.set_m_Ekin
       SimpleMD.set_m_unstable SimpleMD.set_m_eigen_velocities
       SimpleMD.set_m_thermostat_state].
  unfold SimpleMD.Verlet_kick, for_range. rewrite G1, V1, R1.
  clearbody s1. unfold SimpleMD.Verlet_drift, for_range.
  destruct (fold_left _ (seq 0 (SimpleMD.m_natoms cfg))
              (SimpleMD.m_eigen_geometry s, SimpleMD.m_eigen_velocities s, lit 0))
    as [[x1 v1] e1].
  cbn [fst snd] in Lx, Lv, Dr |- *.
  destruct (Dr p) as [Dx Dv].
  replace ((p <? 3 * SimpleMD.m_natoms cfg)%nat) with true in Dx, Dv
    by (symmetry; apply Nat.ltb_lt; exact Hp).
  replace ((p <? length (SimpleMD.m_eigen_geometry s))%nat) with true in Dx
    by (symmetry; apply Nat.ltb_lt; exact Hx).
  replace ((p <? length (SimpleMD.m_eigen_velocities s))%nat) with true in Dv
    by (symmetry; apply Nat.ltb_lt; exact Hv).
  cbn [andb] in Dx, Dv.
  split; [exact Dx|]. split; [reflexivity|].
  destruct (kick_loop (SimpleMD.be_gradient (Backend x1)) v1 (SimpleMD.m_natoms cfg))
    as [_ K].
  cbv zeta in K. rewrite (K p).
  replace ((p <? 3 * SimpleMD.m_natoms cfg)%nat) with true
    by (symmetry; apply Nat.ltb_lt; exact Hp).
  replace ((p <? length v1)%nat) with true
    by (symmetry; apply Nat.ltb_lt; rewrite Lv; exact Hv).
  cbn [andb]. unfold SimpleMD.half_kick at 1. rewrite Dv. reflexivity.
Qed.

End VerletFacts.

Lemma verlet_is_velocity_verlet_witness :
  let s' := Inputs.atom_Verlet (D := Q) 1 Inputs.moving_atom in
  rd (SimpleMD.m_eigen_geometry s') 0 == 3
  /\ rd (SimpleMD.m_eigen_velocities s') 0 == 0.
Proof.
  cbv zeta. unfold Inputs.atom_Verlet.
  destruct (@verlet_is_velocity_verlet Q _ unit (fun x => x) Inputs.kb_Eh
              (fun _ _ : @SimpleMD.Geometry Q => lit 0)
              (fun _ _ : @SimpleMD.Geometry Q => []) 1%Z (lit 0) (lit 0)
              (Inputs.constant_backend [1; lit 0; lit 0]) Inputs.no_thermostat
              Inputs.no_wall Inputs.atom_config Inputs.moving_atom 0%nat)
    as (X & _ & V).
  - reflexivity.
  - intros s0. reflexivity.
  - intros s0. reflexivity.
  - cbn. lia.
  - cbn. lia.
  - cbn. lia.
  - split.
    + rewrite X. vm_compute. reflexivity.
    + rewrite V. vm_compute. reflexivity.
Defined.

(** ** Reading the ensemble *)

Section LoadFacts.
Context {D : Type} `{Arith D}.
Variable G : Type.
Variable CalculateEnergy : ConfScan.Molecule D G -> D.

Local Abbreviation Scan := (ConfScan.Scan D G).
Local Abbreviation Molecule := (ConfScan.Molecule D G).

Lemma ordered_insert_In (x : D * ConfScan.Ptr) (energy : D)
    (molecule : ConfScan.Ptr) (l : list (D * ConfScan.Ptr)) :
  In x (ConfScan.ordered_insert energy molecule l)
  <-> x = (energy, molecule) \/ In x l.
Proof.
  induction l as [|[e m] l IH]; cbn [ConfScan.ordered_insert].
  - cbn [In]. split; intros [E|E]; auto.
  - destruct (dltb energy e); cbn [In] in *.
    + split; intros [E|E]; auto.
    + rewrite IH. split; intros E; intuition.
Qed.

(** The loop of [openFile] from structure [n] on. *)
Lemma load_loop (file : list Molecule) (b : bool) (n : nat) (s : Scan) :
  let s' := snd (fold_left (fun a mol => ConfScan.load_molecule CalculateEnergy mol a)
                   file (b, n, s)) in
  (forall (e : D) (i : nat),
     In (e, i) (ConfScan.m_ordered_list s')
     <-> In (e, i) (ConfScan.m_ordered_list s)
         \/ exists mol : Molecule,
              (n <= i)%nat /\ nth_error file (i - n) = Some mol
              /\ e = if ConfScan.recomputed b file (i - n)
                     then CalculateEnergy mol else ConfScan.Energy mol)
  /\ forall i : nat,
       ConfScan.deref s' i
       = if (n <=? i)%nat
         then match nth_error file (i - n) with
              | Some mol => mol
              | None => ConfScan.deref s i
              end
         else ConfScan.deref s i.
Proof.
  cbv zeta. revert b n s.
  induction file as [|mol0 file IH]; intros b n s; cbn [fold_left].
  - cbn [snd]. split.
    + intros e i. split; [intros E; left; exact E|].
      intros [E|(mol & _ & N & _)]; [exact E|].
      destruct (i - n)%nat; discriminate N.
    + intros i. destruct (n <=? i)%nat; [|reflexivity].
      destruct (i - n)%nat; reflexivity.
  - unfold ConfScan.load_molecule at 2 4.
    set (energy := if (dltb (dabs (ConfScan.Energy mol0)) (lit (1 # 100000)) || b)%bool
                   then CalculateEnergy mol0 else ConfScan.Energy mol0).
    match goal with
    | |- context [fold_left _ file (?b1, ?n1, ?s1)] =>
        destruct (IH b1 n1 s1) as [I1 I2]; set (s1' := s1) in *
    end.
    assert (O1 : ConfScan.m_ordered_list s1'
                 = ConfScan.ordered_insert energy n (ConfScan.m_ordered_list s))
      by reflexivity.
    assert (O2 : forall q, ConfScan.deref s1' q
                           = if Nat.eqb q n then mol0 else ConfScan.deref s q)
      by reflexivity.
    clearbody s1'. split.
    + intros e i. rewrite I1, O1, ordered_insert_In. split.
      * intros [[E|E]|(mol & L & N & E)].
        -- injection E as Ee Ei. subst i. right. exists mol0.
           rewrite Nat.sub_diag. split; [apply Nat.le_refl|].
           split; [reflexivity|]. rewrite Ee. unfold energy, ConfScan.recomputed.
           cbn [firstn existsb]. unfold ConfScan.lacks_energy.
           rewrite orb_false_r, orb_comm. reflexivity.
        -- left. exact E.
        -- right. exists mol.
           assert (Ei : (i - n = S (i - S n))%nat) by lia.
           rewrite Ei. split; [lia|]. split; [exact N|].
           rewrite E. unfold ConfScan.recomputed.
           cbn [firstn existsb]. unfold ConfScan.lacks_energy at 2.
           rewrite orb_assoc, (orb_comm b). reflexivity.
      * intros [E|(mol & L & N & E)]; [left; right; exact E|].
        destruct (Nat.eq_dec i n) as [Ei|Ei].
        -- subst i. left. left. rewrite Nat.sub_diag in N, E.
           cbn [nth_error] in N. injection N as N. subst mol.
           rewrite E. unfold energy, ConfScan.recomputed.
           cbn [firstn existsb]. unfold ConfScan.lacks_energy.
           rewrite orb_false_r, orb_comm. reflexivity.
        -- right. exists mol.
           assert (Es : (i - n = S (i - S n))%nat) by lia.
           rewrite Es in N, E. cbn [nth_error] in N.
           split; [lia|]. split; [exact N|].
           rewrite E. unfold ConfScan.recomputed.
           cbn [firstn existsb]. unfold ConfScan.lacks_energy at 1.
           rewrite orb_assoc, (orb_comm b). reflexivity.
    + intros i. rewrite I2, O2.
      destruct (Nat.leb_spec n i) as [L|L];
        destruct (Nat.leb_spec (S n) i) as [L'|L']; try lia.
      * assert (Es : (i - n = S (i - S n))%nat) by lia.
        rewrite Es. cbn [nth_error].
        replace (Nat.eqb i n) with false by (symmetry; apply Nat.eqb_neq; lia).
        reflexivity.
      * assert (Ei : i = n) by lia. subst i.
        rewrite Nat.sub_diag, Nat.eqb_refl. reflexivity.
      * replace (Nat.eqb i n) with false by (symmetry; apply Nat.eqb_neq; lia).
        reflexivity.
Qed.

(** X25.  [openFile] files structure [i] of the ensemble under the pointer
    [i], and keeps what was filed before.  The energy it is filed under is
    the one the structure carries, unless [m_method] was set or the structure
    or one before it in the file carries no energy ([std::abs(energy) < 1e-5]):
    from the first such structure on, every structure is filed under the
    energy the calculator gives, whatever energy it carries. *)
Theorem ensemble_energies_are_computed_after_first_gap
    (method_given : bool) (file : list Molecule) (s : Scan) :
  let s' := ConfScan.load_ensemble CalculateEnergy method_given file s in
  (forall (e : D) (i : nat),
     In (e, i) (ConfScan.m_ordered_list s')
     <-> In (e, i) (ConfScan.m_ordered_list s)
         \/ exists mol : Molecule,
              nth_error file i = Some mol
              /\ e = if ConfScan.recomputed method_given file i
                     then CalculateEnergy mol else ConfScan.Energy mol)
  /\ forall (i : nat) (mol : Molecule),
       nth_error file i = Some mol -> ConfScan.deref s' i = mol.
Proof.
  cbv zeta. unfold ConfScan.load_ensemble.
  destruct (load_loop file method_given O s) as [L1 L2]. cbv zeta in L1, L2.
  split.
  - intros e i. rewrite L1, Nat.sub_0_r. split.
    + intros [E|(mol & _ & N & E)]; [left; exact E|right; exists mol; auto].
    + intros [E|(mol & N & E)]; [left; exact E|].
      right. exists mol. split; [apply Nat.le_0_l|]. auto.
  - intros i mol N. rewrite L2, Nat.sub_0_r, N. reflexivity.
Qed.

End LoadFacts.

(** ** When the bias is applied *)

Section ScheduleFacts.
Context {D : Type} `{Arith D}.
Variable Th : Type.
Variable exp : D -> D.
Variable kb_Eh : D.
Variable BestFitRMSD : list D -> list D -> D.
Variable DriverGradient : list D -> list D -> list D.
Variable counter0 : Z.
Variables energy0 factor0 : D.
Variable Backend : list D -> SimpleMD.BackendResult D.
Variable Thermostat : SimpleMD.Config D -> SimpleMD.State D Th -> list D * Th.
Variable WallPotential : SimpleMD.Config D -> SimpleMD.State D Th -> list D * Z.
Variable RemoveRotations : SimpleMD.Config D -> SimpleMD.State D Th -> list D.
Variable cfg : SimpleMD.Config D.
Variable rattle : Z.
Local Open Scope D_scope.

Local Abbreviation State := (SimpleMD.State D Th).
Local Abbreviation bias_due := (@SimpleMD.bias_due D Th cfg).
Local Abbreviation ApplyRMSDMTD :=
  (SimpleMD.ApplyRMSDMTD (Th := Th) exp kb_Eh BestFitRMSD DriverGradient counter0
     energy0 factor0 cfg).
Local Abbreviation forces :=
  (SimpleMD.forces exp kb_Eh BestFitRMSD DriverGradient counter0 energy0
     factor0 Backend Thermostat WallPotential cfg).
Local Abbreviation md_loop :=
  (SimpleMD.md_loop exp kb_Eh BestFitRMSD DriverGradient counter0 energy0
     factor0 Backend Thermostat WallPotential RemoveRotations cfg rattle).

(** The statements between the two halves of a step apply the bias exactly
    when the test on the member [m_step] holds for the state the step began
    these statements with. *)
Lemma forces_bias_due (s : State) :
  let mid := SimpleMD.assign_Epot Backend (SimpleMD.ThermostatFunction Thermostat cfg s) in
  forces s
  = SimpleMD.apply_WallPotential WallPotential cfg
      (if bias_due s then ApplyRMSDMTD mid else mid).
Proof.
  cbv zeta. unfold SimpleMD.forces, SimpleMD.mtd_hook, SimpleMD.bias_due.
  destruct (SimpleMD.m_rmsd_mtd cfg); reflexivity.
Qed.

(** The test comes out after any number of passes as before the first, while
    the loop has counted the passes. *)
Lemma md_loop_bias_due (fuel passes : nat) (local_m_step : Z) (s : State)
    (r : SimpleMD.Outcome D Th * Z) :
  md_loop fuel passes local_m_step s = Ok r ->
  bias_due (SimpleMD.outcome_state (fst r)) = bias_due s
  /\ forall s' : State,
       fst r = SimpleMD.Continue s' -> snd r = (local_m_step + Z.of_nat passes)%Z.
Proof.
  revert local_m_step s r.
  induction passes as [|k IH]; intros local_m_step s r; cbn [SimpleMD.md_loop].
  - intros E. injection E as <-. cbn [fst snd SimpleMD.outcome_state].
    split; [reflexivity|]. intros s' _. lia.
  - unfold SimpleMD.loop_pass.
    destruct (SimpleMD.Integrator exp kb_Eh BestFitRMSD DriverGradient counter0
                energy0 factor0 Backend Thermostat WallPotential RemoveRotations
                cfg rattle fuel s) as [s1| |] eqn:EI; cbn [rbind]; try discriminate.
    destruct (Integrator_clock _ _ _ _ _ _ _ _ _ _ _ _ _ _ _ EI) as [C1 _].
    destruct (SimpleMD.m_unstable s1 || SimpleMD.m_interface_error s1
              || SimpleMD.m_interface_nan s1); cbn [rbind fst snd].
    + intros E. injection E as <-. cbn [fst snd SimpleMD.outcome_state].
      split; [unfold SimpleMD.bias_due; rewrite C1; reflexivity|].
      intros s' E. discriminate E.
    + intros E. destruct (IH _ _ _ E) as [M R]. split.
      * rewrite M. unfold SimpleMD.bias_due.
        cbn [SimpleMD.m_step SimpleMD.set_m_currentStep]. rewrite C1. reflexivity.
      * intros s' Es. rewrite (R s' Es). lia.
Qed.

End ScheduleFacts.

(** C8 (the code departs from the claim).  The statements of [Verlet] and
    [Rattle] between the two halves of a step call [ApplyRMSDMTD] exactly when
    [m_rmsd_mtd] is set and the member [m_step] is a multiple of
    [m_mtd_steps].  The run loop counts its passes in a local variable of the
    same name and leaves the member alone, so the test comes out after any
    number of passes as before the first: the bias is applied in every step
    or in none.  A call deposits as follows: the first structure without
    looking at the bias energy, in worker 0; then one structure exactly when
    the bias times the energy-convergence factor is below the number of
    structures and [rmsd_fix_structure] is off, in the worker whose number is
    that count modulo the number of workers.  In binary64, with
    [m_mtd_steps] = 2 and two workers, the pass that begins at step 0
    deposits structures 0 and 1, and the pass that begins at step 1 deposits
    structure 2. *)
Theorem bias_step_test_reads_member_the_loop_never_advances :
  (forall (D : Type) (A : Arith D) (Th : Type) (exp : D -> D) (kb_Eh : D)
          (BestFitRMSD : list D -> list D -> D)
          (DriverGradient : list D -> list D -> list D)
          (counter0 : Z) (energy0 factor0 : D)
          (Backend : list D -> SimpleMD.BackendResult D)
          (Thermostat : SimpleMD.Config D -> SimpleMD.State D Th -> list D * Th)
          (WallPotential : SimpleMD.Config D -> SimpleMD.State D Th -> list D * Z)
          (RemoveRotations : SimpleMD.Config D -> SimpleMD.State D Th -> list D)
          (cfg : SimpleMD.Config D) (rattle : Z),
      (forall s : SimpleMD.State D Th,
          let mid := SimpleMD.assign_Epot Backend
                       (SimpleMD.ThermostatFunction Thermostat cfg s) in
          SimpleMD.forces exp kb_Eh BestFitRMSD DriverGradient counter0 energy0
            factor0 Backend Thermostat WallPotential cfg s
          = SimpleMD.apply_WallPotential WallPotential cfg
              (if SimpleMD.bias_due cfg s
               then SimpleMD.ApplyRMSDMTD exp kb_Eh BestFitRMSD DriverGradient
                      counter0 energy0 factor0 cfg mid
               else mid))
      /\ (forall (fuel passes : nat) (local_m_step : Z) (s : SimpleMD.State D Th)
                 (r : SimpleMD.Outcome D Th * Z),
             SimpleMD.md_loop exp kb_Eh BestFitRMSD DriverGradient counter0
               energy0 factor0 Backend Thermostat WallPotential RemoveRotations
               cfg rattle fuel passes local_m_step s = Ok r ->
             SimpleMD.bias_due cfg (SimpleMD.outcome_state (fst r))
             = SimpleMD.bias_due cfg s
             /\ forall s' : SimpleMD.State D Th,
                  fst r = SimpleMD.Continue s' ->
                  snd r = (local_m_step + Z.of_nat passes)%Z)
      /\ (forall s : SimpleMD.State D Th,
             let Apply := SimpleMD.ApplyRMSDMTD exp kb_Eh BestFitRMSD
                            DriverGradient counter0 energy0 factor0 cfg in
             let g := SimpleMD.current_geometry cfg s in
             let first := (SimpleMD.m_bias_structure_count s =? 0)%Z in
             let count := if first then (SimpleMD.m_bias_structure_count s + 1)%Z
                          else SimpleMD.m_bias_structure_count s in
             let current_bias :=
               snd (SimpleMD.mtd_evaluate exp kb_Eh BestFitRMSD DriverGradient cfg g
                      (SimpleMD.mtd_seed counter0 energy0 factor0 g
                         (SimpleMD.set_m_colvar_incr 0%Z s))) in
             let below := (dltb (dmul current_bias (SimpleMD.m_rmsd_econv cfg))
                             (of_int count))
                          && negb (SimpleMD.m_rmsd_fix_structure cfg) in
             let slot := Z.to_nat (Z.rem count
                           (Z.of_nat (length (SimpleMD.m_bias_threads s)))) in
             SimpleMD.m_bias_structure_count (Apply s)
             = (count + (if below then 1 else 0))%Z
             /\ SimpleMD.structure_counts (SimpleMD.m_bias_threads (Apply s))
                = SimpleMD.bump_if below slot
                    (SimpleMD.bump_if first 0
                       (SimpleMD.structure_counts (SimpleMD.m_bias_threads s)))))
  /\ SimpleMD.m_mtd_steps (Inputs.two_worker_config (D := float)) = 2%Z
  /\ SimpleMD.m_step (Inputs.two_worker_start (D := float)) = 0%Z
  /\ SimpleMD.m_bias_structure_count (Inputs.two_worker_start (D := float)) = 0%Z
  /\ SimpleMD.bias_book
       (Inputs.two_worker_md_loop (D := float) 1 1 0 Inputs.two_worker_start)
     = Some (1, 0, 2, [[0]; [1]])%Z
  /\ SimpleMD.bias_book
       (Inputs.two_worker_md_loop (D := float) 1 2 0 Inputs.two_worker_start)
     = Some (2, 0, 3, [[0; 2]; [1]])%Z.
Proof.
  split.
  - intros D A Th exp kb_Eh BestFitRMSD DriverGradient counter0 energy0 factor0
      Backend Thermostat WallPotential RemoveRotations cfg rattle.
    split; [intros s; apply forces_bias_due|].
    split; [intros fuel passes local_m_step s r; apply md_loop_bias_due|].
    intros s. apply deposit_rule.
  - split; [reflexivity|]. split; [reflexivity|]. split; [reflexivity|].
    split; vm_compute; reflexivity.
Qed.

(** ** The multipliers of RATTLE and the guards on them *)

Section GuardFacts.
Context {D : Type} `{Arith D}.
Variable cfg : SimpleMD.Config D.
Local Open Scope D_scope.

(** What [while (std::abs(lambda) > max) lambda *= scale] returns when it
    returns: the multiplier scaled as many times as the test held, and the
    test no longer holds. *)
Lemma scale_multiplier_returns (fuel : nat) (max scale lambda lambda' : D) :
  SimpleMD.scale_multiplier fuel max scale lambda = Ok lambda' ->
  exists k : nat,
    lambda' = SimpleMD.scaled k scale lambda
    /\ (dabs lambda' >? max) = false
    /\ forall j : nat, (j < k)%nat ->
         (dabs (SimpleMD.scaled j scale lambda) >? max) = true.
Proof.
  unfold SimpleMD.scale_multiplier.
  assert (L : forall (f n : nat) (l l' : D) (n' : nat),
             while_loop f (fun l => dabs l >? max)
               (fun l => Ok (l * scale, false)) l n = Ok (l', n') ->
             exists k : nat,
               l' = SimpleMD.scaled k scale l
               /\ (dabs l' >? max) = false
               /\ forall j : nat, (j < k)%nat ->
                    (dabs (SimpleMD.scaled j scale l) >? max) = true).
  { induction f as [|f IH]; intros n l l' n'; cbn [while_loop];
      [discriminate|].
    destruct (dabs l >? max) eqn:C.
    - intros E. destruct (IH _ _ _ _ E) as (k & E1 & E2 & E3).
      exists (S k). split; [exact E1|]. split; [exact E2|].
      intros [|j] Hj; cbn [SimpleMD.scaled]; [exact C|]. apply E3. lia.
    - intros E. injection E as <- _. exists O.
      split; [reflexivity|]. split; [exact C|]. intros j Hj. lia. }
  destruct (while_loop fuel _ _ lambda O) as [[l n]| |] eqn:E;
    cbn [rbind fst]; try discriminate.
  intros E'. injection E' as <-. exact (L _ _ _ _ _ E).
Qed.

(** A constraint of the position stage that is off by more than the
    tolerance: the multiplier is the residual over the inverse masses and the
    clamped scalar product; the stage leaves through [exit(0)] when it is
    infinite, or, for a 1-2 pair, NaN; otherwise it is scaled and applied. *)
Lemma position_bond_violated (fuel : nat) (geom : list D) (is13 : bool)
    (bond : (nat * nat) * D) (p : SimpleMD.Pos D) :
  SimpleMD.position_violated cfg is13 bond p = true ->
  let inv := SimpleMD.m_eigen_inv_masses cfg in
  let lambda0 :=
    SimpleMD.position_residual bond p
    / (lit 1 * (rd inv (fst (fst bond)) + rd inv (snd (fst bond)))
       * SimpleMD.clamp_scalarproduct cfg
           (SimpleMD.position_scalarproduct geom bond p)) in
  (disinf lambda0 || (negb is13 && disnan lambda0) = true
   -> SimpleMD.position_bond cfg fuel geom is13 bond p = Exited)
  /\ forall p' : SimpleMD.Pos D,
       SimpleMD.position_bond cfg fuel geom is13 bond p = Ok p' ->
       exists k : nat,
         let lambda := SimpleMD.scaled k (lit (1 # 10)) lambda0 in
         disinf lambda0 = false
         /\ (is13 = false -> disnan lambda0 = false)
         /\ (dabs lambda >? SimpleMD.m_rattle_max cfg) = false
         /\ (forall j : nat, (j < k)%nat ->
               (dabs (SimpleMD.scaled j (lit (1 # 10)) lambda0)
                >? SimpleMD.m_rattle_max cfg) = true)
         /\ SimpleMD.p_rt_geom_1 p'
            = fst (SimpleMD.position_moved cfg geom bond p lambda)
         /\ SimpleMD.p_rt_velo p'
            = snd (SimpleMD.position_moved cfg geom bond p lambda).
Proof.
  intros V. cbv zeta. unfold SimpleMD.position_bond.
  unfold SimpleMD.position_violated in V. cbv zeta in V. rewrite V.
  unfold SimpleMD.position_residual, SimpleMD.position_scalarproduct.
  cbv zeta.
  match goal with
  | |- context [disinf ?l] => set (lambda0 := l)
  end.
  split.
  - intros G. destruct (disinf lambda0); [reflexivity|].
    cbn [orb] in G. rewrite G. reflexivity.
  - intros p'. destruct (disinf lambda0); [discriminate|].
    destruct (negb is13 && disnan lambda0) eqn:N; [discriminate|].
    destruct (SimpleMD.scale_multiplier fuel (SimpleMD.m_rattle_max cfg)
                (lit (1 # 10)) lambda0) as [l| |] eqn:S;
      cbn [rbind]; try discriminate.
    intros E. injection E as <-.
    destruct (scale_multiplier_returns _ _ _ _ S) as (k & -> & E2 & E3).
    exists k. split; [reflexivity|].
    split; [intros ->; exact N|].
    split; [exact E2|]. split; [exact E3|].
    split; reflexivity.
Qed.

(** A constraint of the velocity stage whose counters are not zero: the
    multiplier goes to the scaling loop as it is computed, with no test
    before it, and is applied as the loop returns it. *)
Lemma velocity_bond_active (fuel : nat) (coord : list D) (is13 : bool)
    (bond : (nat * nat) * D) (v : SimpleMD.Vel D) :
  SimpleMD.velocity_active is13 bond v = true ->
  let mu0 := SimpleMD.velocity_multiplier cfg coord bond v in
  (SimpleMD.velocity_bond cfg fuel coord is13 bond v = NoFuel
   <-> SimpleMD.scale_multiplier fuel (SimpleMD.m_rattle_max cfg)
         (lit (1 # 10)) mu0 = NoFuel)
  /\ SimpleMD.velocity_bond cfg fuel coord is13 bond v <> Exited
  /\ forall v' : SimpleMD.Vel D,
       SimpleMD.velocity_bond cfg fuel coord is13 bond v = Ok v' ->
       exists k : nat,
         let mu := SimpleMD.scaled k (lit (1 # 10)) mu0 in
         (dabs mu >? SimpleMD.m_rattle_max cfg) = false
         /\ (forall j : nat, (j < k)%nat ->
               (dabs (SimpleMD.scaled j (lit (1 # 10)) mu0)
                >? SimpleMD.m_rattle_max cfg) = true)
         /\ SimpleMD.v_velocities v' = SimpleMD.velocity_kicked cfg coord bond v mu
         /\ SimpleMD.v_virial v'
            = SimpleMD.v_virial v
              + mu * SimpleMD.sqdist coord (fst (fst bond)) (snd (fst bond)).
Proof.
  intros A. cbv zeta. unfold SimpleMD.velocity_bond.
  unfold SimpleMD.velocity_active in A. cbv zeta in A. rewrite A.
  unfold SimpleMD.velocity_multiplier, SimpleMD.velocity_kicked. cbv zeta.
  match goal with
  | |- context [SimpleMD.scale_multiplier fuel _ _ ?l] => set (mu0 := l)
  end.
  destruct (SimpleMD.scale_multiplier fuel (SimpleMD.m_rattle_max cfg)
              (lit (1 # 10)) mu0) as [l| |] eqn:S; cbn [rbind].
  - split; [split; discriminate|]. split; [discriminate|].
    intros v' E. injection E as <-.
    destruct (scale_multiplier_returns _ _ _ _ S) as (k & -> & E2 & E3).
    exists k. split; [exact E2|]. split; [exact E3|]. split; reflexivity.
  - exfalso. revert S. unfold SimpleMD.scale_multiplier.
    destruct (while_loop fuel _ _ mu0 O) as [[l n]| |] eqn:W;
      cbn [rbind]; try discriminate.
    intros _. revert W. generalize O. generalize mu0.
    induction fuel as [|f IH]; intros l n; cbn [while_loop]; [discriminate|].
    destruct (dabs l >? SimpleMD.m_rattle_max cfg); [apply IH|discriminate].
  - split; [split; reflexivity|]. split; [discriminate|]. discriminate.
Qed.

(** *** More fuel changes no result *)

Lemma fuel_mono_while (S : Type) (cond : S -> bool)
    (body : nat -> S -> res (S * bool)) :
  (forall s, fuel_mono (fun f => body f s)) ->
  forall (k k' f f' : nat) (s : S) (n : nat) (r : res (S * nat)),
    while_loop k cond (body f) s n = r -> r <> NoFuel ->
    (k <= k')%nat -> (f <= f')%nat ->
    while_loop k' cond (body f') s n = r.
Proof.
  intros Hb. induction k as [|k IH]; intros k' f f' s n r; cbn [while_loop].
  - intros <- N. contradiction N. reflexivity.
  - intros E N Hk Hf. destruct k' as [|k']; [lia|]. cbn [while_loop].
    destruct (cond s); [|exact E].
    destruct (body f s) as [[s1 brk]| |] eqn:B.
    + rewrite (Hb s f f' _ B) by (discriminate || exact Hf).
      destruct brk; [exact E|]. apply (IH k' f f' _ _ _ E N); lia.
    + rewrite (Hb s f f' _ B) by (discriminate || exact Hf). exact E.
    + contradiction N. symmetry. exact E.
Qed.

Lemma fuel_mono_for_each (X S : Type) (body : nat -> X -> S -> res S) :
  (forall x s, fuel_mono (fun f => body f x s)) ->
  forall (l : list X) (s : S), fuel_mono (fun f => for_each l (body f) s).
Proof.
  intros Hb. induction l as [|x l IH]; intros s f f' r; cbn [for_each].
  - intros E _ _. exact E.
  - intros E N Hf. destruct (body f x s) as [s1| |] eqn:B; cbn [rbind] in E.
    + rewrite (Hb x s f f' _ B) by (discriminate || exact Hf). cbn [rbind].
      apply (IH s1 f f' r E N Hf).
    + rewrite (Hb x s f f' _ B) by (discriminate || exact Hf). exact E.
    + contradiction N. symmetry. exact E.
Qed.

Lemma fuel_mono_scale (max scale lambda : D) :
  fuel_mono (fun f => SimpleMD.scale_multiplier f max scale lambda).
Proof.
  intros f f' r. unfold SimpleMD.scale_multiplier.
  destruct (while_loop f _ _ lambda O) as [[l n]| |] eqn:W; cbn [rbind].
  - intros <- _ Hf.
    rewrite (@fuel_mono_while D (fun l => dabs l >? max)
               (fun _ l => Ok (l * scale, false))
               (fun s f0 f0' r0 E _ _ => E) f f' O O lambda O _ W)
      by (discriminate || lia).
    reflexivity.
  - intros <- _ Hf.
    rewrite (@fuel_mono_while D (fun l => dabs l >? max)
               (fun _ l => Ok (l * scale, false))
               (fun s f0 f0' r0 E _ _ => E) f f' O O lambda O _ W)
      by (discriminate || lia).
    reflexivity.
  - intros <- N. contradiction N. reflexivity.
Qed.

Lemma fuel_mono_position_bond (geom : list D) (is13 : bool)
    (bond : (nat * nat) * D) (p : SimpleMD.Pos D) :
  fuel_mono (fun f => SimpleMD.position_bond cfg f geom is13 bond p).
Proof.
  intros f f' r. unfold SimpleMD.position_bond. cbv zeta.
  destruct (dabs _ >? _); [|intros E _ _; exact E].
  destruct (disinf _); [intros E _ _; exact E|].
  destruct (negb is13 && disnan _); [intros E _ _; exact E|].
  match goal with
  | |- context [SimpleMD.scale_multiplier f ?m ?s ?l] =>
      destruct (SimpleMD.scale_multiplier f m s l) as [l1| |] eqn:S;
      pose proof (@fuel_mono_scale m s l f f' _ S) as M; cbv beta in M
  end; cbn [rbind].
  - intros E _ Hf. rewrite M by (discriminate || exact Hf). exact E.
  - intros E _ Hf. rewrite M by (discriminate || exact Hf). exact E.
  - intros <- N. contradiction N. reflexivity.
Qed.

Lemma fuel_mono_position_iteration (geom : list D) (p : SimpleMD.Pos D) :
  fuel_mono (fun f => SimpleMD.position_iteration cfg f geom p).
Proof.
  intros f f' r. unfold SimpleMD.position_iteration.
  match goal with
  | |- context [for_each (SimpleMD.m_bond_constrained cfg) _ ?p0] =>
      set (p1 := p0)
  end.
  destruct (for_each (SimpleMD.m_bond_constrained cfg)
              (SimpleMD.position_bond cfg f geom false) p1) as [p2| |] eqn:E1;
    pose proof (@fuel_mono_for_each _ _
                  (fun f => SimpleMD.position_bond cfg f geom false)
                  (fun b q => fuel_mono_position_bond geom false b q)
                  (SimpleMD.m_bond_constrained cfg) p1 f f' _ E1) as M1;
    cbv beta in M1; cbn [rbind].
  - intros E N Hf. rewrite M1 by (discriminate || exact Hf). cbn [rbind].
    destruct (for_each (SimpleMD.m_bond_13_constrained cfg)
                (SimpleMD.position_bond cfg f geom true) p2) as [p3| |] eqn:E2;
      pose proof (@fuel_mono_for_each _ _
                    (fun f => SimpleMD.position_bond cfg f geom true)
                    (fun b q => fuel_mono_position_bond geom true b q)
                    (SimpleMD.m_bond_13_constrained cfg) p2 f f' _ E2) as M2;
      cbv beta in M2; cbn [rbind] in E |- *.
    + rewrite M2 by (discriminate || exact Hf). exact E.
    + rewrite M2 by (discriminate || exact Hf). exact E.
    + contradiction N. symmetry. exact E.
  - intros E N Hf. rewrite M1 by (discriminate || exact Hf). exact E.
  - intros <- N. contradiction N. reflexivity.
Qed.

Lemma fuel_mono_position_stage (geom : list D) (p : SimpleMD.Pos D) :
  fuel_mono (fun f => SimpleMD.position_stage cfg f geom p).
Proof.
  intros f f' r E N Hf. unfold SimpleMD.position_stage in *.
  exact (@fuel_mono_while _ _
           (fun f => SimpleMD.position_iteration cfg f geom)
           (fun q => fuel_mono_position_iteration geom q)
           f f' f f' p O r E N Hf Hf).
Qed.

(** The velocity stage does not return when, before its first pass, the
    first 1-2 constraint is active and the scaling loop does not end on its
    multiplier. *)
Lemma velocity_stage_hangs (coord : list D) (v : SimpleMD.Vel D)
    (bond : (nat * nat) * D) (rest : list ((nat * nat) * D)) :
  SimpleMD.m_bond_constrained cfg = bond :: rest ->
  (SimpleMD.v_iter v <? of_int (SimpleMD.m_rattle_maxiter cfg)) = true ->
  SimpleMD.velocity_active false bond v = true ->
  (forall fuel : nat,
      SimpleMD.scale_multiplier fuel (SimpleMD.m_rattle_max cfg) (lit (1 # 10))
        (SimpleMD.velocity_multiplier cfg coord bond v) = NoFuel) ->
  forall fuel : nat, SimpleMD.velocity_stage cfg fuel coord v = NoFuel.
Proof.
  intros Hb Hc Ha Hs fuel. unfold SimpleMD.velocity_stage.
  destruct fuel as [|fuel]; [reflexivity|]. cbn [while_loop]. rewrite Hc.
  unfold SimpleMD.velocity_iteration. rewrite Hb. cbn [for_each].
  match goal with
  | |- context [SimpleMD.velocity_bond cfg ?f coord false bond ?v0] =>
      assert (B : SimpleMD.velocity_bond cfg f coord false bond v0 = NoFuel)
  end.
  { apply velocity_bond_active; [exact Ha|]. apply Hs. }
  rewrite B. reflexivity.
Qed.

End GuardFacts.

(** In binary64 the scaling loop does not end on an infinite multiplier:
    infinity times 0.1 is infinity. *)
Lemma scale_infinite_never_ends (fuel : nat) (max l : float) :
  PrimFloat.ltb max infinity = true ->
  l = infinity \/ l = neg_infinity ->
  SimpleMD.scale_multiplier fuel max (lit (1 # 10)) l = NoFuel.
Proof.
  intros Hmax Hl. unfold SimpleMD.scale_multiplier.
  assert (W : forall n : nat,
             while_loop fuel (fun l0 : float => (dabs l0 >? max)%D)
               (fun l0 : float => Ok ((l0 * lit (1 # 10))%D, false)) l n
             = NoFuel).
  { revert l Hl. induction fuel as [|f IH]; intros l Hl n; cbn [while_loop];
      [reflexivity|].
    assert (C : (dabs l >? max)%D = true)
      by (destruct Hl as [-> | ->]; exact Hmax).
    rewrite C. apply IH. destruct Hl as [-> | ->]; [left|right]; reflexivity. }
  rewrite W. reflexivity.
Qed.

(** C5 (the code departs from the claim).  A constraint of the position
    stage that is off by more than the tolerance gets the multiplier
    residual / ((inv_i + inv_j) * scalar product), with the scalar product
    replaced by [-m_rattle_min] or [m_rattle_min] when its magnitude is below
    [m_rattle_min]; an infinite multiplier, and for a 1-2 pair a NaN, ends
    the program; otherwise the multiplier is multiplied by 0.1 as long as its
    magnitude exceeds [m_rattle_max] and then applied.  A constraint of the
    velocity stage gets the multiplier -(d . dv) / ((inv_i + inv_j) * d^2):
    nothing is clamped and nothing is tested before the same scaling loop.
    Over the rationals with [m_rattle_max] positive both stages end after at
    most [m_rattle_maxiter] passes and the scaling loop ends.  In binary64,
    for two atoms 2 apart that are constrained to the squared distance 1,
    when the backend answers the new positions with a gradient at the limit
    of [double]: the position stage returns after 5 passes, the first
    multiplier of the velocity stage is minus infinity, the scaling loop does
    not end on it, and [Rattle] returns for no amount of fuel. *)
Theorem velocity_stage_scales_an_infinite_multiplier_forever :
  (forall (D : Type) (A : Arith D) (cfg : SimpleMD.Config D) (fuel : nat)
          (geom : list D) (is13 : bool) (bond : (nat * nat) * D)
          (p : SimpleMD.Pos D),
      SimpleMD.position_violated cfg is13 bond p = true ->
      let inv := SimpleMD.m_eigen_inv_masses cfg in
      let lambda0 :=
        ddiv (SimpleMD.position_residual bond p)
          (dmul (dmul (lit 1) (dadd (rd inv (fst (fst bond)))
                                    (rd inv (snd (fst bond)))))
             (SimpleMD.clamp_scalarproduct cfg
                (SimpleMD.position_scalarproduct geom bond p))) in
      (disinf lambda0 || (negb is13 && disnan lambda0) = true
       -> SimpleMD.position_bond cfg fuel geom is13 bond p = Exited)
      /\ forall p' : SimpleMD.Pos D,
           SimpleMD.position_bond cfg fuel geom is13 bond p = Ok p' ->
           exists k : nat,
             let lambda := SimpleMD.scaled k (lit (1 # 10)) lambda0 in
             disinf lambda0 = false
             /\ (is13 = false -> disnan lambda0 = false)
             /\ dltb (SimpleMD.m_rattle_max cfg) (dabs lambda) = false
             /\ (forall j : nat, (j < k)%nat ->
                   dltb (SimpleMD.m_rattle_max cfg)
                     (dabs (SimpleMD.scaled j (lit (1 # 10)) lambda0)) = true)
             /\ SimpleMD.p_rt_geom_1 p'
                = fst (SimpleMD.position_moved cfg geom bond p lambda)
             /\ SimpleMD.p_rt_velo p'
                = snd (SimpleMD.position_moved cfg geom bond p lambda))
  /\ (forall (D : Type) (A : Arith D) (cfg : SimpleMD.Config D) (fuel : nat)
             (coord : list D) (is13 : bool) (bond : (nat * nat) * D)
             (v : SimpleMD.Vel D),
         SimpleMD.velocity_active is13 bond v = true ->
         let mu0 := SimpleMD.velocity_multiplier cfg coord bond v in
         (SimpleMD.velocity_bond cfg fuel coord is13 bond v = NoFuel
          <-> SimpleMD.scale_multiplier fuel (SimpleMD.m_rattle_max cfg)
                (lit (1 # 10)) mu0 = NoFuel)
         /\ SimpleMD.velocity_bond cfg fuel coord is13 bond v <> Exited
         /\ forall v' : SimpleMD.Vel D,
              SimpleMD.velocity_bond cfg fuel coord is13 bond v = Ok v' ->
              exists k : nat,
                let mu := SimpleMD.scaled k (lit (1 # 10)) mu0 in
                dltb (SimpleMD.m_rattle_max cfg) (dabs mu) = false
                /\ (forall j : nat, (j < k)%nat ->
                      dltb (SimpleMD.m_rattle_max cfg)
                        (dabs (SimpleMD.scaled j (lit (1 # 10)) mu0)) = true)
                /\ SimpleMD.v_velocities v'
                   = SimpleMD.velocity_kicked cfg coord bond v mu
                /\ SimpleMD.v_virial v'
                   = dadd (SimpleMD.v_virial v)
                       (dmul mu (SimpleMD.sqdist coord (fst (fst bond))
                                   (snd (fst bond)))))
  /\ (forall cfg : SimpleMD.Config Q,
         0 < SimpleMD.m_rattle_max cfg ->
         (forall (geom : list Q) (p : SimpleMD.Pos Q),
             SimpleMD.p_iter p == 0 ->
             exists r,
               settles (fun fuel => SimpleMD.position_stage cfg fuel geom p) r
               /\ forall p' n, r = Ok (p', n) ->
                    (Z.of_nat n <= Z.max 0 (SimpleMD.m_rattle_maxiter cfg))%Z)
         /\ (forall (coord : list Q) (v : SimpleMD.Vel Q),
                SimpleMD.v_iter v == 0 ->
                exists r,
                  settles (fun fuel => SimpleMD.velocity_stage cfg fuel coord v) r
                  /\ forall v' n, r = Ok (v', n) ->
                       (Z.of_nat n <= Z.max 0 (SimpleMD.m_rattle_maxiter cfg))%Z)
         /\ (forall lambda : Q,
                exists k : nat,
                  settles (fun fuel =>
                             SimpleMD.scale_multiplier fuel
                               (SimpleMD.m_rattle_max cfg) (1 # 10) lambda)
                    (Ok (SimpleMD.scaled k (1 # 10) lambda))
                  /\ Qabs (SimpleMD.scaled k (1 # 10) lambda)
                     <= SimpleMD.m_rattle_max cfg
                  /\ forall j, (j < k)%nat ->
                       SimpleMD.m_rattle_max cfg
                       < Qabs (SimpleMD.scaled j (1 # 10) lambda))
         /\ (forall scalarproduct : Q,
                (Qabs scalarproduct < SimpleMD.m_rattle_min cfg ->
                 scalarproduct < 0 ->
                 SimpleMD.clamp_scalarproduct cfg scalarproduct
                 == - SimpleMD.m_rattle_min cfg)
                /\ (Qabs scalarproduct < SimpleMD.m_rattle_min cfg ->
                    0 <= scalarproduct ->
                    SimpleMD.clamp_scalarproduct cfg scalarproduct
                    = SimpleMD.m_rattle_min cfg)
                /\ (SimpleMD.m_rattle_min cfg <= Qabs scalarproduct ->
                    SimpleMD.clamp_scalarproduct cfg scalarproduct = scalarproduct)
                /\ SimpleMD.m_rattle_min cfg
                   <= Qabs (SimpleMD.clamp_scalarproduct cfg scalarproduct)))
  /\ (exists p : SimpleMD.Pos float,
         let cfg := Inputs.rattle_config (D := float) in
         let s := Inputs.stretched_state (D := float) in
         let bond := ((0%nat, 1%nat), lit 1) in
         let v := SimpleMD.velocity_start p
                    (Inputs.pair_Rattle_middle Inputs.exploding_gradient p s) in
         SimpleMD.m_bond_constrained cfg = [bond]
         /\ SimpleMD.position_stage cfg 100 (SimpleMD.m_eigen_geometry s)
              (SimpleMD.rattle_prologue cfg s) = Ok (p, 5%nat)
         /\ SimpleMD.velocity_active false bond v = true
         /\ SimpleMD.velocity_multiplier cfg (SimpleMD.p_coord p) bond v
            = neg_infinity
         /\ (forall fuel : nat,
                SimpleMD.scale_multiplier fuel (SimpleMD.m_rattle_max cfg)
                  (lit (1 # 10)) neg_infinity = NoFuel)
         /\ (forall fuel : nat,
                SimpleMD.velocity_stage cfg fuel (SimpleMD.p_coord p) v = NoFuel)
         /\ (forall fuel : nat,
                Inputs.pair_Rattle Inputs.exploding_gradient fuel s = NoFuel)).
Proof.
  split; [|split; [|split]].
  - intros D A cfg fuel geom is13 bond p V.
    exact (@position_bond_violated D A cfg fuel geom is13 bond p V).
  - intros D A cfg fuel coord is13 bond v V.
    exact (@velocity_bond_active D A cfg fuel coord is13 bond v V).
  - intros cfg Hmax. exact (@rattle_loops_settle cfg Hmax).
  - let r := eval vm_compute in
        (SimpleMD.position_stage (D := float) Inputs.rattle_config 100
           (SimpleMD.m_eigen_geometry Inputs.stretched_state)
           (SimpleMD.rattle_prologue Inputs.rattle_config Inputs.stretched_state))
    in match r with
       | Ok (?p, _) => exists p; set (p0 := p)
       end.
    cbv zeta.
    assert (P : SimpleMD.position_stage (D := float) Inputs.rattle_config 100
                  (SimpleMD.m_eigen_geometry Inputs.stretched_state)
                  (SimpleMD.rattle_prologue Inputs.rattle_config
                     Inputs.stretched_state)
                = Ok (p0, 5%nat)) by (vm_compute; reflexivity).
    assert (Act : SimpleMD.velocity_active false ((0%nat, 1%nat), lit 1)
                    (SimpleMD.velocity_start p0
                       (Inputs.pair_Rattle_middle Inputs.exploding_gradient p0
                          Inputs.stretched_state)) = true)
      by (vm_compute; reflexivity).
    assert (Mu : SimpleMD.velocity_multiplier (Inputs.rattle_config (D := float))
                   (SimpleMD.p_coord p0) ((0%nat, 1%nat), lit 1)
                   (SimpleMD.velocity_start p0
                      (Inputs.pair_Rattle_middle Inputs.exploding_gradient p0
                         Inputs.stretched_state)) = neg_infinity)
      by (vm_compute; reflexivity).
    assert (Sc : forall fuel : nat,
               SimpleMD.scale_multiplier fuel
                 (SimpleMD.m_rattle_max (Inputs.rattle_config (D := float)))
                 (lit (1 # 10)) neg_infinity = NoFuel).
    { intros fuel. apply scale_infinite_never_ends;
        [vm_compute; reflexivity|right; reflexivity]. }
    assert (V : forall fuel : nat,
               SimpleMD.velocity_stage (Inputs.rattle_config (D := float)) fuel
                 (SimpleMD.p_coord p0)
                 (SimpleMD.velocity_start p0
                    (Inputs.pair_Rattle_middle Inputs.exploding_gradient p0
                       Inputs.stretched_state)) = NoFuel).
    { apply (@velocity_stage_hangs float _ Inputs.rattle_config
               (SimpleMD.p_coord p0) _ ((0%nat, 1%nat), lit 1) []).
      - reflexivity.
      - vm_compute. reflexivity.
      - exact Act.
      - intros fuel. rewrite Mu. apply Sc. }
    split; [reflexivity|]. split; [exact P|]. split; [exact Act|].
    split; [exact Mu|]. split; [exact Sc|]. split; [exact V|].
    intros fuel. unfold Inputs.pair_Rattle, SimpleMD.Rattle.
    destruct (SimpleMD.position_stage Inputs.rattle_config fuel
                (SimpleMD.m_eigen_geometry Inputs.stretched_state)
                (SimpleMD.rattle_prologue Inputs.rattle_config
                   Inputs.stretched_state)) as [[p n]| |] eqn:E.
    + pose proof (@fuel_mono_position_stage float _ Inputs.rattle_config
                    _ _ fuel (Nat.max fuel 100) _ E
                    (fun N => eq_ind (Ok (p, n))
                                (fun r => match r with NoFuel => False | _ => True end)
                                I NoFuel N)
                    (Nat.le_max_l _ _)) as E1.
      pose proof (@fuel_mono_position_stage float _ Inputs.rattle_config
                    _ _ 100%nat (Nat.max fuel 100) _ P
                    (fun N => eq_ind (Ok (p0, 5%nat))
                                (fun r => match r with NoFuel => False | _ => True end)
                                I NoFuel N)
                    (Nat.le_max_r _ _)) as E2.
      cbv beta in E1, E2.
      pose proof (eq_trans (eq_sym E1) E2) as E'.
      injection E' as -> ->. cbn [rbind fst].
      pose proof (V fuel) as Vf.
      unfold SimpleMD.velocity_start, Inputs.pair_Rattle_middle in Vf.
      rewrite Vf. reflexivity.
    + exfalso.
      pose proof (@fuel_mono_position_stage float _ Inputs.rattle_config
                    _ _ fuel (Nat.max fuel 100) _ E
                    (fun N => eq_ind Exited
                                (fun r => match r with NoFuel => False | _ => True end)
                                I NoFuel N)
                    (Nat.le_max_l _ _)) as E1.
      pose proof (@fuel_mono_position_stage float _ Inputs.rattle_config
                    _ _ 100%nat (Nat.max fuel 100) _ P
                    (fun N => eq_ind (Ok (p0, 5%nat))
                                (fun r => match r with NoFuel => False | _ => True end)
                                I NoFuel N)
                    (Nat.le_max_r _ _)) as E2.
      cbv beta in E1, E2.
      pose proof (eq_trans (eq_sym E1) E2) as E'.
      discriminate E'.
    + reflexivity.
Qed.

(** ** Which pairs of a reorder pass are aligned *)

Section SelectionFacts.
Context {D : Type} `{Arith D}.
Variable G : Type.
Variable third : D.
Variable cfg : ConfScan.Settings D.
Variable rank_reached : Z -> nat -> bool.
Variable CheckStop : ConfScan.Ptr -> nat -> bool.

Local Abbreviation Thread := (ConfScan.Thread D G).
Local Abbreviation Scan := (ConfScan.Scan D G).
Local Abbreviation enabled := (@ConfScan.t_enabled D G).








End SelectionFacts.


